(** * CliChat session manager: a shallow embedding of [lib/session-manager.js]

    The development follows the JavaScript source function by function.
    JavaScript values are represented as follows.

    - A string is the list of its UTF-16 code units ([jsstring]); [length],
      [slice] and character iteration therefore count what the source counts.
    - [Date.now()] is an explicit argument [now : Z] of every operation; the
      calls made inside one synchronous operation read the same millisecond.
    - A [Map] whose iteration order is observable is an insertion-ordered
      association list ([JsMap]); a [Map] used only through [get]/[set]/[has]
      is a [gmap].
    - Session objects are shared between the [sessions] map and the closures
      of their pseudo-terminal and timers, so they live in an object store
      [objs] indexed by address, and the map holds addresses.
    - The file system is the part the manager uses: one history file per
      user, the runtime snapshot, and the transcript files.  User names and
      agent ids come from the configuration and are plain file names (no
      path separators, not [.] or [..], and no user is called
      [.runtime-active]), so distinct users have distinct history files.  A
      session id given to [getSessionTranscript] or [deleteSessionHistory]
      comes from a request and is any string: the transcript store is keyed
      by the path that [path.join] computes from the user name and the id on
      a POSIX system, relative to the sessions directory ([transcriptPath]).
      A path that leaves the sessions directory is kept in the same store
      under the levels it climbs; that it can then name a file of the
      directory again, a history file or the snapshot is not modelled, and
      what an operation does to other files is stated for paths inside the
      directory only.  A parsed JSON object has the properties and value
      types the manager itself writes, each possibly absent; file
      operations succeed.
    - Everything the manager does to the outside world (pseudo-terminal
      writes and kills, file writes, callback invocations) is appended to
      [trace].  Writing to and resizing a pseudo-terminal do not throw, and
      callbacks do not call back into the manager. *)

From stdpp Require Import base option list gmap numbers strings pretty.

Open Scope Z_scope.

(** ** Strings *)

Abbreviation jsstring := (list N).

(** A file path relative to a directory: the number of levels it climbs
    above the directory, then the segments it descends. *)
Abbreviation Path := (nat * list jsstring)%type.

Definition lit (s : string) : jsstring :=
  map Ascii.N_of_ascii (String.list_ascii_of_string s).

(** Template-literal rendering of an integer ([`${Date.now()}`]). *)
Definition numToString (z : Z) : jsstring := lit (pretty z).

Definition CR : N := 13%N.
Definition LF : N := 10%N.

(** [x || d] on a possibly absent string: the empty string is falsy. *)
Definition orStr (o : option jsstring) (d : jsstring) : jsstring :=
  match o with
  | Some (c :: r) => c :: r
  | _ => d
  end.

Definition truthyStr (o : option jsstring) : bool :=
  match o with
  | Some (_ :: _) => true
  | _ => false
  end.

(** [x || d] on a possibly absent number: zero is falsy. *)
Definition orNum (o : option Z) (d : Z) : Z :=
  match o with
  | Some z => if decide (z = 0) then d else z
  | None => d
  end.

(** The characters matched by [\s], which are also those removed by
    [String.prototype.trim]. *)
Definition isWhitespace (c : N) : bool :=
  bool_decide (c ∈ [9; 10; 11; 12; 13; 32; 160; 5760; 8232; 8233; 8239; 8287;
                     12288; 65279]%N)
  || (bool_decide (8192 ≤ c)%N && bool_decide (c ≤ 8202)%N).

Fixpoint trimStart (s : jsstring) : jsstring :=
  match s with
  | c :: r => if isWhitespace c then trimStart r else s
  | [] => []
  end.

Definition trim (s : jsstring) : jsstring :=
  reverse (trimStart (reverse (trimStart s))).

(** [s.replace(/\s+/g, ' ')]: every maximal run of whitespace becomes one
    space.  [inRun] records that the previous code unit was whitespace. *)
Fixpoint collapseWhitespaceFrom (inRun : bool) (s : jsstring) : jsstring :=
  match s with
  | [] => []
  | c :: r =>
      if isWhitespace c
      then (if inRun then collapseWhitespaceFrom true r
            else 32%N :: collapseWhitespaceFrom true r)
      else c :: collapseWhitespaceFrom false r
  end.

Definition collapseWhitespace (s : jsstring) : jsstring :=
  collapseWhitespaceFrom false s.

(** [s.split(sep)] for a one-character separator. *)
Fixpoint splitOn (sep : N) (s : jsstring) : list jsstring :=
  match s with
  | [] => [[]]
  | c :: r =>
      if decide (c = sep) then [] :: splitOn sep r
      else match splitOn sep r with
           | l :: ls => (c :: l) :: ls
           | [] => [[c]]
           end
  end.

(** [ls.join(sep)] *)
Definition joinWith (sep : jsstring) (ls : list jsstring) : jsstring :=
  match ls with
  | [] => []
  | l :: r => l ++ concat (map (λ x, sep ++ x) r)
  end.

(** [s.replace(/\r/g, '\n')] *)
Definition replaceCR (s : jsstring) : jsstring :=
  map (λ c, if decide (c = CR) then LF else c) s.

(** [s.replace(/\n{3,}/g, '\n\n')]; [run] counts the line feeds just seen. *)
Fixpoint collapseNewlinesFrom (run : nat) (s : jsstring) : jsstring :=
  match s with
  | [] => []
  | c :: r =>
      if decide (c = LF)
      then (if decide (2 ≤ run)%nat then collapseNewlinesFrom (S run) r
            else LF :: collapseNewlinesFrom (S run) r)
      else c :: collapseNewlinesFrom 0 r
  end.

Definition collapseNewlines (s : jsstring) : jsstring :=
  collapseNewlinesFrom 0 s.

(** [s.replace(/\r(?!\n)/g, '\n')] *)
Fixpoint loneCRtoLF (s : jsstring) : jsstring :=
  match s with
  | [] => []
  | c :: r =>
      (if decide (c = CR)
       then match r with
            | d :: _ => if decide (d = LF) then CR else LF
            | [] => LF
            end
       else c) :: loneCRtoLF r
  end.

(** The class [\x09\x0A\x20-\x7E\u00A0-\uFFFF] kept by the terminal
    replay sanitizer. *)
Definition isReplayPrintable (c : N) : bool :=
  bool_decide (c = 9)%N || bool_decide (c = 10)%N
  || (bool_decide (32 ≤ c)%N && bool_decide (c ≤ 126)%N)
  || (bool_decide (160 ≤ c)%N && bool_decide (c ≤ 65535)%N).

Definition isDigit (c : N) : bool :=
  bool_decide (48 ≤ c)%N && bool_decide (c ≤ 57)%N.

(** [/^(?:\x1b\[(?:\?|>)[0-9;]*c)+$/], a terminal device-attributes reply.
    No character of one alternative can start another, so the expression is
    recognised by a deterministic automaton. *)
Inductive DaState := DaStart (seen : bool) | DaBracket | DaKind | DaParams.

Fixpoint matchDeviceAttrs (q : DaState) (s : jsstring) : bool :=
  match s with
  | [] => match q with DaStart seen => seen | _ => false end
  | c :: r =>
      match q with
      | DaStart _ => bool_decide (c = 27)%N && matchDeviceAttrs DaBracket r
      | DaBracket => bool_decide (c = 91)%N && matchDeviceAttrs DaKind r
      | DaKind =>
          (bool_decide (c = 63)%N || bool_decide (c = 62)%N)
          && matchDeviceAttrs DaParams r
      | DaParams =>
          if isDigit c || bool_decide (c = 59)%N then matchDeviceAttrs DaParams r
          else bool_decide (c = 99)%N && matchDeviceAttrs (DaStart true) r
      end
  end.

(** [/^(?:[0-9]+(?:;[0-9]+)*c)+$/], the same reply with its prefix eaten. *)
Inductive DaTailState := DtGroup (seen : bool) | DtDigits | DtAfterSemi.

Fixpoint matchDeviceAttrsTail (q : DaTailState) (s : jsstring) : bool :=
  match s with
  | [] => match q with DtGroup seen => seen | _ => false end
  | c :: r =>
      match q with
      | DtGroup _ => isDigit c && matchDeviceAttrsTail DtDigits r
      | DtAfterSemi => isDigit c && matchDeviceAttrsTail DtDigits r
      | DtDigits =>
          if isDigit c then matchDeviceAttrsTail DtDigits r
          else if decide (c = 59)%N then matchDeviceAttrsTail DtAfterSemi r
          else bool_decide (c = 99)%N && matchDeviceAttrsTail (DtGroup true) r
      end
  end.

(** [Array.from(text)]: the code points of a string, a surrogate pair being
    one element. *)
Definition isHighSurrogate (c : N) : bool :=
  bool_decide (55296 ≤ c)%N && bool_decide (c ≤ 56319)%N.
Definition isLowSurrogate (c : N) : bool :=
  bool_decide (56320 ≤ c)%N && bool_decide (c ≤ 57343)%N.

Fixpoint codePoints (s : jsstring) : list jsstring :=
  match s with
  | [] => []
  | c :: r =>
      match r with
      | d :: r' =>
          if isHighSurrogate c && isLowSurrogate d
          then [c; d] :: codePoints r'
          else [c] :: codePoints r
      | [] => [[c]]
      end
  end.

(** ** Insertion-ordered maps ([Map]) *)

Module JsMap.
Section ops.
Context {K V : Type} `{EqDecision K}.

Fixpoint get (k : K) (m : list (K * V)) : option V :=
  match m with
  | [] => None
  | (k', v) :: r => if decide (k = k') then Some v else get k r
  end.

Definition has (k : K) (m : list (K * V)) : bool :=
  match get k m with Some _ => true | None => false end.

(** [set] on a present key replaces the value where it stands; on a new key
    it appends. *)
Fixpoint set (k : K) (v : V) (m : list (K * V)) : list (K * V) :=
  match m with
  | [] => [(k, v)]
  | (k', v') :: r =>
      if decide (k = k') then (k, v) :: r else (k', v') :: set k v r
  end.

Definition delete (k : K) (m : list (K * V)) : list (K * V) :=
  filter (λ p, p.1 ≠ k) m.

Definition keys (m : list (K * V)) : list K := m.*1.
Definition values (m : list (K * V)) : list V := m.*2.
End ops.
End JsMap.

(** ** Data model *)

Inductive Mode := Chat | Terminal.
Inductive Role := User | Assistant.

#[global] Instance Mode_eq_dec : EqDecision Mode.
Proof. solve_decision. Defined.
#[global] Instance Role_eq_dec : EqDecision Role.
Proof. solve_decision. Defined.

Definition modeString (m : Mode) : jsstring :=
  match m with Chat => lit "chat" | Terminal => lit "terminal" end.

(** [mode === 'terminal' ? 'terminal' : 'chat'] *)
Definition modeOf (m : option jsstring) : Mode :=
  if decide (m = Some (lit "terminal")) then Terminal else Chat.

Record Message := mkMessage { role : Role; content : jsstring; ts : Z }.

Record FileRef := mkFileRef { f_path : jsstring; f_name : jsstring; f_addedAt : Z }.

(** A JavaScript number that holds a duration: an integer number of
    milliseconds, or one of the non-finite values. *)
Inductive JsNumber := Finite (z : Z) | NaN | PosInfinity | NegInfinity.

Record AgentModel := mkAgentModel { m_id : jsstring; m_flag : option jsstring }.

Record Agent := mkAgent {
  a_id : jsstring;
  a_command : jsstring;
  a_args : option (list jsstring);
  a_models : option (list AgentModel);
  a_workingDirectory : option jsstring
}.

(** A history object, as parsed from JSON or as built in memory.  A property
    that is absent or [undefined] is [None]; the values have the types the
    manager itself writes. *)
Record HistoryItem := mkHistoryItem {
  h_sessionId : option jsstring;
  h_username : option jsstring;
  h_agentId : option jsstring;
  h_modelId : option jsstring;
  h_mode : option jsstring;
  h_createdAt : option Z;
  h_lastActivityAt : option Z;
  h_endedAt : option Z;
  h_filesCount : option Z;
  h_title : option jsstring;
  h_hasTranscript : option bool;
  h_endedReason : option jsstring
}.

Definition set_h_createdAt (v : option Z) (x : HistoryItem) : HistoryItem :=
  {| h_sessionId := h_sessionId x; h_username := h_username x; h_agentId := h_agentId x;
     h_modelId := h_modelId x; h_mode := h_mode x; h_createdAt := v;
     h_lastActivityAt := h_lastActivityAt x; h_endedAt := h_endedAt x;
     h_filesCount := h_filesCount x; h_title := h_title x;
     h_hasTranscript := h_hasTranscript x; h_endedReason := h_endedReason x |}.
Definition set_h_endedAt (v : option Z) (x : HistoryItem) : HistoryItem :=
  {| h_sessionId := h_sessionId x; h_username := h_username x; h_agentId := h_agentId x;
     h_modelId := h_modelId x; h_mode := h_mode x; h_createdAt := h_createdAt x;
     h_lastActivityAt := h_lastActivityAt x; h_endedAt := v; h_filesCount := h_filesCount x;
     h_title := h_title x; h_hasTranscript := h_hasTranscript x;
     h_endedReason := h_endedReason x |}.
Definition set_h_title (v : option jsstring) (x : HistoryItem) : HistoryItem :=
  {| h_sessionId := h_sessionId x; h_username := h_username x; h_agentId := h_agentId x;
     h_modelId := h_modelId x; h_mode := h_mode x; h_createdAt := h_createdAt x;
     h_lastActivityAt := h_lastActivityAt x; h_endedAt := h_endedAt x;
     h_filesCount := h_filesCount x; h_title := v; h_hasTranscript := h_hasTranscript x;
     h_endedReason := h_endedReason x |}.
Definition set_h_endedReason (v : option jsstring) (x : HistoryItem) : HistoryItem :=
  {| h_sessionId := h_sessionId x; h_username := h_username x; h_agentId := h_agentId x;
     h_modelId := h_modelId x; h_mode := h_mode x; h_createdAt := h_createdAt x;
     h_lastActivityAt := h_lastActivityAt x; h_endedAt := h_endedAt x;
     h_filesCount := h_filesCount x; h_title := h_title x;
     h_hasTranscript := h_hasTranscript x; h_endedReason := v |}.

#[global] Instance HistoryItem_eq_dec : EqDecision HistoryItem.
Proof. solve_decision. Defined.

(** What a history file holds: text that does not parse, or a JSON value
    that is an array of objects ([Some]) or something else ([None]). *)
Inductive HistoryFile := HCorrupt | HJson (items : option (list HistoryItem)).

(** The runtime snapshot [.runtime-active.json]. *)
Inductive RuntimeFile :=
| RCorrupt
| RJson (updatedAt : option Z) (activeSessions : option (list HistoryItem)).

Record TranscriptData := mkTranscriptData {
  t_sessionId : jsstring;
  t_agentId : jsstring;
  t_modelId : jsstring;
  t_mode : option jsstring;
  t_createdAt : Z;
  t_endedAt : option Z;
  t_title : option jsstring;
  t_messages : list Message
}.

Inductive TranscriptFile := TCorrupt | TJson (data : TranscriptData).

(** Who asked for a history file to be written. *)
Inductive HistoryWriter :=
| BySaveHistory (a : nat)
| BySetSessionTitle
| ByDeleteSessionHistory
| ByRecovery.

#[global] Instance HistoryWriter_eq_dec : EqDecision HistoryWriter.
Proof. solve_decision. Defined.

(** External actions, in the order performed.  [a] is the address of the
    session object owning the pseudo-terminal; [cb] identifies a callback:
    [Notify] is a call of a subscriber during fan-out, [CallOnData] and
    [CallOnExit] are calls of the callbacks given to [createSession]. *)
Inductive Effect :=
| PtySpawn (a : nat) (cwd : option jsstring)
| PtyWrite (a : nat) (data : jsstring)
| PtyKill (a : nat)
| PtyResize (a : nat) (cols rows : Z)
| WriteHistoryFile (by_ : HistoryWriter) (user : jsstring) (items : list HistoryItem)
| WriteTranscriptFile (user sid : jsstring)
| UnlinkTranscriptFile (user sid : jsstring)
| WriteRuntimeFile
| UnlinkRuntimeFile
| Notify (cb : nat) (data : jsstring)
| CallOnData (cb : nat) (data : jsstring)
| CallOnExit (cb : nat) (exitCode signal : Z).

#[global] Instance Effect_eq_dec : EqDecision Effect.
Proof. solve_decision. Defined.

(** A caller-supplied function.  [cb_id] is its identity (what a [Set] of
    functions compares); [cb_throws] tells, from everything that has
    happened up to and including the present call, whether the call throws.
    Callbacks do not call back into the manager. *)
Record Callback := mkCallback {
  cb_id : nat;
  cb_throws : list Effect → bool
}.

(** Pending [setTimeout] bodies. *)
Inductive Timer :=
| TStartCommand (a : nat) (agent : Agent) (model : option jsstring)
| TReadyFallback (a : nat)
| TTypeNext (a : nat) (chars : list jsstring).

Record Session := mkSession {
  sessionId : jsstring;
  agentId : jsstring;
  modelId : jsstring;
  username : jsstring;
  createdAt : Z;
  lastActivityAt : Z;
  outputBuffer : jsstring;
  terminalReplayBuffer : jsstring;
  terminalInputLine : jsstring;
  messages : list Message;
  lastAssistantIndex : Z;
  started : bool;
  mode : Mode;
  hasTranscript : bool;
  title : jsstring;
  _historySaved : bool;
  _startCommandSent : bool;
  _readyFallbackTimer : option nat;
  subscribers : list Callback;
  files : list FileRef;
  pendingInputs : list jsstring;
  userMessageCount : Z;
  onData : option Callback;
  onExit : option Callback
}.

Definition set_lastActivityAt (v : Z) (x : Session) : Session :=
  {| sessionId := sessionId x; agentId := agentId x; modelId := modelId x;
     username := username x; createdAt := createdAt x; lastActivityAt := v;
     outputBuffer := outputBuffer x; terminalReplayBuffer := terminalReplayBuffer x;
     terminalInputLine := terminalInputLine x; messages := messages x;
     lastAssistantIndex := lastAssistantIndex x; started := started x; mode := mode x;
     hasTranscript := hasTranscript x; title := title x; _historySaved := _historySaved x;
     _startCommandSent := _startCommandSent x; _readyFallbackTimer := _readyFallbackTimer x;
     subscribers := subscribers x; files := files x; pendingInputs := pendingInputs x;
     userMessageCount := userMessageCount x; onData := onData x; onExit := onExit x |}.
Definition set_outputBuffer (v : jsstring) (x : Session) : Session :=
  {| sessionId := sessionId x; agentId := agentId x; modelId := modelId x;
     username := username x; createdAt := createdAt x; lastActivityAt := lastActivityAt x;
     outputBuffer := v; terminalReplayBuffer := terminalReplayBuffer x;
     terminalInputLine := terminalInputLine x; messages := messages x;
     lastAssistantIndex := lastAssistantIndex x; started := started x; mode := mode x;
     hasTranscript := hasTranscript x; title := title x; _historySaved := _historySaved x;
     _startCommandSent := _startCommandSent x; _readyFallbackTimer := _readyFallbackTimer x;
     subscribers := subscribers x; files := files x; pendingInputs := pendingInputs x;
     userMessageCount := userMessageCount x; onData := onData x; onExit := onExit x |}.
Definition set_terminalReplayBuffer (v : jsstring) (x : Session) : Session :=
  {| sessionId := sessionId x; agentId := agentId x; modelId := modelId x;
     username := username x; createdAt := createdAt x; lastActivityAt := lastActivityAt x;
     outputBuffer := outputBuffer x; terminalReplayBuffer := v;
     terminalInputLine := terminalInputLine x; messages := messages x;
     lastAssistantIndex := lastAssistantIndex x; started := started x; mode := mode x;
     hasTranscript := hasTranscript x; title := title x; _historySaved := _historySaved x;
     _startCommandSent := _startCommandSent x; _readyFallbackTimer := _readyFallbackTimer x;
     subscribers := subscribers x; files := files x; pendingInputs := pendingInputs x;
     userMessageCount := userMessageCount x; onData := onData x; onExit := onExit x |}.
Definition set_terminalInputLine (v : jsstring) (x : Session) : Session :=
  {| sessionId := sessionId x; agentId := agentId x; modelId := modelId x;
     username := username x; createdAt := createdAt x; lastActivityAt := lastActivityAt x;
     outputBuffer := outputBuffer x; terminalReplayBuffer := terminalReplayBuffer x;
     terminalInputLine := v; messages := messages x;
     lastAssistantIndex := lastAssistantIndex x; started := started x; mode := mode x;
     hasTranscript := hasTranscript x; title := title x; _historySaved := _historySaved x;
     _startCommandSent := _startCommandSent x; _readyFallbackTimer := _readyFallbackTimer x;
     subscribers := subscribers x; files := files x; pendingInputs := pendingInputs x;
     userMessageCount := userMessageCount x; onData := onData x; onExit := onExit x |}.
Definition set_messages (v : list Message) (x : Session) : Session :=
  {| sessionId := sessionId x; agentId := agentId x; modelId := modelId x;
     username := username x; createdAt := createdAt x; lastActivityAt := lastActivityAt x;
     outputBuffer := outputBuffer x; terminalReplayBuffer := terminalReplayBuffer x;
     terminalInputLine := terminalInputLine x; messages := v;
     lastAssistantIndex := lastAssistantIndex x; started := started x; mode := mode x;
     hasTranscript := hasTranscript x; title := title x; _historySaved := _historySaved x;
     _startCommandSent := _startCommandSent x; _readyFallbackTimer := _readyFallbackTimer x;
     subscribers := subscribers x; files := files x; pendingInputs := pendingInputs x;
     userMessageCount := userMessageCount x; onData := onData x; onExit := onExit x |}.
Definition set_lastAssistantIndex (v : Z) (x : Session) : Session :=
  {| sessionId := sessionId x; agentId := agentId x; modelId := modelId x;
     username := username x; createdAt := createdAt x; lastActivityAt := lastActivityAt x;
     outputBuffer := outputBuffer x; terminalReplayBuffer := terminalReplayBuffer x;
     terminalInputLine := terminalInputLine x; messages := messages x; lastAssistantIndex := v;
     started := started x; mode := mode x; hasTranscript := hasTranscript x; title := title x;
     _historySaved := _historySaved x; _startCommandSent := _startCommandSent x;
     _readyFallbackTimer := _readyFallbackTimer x; subscribers := subscribers x;
     files := files x; pendingInputs := pendingInputs x;
     userMessageCount := userMessageCount x; onData := onData x; onExit := onExit x |}.
Definition set_started (v : bool) (x : Session) : Session :=
  {| sessionId := sessionId x; agentId := agentId x; modelId := modelId x;
     username := username x; createdAt := createdAt x; lastActivityAt := lastActivityAt x;
     outputBuffer := outputBuffer x; terminalReplayBuffer := terminalReplayBuffer x;
     terminalInputLine := terminalInputLine x; messages := messages x;
     lastAssistantIndex := lastAssistantIndex x; started := v; mode := mode x;
     hasTranscript := hasTranscript x; title := title x; _historySaved := _historySaved x;
     _startCommandSent := _startCommandSent x; _readyFallbackTimer := _readyFallbackTimer x;
     subscribers := subscribers x; files := files x; pendingInputs := pendingInputs x;
     userMessageCount := userMessageCount x; onData := onData x; onExit := onExit x |}.
Definition set_title (v : jsstring) (x : Session) : Session :=
  {| sessionId := sessionId x; agentId := agentId x; modelId := modelId x;
     username := username x; createdAt := createdAt x; lastActivityAt := lastActivityAt x;
     outputBuffer := outputBuffer x; terminalReplayBuffer := terminalReplayBuffer x;
     terminalInputLine := terminalInputLine x; messages := messages x;
     lastAssistantIndex := lastAssistantIndex x; started := started x; mode := mode x;
     hasTranscript := hasTranscript x; title := v; _historySaved := _historySaved x;
     _startCommandSent := _startCommandSent x; _readyFallbackTimer := _readyFallbackTimer x;
     subscribers := subscribers x; files := files x; pendingInputs := pendingInputs x;
     userMessageCount := userMessageCount x; onData := onData x; onExit := onExit x |}.
Definition set__historySaved (v : bool) (x : Session) : Session :=
  {| sessionId := sessionId x; agentId := agentId x; modelId := modelId x;
     username := username x; createdAt := createdAt x; lastActivityAt := lastActivityAt x;
     outputBuffer := outputBuffer x; terminalReplayBuffer := terminalReplayBuffer x;
     terminalInputLine := terminalInputLine x; messages := messages x;
     lastAssistantIndex := lastAssistantIndex x; started := started x; mode := mode x;
     hasTranscript := hasTranscript x; title := title x; _historySaved := v;
     _startCommandSent := _startCommandSent x; _readyFallbackTimer := _readyFallbackTimer x;
     subscribers := subscribers x; files := files x; pendingInputs := pendingInputs x;
     userMessageCount := userMessageCount x; onData := onData x; onExit := onExit x |}.
Definition set__startCommandSent (v : bool) (x : Session) : Session :=
  {| sessionId := sessionId x; agentId := agentId x; modelId := modelId x;
     username := username x; createdAt := createdAt x; lastActivityAt := lastActivityAt x;
     outputBuffer := outputBuffer x; terminalReplayBuffer := terminalReplayBuffer x;
     terminalInputLine := terminalInputLine x; messages := messages x;
     lastAssistantIndex := lastAssistantIndex x; started := started x; mode := mode x;
     hasTranscript := hasTranscript x; title := title x; _historySaved := _historySaved x;
     _startCommandSent := v; _readyFallbackTimer := _readyFallbackTimer x;
     subscribers := subscribers x; files := files x; pendingInputs := pendingInputs x;
     userMessageCount := userMessageCount x; onData := onData x; onExit := onExit x |}.
Definition set__readyFallbackTimer (v : option nat) (x : Session) : Session :=
  {| sessionId := sessionId x; agentId := agentId x; modelId := modelId x;
     username := username x; createdAt := createdAt x; lastActivityAt := lastActivityAt x;
     outputBuffer := outputBuffer x; terminalReplayBuffer := terminalReplayBuffer x;
     terminalInputLine := terminalInputLine x; messages := messages x;
     lastAssistantIndex := lastAssistantIndex x; started := started x; mode := mode x;
     hasTranscript := hasTranscript x; title := title x; _historySaved := _historySaved x;
     _startCommandSent := _startCommandSent x; _readyFallbackTimer := v;
     subscribers := subscribers x; files := files x; pendingInputs := pendingInputs x;
     userMessageCount := userMessageCount x; onData := onData x; onExit := onExit x |}.
Definition set_subscribers (v : list Callback) (x : Session) : Session :=
  {| sessionId := sessionId x; agentId := agentId x; modelId := modelId x;
     username := username x; createdAt := createdAt x; lastActivityAt := lastActivityAt x;
     outputBuffer := outputBuffer x; terminalReplayBuffer := terminalReplayBuffer x;
     terminalInputLine := terminalInputLine x; messages := messages x;
     lastAssistantIndex := lastAssistantIndex x; started := started x; mode := mode x;
     hasTranscript := hasTranscript x; title := title x; _historySaved := _historySaved x;
     _startCommandSent := _startCommandSent x; _readyFallbackTimer := _readyFallbackTimer x;
     subscribers := v; files := files x; pendingInputs := pendingInputs x;
     userMessageCount := userMessageCount x; onData := onData x; onExit := onExit x |}.
Definition set_files (v : list FileRef) (x : Session) : Session :=
  {| sessionId := sessionId x; agentId := agentId x; modelId := modelId x;
     username := username x; createdAt := createdAt x; lastActivityAt := lastActivityAt x;
     outputBuffer := outputBuffer x; terminalReplayBuffer := terminalReplayBuffer x;
     terminalInputLine := terminalInputLine x; messages := messages x;
     lastAssistantIndex := lastAssistantIndex x; started := started x; mode := mode x;
     hasTranscript := hasTranscript x; title := title x; _historySaved := _historySaved x;
     _startCommandSent := _startCommandSent x; _readyFallbackTimer := _readyFallbackTimer x;
     subscribers := subscribers x; files := v; pendingInputs := pendingInputs x;
     userMessageCount := userMessageCount x; onData := onData x; onExit := onExit x |}.
Definition set_pendingInputs (v : list jsstring) (x : Session) : Session :=
  {| sessionId := sessionId x; agentId := agentId x; modelId := modelId x;
     username := username x; createdAt := createdAt x; lastActivityAt := lastActivityAt x;
     outputBuffer := outputBuffer x; terminalReplayBuffer := terminalReplayBuffer x;
     terminalInputLine := terminalInputLine x; messages := messages x;
     lastAssistantIndex := lastAssistantIndex x; started := started x; mode := mode x;
     hasTranscript := hasTranscript x; title := title x; _historySaved := _historySaved x;
     _startCommandSent := _startCommandSent x; _readyFallbackTimer := _readyFallbackTimer x;
     subscribers := subscribers x; files := files x; pendingInputs := v;
     userMessageCount := userMessageCount x; onData := onData x; onExit := onExit x |}.
Definition set_userMessageCount (v : Z) (x : Session) : Session :=
  {| sessionId := sessionId x; agentId := agentId x; modelId := modelId x;
     username := username x; createdAt := createdAt x; lastActivityAt := lastActivityAt x;
     outputBuffer := outputBuffer x; terminalReplayBuffer := terminalReplayBuffer x;
     terminalInputLine := terminalInputLine x; messages := messages x;
     lastAssistantIndex := lastAssistantIndex x; started := started x; mode := mode x;
     hasTranscript := hasTranscript x; title := title x; _historySaved := _historySaved x;
     _startCommandSent := _startCommandSent x; _readyFallbackTimer := _readyFallbackTimer x;
     subscribers := subscribers x; files := files x; pendingInputs := pendingInputs x;
     userMessageCount := v; onData := onData x; onExit := onExit x |}.

Record Manager := mkManager {
  agents : gmap jsstring Agent;
  sessions : list (jsstring * nat);
  userSessions : gmap jsstring (list HistoryItem);
  activeSessions : gmap jsstring (list jsstring);
  historyCache : gmap jsstring (list HistoryItem);
  inactiveSessionTimeout : JsNumber;
  _idleCheckTimer : bool;
  objs : gmap nat Session;
  timers : gmap nat Timer;
  nextTimerId : nat;
  historyFiles : gmap jsstring HistoryFile;
  runtimeStateFile : option RuntimeFile;
  transcriptFiles : gmap Path TranscriptFile;
  trace : list Effect
}.

Definition set_sessions (v : list (jsstring * nat)) (x : Manager) : Manager :=
  {| agents := agents x; sessions := v; userSessions := userSessions x;
     activeSessions := activeSessions x; historyCache := historyCache x;
     inactiveSessionTimeout := inactiveSessionTimeout x; _idleCheckTimer := _idleCheckTimer x;
     objs := objs x; timers := timers x; nextTimerId := nextTimerId x;
     historyFiles := historyFiles x; runtimeStateFile := runtimeStateFile x;
     transcriptFiles := transcriptFiles x; trace := trace x |}.
Definition set_userSessions (v : gmap jsstring (list HistoryItem)) (x : Manager) : Manager :=
  {| agents := agents x; sessions := sessions x; userSessions := v;
     activeSessions := activeSessions x; historyCache := historyCache x;
     inactiveSessionTimeout := inactiveSessionTimeout x; _idleCheckTimer := _idleCheckTimer x;
     objs := objs x; timers := timers x; nextTimerId := nextTimerId x;
     historyFiles := historyFiles x; runtimeStateFile := runtimeStateFile x;
     transcriptFiles := transcriptFiles x; trace := trace x |}.
Definition set_activeSessions (v : gmap jsstring (list jsstring)) (x : Manager) : Manager :=
  {| agents := agents x; sessions := sessions x; userSessions := userSessions x;
     activeSessions := v; historyCache := historyCache x;
     inactiveSessionTimeout := inactiveSessionTimeout x; _idleCheckTimer := _idleCheckTimer x;
     objs := objs x; timers := timers x; nextTimerId := nextTimerId x;
     historyFiles := historyFiles x; runtimeStateFile := runtimeStateFile x;
     transcriptFiles := transcriptFiles x; trace := trace x |}.
Definition set_historyCache (v : gmap jsstring (list HistoryItem)) (x : Manager) : Manager :=
  {| agents := agents x; sessions := sessions x; userSessions := userSessions x;
     activeSessions := activeSessions x; historyCache := v;
     inactiveSessionTimeout := inactiveSessionTimeout x; _idleCheckTimer := _idleCheckTimer x;
     objs := objs x; timers := timers x; nextTimerId := nextTimerId x;
     historyFiles := historyFiles x; runtimeStateFile := runtimeStateFile x;
     transcriptFiles := transcriptFiles x; trace := trace x |}.
Definition set__idleCheckTimer (v : bool) (x : Manager) : Manager :=
  {| agents := agents x; sessions := sessions x; userSessions := userSessions x;
     activeSessions := activeSessions x; historyCache := historyCache x;
     inactiveSessionTimeout := inactiveSessionTimeout x; _idleCheckTimer := v; objs := objs x;
     timers := timers x; nextTimerId := nextTimerId x; historyFiles := historyFiles x;
     runtimeStateFile := runtimeStateFile x; transcriptFiles := transcriptFiles x;
     trace := trace x |}.
Definition set_objs (v : gmap nat Session) (x : Manager) : Manager :=
  {| agents := agents x; sessions := sessions x; userSessions := userSessions x;
     activeSessions := activeSessions x; historyCache := historyCache x;
     inactiveSessionTimeout := inactiveSessionTimeout x; _idleCheckTimer := _idleCheckTimer x;
     objs := v; timers := timers x; nextTimerId := nextTimerId x;
     historyFiles := historyFiles x; runtimeStateFile := runtimeStateFile x;
     transcriptFiles := transcriptFiles x; trace := trace x |}.
Definition set_timers (v : gmap nat Timer) (x : Manager) : Manager :=
  {| agents := agents x; sessions := sessions x; userSessions := userSessions x;
     activeSessions := activeSessions x; historyCache := historyCache x;
     inactiveSessionTimeout := inactiveSessionTimeout x; _idleCheckTimer := _idleCheckTimer x;
     objs := objs x; timers := v; nextTimerId := nextTimerId x; historyFiles := historyFiles x;
     runtimeStateFile := runtimeStateFile x; transcriptFiles := transcriptFiles x;
     trace := trace x |}.
Definition set_nextTimerId (v : nat) (x : Manager) : Manager :=
  {| agents := agents x; sessions := sessions x; userSessions := userSessions x;
     activeSessions := activeSessions x; historyCache := historyCache x;
     inactiveSessionTimeout := inactiveSessionTimeout x; _idleCheckTimer := _idleCheckTimer x;
     objs := objs x; timers := timers x; nextTimerId := v; historyFiles := historyFiles x;
     runtimeStateFile := runtimeStateFile x; transcriptFiles := transcriptFiles x;
     trace := trace x |}.
Definition set_historyFiles (v : gmap jsstring HistoryFile) (x : Manager) : Manager :=
  {| agents := agents x; sessions := sessions x; userSessions := userSessions x;
     activeSessions := activeSessions x; historyCache := historyCache x;
     inactiveSessionTimeout := inactiveSessionTimeout x; _idleCheckTimer := _idleCheckTimer x;
     objs := objs x; timers := timers x; nextTimerId := nextTimerId x; historyFiles := v;
     runtimeStateFile := runtimeStateFile x; transcriptFiles := transcriptFiles x;
     trace := trace x |}.
Definition set_runtimeStateFile (v : option RuntimeFile) (x : Manager) : Manager :=
  {| agents := agents x; sessions := sessions x; userSessions := userSessions x;
     activeSessions := activeSessions x; historyCache := historyCache x;
     inactiveSessionTimeout := inactiveSessionTimeout x; _idleCheckTimer := _idleCheckTimer x;
     objs := objs x; timers := timers x; nextTimerId := nextTimerId x;
     historyFiles := historyFiles x; runtimeStateFile := v;
     transcriptFiles := transcriptFiles x; trace := trace x |}.
Definition set_transcriptFiles (v : gmap Path TranscriptFile) (x : Manager) : Manager :=
  {| agents := agents x; sessions := sessions x; userSessions := userSessions x;
     activeSessions := activeSessions x; historyCache := historyCache x;
     inactiveSessionTimeout := inactiveSessionTimeout x; _idleCheckTimer := _idleCheckTimer x;
     objs := objs x; timers := timers x; nextTimerId := nextTimerId x;
     historyFiles := historyFiles x; runtimeStateFile := runtimeStateFile x;
     transcriptFiles := v; trace := trace x |}.
Definition set_trace (v : list Effect) (x : Manager) : Manager :=
  {| agents := agents x; sessions := sessions x; userSessions := userSessions x;
     activeSessions := activeSessions x; historyCache := historyCache x;
     inactiveSessionTimeout := inactiveSessionTimeout x; _idleCheckTimer := _idleCheckTimer x;
     objs := objs x; timers := timers x; nextTimerId := nextTimerId x;
     historyFiles := historyFiles x; runtimeStateFile := runtimeStateFile x;
     transcriptFiles := transcriptFiles x; trace := v |}.

(** Results of operations that can throw. *)
Inductive Outcome (A : Type) := Returned (x : A) | Thrown (msg : jsstring).
Arguments Returned {A} x.
Arguments Thrown {A} msg.

(** [config.json], as far as the manager reads it. *)
Record Config := mkConfig {
  cfg_agents : list Agent;
  cfg_inactiveSessionTimeout : option JsNumber
}.

(** The history directory found at start-up. *)
Record FileSystem := mkFileSystem {
  fs_historyFiles : gmap jsstring HistoryFile;
  fs_runtimeStateFile : option RuntimeFile;
  fs_transcriptFiles : gmap Path TranscriptFile
}.

(** ** Text functions taken as parameters

    Four functions of the source are regular-expression searches over
    terminal output (the ANSI escape expression, case-insensitive banner
    patterns, prompt signatures).  No property below depends on what they
    compute, so they are an interface and every result holds for all
    implementations of it. *)
Class TextOracles := {
  (** [s.replace(ANSI_ESCAPE_RE, '')] *)
  stripAnsi : jsstring → jsstring;
  (** [s.replace(/\u001b\][^\u0007]*(?:\u0007|\u001b\\)/g, '')] *)
  stripOsc : jsstring → jsstring;
  (** [ASSISTANT_NOISE_LINE_PATTERNS.some(re => re.test(plain))] *)
  isNoiseLine : jsstring → bool;
  (** [_isSessionReadySignal(data)] *)
  _isSessionReadySignal : jsstring → bool
}.

Definition len {A} (l : list A) : Z := Z.of_nat (length l).

(** [l.slice(-n)] *)
Definition sliceLast {A} (n : Z) (l : list A) : list A :=
  drop (Z.to_nat (len l - n)) l.

(** [s.slice(0, -1)] *)
Definition dropLast {A} (l : list A) : list A :=
  take (length l - 1)%nat l.

(** ** File paths

    [path.join(dir, a, b)] on a POSIX system: the arguments are joined with
    [/] and the result is normalized, segment by segment -- an empty segment
    and [.] are dropped, [..] removes the segment before it, or climbs one
    level when there is none. *)
Definition pathStep (p : Path) (seg : jsstring) : Path :=
  if decide (seg = []) then p
  else if decide (seg = lit ".") then p
  else if decide (seg = lit "..") then
    match p.2 with
    | [] => (S p.1, [])
    | _ => (p.1, dropLast p.2)
    end
  else (p.1, p.2 ++ [seg]).

Definition pathJoin (args : list jsstring) : Path :=
  foldl pathStep (0%nat, []) (args ≫= splitOn 47).

(** [path.join(this.sessionsDir, username, `${sessionId}.json`)], relative
    to the sessions directory. *)
Definition transcriptPath (user sid : jsstring) : Path :=
  pathJoin [user; sid ++ lit ".json"].

Definition errNoSession : jsstring := [20250; 35805; 19981; 23384; 22312]%N.
Definition errUnknownAgent : jsstring := [26410; 30693; 30340]%N ++ lit " Agent: ".
Definition newSessionTitle : jsstring := [26032; 20250; 35805]%N.
Definition titleSeparator : jsstring := [32; 183; 32]%N.
Definition serverRestart : jsstring := lit "server_restart".

(** ** History entries *)

Definition _normalizeHistoryItem (now : Z) (item : HistoryItem) : option HistoryItem :=
  if truthyStr (h_sessionId item) then
    let mode := modeOf (h_mode item) in
    let fallbackTitle :=
      orStr (h_agentId item) (lit "agent") ++ lit " / "
      ++ orStr (h_modelId item) (lit "default") in
    Some {| h_sessionId := h_sessionId item;
            h_username := None;
            h_agentId := Some (orStr (h_agentId item) (lit "unknown"));
            h_modelId := Some (orStr (h_modelId item) (lit "default"));
            h_mode := Some (modeString mode);
            h_createdAt := Some (orNum (h_createdAt item) now);
            h_lastActivityAt := None;
            h_endedAt := match h_endedAt item with
                         | Some e => if decide (e = 0) then None else Some e
                         | None => None
                         end;
            h_filesCount := Some (orNum (h_filesCount item) 0);
            h_title := Some (orStr (h_title item) fallbackTitle);
            h_hasTranscript := Some (bool_decide (mode ≠ Terminal));
            h_endedReason := if truthyStr (h_endedReason item)
                             then h_endedReason item else None |}
  else None.

(** [{...prev, ...item, createdAt: .., endedAt: ..}] for two normalized
    entries.  Both carry the ten keys written by [_normalizeHistoryItem], so
    each of these is taken from [item]; a key outside the ten survives from
    [prev] when [item] lacks it. *)
Definition spreadEntry (prev item : HistoryItem) : HistoryItem :=
  {| h_sessionId := h_sessionId item;
     h_username := match h_username item with Some u => Some u | None => h_username prev end;
     h_agentId := h_agentId item;
     h_modelId := h_modelId item;
     h_mode := h_mode item;
     h_createdAt := h_createdAt item;
     h_lastActivityAt := match h_lastActivityAt item with
                         | Some t => Some t
                         | None => h_lastActivityAt prev
                         end;
     h_endedAt := h_endedAt item;
     h_filesCount := h_filesCount item;
     h_title := h_title item;
     h_hasTranscript := h_hasTranscript item;
     h_endedReason := h_endedReason item |}.

Definition mergeDuplicate (prev item : HistoryItem) : HistoryItem :=
  let created :=
    let p := orNum (h_createdAt prev) 0 in
    if decide (p = 0) then orNum (h_createdAt item) 0 else p in
  let ended := orNum (h_endedAt item) (orNum (h_endedAt prev) 0) in
  set_h_endedAt (if decide (ended = 0) then None else Some ended)
    (set_h_createdAt (Some created) (spreadEntry prev item)).

Definition sortKey (h : HistoryItem) : Z := orNum (h_createdAt h) 0.

(** [arr.sort((a, b) => a.createdAt - b.createdAt)].  The comparator is a
    consistent order on integers and [Array.prototype.sort] is stable, so
    the result is the stable sort by [sortKey]: insertion after the last
    element whose key is not larger. *)
Fixpoint insertByKey (x : HistoryItem) (l : list HistoryItem) : list HistoryItem :=
  match l with
  | [] => [x]
  | y :: r => if decide (sortKey x < sortKey y) then x :: l else y :: insertByKey x r
  end.

Definition sortByCreatedAt (l : list HistoryItem) : list HistoryItem :=
  foldl (λ acc x, insertByKey x acc) [] l.

Definition dedupStep (now : Z) (dedup : list (jsstring * HistoryItem)) (raw : HistoryItem)
  : list (jsstring * HistoryItem) :=
  match _normalizeHistoryItem now raw with
  | None => dedup
  | Some item =>
      let sid := default [] (h_sessionId item) in
      match JsMap.get sid dedup with
      | None => JsMap.set sid item dedup
      | Some prev => JsMap.set sid (mergeDuplicate prev item) dedup
      end
  end.

Definition _compactHistory (now : Z) (items : option (list HistoryItem)) : list HistoryItem :=
  let dedup := foldl (dedupStep now) [] (default [] items) in
  sliceLast 80 (sortByCreatedAt (JsMap.values dedup)).

(** ** Operations on one session object *)

Section Operations.
Context `{TextOracles}.

Definition _touchSession (now : Z) (s : Session) : Session :=
  set_lastActivityAt now s.

Definition hasUserMessage (ms : list Message) : bool :=
  existsb (λ m, bool_decide (role m = User)) ms.

(** One line of the loop of [_filterAssistantNoiseChunk]. *)
Definition keepLine (kept : list jsstring) (line : jsstring) : list jsstring :=
  match trim (stripAnsi line) with
  | [] =>
      match last kept with
      | Some (_ :: _) => kept ++ [[]]
      | _ => kept
      end
  | plain => if isNoiseLine plain then kept else kept ++ [line]
  end.

Definition _filterAssistantNoiseChunk (chunk : jsstring) : jsstring :=
  match chunk with
  | [] => []
  | _ =>
      let kept := foldl keepLine [] (splitOn LF (replaceCR chunk)) in
      let compacted := collapseNewlines (joinWith [LF] kept) in
      match trim compacted with
      | [] => []
      | _ => compacted
      end
  end.

Definition capReplayBuffer (s : Session) : Session :=
  if decide (600000 < len (terminalReplayBuffer s))
  then set_terminalReplayBuffer (sliceLast 400000 (terminalReplayBuffer s)) s
  else s.

Definition _appendTerminalOutputReplay (chunk : jsstring) (s : Session) : Session :=
  if decide (mode s ≠ Terminal) then s
  else match chunk with
       | [] => s
       | _ =>
           let text :=
             filter (λ c, isReplayPrintable c = true)
               (filter (λ c, c ≠ 8%N) (loneCRtoLF (stripAnsi (stripOsc chunk)))) in
           match text with
           | [] => s
           | _ => capReplayBuffer
                    (set_terminalReplayBuffer (terminalReplayBuffer s ++ text) s)
           end
       end.

(** One character of the loop of [_appendTerminalInputReplay].  The source
    iterates over code points; a surrogate pair only ever reaches the last
    branch, which appends it whole, so iterating over code units gives the
    same buffers.  The erase branch is [slice(0, -1)], which removes one
    code unit, whatever was appended. *)
Definition replayKey (s : Session) (ch : N) : Session :=
  if decide (ch = CR ∨ ch = LF) then
    match terminalInputLine s with
    | [] => set_terminalReplayBuffer (terminalReplayBuffer s ++ [LF]) s
    | line =>
        set_terminalInputLine []
          (set_terminalReplayBuffer (terminalReplayBuffer s ++ line ++ [LF]) s)
    end
  else if decide (ch = 3%N) then
    set_terminalInputLine []
      (set_terminalReplayBuffer (terminalReplayBuffer s ++ lit "^C" ++ [LF]) s)
  else if decide (ch = 127%N ∨ ch = 8%N) then
    set_terminalInputLine (dropLast (terminalInputLine s)) s
  else if decide (32 ≤ ch)%N then
    set_terminalInputLine (terminalInputLine s ++ [ch]) s
  else s.

Definition _appendTerminalInputReplay (chunk : jsstring) (s : Session) : Session :=
  if decide (mode s ≠ Terminal) then s
  else match chunk with
       | [] => s
       | _ =>
           if matchDeviceAttrs (DaStart false) chunk then s
           else if matchDeviceAttrsTail (DtGroup false) chunk
                   && bool_decide (len chunk ≤ 48) then s
           else capReplayBuffer (foldl replayKey s chunk)
       end.

(** The byte-budget loop at the end of [_appendAssistantOutput]: walking the
    messages from the last one, [total] adds up the content lengths; at the
    first message that takes it over the ceiling the messages after it are
    returned.  [None] when the loop ends without [break]. *)
Fixpoint budgetSuffix (revMsgs : list Message) (total : Z) (kept : list Message)
  : option (list Message) :=
  match revMsgs with
  | [] => None
  | m :: r =>
      let total' := total + len (content m) in
      if decide (2000000 < total') then Some kept
      else budgetSuffix r total' (m :: kept)
  end.

(** The assistant message that is still open for appending, if any. *)
Definition openAssistant (s : Session) : option Message :=
  if decide (lastAssistantIndex s < 0) then None
  else match messages s !! Z.to_nat (lastAssistantIndex s) with
       | Some m => if decide (role m = Assistant) then Some m else None
       | None => None
       end.

Definition _appendAssistantOutput (now : Z) (chunk : jsstring) (s : Session) : Session :=
  if decide (mode s ≠ Chat) then s
  else match chunk with
  | [] => s
  | _ =>
    let gate :=
      if decide (userMessageCount s = 0)
      then (if hasUserMessage (messages s) then Some (set_userMessageCount 1 s) else None)
      else Some s in
    match gate with
    | None => s
    | Some s =>
      match _filterAssistantNoiseChunk chunk with
      | [] => s
      | filtered =>
        let s := _touchSession now s in
        let s :=
          match openAssistant s with
          | None =>
              let ms := messages s ++ [mkMessage Assistant filtered now] in
              set_lastAssistantIndex (len ms - 1) (set_messages ms s)
          | Some m =>
              set_messages
                (<[Z.to_nat (lastAssistantIndex s) :=
                     mkMessage Assistant (content m ++ filtered) (ts m)]> (messages s)) s
          end in
        match budgetSuffix (reverse (messages s)) 0 [] with
        | Some kept => set_lastAssistantIndex (len kept - 1) (set_messages kept s)
        | None => s
        end
      end
    end
  end.

(** The queueing branch shared by [sendInput] and [sendChatInput]. *)
Definition enqueuePending (text : jsstring) (s : Session) : Session :=
  let q := pendingInputs s ++ [text] in
  set_pendingInputs (if decide (200 < len q) then sliceLast 120 q else q) s.

(** The mutation made by [recordUserMessage]. *)
Definition pushUserMessage (now : Z) (text : jsstring) (s : Session) : Session :=
  let isFirstUserMsg := negb (hasUserMessage (messages s)) in
  let s := _touchSession now s in
  let s := set_messages (messages s ++ [mkMessage User text now]) s in
  let s := set_userMessageCount (userMessageCount s + 1) s in
  let s :=
    if isFirstUserMsg then
      let short := take 40 (trim (collapseWhitespace text)) in
      set_title (orStr (Some short) newSessionTitle ++ titleSeparator ++ modelId s) s
    else s in
  let s := set_lastAssistantIndex (-1) s in
  if decide (2000 < len (messages s))
  then set_messages (sliceLast 1500 (messages s)) s
  else s.

(** The part of the pseudo-terminal data handler that works on the session
    alone, after the readiness check and before the fan-out. *)
Definition absorbOutput (now : Z) (data : jsstring) (s : Session) : Session :=
  let buf := outputBuffer s ++ data in
  let s := set_outputBuffer (if decide (200000 < len buf) then sliceLast 160000 buf else buf) s in
  _appendAssistantOutput now data (_appendTerminalOutputReplay data s).

(** [subscribers.add(fn)] and [subscribers.delete(fn)] on a [Set]. *)
Definition subscribe (fn : Callback) (s : Session) : Session :=
  if bool_decide (cb_id fn ∈ cb_id <$> subscribers s) then s
  else set_subscribers (subscribers s ++ [fn]) s.

Definition unsubscribe (fn : Callback) (s : Session) : Session :=
  set_subscribers (filter (λ c, cb_id c ≠ cb_id fn) (subscribers s)) s.

(** What the runtime snapshot records of a live session. *)
Definition snapshotItem (s : Session) : HistoryItem :=
  {| h_sessionId := Some (sessionId s);
     h_username := Some (username s);
     h_agentId := Some (agentId s);
     h_modelId := Some (modelId s);
     h_mode := Some (modeString (mode s));
     h_createdAt := Some (createdAt s);
     h_lastActivityAt :=
       Some (if decide (lastActivityAt s = 0) then createdAt s else lastActivityAt s);
     h_endedAt := None;
     h_filesCount := Some (len (files s));
     h_title := Some (title s);
     h_hasTranscript := Some (bool_decide (mode s ≠ Terminal));
     h_endedReason := None |}.

(** ** The manager *)

Definition log (e : Effect) (st : Manager) : Manager :=
  set_trace (trace st ++ [e]) st.

(** In-place mutation of the session object at address [a]. *)
Definition updObj (a : nat) (f : Session → Session) (st : Manager) : Manager :=
  set_objs (alter f a (objs st)) st.

(** [this.sessions.get(sessionId)] *)
Definition lookupSession (sid : jsstring) (st : Manager) : option (nat * Session) :=
  a ← JsMap.get sid (sessions st);
  s ← objs st !! a;
  Some (a, s).

Definition setTimeout (t : Timer) (st : Manager) : Manager * nat :=
  let id := nextTimerId st in
  (set_nextTimerId (S id) (set_timers (<[id := t]> (timers st)) st), id).

Definition clearTimeout (id : nat) (st : Manager) : Manager :=
  set_timers (delete id (timers st)) st.

(** [if (session._readyFallbackTimer) { clearTimeout(..); .. = null; }] *)
Definition clearReadyFallback (a : nat) (st : Manager) : Manager :=
  match objs st !! a with
  | Some s =>
      match _readyFallbackTimer s with
      | Some id => updObj a (set__readyFallbackTimer None) (clearTimeout id st)
      | None => st
      end
  | None => st
  end.

(** Calling a callback: the call is recorded, then it returns ([false]) or
    throws ([true]). *)
Definition invoke (fn : Callback) (e : Effect) (st : Manager) : Manager * bool :=
  let st := log e st in
  (st, cb_throws fn (trace st)).

Definition _readHistoryForUser (now : Z) (user : jsstring) (st : Manager)
  : Manager * list HistoryItem :=
  match historyCache st !! user with
  | Some l => (st, l)
  | None =>
      match historyFiles st !! user with
      | Some (HJson parsed) =>
          let compacted := _compactHistory now parsed in
          (set_historyCache (<[user := compacted]> (historyCache st)) st, compacted)
      | _ => (set_historyCache (<[user := []]> (historyCache st)) st, [])
      end
  end.

Definition _writeHistoryForUser (by_ : HistoryWriter) (now : Z) (user : jsstring)
    (history : list HistoryItem) (st : Manager) : Manager :=
  let compacted := _compactHistory now (Some history) in
  let st := set_historyCache (<[user := compacted]> (historyCache st)) st in
  log (WriteHistoryFile by_ user compacted)
    (set_historyFiles (<[user := HJson (Some compacted)]> (historyFiles st)) st).

(** [item.endedAt = ts] on the first entry of the list with that id. *)
Definition markEnded (sid : jsstring) (ts_ : Z) (l : list HistoryItem) : list HistoryItem :=
  match list_find (λ i, h_sessionId i = Some sid) l with
  | Some (k, item) => <[k := set_h_endedAt (Some ts_) item]> l
  | None => l
  end.

Definition _markUserSessionEnded (user sid : jsstring) (ts_ : Z) (st : Manager) : Manager :=
  match userSessions st !! user with
  | Some l => set_userSessions (<[user := markEnded sid ts_ l]> (userSessions st)) st
  | None => st
  end.

(** The session objects held by [this.sessions], in iteration order. *)
Definition liveSessions (st : Manager) : list Session :=
  omap (λ p, objs st !! p.2) (sessions st).

Definition _persistRuntimeState (now : Z) (st : Manager) : Manager :=
  match snapshotItem <$> liveSessions st with
  | [] =>
      match runtimeStateFile st with
      | Some _ => log UnlinkRuntimeFile (set_runtimeStateFile None st)
      | None => st
      end
  | active =>
      log WriteRuntimeFile
        (set_runtimeStateFile (Some (RJson (Some now) (Some active))) st)
  end.

(** One iteration of the loop of [_recoverRuntimeState]. *)
Definition recoverItem (now : Z) (st : Manager) (item : HistoryItem) : Manager :=
  match _normalizeHistoryItem now
          (set_h_endedReason (Some serverRestart) (set_h_endedAt (Some now) item)) with
  | Some normalized =>
      if truthyStr (h_username item) then
        let user := default [] (h_username item) in
        let '(st, history) := _readHistoryForUser now user st in
        let next :=
          filter (λ h, h_sessionId h ≠ h_sessionId normalized) history ++ [normalized] in
        _writeHistoryForUser ByRecovery now user next st
      else st
  | None => st
  end.

Definition _recoverRuntimeState (now : Z) (st : Manager) : Manager :=
  match runtimeStateFile st with
  | None => st
  | Some file =>
      let st :=
        match file with
        | RCorrupt => st
        | RJson _ active => foldl (recoverItem now) st (default [] active)
        end in
      log UnlinkRuntimeFile (set_runtimeStateFile None st)
  end.

(** [Number(config.inactiveSessionTimeout || 30 * 60 * 1000)] *)
Definition configuredTimeout (v : option JsNumber) : JsNumber :=
  match v with
  | Some (Finite z) => if decide (z = 0) then Finite 1800000 else Finite z
  | Some NaN => Finite 1800000
  | Some PosInfinity => PosInfinity
  | Some NegInfinity => NegInfinity
  | None => Finite 1800000
  end.

(** [new SessionManager(config)] over the history directory [fs]. *)
Definition newManager (cfg : Config) (fs : FileSystem) (now : Z) : Manager :=
  _recoverRuntimeState now
    {| agents := foldl (λ m ag, <[a_id ag := ag]> m) ∅ (cfg_agents cfg);
       sessions := [];
       userSessions := ∅;
       activeSessions := ∅;
       historyCache := ∅;
       inactiveSessionTimeout := configuredTimeout (cfg_inactiveSessionTimeout cfg);
       _idleCheckTimer := true;
       objs := ∅;
       timers := ∅;
       nextTimerId := 0%nat;
       historyFiles := fs_historyFiles fs;
       runtimeStateFile := fs_runtimeStateFile fs;
       transcriptFiles := fs_transcriptFiles fs;
       trace := [] |}.

Definition _buildStartCommand (agent : Agent) (model : option jsstring) : jsstring :=
  let cmd := a_command agent in
  let cmd :=
    match a_args agent with
    | Some (x :: r) => cmd ++ lit " " ++ joinWith (lit " ") (x :: r)
    | _ => cmd
    end in
  match model, a_models agent with
  | Some (c :: r), Some models =>
      if decide (c :: r = lit "default") then cmd
      else match list_find (λ m, m_id m = c :: r) models with
           | Some (_, m) =>
               if truthyStr (m_flag m) then cmd ++ lit " " ++ default [] (m_flag m)
               else cmd
           | None => cmd
           end
  | _, _ => cmd
  end.

Definition _flushPendingInputs (a : nat) (now : Z) (st : Manager) : Manager :=
  match objs st !! a with
  | Some s =>
      match pendingInputs s with
      | [] => st
      | queued =>
          let st := updObj a (set_pendingInputs []) st in
          foldl (λ st chunk, log (PtyWrite a chunk) (updObj a (_touchSession now) st))
            st queued
      end
  | None => st
  end.

(** [_markSessionReady(session, reason)]; [reason] is only logged. *)
Definition _markSessionReady (a : nat) (now : Z) (st : Manager) : Manager :=
  match objs st !! a with
  | Some s =>
      if started s then st
      else
        let st := updObj a (set_started true) st in
        let st := clearReadyFallback a st in
        _flushPendingInputs a now st
  | None => st
  end.

(** The closure [typeNext] of [_simulateTyping], with the characters still
    to type. *)
Definition typeNext (a : nat) (chars : list jsstring) (st : Manager) : Manager :=
  match chars, objs st !! a with
  | _ :: _, Some s =>
      if JsMap.has (sessionId s) (sessions st) then
        let st := log (PtyWrite a (concat (take 10 chars))) st in
        match drop 10 chars with
        | [] => st
        | rest => (setTimeout (TTypeNext a rest) st).1
        end
      else st
  | _, _ => st
  end.

Definition _simulateTyping (a : nat) (text : jsstring) (st : Manager) : Manager :=
  match text with
  | [] => st
  | _ => typeNext a (codePoints text) st
  end.

Definition sendInput (sid text : jsstring) (now : Z) (st : Manager)
  : Manager * Outcome unit :=
  match lookupSession sid st with
  | None => (st, Thrown errNoSession)
  | Some (a, s) =>
      let st := updObj a (_appendTerminalInputReplay text) st in
      if started s then
        (log (PtyWrite a text) (updObj a (_touchSession now) st), Returned ())
      else
        (updObj a (λ s, enqueuePending text (_touchSession now s)) st, Returned ())
  end.

Definition sendChatInput (sid text : jsstring) (now : Z) (st : Manager)
  : Manager * Outcome unit :=
  match lookupSession sid st with
  | None => (st, Thrown errNoSession)
  | Some (a, s) =>
      let fullText := text ++ [CR] in
      let st := updObj a (_appendTerminalInputReplay fullText) st in
      if started s then
        let st := updObj a (_touchSession now) st in
        if decide (agentId s = lit "gemini")
        then (_simulateTyping a fullText st, Returned ())
        else (log (PtyWrite a fullText) st, Returned ())
      else
        (updObj a (λ s, enqueuePending fullText (_touchSession now s)) st, Returned ())
  end.

Definition recordUserMessage (sid text : jsstring) (now : Z) (st : Manager)
  : Manager * Outcome unit :=
  match lookupSession sid st with
  | None => (st, Thrown errNoSession)
  | Some (a, _) =>
      (_persistRuntimeState now (updObj a (pushUserMessage now text) st), Returned ())
  end.

Definition addFile (sid path name : jsstring) (now : Z) (st : Manager) : Manager :=
  match lookupSession sid st with
  | Some (a, _) =>
      _persistRuntimeState now
        (updObj a (λ s, let s := _touchSession now s in
                        set_files (files s ++ [mkFileRef path name now]) s) st)
  | None => st
  end.

Definition addSubscriber (sid : jsstring) (fn : Callback) (st : Manager) : Manager :=
  match lookupSession sid st with
  | Some (a, _) => updObj a (subscribe fn) st
  | None => st
  end.

Definition removeSubscriber (sid : jsstring) (fn : Callback) (st : Manager) : Manager :=
  match lookupSession sid st with
  | Some (a, _) => updObj a (unsubscribe fn) st
  | None => st
  end.

Definition resize (sid : jsstring) (cols rows : Z) (st : Manager) : Manager :=
  match lookupSession sid st with
  | Some (a, _) => log (PtyResize a cols rows) st
  | None => st
  end.

(** The history object built by [_saveHistory] before normalization. *)
Definition historyEntryOf (now : Z) (s : Session) : HistoryItem :=
  {| h_sessionId :=
       Some (orStr (Some (sessionId s))
               (username s ++ lit "-" ++ agentId s ++ lit "-" ++ numToString (createdAt s)));
     h_username := None;
     h_agentId := Some (agentId s);
     h_modelId := Some (modelId s);
     h_mode := Some (modeString (mode s));
     h_createdAt := Some (createdAt s);
     h_lastActivityAt := None;
     h_endedAt := Some now;
     h_filesCount := Some (len (files s));
     h_title := Some (title s);
     h_hasTranscript := Some (bool_decide (mode s ≠ Terminal));
     h_endedReason := None |}.

Definition transcriptOf (now : Z) (s : Session) : TranscriptData :=
  {| t_sessionId := sessionId s;
     t_agentId := agentId s;
     t_modelId := modelId s;
     t_mode := Some (modeString (mode s));
     t_createdAt := createdAt s;
     t_endedAt := Some now;
     t_title := None;
     t_messages := messages s |}.

Definition _saveHistory (a : nat) (now : Z) (st : Manager) : Manager :=
  match objs st !! a with
  | None => st
  | Some s =>
      if _historySaved s then st
      else
        let st := updObj a (set__historySaved true) st in
        let '(st, history) := _readHistoryForUser now (username s) st in
        let history :=
          match _normalizeHistoryItem now (historyEntryOf now s) with
          | Some entry =>
              match list_find (λ h, h_sessionId h = h_sessionId entry) history with
              | Some (idx, old) => <[idx := spreadEntry old entry]> history
              | None => history ++ [entry]
              end
          | None => history
          end in
        let st := _writeHistoryForUser (BySaveHistory a) now (username s) history st in
        if decide (mode s = Terminal) then st
        else
          log (WriteTranscriptFile (username s) (sessionId s))
            (set_transcriptFiles
               (<[transcriptPath (username s) (sessionId s) :=
                    TJson (transcriptOf now s)]> (transcriptFiles st)) st)
  end.

(** The tail shared by [destroySession] and the exit handler: drop the id
    from the indices and rewrite the snapshot. *)
Definition unregister (user sid : jsstring) (now : Z) (st : Manager) : Manager :=
  let st := set_sessions (JsMap.delete sid (sessions st)) st in
  let st :=
    match activeSessions st !! user with
    | Some l =>
        set_activeSessions (<[user := filter (λ i, i ≠ sid) l]> (activeSessions st)) st
    | None => st
    end in
  _persistRuntimeState now (_markUserSessionEnded user sid now st).

Definition destroySession (sid : jsstring) (now : Z) (st : Manager) : Manager :=
  match lookupSession sid st with
  | Some (a, s) =>
      let st := clearReadyFallback a st in
      let st := log (PtyKill a) st in
      let st := _saveHistory a now st in
      unregister (username s) sid now st
  | None => st
  end.

Definition destroyUserSession (user : jsstring) (now : Z) (st : Manager) : Manager :=
  foldl (λ st sid, destroySession sid now st) st
    (default [] (activeSessions st !! user)).

Definition destroyAll (now : Z) (st : Manager) : Manager :=
  let st := set__idleCheckTimer false st in
  let st := foldl (λ st sid, destroySession sid now st) st (JsMap.keys (sessions st)) in
  _persistRuntimeState now st.

Definition createSession (user agent : jsstring) (model mode_ : option jsstring)
    (onData_ onExit_ : option Callback) (now : Z) (st : Manager)
  : Manager * Outcome jsstring :=
  match agents st !! agent with
  | None => (st, Thrown (errUnknownAgent ++ agent))
  | Some ag =>
      let sid := user ++ lit "-" ++ agent ++ lit "-" ++ numToString now in
      let a := fresh (dom (objs st)) in
      let st :=
        log (PtySpawn a (if truthyStr (a_workingDirectory ag)
                         then a_workingDirectory ag else None)) st in
      let session :=
        {| sessionId := sid;
           agentId := agent;
           modelId := orStr model (lit "default");
           username := user;
           createdAt := now;
           lastActivityAt := now;
           outputBuffer := [];
           terminalReplayBuffer := [];
           terminalInputLine := [];
           messages := [];
           lastAssistantIndex := -1;
           started := false;
           mode := modeOf mode_;
           hasTranscript := bool_decide (mode_ ≠ Some (lit "terminal"));
           title := agent ++ lit " / " ++ orStr model (lit "default");
           _historySaved := false;
           _startCommandSent := false;
           _readyFallbackTimer := None;
           subscribers := [];
           files := [];
           pendingInputs := [];
           userMessageCount := 0;
           onData := onData_;
           onExit := onExit_ |} in
      let st := set_objs (<[a := session]> (objs st)) st in
      let st := set_sessions (JsMap.set sid a (sessions st)) st in
      let st :=
        set_activeSessions
          (<[user := default [] (activeSessions st !! user) ++ [sid]]> (activeSessions st))
          st in
      let item :=
        {| h_sessionId := Some sid;
           h_username := None;
           h_agentId := Some agent;
           h_modelId := Some (orStr model (lit "default"));
           h_mode := Some (modeString (mode session));
           h_createdAt := Some now;
           h_lastActivityAt := None;
           h_endedAt := None;
           h_filesCount := None;
           h_title := Some (title session);
           h_hasTranscript := Some (hasTranscript session);
           h_endedReason := None |} in
      let st :=
        set_userSessions
          (<[user := default [] (userSessions st !! user) ++ [item]]> (userSessions st))
          st in
      let st := _persistRuntimeState now st in
      let st := (setTimeout (TStartCommand a ag model) st).1 in
      (st, Returned sid)
  end.

(** The body of the 500 ms timer set by [createSession]. *)
Definition startCommandTimer (a : nat) (ag : Agent) (model : option jsstring)
    (st : Manager) : Manager :=
  match objs st !! a with
  | Some s =>
      if JsMap.has (sessionId s) (sessions st) then
        let st := updObj a (set__startCommandSent true) st in
        let st := log (PtyWrite a (_buildStartCommand ag model ++ [CR])) st in
        let '(st, id) := setTimeout (TReadyFallback a) st in
        updObj a (set__readyFallbackTimer (Some id)) st
      else st
  | None => st
  end.

Definition readyFallbackTimer (a : nat) (now : Z) (st : Manager) : Manager :=
  match objs st !! a with
  | Some s =>
      if JsMap.has (sessionId s) (sessions st) then _markSessionReady a now st else st
  | None => st
  end.

(** The fan-out loop: every subscriber is called inside its own
    [try]/[catch]. *)
Definition broadcast (data : jsstring) (subs : list Callback) (st : Manager) : Manager :=
  foldl (λ st fn, (invoke fn (Notify (cb_id fn) data) st).1) st subs.

(** [ptyProcess.onData] of the session at [a].  The boolean tells whether
    an exception leaves the handler. *)
Definition ptyOnData (a : nat) (data : jsstring) (now : Z) (st : Manager)
  : Manager * bool :=
  match objs st !! a with
  | None => (st, false)
  | Some s =>
      let st := updObj a (_touchSession now) st in
      let st :=
        if negb (started s) && _startCommandSent s && _isSessionReadySignal data
        then _markSessionReady a now st else st in
      let st := updObj a (absorbOutput now data) st in
      let st := broadcast data (subscribers s) st in
      match onData s with
      | Some fn => invoke fn (CallOnData (cb_id fn) data) st
      | None => (st, false)
      end
  end.

(** [ptyProcess.onExit] of the session at [a]. *)
Definition ptyOnExit (a : nat) (exitCode signal : Z) (now : Z) (st : Manager)
  : Manager * bool :=
  match objs st !! a with
  | None => (st, false)
  | Some s =>
      let st := clearReadyFallback a st in
      let st := _saveHistory a now st in
      let st := unregister (username s) (sessionId s) now st in
      match onExit s with
      | Some fn => invoke fn (CallOnExit (cb_id fn) exitCode signal) st
      | None => (st, false)
      end
  end.

Definition setSessionTitle (user sid title_ : jsstring) (now : Z) (st : Manager) : Manager :=
  let st :=
    match lookupSession sid st with
    | Some (a, s) =>
        if decide (username s = user)
        then _persistRuntimeState now (updObj a (set_title title_) st)
        else st
    | None => st
    end in
  let '(st, history) := _readHistoryForUser now user st in
  match list_find (λ h, h_sessionId h = Some sid) history with
  | Some (k, item) =>
      _writeHistoryForUser BySetSessionTitle now user
        (<[k := set_h_title (Some title_) item]> history) st
  | None => st
  end.

Definition deleteSessionHistory (user sid : jsstring) (now : Z) (st : Manager) : Manager :=
  let '(st, history) := _readHistoryForUser now user st in
  let next := filter (λ h, h_sessionId h ≠ Some sid) history in
  let st := _writeHistoryForUser ByDeleteSessionHistory now user next st in
  match transcriptFiles st !! transcriptPath user sid with
  | Some _ =>
      log (UnlinkTranscriptFile user sid)
        (set_transcriptFiles (delete (transcriptPath user sid) (transcriptFiles st)) st)
  | None => st
  end.

(** [getUserSessionHistory(username)]: the entries on disk, overlaid with
    the sessions started in this run. *)
Definition getUserSessionHistory (user : jsstring) (now : Z) (st : Manager)
  : Manager * list HistoryItem :=
  let '(st, diskHistory) := _readHistoryForUser now user st in
  let runtimeHistory := default [] (userSessions st !! user) in
  let fromDisk merged raw :=
    match _normalizeHistoryItem now raw with
    | Some item => JsMap.set (default [] (h_sessionId item)) item merged
    | None => merged
    end in
  let fromRuntime merged raw :=
    match _normalizeHistoryItem now raw with
    | Some item =>
        let sid := default [] (h_sessionId item) in
        JsMap.set sid
          (match JsMap.get sid merged with
           | Some prev => spreadEntry prev item
           | None => item
           end) merged
    | None => merged
    end in
  (st, JsMap.values (foldl fromRuntime (foldl fromDisk [] diskHistory) runtimeHistory)).

(** The second half of [getSessionTranscript]: the file at
    [path.join(sessionsDir, username, sessionId + '.json')].  [None] is
    [null]. *)
Definition readTranscriptFile (user sid : jsstring) (st : Manager)
  : option TranscriptData :=
  match transcriptFiles st !! transcriptPath user sid with
  | Some (TJson data) =>
      if decide (t_mode data = Some (lit "terminal")) then None else Some data
  | _ => None
  end.

(** The object returned for a live session. *)
Definition liveTranscript (active : Session) : TranscriptData :=
  {| t_sessionId := sessionId active;
     t_agentId := agentId active;
     t_modelId := modelId active;
     t_mode := Some (modeString (mode active));
     t_createdAt := createdAt active;
     t_endedAt := None;
     t_title := Some (title active);
     t_messages := messages active |}.

Definition getSessionTranscript (user sid : jsstring) (st : Manager)
  : option TranscriptData :=
  match lookupSession sid st with
  | Some (_, active) =>
      if decide (username active = user) then
        if decide (mode active = Terminal) then None
        else Some (liveTranscript active)
      else readTranscriptFile user sid st
  | None => readTranscriptFile user sid st
  end.

(** ** The idle reaper *)

(** [session.lastActivityAt || session.createdAt || now] *)
Definition lastSeen (now : Z) (s : Session) : Z :=
  if decide (lastActivityAt s = 0)
  then (if decide (createdAt s = 0) then now else createdAt s)
  else lastActivityAt s.

Definition isStale (now timeout : Z) (s : Session) : bool :=
  bool_decide (timeout < now - lastSeen now s).

Definition staleIds (now timeout : Z) (st : Manager) : list jsstring :=
  omap (λ p, match objs st !! p.2 with
             | Some s => if isStale now timeout s then Some p.1 else None
             | None => None
             end) (sessions st).

(** One iteration of the second loop of [_cleanupInactiveSessions]. *)
Definition reap (now : Z) (st : Manager) (sid : jsstring) : Manager :=
  let session := lookupSession sid st in
  let st := destroySession sid now st in
  match session with
  | Some (_, s) => _markUserSessionEnded (username s) sid now st
  | None => st
  end.

Definition _cleanupInactiveSessions (now : Z) (st : Manager) : Manager :=
  match inactiveSessionTimeout st with
  | Finite timeout =>
      if decide (timeout ≤ 0) then st
      else foldl (reap now) st (staleIds now timeout st)
  | _ => st
  end.

(** ** Events

    Everything that can happen to a manager: a call of a public operation
    that changes it, an event of a pseudo-terminal, or a timer that fires.
    An exception thrown by an operation is returned to its caller and leaves
    the state as it was at the point of the throw. *)
Inductive Event :=
| ECreateSession (user agent : jsstring) (model mode_ : option jsstring)
    (onData_ onExit_ : option Callback)
| EDestroySession (sid : jsstring)
| EDestroyUserSession (user : jsstring)
| EDestroyAll
| ESendInput (sid text : jsstring)
| ESendChatInput (sid text : jsstring)
| ERecordUserMessage (sid text : jsstring)
| EAddFile (sid path name : jsstring)
| EAddSubscriber (sid : jsstring) (fn : Callback)
| ERemoveSubscriber (sid : jsstring) (fn : Callback)
| EResize (sid : jsstring) (cols rows : Z)
| ESetSessionTitle (user sid title_ : jsstring)
| EDeleteSessionHistory (user sid : jsstring)
| EGetUserSessionHistory (user : jsstring)
| EPtyData (a : nat) (data : jsstring)
| EPtyExit (a : nat) (exitCode signal : Z)
| ETimer (id : nat)
| EIdleCheck.

Definition fireTimer (id : nat) (now : Z) (st : Manager) : Manager :=
  match timers st !! id with
  | Some t =>
      let st := clearTimeout id st in
      match t with
      | TStartCommand a ag model => startCommandTimer a ag model st
      | TReadyFallback a => readyFallbackTimer a now st
      | TTypeNext a chars => typeNext a chars st
      end
  | None => st
  end.

Definition step (st : Manager) (e : Z * Event) : Manager :=
  let now := e.1 in
  match e.2 with
  | ECreateSession user agent model mode_ onData_ onExit_ =>
      (createSession user agent model mode_ onData_ onExit_ now st).1
  | EDestroySession sid => destroySession sid now st
  | EDestroyUserSession user => destroyUserSession user now st
  | EDestroyAll => destroyAll now st
  | ESendInput sid text => (sendInput sid text now st).1
  | ESendChatInput sid text => (sendChatInput sid text now st).1
  | ERecordUserMessage sid text => (recordUserMessage sid text now st).1
  | EAddFile sid path name => addFile sid path name now st
  | EAddSubscriber sid fn => addSubscriber sid fn st
  | ERemoveSubscriber sid fn => removeSubscriber sid fn st
  | EResize sid cols rows => resize sid cols rows st
  | ESetSessionTitle user sid title_ => setSessionTitle user sid title_ now st
  | EDeleteSessionHistory user sid => deleteSessionHistory user sid now st
  | EGetUserSessionHistory user => (getUserSessionHistory user now st).1
  | EPtyData a data => (ptyOnData a data now st).1
  | EPtyExit a exitCode signal => (ptyOnExit a exitCode signal now st).1
  | ETimer id => fireTimer id now st
  | EIdleCheck =>
      if _idleCheckTimer st then _cleanupInactiveSessions now st else st
  end.

Definition run (st : Manager) (es : list (Z * Event)) : Manager :=
  foldl step st es.

(** What has been written to the pseudo-terminal of the session at [a]. *)
Definition ptyWrites (a : nat) (tr : list Effect) : list jsstring :=
  omap (λ e, match e with
             | PtyWrite b data => if decide (a = b) then Some data else None
             | _ => None
             end) tr.

(** The chunks a subscriber has been called with. *)
Definition deliveries (cb : nat) (tr : list Effect) : list jsstring :=
  omap (λ e, match e with
             | Notify c data => if decide (c = cb) then Some data else None
             | _ => None
             end) tr.

(** The events of a run of output chunks of the session at [a]. *)
Definition outputEvent (a : nat) (c : Z * jsstring) : Z * Event :=
  (c.1, EPtyData a c.2).

(** A call that submits input to a session, and the chunk it submits. *)
Inductive InputCall :=
| CallSendInput (text : jsstring)
| CallSendChatInput (text : jsstring).

Definition submittedText (c : InputCall) : jsstring :=
  match c with
  | CallSendInput text => text
  | CallSendChatInput text => text ++ [CR]
  end.

Definition inputEvent (sid : jsstring) (c : Z * InputCall) : Z * Event :=
  (c.1, match c.2 with
        | CallSendInput text => ESendInput sid text
        | CallSendChatInput text => ESendChatInput sid text
        end).

(** The pseudo-terminals killed so far, in order. *)
Definition kills (tr : list Effect) : list nat :=
  omap (λ e, match e with PtyKill a => Some a | _ => None end) tr.

(** The history writes made by [_saveHistory] for the session object at [a]. *)
Definition savesBy (a : nat) (tr : list Effect) : list (jsstring * list HistoryItem) :=
  omap (λ e, match e with
             | WriteHistoryFile (BySaveHistory b) user items =>
                 if decide (a = b) then Some (user, items) else None
             | _ => None
             end) tr.

(** The one-shot flag is set. *)
Definition historySaved (s : Session) : Prop := _historySaved s = true.

(** [session._historySaved] of the object at [a]; an address not yet
    allocated counts as not saved. *)
Definition savedFlag (st : Manager) (a : nat) : bool :=
  match objs st !! a with
  | Some s => _historySaved s
  | None => false
  end.

(** The invariant behind the one-shot guard: the history of a session
    object has been written at most once, and not at all while its flag is
    still unset. *)
Definition SavedOnce (st : Manager) : Prop :=
  ∀ a, (length (savesBy a (trace st)) ≤ 1)%nat
       ∧ (savedFlag st a = false → savesBy a (trace st) = []).

(** An external action that neither kills a process nor is a history write
    of [_saveHistory]. *)
Definition quietEffect (e : Effect) : Prop :=
  match e with
  | PtyKill _ => False
  | WriteHistoryFile (BySaveHistory _) _ _ => False
  | _ => True
  end.

(** [st'] extends the record of [st] by quiet actions only. *)
Definition quiet (st st' : Manager) : Prop :=
  ∃ es, trace st' = trace st ++ es ∧ Forall quietEffect es.

(** The invariant of the de-duplication map of [_compactHistory]: keys are
    distinct and non-empty, and every entry is filed under its own session
    id. *)
Definition keyed (dedup : list (jsstring * HistoryItem)) : Prop :=
  NoDup dedup.*1 ∧ ∀ k v, (k, v) ∈ dedup → h_sessionId v = Some k ∧ k ≠ [].

(** What [_readHistoryForUser] answers for [user]: the cached list, or the
    compacted content of the file. *)
Definition effectiveHistory (now : Z) (user : jsstring) (st : Manager) : list HistoryItem :=
  match historyCache st !! user with
  | Some l => l
  | None =>
      match historyFiles st !! user with
      | Some (HJson parsed) => _compactHistory now parsed
      | _ => []
      end
  end.




(** ** Frame conditions

    [stable P st st']: every session object that satisfies [P] in [st] is
    still allocated and satisfies [P] in [st'].  [RespectsIO P] lists the
    mutations of a session object made by input, output, timers and
    bookkeeping; a property closed under them is stable under every
    operation that does nothing else to a session. *)
Definition stable (P : Session → Prop) (st st' : Manager) : Prop :=
  ∀ a s, objs st !! a = Some s → P s → ∃ s', objs st' !! a = Some s' ∧ P s'.

Record RespectsIO (P : Session → Prop) : Prop := {
  respects_touch : ∀ now s, P s → P (_touchSession now s);
  respects_replay : ∀ c s, P s → P (_appendTerminalInputReplay c s);
  respects_enqueue : ∀ t s, P s → P (enqueuePending t s);
  respects_pending : ∀ s, P s → P (set_pendingInputs [] s);
  respects_started : ∀ s, P s → P (set_started true s);
  respects_timer : ∀ o s, P s → P (set__readyFallbackTimer o s);
  respects_startSent : ∀ s, P s → P (set__startCommandSent true s);
  respects_saved : ∀ s, P s → P (set__historySaved true s);
  respects_absorb : ∀ now d s, P s → P (absorbOutput now d s);
  respects_files : ∀ l s, P s → P (set_files l s);
  respects_title : ∀ t s, P s → P (set_title t s)
}.

End Operations.

(** ** Queries

    The read-only operations of the manager. *)

(** [getSession(sessionId)]; [None] is [null]. *)
Definition getSession (sid : jsstring) (st : Manager) : option Session :=
  snd <$> lookupSession sid st.

Definition getSessionFiles (sid : jsstring) (st : Manager) : list FileRef :=
  match lookupSession sid st with
  | Some (_, s) => files s
  | None => []
  end.

(** [getUserActiveSession(username)]: the id registered last. *)
Definition getUserActiveSession (user : jsstring) (st : Manager) : option jsstring :=
  last (default [] (activeSessions st !! user)).

(** [list.map(id => this.sessions.get(id)).filter(Boolean)] *)
Definition getUserActiveSessions (user : jsstring) (st : Manager) : list Session :=
  omap (λ id, getSession id st) (default [] (activeSessions st !! user)).

(** ** Notions used to state properties of histories *)

(** Every entry was created no later than the entries after it. *)
Fixpoint ascending (l : list HistoryItem) : Prop :=
  match l with
  | [] => True
  | x :: r => Forall (λ y, sortKey x ≤ sortKey y) r ∧ ascending r
  end.

(** An entry that [_normalizeHistoryItem] returns as it is, whatever the
    clock reads. *)
Definition Normal (h : HistoryItem) : Prop :=
  ∀ now, _normalizeHistoryItem now h = Some h.

(** A list as [_compactHistory] leaves it. *)
Definition Compacted (l : list HistoryItem) : Prop :=
  Forall Normal l ∧ NoDup (h_sessionId <$> l) ∧ ascending l ∧ len l ≤ 80.

(** The history directory a restarted server finds: the files as they are,
    and no runtime snapshot. *)
Definition filesAfterShutdown (st : Manager) : FileSystem :=
  {| fs_historyFiles := historyFiles st;
     fs_runtimeStateFile := None;
     fs_transcriptFiles := transcriptFiles st |}.

(** An entry without the two properties that normalization drops. *)
Definition bare (h : HistoryItem) : Prop :=
  h_username h = None ∧ h_lastActivityAt h = None.

(** What the two loops of [getUserSessionHistory] compute: under each
    session id, the last normalized record seen so far. *)
Definition latestOf (recs : list HistoryItem) (m : list (jsstring * HistoryItem)) : Prop :=
  keyed m ∧ Forall bare m.*2
  ∧ ∀ sid, JsMap.get sid m = last (filter (λ h, h_sessionId h = Some sid) recs).

(** ** Notions used to state properties of the terminal replay *)

(** A code unit that the input line keeps, [ch >= ' ' && ch !== '\u007f']:
    anything from U+0020 on but DEL.  The controls U+0080 to U+009F and the
    surrogates pass this test. *)
Definition typedChar (c : N) : Prop := (32 ≤ c)%N ∧ c ≠ 127%N.

(** A code unit that may stand in the replay buffer: tab, line feed, or a
    code unit that the input line keeps. *)
Definition replayChar (c : N) : Prop := c = 9%N ∨ c = LF ∨ typedChar c.

(** The bound kept on the replay buffer: beyond 600000 code units, the last
    400000 remain. *)
Definition cappedReplay (b : jsstring) : jsstring :=
  if decide (600000 < len b) then sliceLast 400000 b else b.

(** One reply to a device-attributes query, [ESC [ ? params c] or
    [ESC [ > params c]. *)
Definition deviceAttrsReply (g : N * jsstring) : jsstring :=
  [27; 91; g.1]%N ++ g.2 ++ [99]%N.

(** ** Notions used to state properties of the transcript *)

(** The number of code units held by a list of messages. *)
Definition totalContent (ms : list Message) : Z :=
  foldr (λ m acc, len (content m) + acc) 0 ms.

(** The replay buffer is within its bound and holds, of the code units
    below U+0020 and DEL, only tab and line feed; the input line holds
    code units from U+0020 on other than DEL. *)
Definition replayOK (s : Session) : Prop :=
  len (terminalReplayBuffer s) ≤ 600000
  ∧ Forall replayChar (terminalReplayBuffer s)
  ∧ Forall typedChar (terminalInputLine s).

(** ** Notions used to state properties of timers and sessions *)

(** The timer events that carry a simulated typing to its end: one timer
    after each batch but the last, with ids counting up from [k]. *)
Definition typingTicks (k : nat) (times : list Z) : list (Z * Event) :=
  imap (λ i t, (t, ETimer (k + i))) times.

(** [s'] is the session object [s] at a later time: what identifies the
    session is the same. *)
Definition sameSession (s s' : Session) : Prop :=
  sessionId s' = sessionId s ∧ username s' = username s ∧ agentId s' = agentId s
  ∧ modelId s' = modelId s ∧ createdAt s' = createdAt s ∧ mode s' = mode s
  ∧ hasTranscript s' = hasTranscript s
  ∧ onData s' = onData s ∧ onExit s' = onExit s.

(** [s'] is a later state of the session object [s]: the same session, and
    ready if [s] was. *)
Definition laterOf (s s' : Session) : Prop :=
  sameSession s s' ∧ (started s = true → started s' = true).

(** The event is a [createSession] call that, its agent known, makes a
    session under the id [sid]. *)
Definition createsId (sid : jsstring) (e : Z * Event) : Prop :=
  match e.2 with
  | ECreateSession user agent _ _ _ _ =>
      user ++ lit "-" ++ agent ++ lit "-" ++ numToString e.1 = sid
  | _ => False
  end.

(** The event is output of the process of the session object at [a]. *)
Definition outputOf (a : nat) (e : Z * Event) : Prop :=
  match e.2 with
  | EPtyData b _ => b = a
  | _ => False
  end.

(** ** Notions used to state properties of the input queue *)

(** The events that may fall between the creation of a session and its
    readiness without creating or ending a session: input, messages, files,
    subscribers, resizes, timers and output, of this or of any other
    session. *)
Definition ongoing (e : Z * Event) : Prop :=
  match e.2 with
  | ESendInput _ _ | ESendChatInput _ _ | ERecordUserMessage _ _ | EAddFile _ _ _
  | EAddSubscriber _ _ | ERemoveSubscriber _ _ | EResize _ _ _
  | ETimer _ | EPtyData _ _ => True
  | _ => False
  end.

(** The chunks that the events submit to the session [sid], in order: the
    text of a [sendInput] call, the text and a carriage return of a
    [sendChatInput] call. *)
Definition inputsTo (sid : jsstring) (es : list (Z * Event)) : list jsstring :=
  omap (λ e : Z * Event,
          match e.2 with
          | ESendInput sid' text => if decide (sid' = sid) then Some text else None
          | ESendChatInput sid' text =>
              if decide (sid' = sid) then Some (text ++ [CR]) else None
          | _ => None
          end) es.

(** [w] is the start command written by a timer of the session object [a]
    that is pending in [st] and fires in [es]. *)
Definition startCommandOf (a : nat) (st : Manager) (es : list (Z * Event))
    (w : jsstring) : Prop :=
  ∃ t id ag model,
    (t, ETimer id) ∈ es
    ∧ timers st !! id = Some (TStartCommand a ag model)
    ∧ w = _buildStartCommand ag model ++ [CR].

(** A timer whose body writes to the process of the object [a] without
    making the session ready: its delayed start command, or a batch of a
    simulated typing. *)
Definition ownTimer (a : nat) (t : Timer) : Prop :=
  match t with
  | TStartCommand b _ _ | TTypeNext b _ => b = a
  | TReadyFallback _ => False
  end.

(** No batch of a simulated typing is pending for the object [a]. *)
Definition noTyping (a : nat) (st : Manager) : Prop :=
  ∀ id chars, timers st !! id ≠ Some (TTypeNext a chars).

(** The length of the queue after [n] chunks have been pushed on an empty
    queue: the push that makes it 201 long cuts it to 120. *)
Definition queueLength (n : Z) : Z :=
  if decide (n ≤ 200) then n else 120 + (n - 201) mod 81.

(** Nothing happens to the waiting session at [a] between [st] and [st']:
    the session map, the queue and the readiness of the object and what has
    been written to its process are the same, and no timer of its own has
    been added. *)
Definition waits (a : nat) (st st' : Manager) : Prop :=
  sessions st' = sessions st
  ∧ (∀ s, objs st !! a = Some s →
       ∃ s', objs st' !! a = Some s'
             ∧ pendingInputs s' = pendingInputs s ∧ started s' = started s)
  ∧ ptyWrites a (trace st') = ptyWrites a (trace st)
  ∧ (∀ id t, timers st' !! id = Some t → ownTimer a t → timers st !! id = Some t).

(** What one event [e] does to the session [sid] that waits at [a] in
    [st], [st'] being the state after it: the session is still there, and
    either it has become ready, or it still waits -- then its queue has
    taken the chunk that [e] submits to it, if any, the only writes to its
    process are start commands of its timers, and no timer of its own has
    been added. *)
Definition waitingStep (sid : jsstring) (a : nat) (s : Session) (st : Manager)
    (e : Z * Event) (st' : Manager) : Prop :=
  ∃ s', lookupSession sid st' = Some (a, s')
    ∧ (started s' = true
       ∨ (started s' = false
          ∧ pendingInputs s'
            = match inputsTo sid [e] with
              | [] => pendingInputs s
              | text :: _ => pendingInputs (enqueuePending text s)
              end
          ∧ (∃ ws, ptyWrites a (trace st') = ptyWrites a (trace st) ++ ws
                   ∧ Forall (startCommandOf a st [e]) ws)
          ∧ (∀ id t, timers st' !! id = Some t → ownTimer a t →
               timers st !! id = Some t))).

(** ** Notions used to state invariants of the manager *)

(** [st'] has no session id that [st] does not have, and the session
    objects of [st], each possibly updated. *)
Definition keepsSessions (st st' : Manager) : Prop :=
  sessions st' `sublist_of` sessions st ∧ dom (objs st') = dom (objs st).

(** The session map is well formed: its ids are distinct, no two ids share a
    session object, and the object of an id is allocated and carries the id
    as its [sessionId]. *)
Definition wellFormed (st : Manager) : Prop :=
  NoDup (sessions st).*1
  ∧ NoDup (sessions st).*2
  ∧ ∀ p, p ∈ sessions st → ∃ s, objs st !! p.2 = Some s ∧ sessionId s = p.1.

(** The buffers of a session are within their bounds: at most 200 queued
    inputs, at most 200000 code units of raw output, and a replay buffer of
    at most 600000 code units whose only code units below U+0020 are tab and
    line feed, and without DEL. *)
Definition withinLimits (s : Session) : Prop :=
  len (pendingInputs s) ≤ 200
  ∧ len (outputBuffer s) ≤ 200000
  ∧ replayOK s.


(** ** Notions used to state properties of transcript files *)

(** A name that is one path segment: no separator, and not empty, [.] or
    [..]. *)
Definition plainName (s : jsstring) : Prop :=
  (47%N ∉ s) ∧ s ≠ [] ∧ s ≠ lit "." ∧ s ≠ lit "..".

(** The path stays inside the sessions directory. *)
Definition insideSessionsDir (p : Path) : Prop := p.1 = 0%nat.

(** ** A concrete installation

    Used to run the model on explicit inputs. *)

Definition demoOracles : TextOracles :=
  {| stripAnsi := λ s, s;
     stripOsc := λ s, s;
     isNoiseLine := λ _, false;
     _isSessionReadySignal := λ d, bool_decide (d = lit "> ") |}.

Definition demoAgents : list Agent :=
  [ mkAgent (lit "codex") (lit "codex") (Some []) None None;
    mkAgent (lit "gemini") (lit "gemini") (Some []) None None ].

Definition demoConfig : Config := mkConfig demoAgents None.

Definition emptyFS : FileSystem := mkFileSystem ∅ None ∅.

Definition demoManager : Manager := newManager demoConfig emptyFS 1000.

(** Alice starts a chat session with the codex agent at time 2000. *)
Definition demoCreated : Manager :=
  (createSession (lit "alice") (lit "codex") None None None None 2000 demoManager).1.

Definition demoSid : jsstring := lit "alice-codex-2000".

Definition demoSession : Session :=
  {| sessionId := demoSid;
     agentId := lit "codex";
     modelId := lit "default";
     username := lit "alice";
     createdAt := 2000;
     lastActivityAt := 2000;
     outputBuffer := [];
     terminalReplayBuffer := [];
     terminalInputLine := [];
     messages := [];
     lastAssistantIndex := -1;
     started := false;
     mode := Chat;
     hasTranscript := true;
     title := lit "codex / default";
     _historySaved := false;
     _startCommandSent := false;
     _readyFallbackTimer := None;
     subscribers := [];
     files := [];
     pendingInputs := [];
     userMessageCount := 0;
     onData := None;
     onExit := None |}.

Definition demoCalls : list (Z * InputCall) :=
  [ (2001, CallSendInput (lit "ls"));
    (2002, CallSendChatInput (lit "hello")) ].

(** Bob starts a chat session with the gemini agent at time 3000. *)
Definition demoGemini : Manager :=
  (createSession (lit "bob") (lit "gemini") None None None None 3000 demoManager).1.

Definition demoGeminiSid : jsstring := lit "bob-gemini-3000".

Definition demoGeminiSession : Session :=
  {| sessionId := demoGeminiSid;
     agentId := lit "gemini";
     modelId := lit "default";
     username := lit "bob";
     createdAt := 3000;
     lastActivityAt := 3000;
     outputBuffer := [];
     terminalReplayBuffer := [];
     terminalInputLine := [];
     messages := [];
     lastAssistantIndex := -1;
     started := false;
     mode := Chat;
     hasTranscript := true;
     title := lit "gemini / default";
     _historySaved := false;
     _startCommandSent := false;
     _readyFallbackTimer := None;
     subscribers := [];
     files := [];
     pendingInputs := [];
     userMessageCount := 0;
     onData := None;
     onExit := None |}.

Definition demoPrompt : jsstring := lit "summarise the attached report".

(** What happens to Alice's session before she says anything: the shell
    prints its banner, the start command is sent, the agent prints its own
    banner and prompt, and a subscriber attaches. *)
Definition demoViewer : Callback := mkCallback 7 (λ _, false).
Definition demoFailingViewer : Callback := mkCallback 8 (λ _, true).

Definition demoBanner : list (Z * Event) :=
  [ (2100, EPtyData 0 (lit "bash-5.1$ "));
    (2500, ETimer 0);
    (2600, EAddSubscriber demoSid demoViewer);
    (2700, EPtyData 0 (lit "Welcome to Codex" ++ [LF]));
    (2800, EPtyData 0 (lit "> ")) ].

(** Two viewers of Alice's session; the first one throws on every call. *)
Definition demoFanout : Manager :=
  addSubscriber demoSid demoViewer (addSubscriber demoSid demoFailingViewer demoCreated).

Definition demoFanoutSession : Session :=
  set_subscribers [demoFailingViewer; demoViewer] demoSession.

Definition demoChunks : list (Z * jsstring) :=
  [ (3000, lit "Hello"); (3001, lit " world") ].

(** An installation whose agent ids contain a dash.  User [dev] runs and
    ends a chat session of the agent [claude-code]; in the same millisecond
    user [dev-claude] starts a session of the agent [code].  Both sessions
    get the id [dev-claude-code-5000]. *)
Definition dashAgents : list Agent :=
  [ mkAgent (lit "claude-code") (lit "claude") (Some []) None None;
    mkAgent (lit "code") (lit "code") (Some []) None None ].

Definition dashManager : Manager := newManager (mkConfig dashAgents None) emptyFS 1000.

Definition dashSid : jsstring := lit "dev-claude-code-5000".

Definition dashEvents : list (Z * Event) :=
  [ (5000, ECreateSession (lit "dev") (lit "claude-code") None None None None);
    (5000, ERecordUserMessage dashSid (lit "my notes"));
    (5000, EDestroySession dashSid);
    (5000, ECreateSession (lit "dev-claude") (lit "code") None None None None) ].



(** History directories found at a restart.  [snapshotEntry] is an entry of
    the runtime snapshot, [endedEntry] an entry of a user's history file. *)
Definition snapshotEntry (user sid : jsstring) (created : Z) : HistoryItem :=
  {| h_sessionId := Some sid;
     h_username := Some user;
     h_agentId := Some (lit "codex");
     h_modelId := Some (lit "default");
     h_mode := Some (lit "chat");
     h_createdAt := Some created;
     h_lastActivityAt := Some created;
     h_endedAt := None;
     h_filesCount := Some 0;
     h_title := Some (lit "codex / default");
     h_hasTranscript := Some true;
     h_endedReason := None |}.

Definition endedEntry (sid : jsstring) (created : Z) : HistoryItem :=
  {| h_sessionId := Some sid;
     h_username := None;
     h_agentId := Some (lit "codex");
     h_modelId := Some (lit "default");
     h_mode := Some (lit "chat");
     h_createdAt := Some created;
     h_lastActivityAt := None;
     h_endedAt := Some (created + 60000);
     h_filesCount := Some 0;
     h_title := Some (lit "codex / default");
     h_hasTranscript := Some true;
     h_endedReason := None |}.


(** Alice's history file is full: eighty sessions started and ended after
    her session of time 7, which was still live when the server stopped. *)
Definition fullHistory : list HistoryItem :=
  (λ i, endedEntry (lit "alice-codex-" ++ numToString i) i) <$> seqZ 1001 80.


(** A history list with a repeated session id, and a list one entry longer
    than a history may be. *)
Definition repeatedHistory : list HistoryItem :=
  [ endedEntry (lit "alice-codex-100") 100;
    snapshotEntry (lit "alice") (lit "alice-codex-2000") 2000;
    endedEntry (lit "alice-codex-100") 300 ].

Definition overfullHistory : list HistoryItem :=
  endedEntry (lit "alice-codex-7") 7 :: fullHistory.

(** Alice renames her live session and then ends it. *)
Definition renamedEvents : list (Z * Event) :=
  [ (2000, ECreateSession (lit "alice") (lit "codex") None None None None);
    (2100, ESetSessionTitle (lit "alice") demoSid (lit "my project"));
    (2200, EDestroySession demoSid) ].

Definition renamedState : Manager := @run demoOracles demoManager renamedEvents.

(** The entry of that session as [_saveHistory] writes it, and as the
    listing reports it. *)
Definition renamedOnDisk : HistoryItem :=
  {| h_sessionId := Some demoSid;
     h_username := None;
     h_agentId := Some (lit "codex");
     h_modelId := Some (lit "default");
     h_mode := Some (lit "chat");
     h_createdAt := Some 2000;
     h_lastActivityAt := None;
     h_endedAt := Some 2200;
     h_filesCount := Some 0;
     h_title := Some (lit "my project");
     h_hasTranscript := Some true;
     h_endedReason := None |}.

Definition renamedAsListed : HistoryItem :=
  set_h_title (Some (lit "codex / default")) renamedOnDisk.

(** A terminal session of Alice in which [ls] has been typed and not yet
    entered. *)
Definition demoTerminal : Session :=
  {| sessionId := demoSid;
     agentId := lit "codex";
     modelId := lit "default";
     username := lit "alice";
     createdAt := 2000;
     lastActivityAt := 2000;
     outputBuffer := [];
     terminalReplayBuffer := lit "$ ";
     terminalInputLine := lit "ls";
     messages := [];
     lastAssistantIndex := -1;
     started := true;
     mode := Terminal;
     hasTranscript := false;
     title := lit "codex / default";
     _historySaved := false;
     _startCommandSent := true;
     _readyFallbackTimer := None;
     subscribers := [];
     files := [];
     pendingInputs := [];
     userMessageCount := 0;
     onData := None;
     onExit := None |}.

(** Two replies of a terminal to a device-attributes query. *)
Definition demoReplies : list (N * jsstring) :=
  [ (63%N, lit "1;2"); (62%N, lit "0;276;0") ].

(** Alice's chat session, ready, after her first message. *)
Definition demoAsked : Session :=
  pushUserMessage 2900 (lit "hello") (set_started true demoSession).

Definition demoReplyChunks : list (Z * jsstring) :=
  [ (2950, lit "Hi "); (2960, lit "Alice") ].

(** The same session after a reply of two million characters. *)
Definition demoLongReply : Message :=
  mkMessage Assistant (replicate (Z.to_nat 2000000) 97%N) 2950.

Definition demoFlooded : Session :=
  set_lastAssistantIndex 1
    (set_messages [mkMessage User (lit "hello") 2900; demoLongReply] demoAsked).

Definition demoCodex : Agent := mkAgent (lit "codex") (lit "codex") (Some []) None None.

(** Alice's session once the agent has started: the start command has been
    sent at 2500 and the prompt has arrived at 2800. *)
Definition demoReady : Manager :=
  @run demoOracles demoCreated [(2500, ETimer 0); (2800, EPtyData 0 (lit "> "))].

Definition demoReadySession : Session :=
  set_outputBuffer (lit "> ")
    (set_lastActivityAt 2800 (set__startCommandSent true (set_started true demoSession))).

(** A session id that climbs out of the requester's directory into
    Alice's. *)
Definition demoTraversal : jsstring := lit "../alice/alice-codex-2000".



(** What happens after Alice's session has been destroyed: its two timers
    fire, Bob starts a session and types into it, Alice asks for her history,
    and the idle sweep runs. *)
Definition demoAfterwards : list (Z * Event) :=
  [ (2500, ETimer 0%nat);
    (3000, ECreateSession (lit "bob") (lit "gemini") None None None None);
    (3100, ESendChatInput (lit "bob-gemini-3000") (lit "hello"));
    (3500, ETimer 1%nat);
    (4000, EPtyData 1%nat (lit "> "));
    (4100, ESendChatInput (lit "bob-gemini-3000") (lit "hello"));
    (5000, EGetUserSessionHistory (lit "alice"));
    (7000, ETimer 0%nat);
    (9000, EPtyExit 0%nat 0 0);
    (2000000, EIdleCheck) ].

(** What happens while Alice's session waits: she types, the start-command
    timer fires, she sends a chat message, the shell prints something that
    is no prompt, and a viewer subscribes. *)
Definition demoWaiting : list (Z * Event) :=
  [ (2001, ESendInput demoSid (lit "ls"));
    (2500, ETimer 0%nat);
    (2600, ESendChatInput demoSid (lit "hello"));
    (2700, EPtyData 0%nat (lit "booting"));
    (2800, EAddSubscriber demoSid demoViewer) ].

(** * Properties *)

Section StoreFacts.
Context `{TextOracles}.

(** ** Object store and maps *)

Lemma JsMap_get_delete {V} (k : jsstring) (m : list (jsstring * V)) :
  JsMap.get k (JsMap.delete k m) = None.
Proof.
  unfold JsMap.delete. induction m as [|[k' v] m IH]; [done|].
  rewrite filter_cons. simpl. destruct (decide (k' ≠ k)) as [Hne|Heq].
  - simpl. destruct (decide (k = k')); [congruence|done].
  - done.
Qed.

Lemma sessions_persist now st :
  sessions (_persistRuntimeState now st) = sessions st.
Proof.
  unfold _persistRuntimeState.
  destruct (snapshotItem <$> liveSessions st); [destruct (runtimeStateFile st)|]; done.
Qed.

Lemma sessions_markEnded user sid t st :
  sessions (_markUserSessionEnded user sid t st) = sessions st.
Proof. unfold _markUserSessionEnded. by destruct (userSessions st !! user). Qed.

Lemma sessions_unregister user sid now st :
  sessions (unregister user sid now st) = JsMap.delete sid (sessions st).
Proof.
  unfold unregister. rewrite sessions_persist, sessions_markEnded.
  by destruct (activeSessions _ !! user).
Qed.

Lemma lookupSession_unregister user sid now st :
  lookupSession sid (unregister user sid now st) = None.
Proof.
  unfold lookupSession. by rewrite sessions_unregister, JsMap_get_delete.
Qed.


(** ** Footprints of the session functions *)

Lemma replayKey_footprint s ch :
  ∃ b l, replayKey s ch = set_terminalInputLine l (set_terminalReplayBuffer b s).
Proof.
  unfold replayKey. destruct s.
  repeat case_decide; try case_match; simpl; do 2 eexists; unfold set_terminalInputLine, set_terminalReplayBuffer; simpl; reflexivity.
Qed.

Lemma capReplayBuffer_footprint s :
  ∃ b, capReplayBuffer s = set_terminalReplayBuffer b s.
Proof. unfold capReplayBuffer. destruct s. case_decide; eexists; reflexivity. Qed.

Lemma replay_footprint chunk s :
  ∃ b l, _appendTerminalInputReplay chunk s
         = set_terminalInputLine l (set_terminalReplayBuffer b s).
Proof.
  assert (Hid : ∃ b l, s = set_terminalInputLine l (set_terminalReplayBuffer b s))
    by (destruct s; do 2 eexists; reflexivity).
  assert (Hfold : ∀ cs s0, (∃ b l, s0 = set_terminalInputLine l (set_terminalReplayBuffer b s)) →
            ∃ b l, foldl replayKey s0 cs
                   = set_terminalInputLine l (set_terminalReplayBuffer b s)).
  { induction cs as [|c cs IH]; intros s0 Hs0; [done|]. simpl. apply IH.
    destruct Hs0 as (b & l & ->). destruct (replayKey_footprint
      (set_terminalInputLine l (set_terminalReplayBuffer b s)) c) as (b' & l' & ->).
    do 2 eexists; reflexivity. }
  unfold _appendTerminalInputReplay. case_decide; [done|].
  destruct chunk as [|c cs]; [done|].
  case_match; [done|]. case_match; [done|].
  destruct (Hfold (c :: cs) s Hid) as (b & l & ->).
  destruct (capReplayBuffer_footprint (set_terminalInputLine l (set_terminalReplayBuffer b s)))
    as (b' & ->). do 2 eexists; reflexivity.
Qed.


(** ** The object store *)

Lemma updObj_lookup a f st :
  objs (updObj a f st) !! a = f <$> objs st !! a.
Proof. unfold updObj. simpl. apply lookup_alter_eq. Qed.

Lemma updObj_lookup_ne a b f st :
  a ≠ b → objs (updObj a f st) !! b = objs st !! b.
Proof. intros. unfold updObj. simpl. by apply lookup_alter_ne. Qed.

Lemma lookupSession_updObj sid a s f st :
  lookupSession sid st = Some (a, s) →
  lookupSession sid (updObj a f st) = Some (a, f s).
Proof.
  unfold lookupSession. simpl. intros Hl.
  destruct (JsMap.get sid (sessions st)) as [a'|]; [|done]. simpl in *.
  destruct (objs st !! a') as [s'|] eqn:Hs; [|done]. simpl in Hl.
  injection Hl as -> ->. by rewrite lookup_alter_eq, Hs.
Qed.

Lemma lookupSession_obj sid a s st :
  lookupSession sid st = Some (a, s) → objs st !! a = Some s.
Proof.
  unfold lookupSession. intros Hl.
  destruct (JsMap.get sid (sessions st)) as [a'|]; [|done]. simpl in *.
  destruct (objs st !! a') as [s'|] eqn:Hs; [|done]. simpl in Hl. by injection Hl as -> ->.
Qed.

End StoreFacts.

(** ** Destruction and creation (C3, C7) *)

Section Lifecycle.
Context `{TextOracles}.

(** C3. [destroySession] is idempotent: a second call with the same id (at
    any later time) finds no session under that id and changes nothing, so
    the whole manager state -- the session map, the per-user lists, the
    history cache and files, the snapshot, and the record of external
    actions -- is the one left by the first call. *)
Theorem destroySession_idempotent (sid : jsstring) (now1 now2 : Z) (st : Manager) :
  destroySession sid now2 (destroySession sid now1 st) = destroySession sid now1 st.
Proof.
  unfold destroySession at 2 3.
  destruct (lookupSession sid st) as [[a s]|] eqn:Hl.
  - unfold destroySession. by rewrite lookupSession_unregister.
  - unfold destroySession. by rewrite Hl.
Qed.

(** C7. [createSession] with an agent id that is not in the configured
    table throws before anything else happens: the manager state is returned
    unchanged (session map, per-user active and history lists, snapshot
    file), and no pseudo-terminal is spawned. *)
Theorem createSession_unknown_agent (user agent : jsstring) (model mode_ : option jsstring)
    (onData_ onExit_ : option Callback) (now : Z) (st : Manager) :
  agents st !! agent = None →
  let r := createSession user agent model mode_ onData_ onExit_ now st in
  r.2 = Thrown (errUnknownAgent ++ agent)
  ∧ r.1 = st
  ∧ sessions r.1 = sessions st
  ∧ activeSessions r.1 = activeSessions st
  ∧ userSessions r.1 = userSessions st
  ∧ runtimeStateFile r.1 = runtimeStateFile st
  ∧ trace r.1 = trace st.
Proof.
  intros Hnone. unfold createSession. rewrite Hnone. simpl. done.
Qed.

End Lifecycle.

Lemma createSession_unknown_agent_witness :
  agents demoManager !! lit "claude" = None
  ∧ (createSession (lit "alice") (lit "claude") None None None None 2000 demoManager).1
    = demoManager.
Proof.
  assert (Hn : agents demoManager !! lit "claude" = None) by (vm_compute; reflexivity).
  split; [exact Hn|].
  exact (proj1 (proj2 (createSession_unknown_agent (lit "alice") (lit "claude")
                         None None None None 2000 demoManager Hn))).
Defined.

Section Queueing.
Context `{TextOracles}.

(** ** Queueing before readiness (C1) *)

Lemma sliceLast_suffix {A} n (l : list A) : sliceLast n l `suffix_of` l.
Proof. apply suffix_drop. Qed.

Lemma queued_step sid a s text now st :
  lookupSession sid st = Some (a, s) → started s = false →
  ∃ s', lookupSession sid (sendInput sid text now st).1 = Some (a, s')
        ∧ (sendInput sid text now st).2 = Returned ()
        ∧ trace (sendInput sid text now st).1 = trace st
        ∧ started s' = false
        ∧ pendingInputs s' = pendingInputs (enqueuePending text s).
Proof.
  intros Hl Hs. unfold sendInput. rewrite Hl, Hs. simpl.
  eexists. split.
  { apply lookupSession_updObj. by apply lookupSession_updObj. }
  destruct (replay_footprint text s) as (b & l & ->). done.
Qed.

Lemma queued_chat_step sid a s text now st :
  lookupSession sid st = Some (a, s) → started s = false →
  ∃ s', lookupSession sid (sendChatInput sid text now st).1 = Some (a, s')
        ∧ (sendChatInput sid text now st).2 = Returned ()
        ∧ trace (sendChatInput sid text now st).1 = trace st
        ∧ started s' = false
        ∧ pendingInputs s' = pendingInputs (enqueuePending (text ++ [CR]) s).
Proof.
  intros Hl Hs. unfold sendChatInput. rewrite Hl, Hs. simpl.
  eexists. split.
  { apply lookupSession_updObj. by apply lookupSession_updObj. }
  destruct (replay_footprint (text ++ [CR]) s) as (b & l & ->). done.
Qed.

Lemma flush_trace a s now st :
  objs st !! a = Some s →
  trace (_flushPendingInputs a now st) = trace st ++ (PtyWrite a <$> pendingInputs s).
Proof.
  intros Hs. unfold _flushPendingInputs. rewrite Hs.
  destruct (pendingInputs s) as [|c q] eqn:Hq; [by rewrite app_nil_r|].
  generalize (c :: q). intros l.
  change (trace st) with (trace (updObj a (set_pendingInputs []) st)).
  generalize (updObj a (set_pendingInputs []) st). clear.
  induction l as [|x l IH]; intros st; simpl; [by rewrite app_nil_r|].
  rewrite IH. simpl. by rewrite <- app_assoc.
Qed.

Lemma clearReadyFallback_trace a st : trace (clearReadyFallback a st) = trace st.
Proof. unfold clearReadyFallback. repeat case_match; done. Qed.

Lemma clearReadyFallback_obj a s st :
  objs st !! a = Some s →
  objs (clearReadyFallback a st) !! a = Some (set__readyFallbackTimer None s).
Proof.
  intros Hs. unfold clearReadyFallback. rewrite Hs.
  destruct (_readyFallbackTimer s) eqn:Ht.
  - rewrite updObj_lookup. simpl. by rewrite Hs.
  - rewrite Hs. f_equal. destruct s; simpl in *; by subst.
Qed.

Lemma markReady_trace a s now st :
  objs st !! a = Some s → started s = false →
  trace (_markSessionReady a now st) = trace st ++ (PtyWrite a <$> pendingInputs s).
Proof.
  intros Hs Hst. unfold _markSessionReady. rewrite Hs, Hst.
  erewrite flush_trace.
  2:{ apply clearReadyFallback_obj. rewrite updObj_lookup, Hs. done. }
  by rewrite clearReadyFallback_trace.
Qed.


Lemma flush_obj a s now st :
  objs st !! a = Some s →
  ∃ s', objs (_flushPendingInputs a now st) !! a = Some s'
        ∧ started s' = started s ∧ pendingInputs s' = [].
Proof.
  intros Hs. unfold _flushPendingInputs. rewrite Hs.
  destruct (pendingInputs s) as [|c q] eqn:Hq; [by eauto|].
  assert (Hfold : ∀ l st0 s0, objs st0 !! a = Some s0 → pendingInputs s0 = [] →
            ∃ s', objs (foldl (λ st chunk, log (PtyWrite a chunk)
                                 (updObj a (_touchSession now) st)) st0 l) !! a = Some s'
                  ∧ started s' = started s0 ∧ pendingInputs s' = []).
  { induction l as [|x l IH]; intros st0 s0 H0 Hp; simpl; [by eauto|].
    edestruct (IH (log (PtyWrite a x) (updObj a (_touchSession now) st0))
                 (_touchSession now s0))
      as (s' & ? & ? & ?); [| |by eauto].
    - simpl. rewrite lookup_alter_eq, H0. done.
    - done. }
  edestruct (Hfold (c :: q) (updObj a (set_pendingInputs []) st) (set_pendingInputs [] s))
    as (s' & ? & ? & ?); [| |by eauto].
  - rewrite updObj_lookup, Hs. done.
  - done.
Qed.

Lemma markReady_obj a s now st :
  objs st !! a = Some s → started s = false →
  ∃ s', objs (_markSessionReady a now st) !! a = Some s'
        ∧ started s' = true ∧ pendingInputs s' = [].
Proof.
  intros Hs Hst. unfold _markSessionReady. rewrite Hs, Hst.
  edestruct flush_obj as (s' & Hs' & Hst' & Hq').
  { apply clearReadyFallback_obj. rewrite updObj_lookup, Hs. done. }
  exists s'. by rewrite Hst'.
Qed.

Lemma queued_run sid a (calls : list (Z * InputCall)) : ∀ s st,
  lookupSession sid st = Some (a, s) → started s = false →
  trace (run st (inputEvent sid <$> calls)) = trace st
  ∧ ∃ s1, lookupSession sid (run st (inputEvent sid <$> calls)) = Some (a, s1)
      ∧ started s1 = false
      ∧ pendingInputs s1 `suffix_of` pendingInputs s ++ (submittedText ∘ snd <$> calls)
      ∧ (len (pendingInputs s ++ (submittedText ∘ snd <$> calls)) ≤ 200 →
         pendingInputs s1 = pendingInputs s ++ (submittedText ∘ snd <$> calls)).
Proof.
  induction calls as [|[now c] calls IH]; intros s st Hl Hs.
  - simpl. rewrite app_nil_r. split; [done|]. exists s. by split_and!.
  - assert (Hstep : ∃ s', lookupSession sid (step st (inputEvent sid (now, c))) = Some (a, s')
              ∧ trace (step st (inputEvent sid (now, c))) = trace st
              ∧ started s' = false
              ∧ pendingInputs s' = pendingInputs (enqueuePending (submittedText c) s)).
    { destruct c as [text|text]; simpl.
      - destruct (queued_step sid a s text now st Hl Hs) as (s' & ? & ? & ? & ? & ?); eauto.
      - destruct (queued_chat_step sid a s text now st Hl Hs) as (s' & ? & ? & ? & ? & ?); eauto. }
    destruct Hstep as (s' & Hl' & Htr & Hs' & Hq).
    change (run st (inputEvent sid <$> (now, c) :: calls))
      with (run (step st (inputEvent sid (now, c))) (inputEvent sid <$> calls)).
    destruct (IH s' _ Hl' Hs') as (Htr1 & s1 & Hl1 & Hs1 & Hsuf & Hall).
    split; [congruence|]. exists s1. split_and!; [done..| |].
    + etrans; [exact Hsuf|]. rewrite Hq. rewrite fmap_cons, cons_middle, (assoc_L (++)).
      change ((submittedText ∘ snd) (now, c)) with (submittedText c).
      apply suffix_app. unfold enqueuePending. simpl.
      case_decide; [apply sliceLast_suffix|done].
    + rewrite fmap_cons, cons_middle, (assoc_L (++)).
      change ((submittedText ∘ snd) (now, c)) with (submittedText c). intros Hlen.
      assert (Hcap : pendingInputs s' = pendingInputs s ++ [submittedText c]).
      { rewrite Hq. unfold enqueuePending. simpl. case_decide as Hc; [|done].
        unfold len in *. rewrite !length_app in *. simpl in *. lia. }
      rewrite <- Hcap. apply Hall. by rewrite Hcap.
Qed.

End Queueing.

Section Pacing.
Context `{TextOracles}.

(** ** Pacing of queued chat input (C5) *)

Lemma codePoints_cons c r : ∃ p ps, codePoints (c :: r) = p :: ps.
Proof. simpl. destruct r; [eauto|]. case_match; eauto. Qed.

Lemma lookupSession_has sid a s st :
  lookupSession sid st = Some (a, s) → JsMap.has sid (sessions st) = true.
Proof.
  unfold lookupSession, JsMap.has. intros Hl.
  by destruct (JsMap.get sid (sessions st)).
Qed.

(** C5 (what the code does). For a session of the agent [gemini], a chat
    message sent while the session is ready goes through [_simulateTyping]:
    the first write carries at most ten characters and a timer is armed for
    the rest.  The same message sent before readiness is queued, and the
    flush at readiness hands it to the process in one write, arming no
    timer: queued chat input is not paced. *)
Theorem queued_chat_input_is_written_whole (sid : jsstring) (a : nat) (s : Session)
    (text : jsstring) (now now' : Z) (st : Manager) :
  lookupSession sid st = Some (a, s) →
  sessionId s = sid →
  agentId s = lit "gemini" →
  pendingInputs s = [] →
  let fullText := text ++ [CR] in
  let st1 := (sendChatInput sid text now st).1 in
  (started s = false →
     trace (_markSessionReady a now' st1) = trace st ++ [PtyWrite a fullText]
     ∧ nextTimerId (_markSessionReady a now' st1) = nextTimerId st)
  ∧ (started s = true →
     trace st1 = trace st ++ [PtyWrite a (concat (take 10 (codePoints fullText)))]
     ∧ (drop 10 (codePoints fullText) ≠ [] →
        timers st1 !! nextTimerId st = Some (TTypeNext a (drop 10 (codePoints fullText))))).
Proof.
  intros Hl Hsid Hag Hq fullText st1. split; intros Hst.
  - destruct (queued_chat_step sid a s text now st Hl Hst) as (s' & Hl' & _ & Htr & Hs' & Hq').
    fold st1 in Hl', Htr. apply lookupSession_obj in Hl'.
    rewrite (markReady_trace a s' now' st1 Hl' Hs'), Htr, Hq'.
    unfold enqueuePending. rewrite Hq. simpl. split; [done|].
    unfold _markSessionReady. rewrite Hl', Hs'.
    unfold _flushPendingInputs.
    rewrite (clearReadyFallback_obj a (set_started true s') (updObj a (set_started true) st1))
      by (by rewrite updObj_lookup, Hl').
    simpl. rewrite Hq'. unfold enqueuePending. rewrite Hq. simpl.
    unfold clearReadyFallback. rewrite updObj_lookup, Hl'. simpl.
    assert (Hn : nextTimerId st1 = nextTimerId st).
    { subst st1. unfold sendChatInput. rewrite Hl, Hst. done. }
    destruct (_readyFallbackTimer s'); simpl; exact Hn.
  - assert (Hfull : ∃ c r, text ++ [CR] = c :: r).
    { destruct text; simpl; eauto. }
    destruct Hfull as (c & r & Hfull).
    subst st1 fullText. unfold sendChatInput. rewrite Hl, Hst, Hfull.
    rewrite decide_True by done.
    unfold _simulateTyping, fst.
    destruct (codePoints_cons c r) as (p & ps & Hcp). rewrite Hcp.
    unfold typeNext.
    rewrite updObj_lookup, updObj_lookup, (lookupSession_obj _ _ _ _ Hl).
    cbn [fmap option_fmap option_map].
    destruct (replay_footprint (c :: r) s) as (b & l & Hfp). rewrite Hfp.
    cbn [fmap option_fmap option_map _touchSession sessionId set_lastActivityAt
         set_terminalInputLine set_terminalReplayBuffer].
    rewrite Hsid.
    replace (JsMap.has sid _) with true by (symmetry; exact (lookupSession_has _ _ _ _ Hl)).
    destruct (drop 10 (p :: ps)) eqn:Hd.
    + split; [done|]. by intros [].
    + split; [done|]. intros _. unfold setTimeout. simpl. by rewrite lookup_insert_eq.
Qed.

End Pacing.

Lemma queued_chat_input_is_written_whole_witness :
  lookupSession demoGeminiSid demoGemini = Some (0%nat, demoGeminiSession)
  ∧ sessionId demoGeminiSession = demoGeminiSid
  ∧ agentId demoGeminiSession = lit "gemini"
  ∧ pendingInputs demoGeminiSession = []
  ∧ started demoGeminiSession = false
  ∧ trace (_markSessionReady 0 3002 (sendChatInput demoGeminiSid demoPrompt 3001 demoGemini).1)
    = trace demoGemini ++ [PtyWrite 0 (demoPrompt ++ [CR])].
Proof.
  assert (Hl : lookupSession demoGeminiSid demoGemini = Some (0%nat, demoGeminiSession))
    by (vm_compute; reflexivity).
  split_and!; [exact Hl|reflexivity..|].
  exact (proj1 (proj1 (queued_chat_input_is_written_whole demoGeminiSid 0%nat
                         demoGeminiSession demoPrompt 3001 3002 demoGemini
                         Hl eq_refl eq_refl eq_refl) eq_refl)).
Defined.

(** The two deliveries of one message, side by side: queued and flushed, it
    reaches the process as a single write; sent to the ready session, it
    arrives in batches of ten characters, one per timer tick. *)
Example gemini_queued_versus_live :
  ptyWrites 0 (trace (@run demoOracles demoGemini
     [ (3500, ETimer 0%nat);
       (3600, ESendChatInput demoGeminiSid demoPrompt);
       (8000, ETimer 1%nat) ]))
  = [ lit "gemini" ++ [CR]; demoPrompt ++ [CR] ]
  ∧ ptyWrites 0 (trace (@run demoOracles demoGemini
     [ (3500, ETimer 0%nat);
       (8000, ETimer 1%nat);
       (8100, ESendChatInput demoGeminiSid demoPrompt);
       (8105, ETimer 2%nat);
       (8110, ETimer 3%nat) ]))
  = [ lit "gemini" ++ [CR]; lit "summarise "; lit "the attach"; lit "ed report" ++ [CR] ].
Proof. split; vm_compute; reflexivity. Qed.

Section Frames.
Context `{TextOracles}.
Variable P : Session → Prop.

(** ** Frame lemmas: what the operations do to session objects *)

Lemma stable_refl st : stable P st st.
Proof. intros a s Hs HP. eauto. Qed.

Lemma stable_trans st1 st2 st3 :
  stable P st1 st2 → stable P st2 st3 → stable P st1 st3.
Proof.
  intros H12 H23 a s Hs HP.
  destruct (H12 a s Hs HP) as (s2 & Hs2 & HP2). eauto.
Qed.

Lemma stable_objs st st' : objs st' = objs st → stable P st st'.
Proof. intros Heq a s Hs HP. rewrite Heq. eauto. Qed.

Lemma stable_updObj a f st :
  (∀ s, P s → P (f s)) → stable P st (updObj a f st).
Proof.
  intros Hf b s Hs HP. destruct (decide (a = b)) as [->|Hne].
  - exists (f s). rewrite updObj_lookup, Hs. auto.
  - exists s. rewrite updObj_lookup_ne by done. auto.
Qed.

Lemma objs_readHistory now user st :
  objs (_readHistoryForUser now user st).1 = objs st.
Proof. unfold _readHistoryForUser. repeat case_match; done. Qed.

Lemma objs_writeHistory by_ now user l st :
  objs (_writeHistoryForUser by_ now user l st) = objs st.
Proof. done. Qed.

Lemma objs_markEnded user sid t st :
  objs (_markUserSessionEnded user sid t st) = objs st.
Proof. unfold _markUserSessionEnded. by case_match. Qed.

Lemma objs_persist now st : objs (_persistRuntimeState now st) = objs st.
Proof. unfold _persistRuntimeState. repeat case_match; done. Qed.

Lemma objs_unregister user sid now st :
  objs (unregister user sid now st) = objs st.
Proof.
  unfold unregister. rewrite objs_persist, objs_markEnded. by case_match.
Qed.

Lemma objs_broadcast data subs st : objs (broadcast data subs st) = objs st.
Proof.
  unfold broadcast. revert st. induction subs as [|fn subs IH]; intros st; [done|].
  simpl. by rewrite IH.
Qed.

Hypothesis HP : RespectsIO P.

(** Peel the outermost state transformer off the goal. *)
Ltac respects := intros; repeat (apply HP); assumption.
Ltac peel :=
  lazymatch goal with
  | |- stable _ ?st ?st => apply stable_refl
  | |- stable _ _ (log _ ?x) => apply (stable_trans _ x); [|by apply stable_objs]
  | |- stable _ _ (updObj _ _ ?x) =>
      apply (stable_trans _ x); [|apply stable_updObj; respects]
  | |- stable _ _ (clearTimeout _ ?x) => apply (stable_trans _ x); [|by apply stable_objs]
  | |- stable _ _ (setTimeout _ ?x).1 => apply (stable_trans _ x); [|by apply stable_objs]
  | |- stable _ _ (_persistRuntimeState _ ?x) =>
      apply (stable_trans _ x); [|apply stable_objs, objs_persist]
  | |- stable _ _ (_markUserSessionEnded _ _ _ ?x) =>
      apply (stable_trans _ x); [|apply stable_objs, objs_markEnded]
  | |- stable _ _ (unregister _ _ _ ?x) =>
      apply (stable_trans _ x); [|apply stable_objs, objs_unregister]
  | |- stable _ _ (broadcast _ _ ?x) =>
      apply (stable_trans _ x); [|apply stable_objs, objs_broadcast]
  | |- stable _ _ (_writeHistoryForUser _ _ _ _ ?x) =>
      apply (stable_trans _ x); [|by apply stable_objs]
  | |- stable _ _ (invoke _ _ ?x).1 => apply (stable_trans _ x); [|by apply stable_objs]
  | |- stable _ _ (set_transcriptFiles _ ?x) =>
      apply (stable_trans _ x); [|by apply stable_objs]
  | |- stable _ _ (set__idleCheckTimer _ ?x) =>
      apply (stable_trans _ x); [|by apply stable_objs]
  | |- stable _ _ (set_timers _ ?x) => apply (stable_trans _ x); [|by apply stable_objs]
  | |- stable _ _ (set_nextTimerId _ ?x) => apply (stable_trans _ x); [|by apply stable_objs]
  | |- stable _ _ (set_trace _ ?x) => apply (stable_trans _ x); [|by apply stable_objs]
  | |- stable _ _ (set_sessions _ ?x) => apply (stable_trans _ x); [|by apply stable_objs]
  | |- stable _ _ (set_activeSessions _ ?x) => apply (stable_trans _ x); [|by apply stable_objs]
  | |- stable _ _ (set_userSessions _ ?x) => apply (stable_trans _ x); [|by apply stable_objs]
  | |- stable _ _ (set_historyCache _ ?x) => apply (stable_trans _ x); [|by apply stable_objs]
  | |- stable _ _ (set_historyFiles _ ?x) => apply (stable_trans _ x); [|by apply stable_objs]
  | |- stable _ _ (set_runtimeStateFile _ ?x) => apply (stable_trans _ x); [|by apply stable_objs]
  end.

Lemma stable_clearReadyFallback a st : stable P st (clearReadyFallback a st).
Proof. unfold clearReadyFallback. repeat case_match; repeat peel. Qed.

Lemma stable_foldl {A} (f : Manager → A → Manager) l :
  (∀ st x, stable P st (f st x)) → ∀ st, stable P st (foldl f st l).
Proof.
  intros Hf. induction l as [|x l IH]; intros st; [apply stable_refl|].
  simpl. eapply stable_trans; [apply Hf|apply IH].
Qed.

Lemma stable_flush a now st : stable P st (_flushPendingInputs a now st).
Proof.
  unfold _flushPendingInputs. repeat case_match; try apply stable_refl.
  apply (stable_trans _ (updObj a (set_pendingInputs []) st)); [repeat peel|].
  apply stable_foldl. intros. repeat peel.
Qed.

Lemma stable_markReady a now st : stable P st (_markSessionReady a now st).
Proof.
  unfold _markSessionReady. repeat case_match; try apply stable_refl.
  eapply stable_trans; [|apply stable_flush].
  eapply stable_trans; [|apply stable_clearReadyFallback]. repeat peel.
Qed.

Lemma stable_typeNext a chars st : stable P st (typeNext a chars st).
Proof. unfold typeNext. repeat case_match; repeat peel. Qed.

Lemma stable_sendInput sid text now st : stable P st (sendInput sid text now st).1.
Proof. unfold sendInput. repeat case_match; simpl; repeat peel. Qed.

Lemma stable_sendChatInput sid text now st :
  stable P st (sendChatInput sid text now st).1.
Proof.
  unfold sendChatInput. repeat case_match; simpl; repeat peel.
  unfold _simulateTyping. case_match; [repeat peel|].
  eapply stable_trans; [|apply stable_typeNext]. repeat peel.
Qed.

Lemma stable_recordUserMessage sid text now st :
  (∀ s, P s → P (pushUserMessage now text s)) →
  stable P st (recordUserMessage sid text now st).1.
Proof.
  intros Hpush. unfold recordUserMessage. repeat case_match; simpl; repeat peel.
  by apply stable_updObj.
Qed.

Lemma stable_addFile sid path name now st : stable P st (addFile sid path name now st).
Proof. unfold addFile. repeat case_match; repeat peel. Qed.

Lemma stable_resize sid cols rows st : stable P st (resize sid cols rows st).
Proof. unfold resize. repeat case_match; repeat peel. Qed.

Lemma stable_readHistory now user st :
  stable P st (_readHistoryForUser now user st).1.
Proof. apply stable_objs, objs_readHistory. Qed.

Lemma stable_saveHistory a now st : stable P st (_saveHistory a now st).
Proof.
  unfold _saveHistory. destruct (objs st !! a) as [s|]; [|apply stable_refl].
  destruct (_historySaved s); [apply stable_refl|].
  pose proof (stable_readHistory now (username s) (updObj a (set__historySaved true) st))
    as Hread.
  destruct (_readHistoryForUser now (username s) _) as [st1 history].
  simpl in Hread. case_decide; repeat peel; (eapply stable_trans; [|exact Hread]); repeat peel.
Qed.

Lemma stable_destroySession sid now st : stable P st (destroySession sid now st).
Proof.
  unfold destroySession. repeat case_match; repeat peel.
  eapply stable_trans; [|apply stable_saveHistory]. repeat peel.
  eapply stable_trans; [|apply stable_clearReadyFallback]. repeat peel.
Qed.

Lemma stable_destroyUserSession user now st :
  stable P st (destroyUserSession user now st).
Proof. apply stable_foldl. intros. apply stable_destroySession. Qed.

Lemma stable_destroyAll now st : stable P st (destroyAll now st).
Proof.
  unfold destroyAll. repeat peel.
  eapply stable_trans; [|apply stable_foldl; intros; apply stable_destroySession].
  repeat peel.
Qed.

Lemma stable_createSession user agent model mode_ od oe now st :
  stable P st (createSession user agent model mode_ od oe now st).1.
Proof.
  unfold createSession. destruct (agents st !! agent) as [ag|]; [|apply stable_refl].
  intros a s Hs HPs. exists s. split; [|done]. simpl.
  rewrite objs_persist. simpl. rewrite lookup_insert_ne; [done|].
  intros <-. pose proof (is_fresh (dom (objs st))) as Hf.
  apply Hf, elem_of_dom. eauto.
Qed.

Lemma stable_startCommandTimer a ag model st :
  stable P st (startCommandTimer a ag model st).
Proof.
  unfold startCommandTimer, setTimeout. cbn [fst snd].
  repeat case_match; repeat peel.
Qed.

Lemma stable_readyFallbackTimer a now st : stable P st (readyFallbackTimer a now st).
Proof.
  unfold readyFallbackTimer. repeat case_match; try apply stable_refl.
  apply stable_markReady.
Qed.

Lemma stable_fireTimer id now st : stable P st (fireTimer id now st).
Proof.
  unfold fireTimer. destruct (timers st !! id) as [t|]; [|apply stable_refl].
  destruct t.
  - eapply stable_trans; [|apply stable_startCommandTimer]. repeat peel.
  - eapply stable_trans; [|apply stable_readyFallbackTimer]. repeat peel.
  - eapply stable_trans; [|apply stable_typeNext]. repeat peel.
Qed.

Lemma stable_ptyOnData a data now st : stable P st (ptyOnData a data now st).1.
Proof.
  unfold ptyOnData. destruct (objs st !! a) as [s|]; [|apply stable_refl].
  case_match; simpl; repeat peel;
    (case_match; [eapply stable_trans; [|apply stable_markReady]|]); repeat peel.
Qed.

Lemma stable_ptyOnExit a code signal now st :
  stable P st (ptyOnExit a code signal now st).1.
Proof.
  unfold ptyOnExit. destruct (objs st !! a) as [s|]; [|apply stable_refl].
  case_match; simpl; repeat peel;
    (eapply stable_trans; [|apply stable_saveHistory]);
    (eapply stable_trans; [|apply stable_clearReadyFallback]); repeat peel.
Qed.

Lemma stable_setSessionTitle user sid title_ now st :
  stable P st (setSessionTitle user sid title_ now st).
Proof.
  unfold setSessionTitle.
  set (st1 := match lookupSession sid st with Some _ => _ | None => _ end).
  assert (H1 : stable P st st1).
  { subst st1. repeat case_match; repeat peel. }
  pose proof (stable_readHistory now user st1) as Hread.
  destruct (_readHistoryForUser now user st1) as [st2 history]. simpl in Hread.
  repeat case_match; repeat peel; (eapply stable_trans; [exact H1|exact Hread]).
Qed.

Lemma stable_deleteSessionHistory user sid now st :
  stable P st (deleteSessionHistory user sid now st).
Proof.
  unfold deleteSessionHistory.
  pose proof (stable_readHistory now user st) as Hread.
  destruct (_readHistoryForUser now user st) as [st2 history]. simpl in Hread.
  case_match; repeat peel; exact Hread.
Qed.

Lemma stable_getUserSessionHistory user now st :
  stable P st (getUserSessionHistory user now st).1.
Proof.
  unfold getUserSessionHistory.
  pose proof (stable_readHistory now user st) as Hread.
  by destruct (_readHistoryForUser now user st) as [st2 history].
Qed.

Lemma stable_reap now st sid : stable P st (reap now st sid).
Proof.
  unfold reap. repeat case_match; repeat peel; apply stable_destroySession.
Qed.

Lemma stable_cleanup now st : stable P st (_cleanupInactiveSessions now st).
Proof.
  unfold _cleanupInactiveSessions. repeat case_match; try apply stable_refl.
  apply stable_foldl. intros. apply stable_reap.
Qed.

(** Every event other than a subscription change or a recorded user message
    keeps [P]; those two keep it when [P] is closed under their mutation. *)
Lemma stable_step st (e : Z * Event) :
  match e.2 with
  | EAddSubscriber _ fn => ∀ s, P s → P (subscribe fn s)
  | ERemoveSubscriber _ fn => ∀ s, P s → P (unsubscribe fn s)
  | ERecordUserMessage _ text => ∀ s, P s → P (pushUserMessage e.1 text s)
  | _ => True
  end →
  stable P st (step st e).
Proof.
  destruct e as [now ev]. unfold step. simpl. intros He. destruct ev.
  - apply stable_createSession.
  - apply stable_destroySession.
  - apply stable_destroyUserSession.
  - apply stable_destroyAll.
  - apply stable_sendInput.
  - apply stable_sendChatInput.
  - by apply stable_recordUserMessage.
  - apply stable_addFile.
  - unfold addSubscriber. repeat case_match; try apply stable_refl. by apply stable_updObj.
  - unfold removeSubscriber. repeat case_match; try apply stable_refl. by apply stable_updObj.
  - apply stable_resize.
  - apply stable_setSessionTitle.
  - apply stable_deleteSessionHistory.
  - apply stable_getUserSessionHistory.
  - apply stable_ptyOnData.
  - apply stable_ptyOnExit.
  - apply stable_fireTimer.
  - case_match; [apply stable_cleanup|apply stable_refl].
Qed.

End Frames.

Section Transcript.
Context `{TextOracles}.

(** ** The transcript gate (C6) *)

Ltac same_record := unfold set_lastAssistantIndex, set_messages, set_lastActivityAt,
  set_userMessageCount, set_terminalReplayBuffer, set_outputBuffer, _touchSession; simpl;
  reflexivity.

Lemma outputReplay_footprint chunk s :
  ∃ b, _appendTerminalOutputReplay chunk s = set_terminalReplayBuffer b s.
Proof.
  assert (Hid : ∃ b, s = set_terminalReplayBuffer b s)
    by (destruct s; eexists; same_record).
  unfold _appendTerminalOutputReplay. repeat case_match; try exact Hid.
  match goal with
  | |- ∃ b, capReplayBuffer ?x = _ => destruct (capReplayBuffer_footprint x) as (b & ->)
  end.
  destruct s; eexists; same_record.
Qed.







Lemma stable_run P es :
  RespectsIO P →
  Forall (λ e : Z * Event,
    match e.2 with
    | EAddSubscriber _ fn => ∀ s, P s → P (subscribe fn s)
    | ERemoveSubscriber _ fn => ∀ s, P s → P (unsubscribe fn s)
    | ERecordUserMessage _ text => ∀ s, P s → P (pushUserMessage e.1 text s)
    | _ => True
    end) es →
  ∀ st, stable P st (run st es).
Proof.
  intros HP. induction 1 as [|e es He Hes IH]; intros st; [apply stable_refl|].
  simpl. eapply stable_trans; [|apply IH]. by apply stable_step.
Qed.


End Transcript.


Section Fanout.
Context `{TextOracles}.

(** ** Output fan-out (C8) *)

Lemma trace_broadcast data subs st :
  trace (broadcast data subs st)
  = trace st ++ ((λ fn, Notify (cb_id fn) data) <$> subs).
Proof.
  unfold broadcast. revert st. induction subs as [|fn subs IH]; intros st; simpl.
  - by rewrite app_nil_r.
  - rewrite IH. simpl. by rewrite <- app_assoc.
Qed.

Lemma trace_markReady a now st :
  ∃ ws, trace (_markSessionReady a now st) = trace st ++ (PtyWrite a <$> ws).
Proof.
  unfold _markSessionReady. destruct (objs st !! a) as [s|] eqn:Hs;
    [|by exists []; rewrite app_nil_r].
  destruct (started s) eqn:Hst; [by exists []; rewrite app_nil_r|].
  eexists. erewrite flush_trace.
  - by rewrite clearReadyFallback_trace.
  - apply clearReadyFallback_obj. by rewrite updObj_lookup, Hs.
Qed.

(** One chunk: after the writes of a possible flush, every subscriber is
    called with the chunk, in the order of the set, whether or not earlier
    ones threw; then the session's own callback is called, and only its
    exception leaves the handler. *)
Lemma ptyOnData_trace a s data now st :
  objs st !! a = Some s →
  ∃ ws,
    trace (ptyOnData a data now st).1
    = trace st ++ (PtyWrite a <$> ws)
      ++ ((λ fn, Notify (cb_id fn) data) <$> subscribers s)
      ++ match onData s with Some fn => [CallOnData (cb_id fn) data] | None => [] end
    ∧ (ptyOnData a data now st).2
      = match onData s with
        | Some fn => cb_throws fn (trace (ptyOnData a data now st).1)
        | None => false
        end.
Proof.
  intros Hs. unfold ptyOnData. rewrite Hs.
  destruct (trace_markReady a now (updObj a (_touchSession now) st)) as (ws & Hws).
  destruct (negb (started s) && _startCommandSent s && _isSessionReadySignal data);
    [exists ws|exists []]; destruct (onData s) as [fn|]; simpl;
    rewrite trace_broadcast; simpl; rewrite ?Hws; simpl;
    by rewrite ?app_nil_r, <- ?app_assoc.
Qed.

Lemma deliveries_app cb tr1 tr2 :
  deliveries cb (tr1 ++ tr2) = deliveries cb tr1 ++ deliveries cb tr2.
Proof. unfold deliveries. apply omap_app. Qed.

Lemma deliveries_writes cb a ws : deliveries cb (PtyWrite a <$> ws) = [].
Proof. induction ws; [done|]. done. Qed.

Lemma deliveries_absent cb data (subs : list Callback) :
  cb ∉ cb_id <$> subs →
  deliveries cb ((λ fn, Notify (cb_id fn) data) <$> subs) = [].
Proof.
  induction subs as [|fn subs IH]; [done|]. rewrite fmap_cons, not_elem_of_cons.
  intros [Hne Hni]. simpl. rewrite decide_False by done. by apply IH.
Qed.

Lemma deliveries_notify fn data (subs : list Callback) :
  NoDup (cb_id <$> subs) → fn ∈ subs →
  deliveries (cb_id fn) ((λ fn, Notify (cb_id fn) data) <$> subs) = [data].
Proof.
  induction subs as [|g subs IH]; [by intros _ ?%elem_of_nil|].
  rewrite fmap_cons, NoDup_cons. intros [Hg Hnd] Hin. simpl.
  destruct (decide (cb_id g = cb_id fn)) as [Heq|Hne].
  - rewrite deliveries_absent; [done|]. by rewrite <- Heq.
  - apply IH; [done|]. apply elem_of_cons in Hin as [->|]; done.
Qed.

Lemma respectsIO_subscribers subs od :
  RespectsIO (λ s, subscribers s = subs ∧ onData s = od).
Proof.
  split; try (by intros; simpl).
  - intros c s HP. by destruct (replay_footprint c s) as (b & l & ->).
  - intros now d s HP. unfold absorbOutput.
    set (s0 := set_outputBuffer _ s).
    destruct (outputReplay_footprint d s0) as (b & ->).
    set (s1 := set_terminalReplayBuffer b s0).
    assert (Hs1 : subscribers s1 = subs ∧ onData s1 = od) by done.
    clearbody s1. clear -Hs1. unfold _appendAssistantOutput.
    repeat case_match; simpl; try done; by simplify_eq.
Qed.

(** C8. For a session whose subscriber set is [subscribers s], and any run
    of output chunks from its process: every subscriber is called with every
    chunk, in the order received, whichever callbacks throw (the statement
    holds for all behaviours [cb_throws]).  For each chunk the call sequence
    is: the subscribers in set order, then the session's own callback; an
    exception leaves the handler only if that own callback throws. *)
Theorem fanout_isolates_subscriber_failures (a : nat) (s : Session) (st : Manager)
    (chunks : list (Z * jsstring)) :
  objs st !! a = Some s →
  NoDup (cb_id <$> subscribers s) →
  (∀ fn, fn ∈ subscribers s →
     deliveries (cb_id fn) (trace (run st (outputEvent a <$> chunks)))
     = deliveries (cb_id fn) (trace st) ++ chunks.*2)
  ∧ (∀ now data, ∃ ws,
       trace (ptyOnData a data now st).1
       = trace st ++ (PtyWrite a <$> ws)
         ++ ((λ fn, Notify (cb_id fn) data) <$> subscribers s)
         ++ match onData s with Some fn => [CallOnData (cb_id fn) data] | None => [] end
       ∧ (ptyOnData a data now st).2
         = match onData s with
           | Some fn => cb_throws fn (trace (ptyOnData a data now st).1)
           | None => false
           end).
Proof.
  intros Hs Hnd. split; [|intros; by apply ptyOnData_trace].
  intros fn Hfn. revert s st Hs Hnd Hfn.
  induction chunks as [|[now data] chunks IH]; intros s st Hs Hnd Hfn.
  - simpl. by rewrite app_nil_r.
  - change (run st (outputEvent a <$> (now, data) :: chunks))
      with (run (ptyOnData a data now st).1 (outputEvent a <$> chunks)).
    destruct (ptyOnData_trace a s data now st Hs) as (ws & Htr & _).
    destruct (stable_ptyOnData (λ s', subscribers s' = subscribers s ∧ onData s' = onData s)
                (respectsIO_subscribers _ _) a data now st a s Hs)
      as (s' & Hs' & Hsub & Hod); [done|].
    rewrite (IH s' _ Hs') by (by rewrite Hsub).
    rewrite Htr, !deliveries_app, deliveries_writes, deliveries_notify by done.
    destruct (onData s); simpl; by rewrite ?app_nil_r, <- ?app_assoc.
Qed.

End Fanout.

Lemma fanout_isolates_subscriber_failures_witness :
  objs demoFanout !! 0%nat = Some demoFanoutSession
  ∧ NoDup (cb_id <$> subscribers demoFanoutSession)
  ∧ deliveries (cb_id demoViewer)
      (trace (@run demoOracles demoFanout (outputEvent 0 <$> demoChunks)))
    = [lit "Hello"; lit " world"].
Proof.
  assert (Hs : objs demoFanout !! 0%nat = Some demoFanoutSession)
    by (vm_compute; reflexivity).
  assert (Hnd : NoDup (cb_id <$> subscribers demoFanoutSession)).
  { simpl. repeat constructor; rewrite ?elem_of_cons, ?elem_of_nil; intuition discriminate. }
  split_and!; [exact Hs|exact Hnd|].
  rewrite (proj1 (@fanout_isolates_subscriber_failures demoOracles 0%nat demoFanoutSession
                    demoFanout demoChunks Hs Hnd) demoViewer).
  - reflexivity.
  - simpl. repeat constructor.
Defined.

Section Transcripts.
Context `{TextOracles}.

(** ** Reading a transcript (C10) *)

Lemma splitOn_plain (s : jsstring) : 47%N ∉ s → splitOn 47 s = [s].
Proof.
  induction s as [|c r IH]; [done|]. rewrite not_elem_of_cons. intros [Hc Hr].
  cbn [splitOn]. rewrite decide_False by done. by rewrite IH.
Qed.

Lemma jsonName_segment (sid : jsstring) :
  sid ++ lit ".json" ≠ [] ∧ sid ++ lit ".json" ≠ lit "." ∧ sid ++ lit ".json" ≠ lit "..".
Proof.
  assert (Hlen : (5 ≤ length (sid ++ lit ".json"))%nat).
  { rewrite length_app. change (length (lit ".json")) with 5%nat. lia. }
  split_and!; intros Heq; rewrite Heq in Hlen; cbn in Hlen; lia.
Qed.

(** For plain names the transcript of a user and a session is the file
    [<user>/<id>.json] of the sessions directory. *)
Lemma transcriptPath_plain (user sid : jsstring) :
  plainName user → 47%N ∉ sid →
  transcriptPath user sid = (0%nat, [user; sid ++ lit ".json"]).
Proof.
  intros (Hu & Hne & Hdot & Hdots) Hsid. unfold transcriptPath, pathJoin.
  cbn [mbind list_bind]. rewrite (splitOn_plain user) by done.
  rewrite (splitOn_plain (sid ++ lit ".json")).
  2:{ rewrite elem_of_app. intros [?|Hin]; [done|]. revert Hin.
      refine (bool_decide_unpack _ _). vm_compute. exact I. }
  destruct (jsonName_segment sid) as (Hj1 & Hj2 & Hj3).
  cbn [app foldl]. unfold pathStep at 2. rewrite !decide_False by done.
  cbn [fst snd app]. unfold pathStep. by rewrite !decide_False by done.
Qed.


End Transcripts.


(** An id with path separators reaches outside the requester's directory:
    Bob reads the transcript that Alice's ended session left behind. *)
Example transcript_of_another_user_is_read_through_the_id :
  getSessionTranscript (lit "bob") demoSid renamedState = None
  ∧ ∃ data, getSessionTranscript (lit "bob") demoTraversal renamedState = Some data
            ∧ t_sessionId data = demoSid
            ∧ getSessionTranscript (lit "alice") demoSid renamedState = Some data.
Proof.
  split; [vm_compute; reflexivity|].
  eexists. split; [vm_compute; reflexivity|]. split; vm_compute; reflexivity.
Qed.

Section Effects.
Context `{TextOracles}.

(** ** What the operations add to the record of external actions *)

Lemma quiet_refl st : quiet st st.
Proof. exists []. by rewrite app_nil_r. Qed.

Lemma quiet_trans st1 st2 st3 : quiet st1 st2 → quiet st2 st3 → quiet st1 st3.
Proof.
  intros (es1 & H1 & F1) (es2 & H2 & F2). exists (es1 ++ es2).
  rewrite H2, H1, <- app_assoc. split; [done|]. by apply Forall_app.
Qed.

Lemma quiet_same st st' : trace st' = trace st → quiet st st'.
Proof. intros Heq. exists []. by rewrite app_nil_r. Qed.

Lemma quiet_log e st : quietEffect e → quiet st (log e st).
Proof. intros He. exists [e]. split; [done|]. by constructor. Qed.

Lemma trace_readHistory now user st : trace (_readHistoryForUser now user st).1 = trace st.
Proof. unfold _readHistoryForUser. repeat case_match; done. Qed.

Lemma trace_markEnded user sid t st : trace (_markUserSessionEnded user sid t st) = trace st.
Proof. unfold _markUserSessionEnded. by case_match. Qed.

Lemma quiet_persist now st : quiet st (_persistRuntimeState now st).
Proof.
  unfold _persistRuntimeState. repeat case_match;
    (apply quiet_refl || by apply (quiet_log _ (set_runtimeStateFile _ st))).
Qed.

Lemma quiet_unregister user sid now st : quiet st (unregister user sid now st).
Proof.
  unfold unregister. eapply quiet_trans; [|apply quiet_persist].
  apply quiet_same. rewrite trace_markEnded. by case_match.
Qed.

Lemma quiet_writeHistory by_ now user l st :
  (∀ a, by_ ≠ BySaveHistory a) → quiet st (_writeHistoryForUser by_ now user l st).
Proof.
  intros Hby. eexists [_]. split; [done|]. constructor; [|done].
  destruct by_; [by specialize (Hby a)|done..].
Qed.

Ltac peelq :=
  lazymatch goal with
  | |- quiet ?st ?st => apply quiet_refl
  | |- quiet _ (log _ ?x) => apply (quiet_trans _ x); [|by apply quiet_log]
  | |- quiet _ (updObj _ _ ?x) => apply (quiet_trans _ x); [|by apply quiet_same]
  | |- quiet _ (clearTimeout _ ?x) => apply (quiet_trans _ x); [|by apply quiet_same]
  | |- quiet _ (setTimeout _ ?x).1 => apply (quiet_trans _ x); [|by apply quiet_same]
  | |- quiet _ (_persistRuntimeState _ ?x) => apply (quiet_trans _ x); [|apply quiet_persist]
  | |- quiet _ (_markUserSessionEnded _ _ _ ?x) =>
      apply (quiet_trans _ x); [|apply quiet_same, trace_markEnded]
  | |- quiet _ (unregister _ _ _ ?x) => apply (quiet_trans _ x); [|apply quiet_unregister]
  | |- quiet _ (_writeHistoryForUser _ _ _ _ ?x) =>
      apply (quiet_trans _ x); [|by apply quiet_writeHistory]
  | |- quiet _ (invoke _ _ ?x).1 => apply (quiet_trans _ x); [|by apply quiet_log]
  | |- quiet _ (set_transcriptFiles _ ?x) => apply (quiet_trans _ x); [|by apply quiet_same]
  | |- quiet _ (set__idleCheckTimer _ ?x) => apply (quiet_trans _ x); [|by apply quiet_same]
  | |- quiet _ (set_timers _ ?x) => apply (quiet_trans _ x); [|by apply quiet_same]
  | |- quiet _ (set_nextTimerId _ ?x) => apply (quiet_trans _ x); [|by apply quiet_same]
  | |- quiet _ (set_sessions _ ?x) => apply (quiet_trans _ x); [|by apply quiet_same]
  | |- quiet _ (set_activeSessions _ ?x) => apply (quiet_trans _ x); [|by apply quiet_same]
  | |- quiet _ (set_userSessions _ ?x) => apply (quiet_trans _ x); [|by apply quiet_same]
  | |- quiet _ (set_historyCache _ ?x) => apply (quiet_trans _ x); [|by apply quiet_same]
  | |- quiet _ (set_objs _ ?x) => apply (quiet_trans _ x); [|by apply quiet_same]
  end.

Lemma quiet_clearReadyFallback a st : quiet st (clearReadyFallback a st).
Proof. apply quiet_same, clearReadyFallback_trace. Qed.

Lemma quiet_foldl {A} (f : Manager → A → Manager) l :
  (∀ st x, quiet st (f st x)) → ∀ st, quiet st (foldl f st l).
Proof.
  intros Hf. induction l as [|x l IH]; intros st; [apply quiet_refl|].
  simpl. eapply quiet_trans; [apply Hf|apply IH].
Qed.

Lemma quiet_flush a now st : quiet st (_flushPendingInputs a now st).
Proof.
  unfold _flushPendingInputs. repeat case_match; try apply quiet_refl.
  apply (quiet_trans _ (updObj a (set_pendingInputs []) st)); [repeat peelq|].
  apply quiet_foldl. intros. repeat peelq.
Qed.

Lemma quiet_markReady a now st : quiet st (_markSessionReady a now st).
Proof.
  unfold _markSessionReady. repeat case_match; try apply quiet_refl.
  eapply quiet_trans; [|apply quiet_flush].
  eapply quiet_trans; [|apply quiet_clearReadyFallback]. repeat peelq.
Qed.

Lemma quiet_typeNext a chars st : quiet st (typeNext a chars st).
Proof. unfold typeNext. repeat case_match; repeat peelq. Qed.

Lemma quiet_sendInput sid text now st : quiet st (sendInput sid text now st).1.
Proof. unfold sendInput. repeat case_match; simpl; repeat peelq. Qed.

Lemma quiet_sendChatInput sid text now st : quiet st (sendChatInput sid text now st).1.
Proof.
  unfold sendChatInput. repeat case_match; simpl; repeat peelq.
  unfold _simulateTyping. case_match; [repeat peelq|].
  eapply quiet_trans; [|apply quiet_typeNext]. repeat peelq.
Qed.

Lemma quiet_recordUserMessage sid text now st :
  quiet st (recordUserMessage sid text now st).1.
Proof. unfold recordUserMessage. repeat case_match; simpl; repeat peelq. Qed.

Lemma quiet_addFile sid path name now st : quiet st (addFile sid path name now st).
Proof. unfold addFile. repeat case_match; repeat peelq. Qed.

Lemma quiet_createSession user agent model mode_ od oe now st :
  quiet st (createSession user agent model mode_ od oe now st).1.
Proof.
  unfold createSession. destruct (agents st !! agent) as [ag|]; [|apply quiet_refl].
  cbn [fst]. repeat peelq.
Qed.

Lemma quiet_startCommandTimer a ag model st : quiet st (startCommandTimer a ag model st).
Proof.
  unfold startCommandTimer, setTimeout. cbn [fst snd].
  repeat case_match; repeat peelq.
Qed.

Lemma quiet_fireTimer id now st : quiet st (fireTimer id now st).
Proof.
  unfold fireTimer. destruct (timers st !! id) as [t|]; [|apply quiet_refl].
  destruct t.
  - eapply quiet_trans; [|apply quiet_startCommandTimer]. repeat peelq.
  - unfold readyFallbackTimer. repeat case_match; repeat peelq.
    eapply quiet_trans; [|apply quiet_markReady]. repeat peelq.
  - eapply quiet_trans; [|apply quiet_typeNext]. repeat peelq.
Qed.

Lemma quiet_broadcast data subs st : quiet st (broadcast data subs st).
Proof. apply quiet_foldl. intros. repeat peelq. Qed.

Lemma quiet_ptyOnData a data now st : quiet st (ptyOnData a data now st).1.
Proof.
  unfold ptyOnData. destruct (objs st !! a) as [s|]; [|apply quiet_refl].
  case_match; simpl; repeat peelq;
    (eapply quiet_trans; [|apply quiet_broadcast]); repeat peelq;
    (case_match; [eapply quiet_trans; [|apply quiet_markReady]|]); repeat peelq.
Qed.

Lemma quiet_readHistory now user st : quiet st (_readHistoryForUser now user st).1.
Proof. apply quiet_same, trace_readHistory. Qed.

Lemma quiet_setSessionTitle user sid title_ now st :
  quiet st (setSessionTitle user sid title_ now st).
Proof.
  unfold setSessionTitle.
  set (st1 := match lookupSession sid st with Some _ => _ | None => _ end).
  assert (H1 : quiet st st1).
  { subst st1. repeat case_match; repeat peelq. }
  pose proof (quiet_readHistory now user st1) as Hread.
  destruct (_readHistoryForUser now user st1) as [st2 history]. simpl in Hread.
  repeat case_match; repeat peelq; (eapply quiet_trans; [exact H1|exact Hread]).
Qed.

Lemma quiet_deleteSessionHistory user sid now st :
  quiet st (deleteSessionHistory user sid now st).
Proof.
  unfold deleteSessionHistory.
  pose proof (quiet_readHistory now user st) as Hread.
  destruct (_readHistoryForUser now user st) as [st2 history]. simpl in Hread.
  case_match; repeat peelq; exact Hread.
Qed.

Lemma quiet_getUserSessionHistory user now st :
  quiet st (getUserSessionHistory user now st).1.
Proof.
  unfold getUserSessionHistory.
  pose proof (quiet_readHistory now user st) as Hread.
  by destruct (_readHistoryForUser now user st) as [st2 history].
Qed.

End Effects.

Section Reaper.
Context `{TextOracles}.

(** ** The idle reaper (C9) *)


Lemma JsMap_get_elem {V} (k : jsstring) (v : V) (m : list (jsstring * V)) :
  JsMap.get k m = Some v → (k, v) ∈ m.
Proof.
  induction m as [|[k' v'] m IH]; [done|]. simpl.
  case_decide; [intros [= ->]; subst; by left|]. intros. right. auto.
Qed.

Lemma JsMap_elem_get {V} (k : jsstring) (v : V) (m : list (jsstring * V)) :
  NoDup m.*1 → (k, v) ∈ m → JsMap.get k m = Some v.
Proof.
  induction m as [|[k' v'] m IH]; [by intros _ ?%elem_of_nil|].
  rewrite fmap_cons, NoDup_cons. intros [Hk Hnd] Hin. simpl.
  apply elem_of_cons in Hin as [[= -> ->]|Hin]; [by rewrite decide_True|].
  rewrite decide_False; [by apply IH|].
  intros ->. apply Hk. apply list_elem_of_fmap. by exists (k', v).
Qed.

Lemma snd_inj_elem {V} (k1 k2 : jsstring) (v : V) (m : list (jsstring * V)) :
  NoDup m.*2 → (k1, v) ∈ m → (k2, v) ∈ m → k1 = k2.
Proof.
  induction m as [|[k' v'] m IH]; [by intros _ ?%elem_of_nil|].
  rewrite fmap_cons, NoDup_cons. intros [Hv Hnd] H1 H2. simpl in Hv.
  apply elem_of_cons in H1 as [H1|H1]; apply elem_of_cons in H2 as [H2|H2];
    simplify_eq; try done.
  - destruct Hv. apply list_elem_of_fmap. by exists (k2, v').
  - destruct Hv. apply list_elem_of_fmap. by exists (k1, v').
  - by apply IH.
Qed.



(** What [_saveHistory] adds to the record: nothing if the session was
    saved before; otherwise one history write and, outside terminal mode,
    one transcript write. *)
Lemma saveHistory_trace a s now st :
  objs st !! a = Some s →
  ∃ items,
    trace (_saveHistory a now st)
    = trace st
      ++ (if _historySaved s then []
          else WriteHistoryFile (BySaveHistory a) (username s) items
               :: (if decide (mode s = Terminal) then []
                   else [WriteTranscriptFile (username s) (sessionId s)])).
Proof.
  intros Hs. unfold _saveHistory. rewrite Hs.
  destruct (_historySaved s); [exists []; by rewrite app_nil_r|].
  pose proof (trace_readHistory now (username s) (updObj a (set__historySaved true) st))
    as Hread.
  destruct (_readHistoryForUser now (username s) _) as [st1 history]. simpl in Hread.
  eexists. case_decide; simpl; rewrite Hread; [done|]. by rewrite <- app_assoc.
Qed.


Lemma saveHistory_objs_ne a b now st :
  a ≠ b → objs (_saveHistory a now st) !! b = objs st !! b.
Proof.
  intros Hne. unfold _saveHistory. destruct (objs st !! a) as [s|]; [|done].
  destruct (_historySaved s); [done|].
  pose proof (objs_readHistory now (username s) (updObj a (set__historySaved true) st))
    as Hread.
  destruct (_readHistoryForUser now (username s) _) as [st1 history]. simpl in Hread.
  case_decide; simpl; rewrite Hread; by apply lookup_alter_ne.
Qed.



Lemma clearReadyFallback_sessions a st : sessions (clearReadyFallback a st) = sessions st.
Proof. unfold clearReadyFallback. repeat case_match; done. Qed.


Lemma JsMap_get_delete_ne {V} (k k' : jsstring) (m : list (jsstring * V)) :
  k ≠ k' → JsMap.get k (JsMap.delete k' m) = JsMap.get k m.
Proof.
  intros Hne. unfold JsMap.delete. induction m as [|[k0 v] m IH]; [done|].
  rewrite filter_cons. simpl. destruct (decide (k0 ≠ k')) as [H0|H0]; simpl.
  - case_decide; [done|]. apply IH.
  - rewrite decide_False; [apply IH|]. apply dec_stable in H0. congruence.
Qed.





(** The constructor reads the threshold as
    [Number(config.inactiveSessionTimeout || 30 * 60 * 1000)]: a configured
    zero (or [NaN]) is falsy and gives the default of thirty minutes, so the
    threshold the sweep sees is zero only if it was never set through the
    constructor. *)
Remark configured_zero_is_default (cfg : Config) (fs : FileSystem) (now : Z) :
  cfg_inactiveSessionTimeout cfg = Some (Finite 0) →
  inactiveSessionTimeout (newManager cfg fs now) = Finite 1800000.
Proof.
  intros Hcfg. unfold newManager, _recoverRuntimeState. simpl.
  assert (Hrec : ∀ l st, inactiveSessionTimeout (foldl (recoverItem now) st l)
                         = inactiveSessionTimeout st).
  { induction l as [|x l IH]; intros st; [done|]. simpl. rewrite IH.
    unfold recoverItem, _readHistoryForUser. repeat case_match; simplify_eq; done. }
  repeat case_match; simpl; rewrite ?Hrec; simpl; by rewrite Hcfg.
Qed.

End Reaper.

Section OneShot.
Context `{TextOracles}.

(** ** The one-shot history guard (C2) *)

Lemma respectsIO_saved : RespectsIO historySaved.
Proof.
  unfold historySaved. split; try (by intros; simpl).
  - intros c s HP. by destruct (replay_footprint c s) as (b & l & ->).
  - intros now d s HP. unfold absorbOutput.
    set (s0 := set_outputBuffer _ s).
    destruct (outputReplay_footprint d s0) as (b & ->).
    set (s1 := set_terminalReplayBuffer b s0).
    assert (Hs1 : _historySaved s1 = true) by done.
    clearbody s1. clear -Hs1. unfold _appendAssistantOutput.
    repeat case_match; simpl; try done; by simplify_eq.
Qed.

Lemma savedFlag_stable st st' a :
  stable historySaved st st' → savedFlag st a = true → savedFlag st' a = true.
Proof.
  unfold savedFlag. intros Hst Hflag.
  destruct (objs st !! a) as [s|] eqn:Hs; [|done].
  destruct (Hst a s Hs Hflag) as (s' & -> & Hs'). done.
Qed.

Lemma savesBy_app a tr1 tr2 : savesBy a (tr1 ++ tr2) = savesBy a tr1 ++ savesBy a tr2.
Proof. apply omap_app. Qed.

Lemma savesBy_quiet_effects a es : Forall quietEffect es → savesBy a es = [].
Proof.
  induction 1 as [|e es He _ IH]; [done|].
  destruct e as [| | | |by_| | | | | | |]; simpl in *; try done. by destruct by_.
Qed.

(** An operation that records no history write of [_saveHistory] and keeps
    set flags set preserves the invariant. *)
Lemma savedOnce_ext st st' es :
  trace st' = trace st ++ es → (∀ a, savesBy a es = []) →
  stable historySaved st st' → SavedOnce st → SavedOnce st'.
Proof.
  intros Htr Hes Hst Hinv a. destruct (Hinv a) as [Hle Hnone].
  rewrite Htr, savesBy_app, Hes, app_nil_r. split; [done|].
  intros Hflag. apply Hnone. destruct (savedFlag st a) eqn:Hf; [|done].
  by rewrite (savedFlag_stable st st' a Hst Hf) in Hflag.
Qed.

Lemma savedOnce_quiet st st' :
  quiet st st' → stable historySaved st st' → SavedOnce st → SavedOnce st'.
Proof.
  intros (es & Htr & Hes). apply (savedOnce_ext st st' es Htr).
  intros a. by apply savesBy_quiet_effects.
Qed.

Lemma saveHistory_obj a s now st :
  objs st !! a = Some s →
  ∃ s', objs (_saveHistory a now st) !! a = Some s' ∧ _historySaved s' = true.
Proof.
  intros Hs. unfold _saveHistory. rewrite Hs.
  destruct (_historySaved s) eqn:Hsaved; [by eauto|].
  pose proof (objs_readHistory now (username s) (updObj a (set__historySaved true) st))
    as Hread.
  destruct (_readHistoryForUser now (username s) _) as [st1 history]. simpl in Hread.
  exists (set__historySaved true s).
  case_decide; simpl; rewrite Hread; simpl; by rewrite lookup_alter_eq, Hs.
Qed.

Lemma savedOnce_saveHistory b now st : SavedOnce st → SavedOnce (_saveHistory b now st).
Proof.
  intros Hinv. destruct (objs st !! b) as [s|] eqn:Hs;
    [|unfold _saveHistory; by rewrite Hs].
  destruct (saveHistory_trace b s now st Hs) as (items & Htr).
  destruct (_historySaved s) eqn:Hsaved.
  { unfold _saveHistory. by rewrite Hs, Hsaved. }
  intros a. destruct (Hinv a) as [Hle Hnone]. rewrite Htr, savesBy_app.
  destruct (decide (a = b)) as [->|Hne].
  - rewrite Hnone by (unfold savedFlag; by rewrite Hs).
    destruct (saveHistory_obj b s now st Hs) as (s' & Hs' & Hflag').
    unfold savedFlag. rewrite Hs', Hflag'. split; [|done].
    simpl. rewrite decide_True by done. by case_decide.
  - assert (Hnil : savesBy a (WriteHistoryFile (BySaveHistory b) (username s) items
                     :: (if decide (mode s = Terminal) then []
                         else [WriteTranscriptFile (username s) (sessionId s)])) = []).
    { simpl. rewrite decide_False by done. by case_decide. }
    rewrite Hnil, app_nil_r. split; [done|].
    unfold savedFlag. rewrite saveHistory_objs_ne by done. exact Hnone.
Qed.

Lemma savedOnce_log e st :
  (∀ a, savesBy a [e] = []) → SavedOnce st → SavedOnce (log e st).
Proof.
  intros He. apply (savedOnce_ext st (log e st) [e]); [done|done|by apply stable_objs].
Qed.

Lemma savedOnce_destroySession sid now st :
  SavedOnce st → SavedOnce (destroySession sid now st).
Proof.
  intros Hinv. unfold destroySession. destruct (lookupSession sid st) as [[a s]|]; [|done].
  eapply savedOnce_quiet;
    [apply quiet_unregister|apply stable_objs, objs_unregister|].
  apply savedOnce_saveHistory, savedOnce_log; [done|].
  eapply savedOnce_quiet;
    [apply quiet_clearReadyFallback
    |apply stable_clearReadyFallback, respectsIO_saved|done].
Qed.

Lemma savedOnce_foldl {A} (f : Manager → A → Manager) l :
  (∀ st x, SavedOnce st → SavedOnce (f st x)) →
  ∀ st, SavedOnce st → SavedOnce (foldl f st l).
Proof.
  intros Hf. induction l as [|x l IH]; intros st Hinv; [done|].
  simpl. by apply IH, Hf.
Qed.

Lemma savedOnce_ptyOnExit a code signal now st :
  SavedOnce st → SavedOnce (ptyOnExit a code signal now st).1.
Proof.
  intros Hinv. unfold ptyOnExit. destruct (objs st !! a) as [s|]; [|done].
  assert (H1 : SavedOnce (unregister (username s) (sessionId s) now
                            (_saveHistory a now (clearReadyFallback a st)))).
  { eapply savedOnce_quiet;
      [apply quiet_unregister|apply stable_objs, objs_unregister|].
    apply savedOnce_saveHistory.
    eapply savedOnce_quiet;
      [apply quiet_clearReadyFallback
      |apply stable_clearReadyFallback, respectsIO_saved|done]. }
  destruct (onExit s) as [fn|]; [|done]. by apply savedOnce_log.
Qed.

Lemma savedOnce_step st (e : Z * Event) : SavedOnce st → SavedOnce (step st e).
Proof.
  intros Hinv. destruct e as [now ev].
  assert (Hquiet : quiet st (step st (now, ev)) → SavedOnce (step st (now, ev))).
  { intros Hq. apply (savedOnce_quiet st); [done| |done].
    apply stable_step; [apply respectsIO_saved|].
    destruct ev; simpl; try done.
    - intros s Hs. unfold pushUserMessage. by repeat case_match.
    - intros s Hs. unfold subscribe. by case_match. }
  destruct ev; unfold step in *; simpl in *.
  - apply Hquiet, quiet_createSession.
  - by apply savedOnce_destroySession.
  - apply savedOnce_foldl; [|done]. intros. by apply savedOnce_destroySession.
  - unfold destroyAll.
    eapply savedOnce_quiet; [apply quiet_persist|apply stable_objs, objs_persist|].
    apply savedOnce_foldl; [intros; by apply savedOnce_destroySession|].
    eapply savedOnce_quiet; [|by apply stable_objs|done]. by apply quiet_same.
  - apply Hquiet, quiet_sendInput.
  - apply Hquiet, quiet_sendChatInput.
  - apply Hquiet, quiet_recordUserMessage.
  - apply Hquiet, quiet_addFile.
  - apply Hquiet. unfold addSubscriber. case_match; [case_match|]; by apply quiet_same.
  - apply Hquiet. unfold removeSubscriber. case_match; [case_match|]; by apply quiet_same.
  - apply Hquiet. unfold resize. case_match; [case_match|]; [by apply quiet_log|..];
      apply quiet_refl.
  - apply Hquiet, quiet_setSessionTitle.
  - apply Hquiet, quiet_deleteSessionHistory.
  - apply Hquiet, quiet_getUserSessionHistory.
  - apply Hquiet, quiet_ptyOnData.
  - by apply savedOnce_ptyOnExit.
  - apply Hquiet, quiet_fireTimer.
  - case_match; [|done]. unfold _cleanupInactiveSessions. repeat case_match; try done.
    apply savedOnce_foldl; [|done]. intros st0 sid Hinv0. unfold reap.
    assert (Hd := savedOnce_destroySession sid now st0 Hinv0).
    destruct (lookupSession sid st0) as [[a s]|]; [|done].
    eapply savedOnce_quiet; [|apply stable_objs, objs_markEnded|done].
    apply quiet_same, trace_markEnded.
Qed.

Lemma savedOnce_run es : ∀ st, SavedOnce st → SavedOnce (run st es).
Proof.
  induction es as [|e es IH]; intros st Hinv; [done|]. simpl. by apply IH, savedOnce_step.
Qed.

Lemma quiet_recover now st : quiet st (_recoverRuntimeState now st).
Proof.
  unfold _recoverRuntimeState. destruct (runtimeStateFile st) as [file|]; [|apply quiet_refl].
  set (st1 := match file with RCorrupt => st | RJson _ active => _ end).
  apply (quiet_trans _ st1);
    [|exists [UnlinkRuntimeFile]; split; [done|by repeat constructor]].
  subst st1. destruct file as [|updatedAt active]; [apply quiet_refl|].
  apply quiet_foldl. intros st0 item. unfold recoverItem.
  destruct (_normalizeHistoryItem now _); [|apply quiet_refl].
  destruct (truthyStr (h_username item)); [|apply quiet_refl].
  pose proof (quiet_readHistory now (default [] (h_username item)) st0) as Hread.
  destruct (_readHistoryForUser now _ st0) as [st1 history]. simpl in Hread.
  eapply quiet_trans; [exact Hread|]. by apply quiet_writeHistory.
Qed.

Lemma savedOnce_newManager cfg fs now : SavedOnce (newManager cfg fs now).
Proof.
  unfold newManager.
  destruct (quiet_recover now
    {| agents := foldl (λ m ag, <[a_id ag := ag]> m) ∅ (cfg_agents cfg);
       sessions := []; userSessions := ∅; activeSessions := ∅; historyCache := ∅;
       inactiveSessionTimeout := configuredTimeout (cfg_inactiveSessionTimeout cfg);
       _idleCheckTimer := true; objs := ∅; timers := ∅; nextTimerId := 0%nat;
       historyFiles := fs_historyFiles fs; runtimeStateFile := fs_runtimeStateFile fs;
       transcriptFiles := fs_transcriptFiles fs; trace := [] |}) as (es & Htr & Hes).
  intros a. rewrite Htr. simpl. rewrite (savesBy_quiet_effects a es Hes).
  split; [simpl; lia|done].
Qed.

(** C2. Start a manager on any configuration and history directory and let
    anything happen to it: calls of [destroySession] (and of the bulk
    variants and the reaper), exit callbacks of the processes, and every
    other event, in any order and number.  For every session object, the
    history write of [_saveHistory] has then been made at most once; and
    once the [_historySaved] flag of a session is set it stays set whatever
    follows, so it goes from unset to set at most once. *)
Theorem history_is_saved_at_most_once (cfg : Config) (fs : FileSystem) (t0 : Z)
    (es es' : list (Z * Event)) (a : nat) :
  (length (savesBy a (trace (run (newManager cfg fs t0) es))) ≤ 1)%nat
  ∧ (savedFlag (run (newManager cfg fs t0) es) a = false →
     savesBy a (trace (run (newManager cfg fs t0) es)) = [])
  ∧ (savedFlag (run (newManager cfg fs t0) es) a = true →
     savedFlag (run (run (newManager cfg fs t0) es) es') a = true).
Proof.
  pose proof (savedOnce_run es _ (savedOnce_newManager cfg fs t0) a) as [Hle Hnone].
  split_and!; [done|done|].
  apply savedFlag_stable. apply stable_run; [apply respectsIO_saved|].
  apply Forall_forall. intros [now ev] _. destruct ev; simpl; try done.
  - intros s Hs. unfold pushUserMessage. by repeat case_match.
  - intros s Hs. unfold subscribe. by case_match.
Qed.

End OneShot.

(** Three calls of [destroySession] and the exit callback of the process,
    in one run: the history of the session is written once. *)
Example destroy_thrice_and_exit_saves_once :
  length (savesBy 0 (trace (@run demoOracles demoCreated
    [ (9000, EDestroySession demoSid);
      (9001, EDestroySession demoSid);
      (9002, EPtyExit 0 0 0);
      (9003, EDestroySession demoSid) ]))) = 1%nat.
Proof. vm_compute. reflexivity. Qed.

Section Recovery.
Context `{TextOracles}.

(** ** History compaction and crash recovery (C4) *)

Lemma insertByKey_perm x l : insertByKey x l ≡ₚ x :: l.
Proof.
  induction l as [|y l IH]; [done|]. simpl. case_decide; [done|].
  rewrite IH. apply Permutation_swap.
Qed.

Lemma sortByCreatedAt_perm l : sortByCreatedAt l ≡ₚ l.
Proof.
  unfold sortByCreatedAt.
  assert (Hgen : ∀ acc, foldl (λ acc x, insertByKey x acc) acc l ≡ₚ acc ++ l).
  { induction l as [|x l IH]; intros acc; simpl; [by rewrite app_nil_r|].
    rewrite IH, insertByKey_perm. simpl. apply Permutation_middle. }
  by rewrite Hgen.
Qed.

Lemma sliceLast_sublist {A} n (l : list A) : sliceLast n l `sublist_of` l.
Proof. apply sublist_drop. Qed.

Lemma sliceLast_all {A} n (l : list A) : len l ≤ n → sliceLast n l = l.
Proof.
  intros Hlen. unfold sliceLast. replace (Z.to_nat (len l - n)) with 0%nat by lia. done.
Qed.


(** Normalization keeps the session id, and an end reason that is set. *)
Lemma normalize_Some now x y :
  _normalizeHistoryItem now x = Some y →
  h_sessionId y = h_sessionId x
  ∧ truthyStr (h_sessionId x) = true
  ∧ (truthyStr (h_endedReason x) = true → h_endedReason y = h_endedReason x).
Proof.
  unfold _normalizeHistoryItem. destruct (truthyStr (h_sessionId x)) eqn:Hsid; [|done].
  intros [= <-]. simpl. split_and!; [done..|]. by intros ->.
Qed.

Lemma normalize_truthy now x :
  truthyStr (h_sessionId x) = true → is_Some (_normalizeHistoryItem now x).
Proof. unfold _normalizeHistoryItem. intros ->. eauto. Qed.

Lemma truthyStr_Some o : truthyStr o = true → ∃ s, o = Some s ∧ s ≠ [].
Proof. destruct o as [[|c r]|]; try done. eauto. Qed.

(** *** The de-duplication map *)

Lemma JsMap_set_keys {V} (k : jsstring) (v : V) (m : list (jsstring * V)) :
  (JsMap.set k v m).*1 = if decide (k ∈ m.*1) then m.*1 else m.*1 ++ [k].
Proof.
  induction m as [|[k' v'] m IH]; [done|].
  cbn [JsMap.set]. destruct (decide (k = k')) as [->|Hne]; rewrite !fmap_cons; cbn [fst].
  - rewrite decide_True by (by left). done.
  - rewrite IH. destruct (decide (k ∈ m.*1)) as [Hin|Hni].
    + rewrite decide_True by (by right). done.
    + rewrite decide_False; [done|]. intros [?|?]%elem_of_cons; done.
Qed.

Lemma JsMap_set_elem {V} (k k0 : jsstring) (v v0 : V) (m : list (jsstring * V)) :
  (k0, v0) ∈ JsMap.set k v m → (k0, v0) = (k, v) ∨ (k0, v0) ∈ m.
Proof.
  induction m as [|[k' v'] m IH]; simpl.
  - intros ?%list_elem_of_singleton. by left.
  - case_decide; subst; rewrite !elem_of_cons; intuition.
Qed.

Lemma JsMap_get_None {V} (k : jsstring) (m : list (jsstring * V)) :
  JsMap.get k m = None ↔ k ∉ m.*1.
Proof.
  induction m as [|[k' v'] m IH]; simpl; [split; [intros _; apply not_elem_of_nil|done]|].
  case_decide; subst.
  - split; [done|]. intros []. by left.
  - rewrite IH, not_elem_of_cons. tauto.
Qed.

Lemma JsMap_set_fresh {V} (k : jsstring) (v : V) (m : list (jsstring * V)) :
  k ∉ m.*1 → JsMap.set k v m = m ++ [(k, v)].
Proof.
  induction m as [|[k' v'] m IH]; [done|]. rewrite fmap_cons, not_elem_of_cons.
  intros [Hne Hni]. simpl. rewrite decide_False by done. by rewrite IH.
Qed.

Lemma keyed_set k v dedup :
  keyed dedup → h_sessionId v = Some k → k ≠ [] → keyed (JsMap.set k v dedup).
Proof.
  intros [Hnd Hkey] Hv Hne. split.
  - rewrite JsMap_set_keys. case_decide; [done|].
    apply NoDup_app. split_and!; [done| |apply NoDup_singleton].
    intros x Hx ->%list_elem_of_singleton. done.
  - intros k0 v0 [[= -> ->]|Hin]%JsMap_set_elem; [done|]. by apply Hkey.
Qed.

Lemma keyed_dedupStep now dedup raw : keyed dedup → keyed (dedupStep now dedup raw).
Proof.
  intros Hk. unfold dedupStep.
  destruct (_normalizeHistoryItem now raw) as [item|] eqn:Hn; [|done].
  destruct (normalize_Some now raw item Hn) as (Hsid & Htr & _).
  destruct (truthyStr_Some _ Htr) as (sid & Hraw & Hne).
  rewrite Hsid, Hraw. simpl. case_match; apply keyed_set; try done.
  - unfold mergeDuplicate. simpl. congruence.
  - congruence.
Qed.

Lemma keyed_foldl now l : ∀ dedup, keyed dedup → keyed (foldl (dedupStep now) dedup l).
Proof.
  induction l as [|x l IH]; intros dedup Hk; [done|]. simpl. by apply IH, keyed_dedupStep.
Qed.


(** Every output of [_compactHistory] holds at most one entry per session
    id, each with a set id, and is no longer than its input. *)
Lemma compact_NoDup now items : NoDup (h_sessionId <$> _compactHistory now items).
Proof.
  unfold _compactHistory.
  destruct (keyed_foldl now (default [] items) []) as [Hnd Hkey].
  { split; [constructor|]. by intros k v ?%elem_of_nil. }
  set (dedup := foldl _ _ _) in *.
  eapply sublist_NoDup; [|apply fmap_sublist, sliceLast_sublist].
  rewrite sortByCreatedAt_perm. unfold JsMap.values.
  assert (Hids : h_sessionId <$> dedup.*2 = Some <$> dedup.*1).
  { clear Hnd. induction dedup as [|[k v] d IH]; [done|]. simpl. f_equal.
    - apply Hkey. by left.
    - apply IH. intros. apply Hkey. by right. }
  rewrite Hids. apply NoDup_fmap; [|done]. by intros ?? [=].
Qed.



Lemma compact_truthy now items h :
  h ∈ _compactHistory now items → truthyStr (h_sessionId h) = true.
Proof.
  unfold _compactHistory. intros Hin.
  destruct (keyed_foldl now (default [] items) []) as [_ Hkey].
  { split; [constructor|]. by intros k v ?%elem_of_nil. }
  apply (λ Hi, elem_of_sublist _ _ _ Hi (sliceLast_sublist _ _)) in Hin.
  rewrite sortByCreatedAt_perm in Hin.
  apply list_elem_of_fmap in Hin as ([k v] & -> & Hin).
  destruct (Hkey k v Hin) as [Hv Hne]. simpl. rewrite Hv. by destruct k.
Qed.

(** On a list of entries with distinct, set session ids nothing is merged:
    the map holds the normalized entries in order. *)
Lemma dedup_distinct now l : ∀ dedup,
  (∀ x, x ∈ l → truthyStr (h_sessionId x) = true) →
  NoDup (h_sessionId <$> l) →
  (∀ x k, x ∈ l → k ∈ dedup.*1 → h_sessionId x ≠ Some k) →
  (foldl (dedupStep now) dedup l).*2 = dedup.*2 ++ omap (_normalizeHistoryItem now) l.
Proof.
  induction l as [|x l IH]; intros dedup Htr Hnd Hfresh; simpl; [by rewrite app_nil_r|].
  rewrite fmap_cons in Hnd. apply NoDup_cons in Hnd as [Hx Hnd].
  destruct (normalize_truthy now x) as [y Hy]; [apply Htr; by left|].
  destruct (normalize_Some now x y Hy) as (Hsid & Htrx & _).
  destruct (truthyStr_Some _ Htrx) as (sid & Hraw & Hne).
  assert (Hstep : dedupStep now dedup x = dedup ++ [(sid, y)]).
  { unfold dedupStep. rewrite Hy, Hsid, Hraw. simpl.
    assert (Hnone : JsMap.get sid dedup = None).
    { apply JsMap_get_None. intros Hin. by apply (Hfresh x sid); [left| |]. }
    rewrite Hnone. apply JsMap_set_fresh. by apply JsMap_get_None. }
  rewrite Hstep, Hy, IH.
  - rewrite fmap_app. simpl. by rewrite <- app_assoc.
  - intros. apply Htr. by right.
  - done.
  - intros x' k Hx' Hk. rewrite fmap_app in Hk. apply elem_of_app in Hk as [Hk|Hk].
    + apply Hfresh; [by right|done].
    + simpl in Hk. apply list_elem_of_singleton in Hk as ->.
      intros Heq. apply Hx. rewrite Hraw, <- Heq. apply list_elem_of_fmap. eauto.
Qed.

Lemma compact_distinct now l :
  (∀ x, x ∈ l → truthyStr (h_sessionId x) = true) →
  NoDup (h_sessionId <$> l) →
  _compactHistory now (Some l)
  = sliceLast 80 (sortByCreatedAt (omap (_normalizeHistoryItem now) l)).
Proof.
  intros Htr Hnd. unfold _compactHistory, JsMap.values. simpl.
  rewrite (dedup_distinct now l []); [done..|]. by intros x k _ ?%elem_of_nil.
Qed.




(** *** Reading and writing a history file *)

Lemma readHistory_result now user st :
  (_readHistoryForUser now user st).2 = effectiveHistory now user st
  ∧ historyCache (_readHistoryForUser now user st).1 !! user
    = Some (effectiveHistory now user st)
  ∧ historyFiles (_readHistoryForUser now user st).1 = historyFiles st
  ∧ runtimeStateFile (_readHistoryForUser now user st).1 = runtimeStateFile st
  ∧ ∀ u, effectiveHistory now u (_readHistoryForUser now user st).1
         = effectiveHistory now u st.
Proof.
  unfold _readHistoryForUser, effectiveHistory.
  destruct (historyCache st !! user) as [l|] eqn:Hc; simpl; [by rewrite Hc|].
  assert (Hother : ∀ (v : list HistoryItem) u,
            v = match historyFiles st !! user with
                | Some (HJson parsed) => _compactHistory now parsed
                | _ => []
                end →
            match <[user := v]> (historyCache st) !! u with
            | Some l => l
            | None => match historyFiles st !! u with
                      | Some (HJson parsed) => _compactHistory now parsed
                      | _ => []
                      end
            end
            = match historyCache st !! u with
              | Some l => l
              | None => match historyFiles st !! u with
                        | Some (HJson parsed) => _compactHistory now parsed
                        | _ => []
                        end
              end).
  { intros v u ->. destruct (decide (u = user)) as [->|Hne].
    - by rewrite lookup_insert_eq, Hc.
    - by rewrite lookup_insert_ne. }
  destruct (historyFiles st !! user) as [[|parsed]|] eqn:Hf; simpl;
    rewrite lookup_insert_eq; split_and!; try done; intros u; by apply Hother.
Qed.

Lemma writeHistory_result by_ now user l st :
  effectiveHistory now user (_writeHistoryForUser by_ now user l st)
  = _compactHistory now (Some l)
  ∧ historyFiles (_writeHistoryForUser by_ now user l st) !! user
    = Some (HJson (Some (_compactHistory now (Some l))))
  ∧ runtimeStateFile (_writeHistoryForUser by_ now user l st) = runtimeStateFile st
  ∧ ∀ u, u ≠ user →
      effectiveHistory now u (_writeHistoryForUser by_ now user l st)
      = effectiveHistory now u st
      ∧ historyFiles (_writeHistoryForUser by_ now user l st) !! u = historyFiles st !! u.
Proof.
  unfold _writeHistoryForUser, effectiveHistory. simpl.
  rewrite !lookup_insert_eq. split_and!; [done..|].
  intros u Hne. by rewrite !lookup_insert_ne.
Qed.


(** *** One snapshot entry *)










(** The snapshot file is removed whatever it holds. *)
Lemma recovery_removes_snapshot (now : Z) (st : Manager) :
  runtimeStateFile (_recoverRuntimeState now st) = None.
Proof.
  unfold _recoverRuntimeState. by destruct (runtimeStateFile st) eqn:Hf.
Qed.

End Recovery.



(** * Further properties of the code *)

Section Compaction.

(** ** History compaction *)

Lemma ascending_perm_head x l l' :
  l ≡ₚ l' → Forall (λ y, sortKey x ≤ sortKey y) l → Forall (λ y, sortKey x ≤ sortKey y) l'.
Proof. intros Hp. by rewrite Hp. Qed.

Lemma insertByKey_ascending x l : ascending l → ascending (insertByKey x l).
Proof.
  induction l as [|y l IH]; intros Hl; [by split|].
  destruct Hl as [Hy Hl]. cbn [insertByKey]. case_decide as Hlt.
  - split; [|by split]. constructor; [lia|].
    eapply Forall_impl; [exact Hy|]. intros z Hz. simpl in Hz. lia.
  - split; [|by apply IH].
    apply (ascending_perm_head y (x :: l)); [by rewrite insertByKey_perm|].
    constructor; [lia|done].
Qed.

Lemma sortByCreatedAt_ascending l : ascending (sortByCreatedAt l).
Proof.
  unfold sortByCreatedAt.
  assert (Hgen : ∀ acc, ascending acc → ascending (foldl (λ acc x, insertByKey x acc) acc l)).
  { induction l as [|x l IH]; intros acc Hacc; [done|].
    simpl. by apply IH, insertByKey_ascending. }
  by apply Hgen.
Qed.

Lemma ascending_app l1 l2 :
  ascending (l1 ++ l2)
  ↔ ascending l1 ∧ ascending l2
    ∧ ∀ x y, x ∈ l1 → y ∈ l2 → sortKey x ≤ sortKey y.
Proof.
  induction l1 as [|z l1 IH]; simpl.
  - split; [intros ?; split_and!; [done..|by intros ?? ?%elem_of_nil]|by intros (_ & ? & _)].
  - rewrite IH, Forall_app. split.
    + intros ([Hz1 Hz2] & H1 & H2 & H12). split_and!; [done..|].
      intros x y [->|Hx]%elem_of_cons Hy; [|by apply H12].
      by eapply Forall_forall in Hz2.
    + intros ([Hz1 H1] & H2 & H12). split_and!; [done| |done..|].
      * apply Forall_forall. intros y Hy. apply H12; [by left|done].
      * intros x y Hx Hy. apply H12; [by right|done].
Qed.

Lemma ascending_drop n l : ascending l → ascending (drop n l).
Proof.
  intros Hl. rewrite <- (take_drop n l) in Hl. by apply ascending_app in Hl as (_ & ? & _).
Qed.

Lemma insertByKey_last x acc :
  Forall (λ y, sortKey y ≤ sortKey x) acc → insertByKey x acc = acc ++ [x].
Proof.
  induction 1 as [|y acc Hy Hacc IH]; [done|].
  cbn [insertByKey]. rewrite decide_False by lia. by rewrite IH.
Qed.

(** Sorting a list that is in order already returns it. *)
Lemma sortByCreatedAt_sorted l : ascending l → sortByCreatedAt l = l.
Proof.
  unfold sortByCreatedAt.
  assert (Hgen : ∀ acc, ascending (acc ++ l) →
            foldl (λ acc x, insertByKey x acc) acc l = acc ++ l).
  { induction l as [|x l IH]; intros acc Hacc; simpl; [by rewrite app_nil_r|].
    rewrite insertByKey_last.
    - rewrite IH; [by rewrite <- app_assoc|]. by rewrite <- app_assoc.
    - apply ascending_app in Hacc as (_ & _ & H12).
      apply Forall_forall. intros y Hy. apply H12; [done|by left]. }
  intros Hl. by apply (Hgen []).
Qed.

Lemma sliceLast_bound {A} n (l : list A) : 0 ≤ n → len (sliceLast n l) ≤ n.
Proof. intros Hn. unfold sliceLast, len. rewrite length_drop. lia. Qed.

Lemma orStr_nonempty o d : d ≠ [] → orStr o d ≠ [].
Proof. destruct o as [[|c r]|]; simpl; done. Qed.

Lemma orStr_Some s d : s ≠ [] → orStr (Some s) d = s.
Proof. by destruct s. Qed.

Lemma truthyStr_Some_iff s : truthyStr (Some s) = true ↔ s ≠ [].
Proof. destruct s; simpl; split; done. Qed.

Lemma modeOf_modeString m : modeOf (Some (modeString m)) = m.
Proof. by destruct m. Qed.

Lemma orNum_nonzero o d : d ≠ 0 → orNum o d ≠ 0.
Proof. destruct o as [z|]; simpl; [case_decide|]; done. Qed.

Lemma orNum_Some z d : z ≠ 0 → orNum (Some z) d = z.
Proof. intros. simpl. by rewrite decide_False. Qed.

Lemma orNum_idem o : orNum (Some (orNum o 0)) 0 = orNum o 0.
Proof. destruct o as [z|]; simpl; repeat case_decide; done. Qed.

(** An entry normalized while the clock does not read zero is [Normal]. *)
Lemma normalize_Normal now x y :
  now ≠ 0 → _normalizeHistoryItem now x = Some y → Normal y.
Proof.
  intros Hnow Hn now'. unfold _normalizeHistoryItem in Hn |- *.
  destruct (truthyStr (h_sessionId x)) eqn:Hsid; [|done].
  injection Hn as <-. cbn [h_sessionId h_agentId h_modelId h_mode h_createdAt h_endedAt
    h_filesCount h_title h_endedReason]. rewrite Hsid.
  rewrite modeOf_modeString.
  rewrite !(orStr_Some (orStr _ _)) by (apply orStr_nonempty; try done; by destruct (orStr (h_agentId x) (lit "agent"))).
  rewrite (orNum_Some (orNum _ now)) by by apply orNum_nonzero.
  rewrite orNum_idem.
  do 2 f_equal.
  - destruct (h_endedAt x) as [e|]; [|done]. case_decide; [done|]. by rewrite decide_False.
  - destruct (truthyStr (h_endedReason x)) eqn:Hr; [by rewrite Hr|done].
Qed.
Lemma Normal_created h : Normal h → ∃ c, h_createdAt h = Some c ∧ c ≠ 0.
Proof.
  intros Hn. pose proof (Hn 1) as H1. pose proof (Hn 2) as H2.
  unfold _normalizeHistoryItem in H1, H2.
  destruct (truthyStr (h_sessionId h)); [|done].
  apply (f_equal (fmap h_createdAt)) in H1, H2. simpl in H1, H2.
  destruct (h_createdAt h) as [c|]; [|done]. exists c. split; [done|].
  intros ->. simpl in *. congruence.
Qed.

Lemma Normal_unnamed h : Normal h → h_username h = None ∧ h_lastActivityAt h = None.
Proof.
  intros Hn. specialize (Hn 1). unfold _normalizeHistoryItem in Hn.
  destruct (truthyStr (h_sessionId h)); [|done].
  split.
  - apply (f_equal (fmap h_username)) in Hn. cbn in Hn. congruence.
  - apply (f_equal (fmap h_lastActivityAt)) in Hn. cbn in Hn. congruence.
Qed.

Lemma Normal_spread p i : Normal p → Normal i → spreadEntry p i = i.
Proof.
  intros [Hp1 Hp2]%Normal_unnamed [Hi1 Hi2]%Normal_unnamed.
  unfold spreadEntry. rewrite Hp1, Hp2, Hi1, Hi2. destruct i. cbn in *. by subst.
Qed.

Lemma Normal_ended h : Normal h → h_endedAt h ≠ Some 0.
Proof.
  intros Hn. specialize (Hn 1). unfold _normalizeHistoryItem in Hn.
  destruct (truthyStr (h_sessionId h)); [|done].
  apply (f_equal (fmap h_endedAt)) in Hn. simpl in Hn.
  destruct (h_endedAt h) as [e|]; [|done]. intros [= ->]. done.
Qed.

Lemma Normal_update c e h :
  Normal h → c ≠ 0 → e ≠ Some 0 → Normal (set_h_endedAt e (set_h_createdAt (Some c) h)).
Proof.
  intros Hn Hc He now. specialize (Hn now). unfold _normalizeHistoryItem in Hn |- *.
  cbn [h_sessionId set_h_endedAt set_h_createdAt h_agentId h_modelId h_mode h_createdAt
       h_endedAt h_filesCount h_title h_endedReason].
  destruct (truthyStr (h_sessionId h)); [|done].
  injection Hn as Hn. rewrite orNum_Some by done.
  f_equal. unfold set_h_endedAt, set_h_createdAt.
  cbn [h_sessionId h_username h_agentId h_modelId h_mode h_createdAt h_lastActivityAt
       h_endedAt h_filesCount h_title h_hasTranscript h_endedReason].
  f_equal;
    first [ exact (f_equal h_username Hn) | exact (f_equal h_agentId Hn)
          | exact (f_equal h_modelId Hn) | exact (f_equal h_mode Hn)
          | exact (f_equal h_lastActivityAt Hn) | exact (f_equal h_filesCount Hn)
          | exact (f_equal h_title Hn) | exact (f_equal h_hasTranscript Hn)
          | exact (f_equal h_endedReason Hn) | idtac ].
  destruct e as [z|]; [|done]. rewrite decide_False; [done|]. by intros ->.
Qed.

Lemma Normal_merge p i : Normal p → Normal i → Normal (mergeDuplicate p i).
Proof.
  intros Hp Hi. unfold mergeDuplicate. rewrite Normal_spread by done.
  destruct (Normal_created p Hp) as (c & Hc & Hc0). rewrite Hc.
  apply Normal_update; [done| |].
  - rewrite orNum_Some by done. by rewrite decide_False.
  - case_decide; [done|]. by intros [=].
Qed.

Lemma JsMap_set_Forall {V} (P : V → Prop) (k : jsstring) (v : V) (m : list (jsstring * V)) :
  Forall P m.*2 → P v → Forall P (JsMap.set k v m).*2.
Proof.
  intros Hm Hv. apply Forall_forall. intros w Hw.
  apply list_elem_of_fmap in Hw as ([k0 w0] & -> & Hin).
  apply JsMap_set_elem in Hin as [[= -> ->]|Hin]; [done|].
  eapply Forall_forall in Hm; [exact Hm|]. apply list_elem_of_fmap. by exists (k0, w0).
Qed.

Lemma dedup_Normal now l : now ≠ 0 → ∀ dedup,
  Forall Normal dedup.*2 → Forall Normal (foldl (dedupStep now) dedup l).*2.
Proof.
  intros Hnow. induction l as [|raw l IH]; intros dedup Hd; [done|].
  simpl. apply IH. unfold dedupStep.
  destruct (_normalizeHistoryItem now raw) as [item|] eqn:Hn; [|done].
  pose proof (normalize_Normal _ _ _ Hnow Hn) as Hitem.
  destruct (JsMap.get _ dedup) as [prev|] eqn:Hg.
  - apply JsMap_set_Forall; [done|]. apply Normal_merge; [|done].
    apply JsMap_get_elem in Hg. eapply Forall_forall in Hd; [exact Hd|].
    apply list_elem_of_fmap. by eexists (_, prev).
  - by apply JsMap_set_Forall.
Qed.

Lemma compact_Normal now items : now ≠ 0 → Forall Normal (_compactHistory now items).
Proof.
  intros Hnow. unfold _compactHistory.
  assert (Hall : Forall Normal (sortByCreatedAt
            (JsMap.values (foldl (dedupStep now) [] (default [] items))))).
  { rewrite sortByCreatedAt_perm. by apply dedup_Normal. }
  apply Forall_forall. intros h Hh.
  eapply Forall_forall in Hall; [exact Hall|].
  eapply elem_of_sublist; [exact Hh|apply sliceLast_sublist].
Qed.

Lemma Normal_truthy h : Normal h → truthyStr (h_sessionId h) = true.
Proof. intros Hn. by destruct (normalize_Some 1 h h (Hn 1)) as (_ & ? & _). Qed.

Lemma omap_Normal now l : Forall Normal l → omap (_normalizeHistoryItem now) l = l.
Proof.
  induction 1 as [|h l Hh Hl IH]; [done|].
  change (omap ?f (h :: l)) with (match f h with Some y => y :: omap f l | None => omap f l end).
  by rewrite Hh, IH.
Qed.

(** A list that is compacted already is returned as it is. *)
Lemma compact_fixed now l :
  Forall Normal l → NoDup (h_sessionId <$> l) → ascending l → len l ≤ 80 →
  _compactHistory now (Some l) = l.
Proof.
  intros Hn Hnd Hasc Hlen. rewrite compact_distinct; [|  |done].
  - rewrite omap_Normal, sortByCreatedAt_sorted by done. by apply sliceLast_all.
  - intros x Hx. apply Normal_truthy. by eapply Forall_forall in Hn.
Qed.

(** X1. Whatever list it is given, [_compactHistory] returns at most 80
    entries, no two of them for the same session id, each with a non-empty
    session id, in the order of their creation times. *)
Theorem compactHistory_bounded_distinct_ordered (now : Z) (items : option (list HistoryItem)) :
  len (_compactHistory now items) ≤ 80
  ∧ NoDup (h_sessionId <$> _compactHistory now items)
  ∧ Forall (λ h, ∃ sid, h_sessionId h = Some sid ∧ sid ≠ []) (_compactHistory now items)
  ∧ ascending (_compactHistory now items).
Proof.
  split_and!.
  - by apply sliceLast_bound.
  - apply compact_NoDup.
  - apply Forall_forall. intros h Hh. by eapply truthyStr_Some, compact_truthy.
  - apply ascending_drop, sortByCreatedAt_ascending.
Qed.

(** X2. Compaction is idempotent: compacting a list that [_compactHistory]
    returned (while the clock did not read zero) gives the same list back,
    at any later time.  So a history file written by the manager is read
    back as it was written. *)
Theorem compactHistory_idempotent (now now' : Z) (items : option (list HistoryItem)) :
  now ≠ 0 →
  _compactHistory now' (Some (_compactHistory now items)) = _compactHistory now items.
Proof.
  intros Hnow. apply compact_fixed.
  - by apply compact_Normal.
  - apply compact_NoDup.
  - apply ascending_drop, sortByCreatedAt_ascending.
  - by apply sliceLast_bound.
Qed.

(** X3. Compaction drops only the oldest entries.  For a list with distinct
    non-empty session ids: when the normalized form of one of its entries is
    missing from the result, the result is full (80 entries) and each of
    its entries was created no earlier than the missing one. *)
Theorem compactHistory_drops_only_oldest (now : Z) (l : list HistoryItem)
    (x y : HistoryItem) :
  Forall (λ z, truthyStr (h_sessionId z) = true) l →
  NoDup (h_sessionId <$> l) →
  x ∈ l →
  _normalizeHistoryItem now x = Some y →
  y ∉ _compactHistory now (Some l) →
  len (_compactHistory now (Some l)) = 80
  ∧ Forall (λ h, sortKey y ≤ sortKey h) (_compactHistory now (Some l)).
Proof.
  intros Htr Hnd Hx Hn Hout.
  rewrite compact_distinct in Hout |- * by (by try apply Forall_forall).
  set (S := sortByCreatedAt (omap (_normalizeHistoryItem now) l)) in *.
  assert (HyS : y ∈ S).
  { subst S. rewrite sortByCreatedAt_perm. apply list_elem_of_omap. eauto. }
  assert (Hasc : ascending S) by apply sortByCreatedAt_ascending.
  unfold sliceLast in *. set (k := Z.to_nat (len S - 80)) in *.
  rewrite <- (take_drop k S) in HyS, Hasc.
  apply elem_of_app in HyS as [Hy|Hy]; [|done].
  apply ascending_app in Hasc as (_ & _ & H12). split.
  - assert (Hk : (0 < k)%nat).
    { destruct k; [|lia]. by apply elem_of_nil in Hy. }
    unfold len in *. rewrite length_drop. lia.
  - apply Forall_forall. intros h Hh. by apply H12.
Qed.

End Compaction.

Lemma compactHistory_idempotent_witness :
  (1000 : Z) ≠ 0
  ∧ _compactHistory 9000 (Some (_compactHistory 1000 (Some repeatedHistory)))
    = _compactHistory 1000 (Some repeatedHistory).
Proof.
  assert (Hnow : (1000 : Z) ≠ 0) by done.
  split; [exact Hnow|].
  exact (compactHistory_idempotent 1000 9000 (Some repeatedHistory) Hnow).
Defined.

Lemma compactHistory_drops_only_oldest_witness :
  Forall (λ z, truthyStr (h_sessionId z) = true) overfullHistory
  ∧ NoDup (h_sessionId <$> overfullHistory)
  ∧ endedEntry (lit "alice-codex-7") 7 ∈ overfullHistory
  ∧ _normalizeHistoryItem 9000 (endedEntry (lit "alice-codex-7") 7)
    = Some (endedEntry (lit "alice-codex-7") 7)
  ∧ (endedEntry (lit "alice-codex-7") 7 ∉ _compactHistory 9000 (Some overfullHistory))
  ∧ len (_compactHistory 9000 (Some overfullHistory)) = 80.
Proof.
  assert (H1 : Forall (λ z, truthyStr (h_sessionId z) = true) overfullHistory).
  { apply Forall_cons. split; [done|]. apply Forall_fmap, Forall_forall. by intros. }
  assert (H2 : NoDup (h_sessionId <$> overfullHistory)).
  { refine (bool_decide_unpack _ _). vm_compute. exact I. }
  assert (H3 : endedEntry (lit "alice-codex-7") 7 ∈ overfullHistory) by left.
  assert (H4 : _normalizeHistoryItem 9000 (endedEntry (lit "alice-codex-7") 7)
               = Some (endedEntry (lit "alice-codex-7") 7)) by (vm_compute; reflexivity).
  assert (H5 : endedEntry (lit "alice-codex-7") 7
               ∉ _compactHistory 9000 (Some overfullHistory)).
  { refine (bool_decide_unpack _ _). vm_compute. exact I. }
  split_and!; [exact H1|exact H2|exact H3|exact H4|exact H5|].
  exact (proj1 (compactHistory_drops_only_oldest 9000 overfullHistory _ _ H1 H2 H3 H4 H5)).
Defined.

Section HistoryFiles.
Context `{TextOracles}.

(** ** The history files and their cache *)

Lemma compact_Compacted now items : now ≠ 0 → Compacted (_compactHistory now items).
Proof.
  intros Hnow. split_and!.
  - by apply compact_Normal.
  - apply compact_NoDup.
  - apply ascending_drop, sortByCreatedAt_ascending.
  - by apply sliceLast_bound.
Qed.

Lemma Compacted_fixed now l : Compacted l → _compactHistory now (Some l) = l.
Proof. intros (? & ? & ? & ?). by apply compact_fixed. Qed.

Lemma Compacted_nil : Compacted [].
Proof. split_and!; [constructor|constructor|done|done]. Qed.

(** X4. A history written by [_writeHistoryForUser] is read back as
    written: the next read answers from the cache with the compacted list
    and changes nothing, and a server restarted over the same files reads
    the same list from disk. *)
Theorem history_write_then_read (by_ : HistoryWriter) (now now1 now2 now3 : Z)
    (user : jsstring) (history : list HistoryItem) (cfg : Config) (st : Manager) :
  now ≠ 0 →
  let st' := _writeHistoryForUser by_ now user history st in
  _readHistoryForUser now1 user st' = (st', _compactHistory now (Some history))
  ∧ (_readHistoryForUser now3 user (newManager cfg (filesAfterShutdown st') now2)).2
    = _compactHistory now (Some history).
Proof.
  intros Hnow st'. split.
  - unfold _readHistoryForUser. subst st'. unfold _writeHistoryForUser, log.
    cbn [historyCache set_trace set_historyFiles set_historyCache].
    by rewrite lookup_insert_eq.
  - unfold newManager, _recoverRuntimeState, filesAfterShutdown.
    cbn [runtimeStateFile fs_runtimeStateFile].
    unfold _readHistoryForUser.
    cbn [historyCache historyFiles fs_historyFiles]. rewrite lookup_empty.
    subst st'. unfold _writeHistoryForUser, log.
    cbn [historyFiles set_trace set_historyFiles set_historyCache].
    rewrite lookup_insert_eq. cbn [snd].
    apply Compacted_fixed. by apply compact_Compacted.
Qed.

(** X5. Reading a user's history is cached: a second read returns the same
    list and the same state, and reading never touches the files or the
    outside world.  A user whose file is missing, unparsable or not an array
    has the empty history. *)
Theorem readHistory_is_cached (now now' : Z) (user : jsstring) (st : Manager) :
  let r := _readHistoryForUser now user st in
  _readHistoryForUser now' user r.1 = r
  ∧ historyFiles r.1 = historyFiles st
  ∧ trace r.1 = trace st
  ∧ (historyCache st !! user = None →
     historyFiles st !! user = None ∨ historyFiles st !! user = Some HCorrupt
       ∨ historyFiles st !! user = Some (HJson None) →
     r.2 = []).
Proof.
  cbv zeta. unfold _readHistoryForUser.
  destruct (historyCache st !! user) as [l|] eqn:Hc.
  - cbn [fst snd]. rewrite Hc. split_and!; done.
  - destruct (historyFiles st !! user) as [[|[parsed|]]|] eqn:Hf;
      cbn [fst snd historyCache set_historyCache historyFiles trace];
      rewrite lookup_insert_eq; split_and!; try done;
      intros _ [?|[?|?]]; done.
Qed.

(** *** The merged listing *)

Lemma JsMap_get_set {V} (k k' : jsstring) (v : V) (m : list (jsstring * V)) :
  JsMap.get k' (JsMap.set k v m) = if decide (k' = k) then Some v else JsMap.get k' m.
Proof.
  induction m as [|[k0 v0] m IH]; cbn [JsMap.set JsMap.get].
  - by destruct (decide (k' = k)).
  - destruct (decide (k = k0)) as [->|Hne]; cbn [JsMap.get].
    + by destruct (decide (k' = k0)).
    + rewrite IH. destruct (decide (k' = k0)) as [->|?]; [|done].
      by rewrite decide_False by done.
Qed.

Lemma keyed_ids (m : list (jsstring * HistoryItem)) :
  keyed m → h_sessionId <$> m.*2 = Some <$> m.*1.
Proof.
  intros [_ Hkey]. induction m as [|[k v] m IH]; [done|]. simpl. f_equal.
  - apply Hkey. by left.
  - apply IH. intros. apply Hkey. by right.
Qed.

Lemma keyed_nil : keyed [].
Proof. split; [constructor|]. by intros k v ?%elem_of_nil. Qed.

(** The entries of an id-indexed table are the values found under its keys. *)
Lemma keyed_values (m : list (jsstring * HistoryItem)) y :
  keyed m → y ∈ m.*2 ↔ ∃ k, JsMap.get k m = Some y.
Proof.
  intros [Hnd _]. split.
  - intros ([k v] & -> & Hin)%list_elem_of_fmap. exists k. by apply JsMap_elem_get.
  - intros (k & Hg). apply JsMap_get_elem in Hg. apply list_elem_of_fmap. by exists (k, y).
Qed.

Lemma normalize_bare now x y : _normalizeHistoryItem now x = Some y → bare y.
Proof.
  unfold _normalizeHistoryItem. destruct (truthyStr (h_sessionId x)); [|done].
  by intros [= <-].
Qed.

Lemma spreadEntry_bare p i :
  bare p → bare i → spreadEntry p i = i.
Proof.
  intros [Hp1 Hp2] [Hi1 Hi2]. unfold spreadEntry. rewrite Hp1, Hp2, Hi1, Hi2.
  destruct i. cbn in *. by subst.
Qed.

Lemma latestOf_step recs m item k :
  latestOf recs m → bare item → h_sessionId item = Some k → k ≠ [] →
  latestOf (recs ++ [item]) (JsMap.set k item m).
Proof.
  intros (Hk & Hb & Hget) Hbi Hid Hne. split_and!.
  - by apply keyed_set.
  - by apply JsMap_set_Forall.
  - intros sid. rewrite JsMap_get_set, filter_app, Hget.
    rewrite filter_cons, filter_nil. destruct (decide (sid = k)) as [->|Hsk].
    + rewrite decide_True by done. by rewrite last_snoc.
    + rewrite decide_False by congruence. by rewrite app_nil_r.
Qed.

Lemma latestOf_disk now l : ∀ recs m,
  latestOf recs m →
  latestOf (recs ++ omap (_normalizeHistoryItem now) l)
    (foldl (λ merged raw,
              match _normalizeHistoryItem now raw with
              | Some item => JsMap.set (default [] (h_sessionId item)) item merged
              | None => merged
              end) m l).
Proof.
  induction l as [|raw l IH]; intros recs m Hm; [by rewrite app_nil_r|].
  change (omap ?f (raw :: l)) with (match f raw with Some y => y :: omap f l | None => omap f l end).
  cbn [foldl]. destruct (_normalizeHistoryItem now raw) as [item|] eqn:Hn; [|by apply IH].
  rewrite cons_middle, (assoc_L (++)). apply IH.
  destruct (normalize_Some _ _ _ Hn) as (Hid & Htr & _).
  destruct (truthyStr_Some _ Htr) as (k & Hk & Hne).
  rewrite Hid, Hk. change (default [] (Some k)) with k.
  apply latestOf_step; [done|by eapply normalize_bare|congruence|done].
Qed.

Lemma latestOf_runtime now l : ∀ recs m,
  latestOf recs m →
  latestOf (recs ++ omap (_normalizeHistoryItem now) l)
    (foldl (λ merged raw,
              match _normalizeHistoryItem now raw with
              | Some item =>
                  JsMap.set (default [] (h_sessionId item))
                    match JsMap.get (default [] (h_sessionId item)) merged with
                    | Some prev => spreadEntry prev item
                    | None => item
                    end merged
              | None => merged
              end) m l).
Proof.
  induction l as [|raw l IH]; intros recs m Hm; [by rewrite app_nil_r|].
  change (omap ?f (raw :: l)) with (match f raw with Some y => y :: omap f l | None => omap f l end).
  cbn [foldl]. destruct (_normalizeHistoryItem now raw) as [item|] eqn:Hn; [|by apply IH].
  rewrite cons_middle, (assoc_L (++)). apply IH.
  destruct (normalize_Some _ _ _ Hn) as (Hid & Htr & _).
  destruct (truthyStr_Some _ Htr) as (k & Hk & Hne).
  rewrite Hid, Hk. change (default [] (Some k)) with k.
  pose proof (normalize_bare _ _ _ Hn) as Hbi.
  assert (Hv : match JsMap.get k m with
               | Some prev => spreadEntry prev item
               | None => item
               end = item).
  { destruct (JsMap.get k m) as [prev|] eqn:Hg; [|done].
    destruct Hm as (_ & Hb & _). apply JsMap_get_elem in Hg.
    apply spreadEntry_bare; [|done].
    eapply Forall_forall in Hb; [exact Hb|]. apply list_elem_of_fmap. by exists (k, prev). }
  rewrite Hv. apply latestOf_step; [done|done|congruence|done].
Qed.

Lemma latestOf_nil : latestOf [] [].
Proof. split_and!; [apply keyed_nil|constructor|done]. Qed.

(** The listing is the table of the latest normalized records, disk
    entries first. *)
Lemma listing_latestOf user now st :
  ∃ m, (getUserSessionHistory user now st).2 = m.*2
       ∧ latestOf (omap (_normalizeHistoryItem now)
                     (effectiveHistory now user st ++ default [] (userSessions st !! user))) m.
Proof.
  unfold getUserSessionHistory.
  destruct (readHistory_result now user st) as (Hr & _).
  assert (Hus : userSessions (_readHistoryForUser now user st).1 = userSessions st).
  { unfold _readHistoryForUser. repeat case_match; done. }
  destruct (_readHistoryForUser now user st) as [st1 disk]. cbn [fst snd] in *.
  rewrite Hus, Hr. eexists. split; [reflexivity|].
  rewrite omap_app.
  apply latestOf_runtime.
  apply (latestOf_disk now (effectiveHistory now user st) [] []), latestOf_nil.
Qed.

Lemma last_filter_Some {A} (P : A → Prop) `{∀ x, Decision (P x)} (l : list A) :
  is_Some (last (filter P l)) ↔ ∃ x, x ∈ l ∧ P x.
Proof.
  split.
  - intros [y Hy]. apply last_Some_elem_of in Hy.
    apply list_elem_of_filter in Hy as [? ?]. by exists y.
  - intros (x & Hx & HP).
    assert (Hin : x ∈ filter P l) by (by apply list_elem_of_filter).
    destruct (filter P l) as [|z r] using rev_ind; [by apply elem_of_nil in Hin|].
    rewrite last_snoc. eauto.
Qed.

(** X6. [getUserSessionHistory] lists every known session once: the
    result has no two entries for the same session id, and the ids it lists
    are the non-empty ids found in the user's durable history or among the
    sessions the user started in this run.  It changes nothing but the
    history cache. *)
Theorem getUserSessionHistory_lists_each_session_once (user : jsstring) (now : Z)
    (st : Manager) :
  let r := getUserSessionHistory user now st in
  let known := effectiveHistory now user st ++ default [] (userSessions st !! user) in
  NoDup (h_sessionId <$> r.2)
  ∧ (∀ sid, Some sid ∈ h_sessionId <$> r.2
            ↔ sid ≠ [] ∧ Some sid ∈ h_sessionId <$> known)
  ∧ sessions r.1 = sessions st ∧ objs r.1 = objs st
  ∧ userSessions r.1 = userSessions st
  ∧ historyFiles r.1 = historyFiles st ∧ transcriptFiles r.1 = transcriptFiles st
  ∧ runtimeStateFile r.1 = runtimeStateFile st ∧ trace r.1 = trace st.
Proof.
  cbv zeta. destruct (listing_latestOf user now st) as (m & Hm & Hk & _ & Hget).
  assert (Hst : ∀ st1, st1 = (_readHistoryForUser now user st).1 →
            (getUserSessionHistory user now st).1 = st1).
  { intros st1 ->. unfold getUserSessionHistory.
    by destruct (_readHistoryForUser now user st). }
  rewrite (Hst _ eq_refl), Hm.
  destruct (readHistory_result now user st) as (_ & _ & Hfiles & Hrt & _).
  split_and!; [| |unfold _readHistoryForUser; repeat case_match; done..].
  - rewrite keyed_ids by done. apply NoDup_fmap; [by intros ?? [=]|apply Hk].
  - intros sid. rewrite keyed_ids by done.
    rewrite (list_elem_of_fmap_inj Some).
    transitivity (is_Some (JsMap.get sid m)).
    { rewrite <- not_eq_None_Some, JsMap_get_None. split; [tauto|].
      intros Hnn. by destruct (decide (sid ∈ m.*1)). }
    rewrite Hget, last_filter_Some. split.
    + intros (h & (raw & Hraw & Hn)%list_elem_of_omap & Hid).
      destruct (normalize_Some _ _ _ Hn) as (Hrid & Htr & _).
      rewrite <- Hrid, Hid in Htr. split; [by destruct sid|].
      apply list_elem_of_fmap. exists raw. split; [congruence|done].
    + intros (Hne & (raw & Hid & Hraw)%list_elem_of_fmap).
      destruct (normalize_truthy now raw) as [h Hn]; [rewrite <- Hid; by destruct sid|].
      exists h. split; [apply list_elem_of_omap; eauto|].
      destruct (normalize_Some _ _ _ Hn) as (Hrid & _). congruence.
Qed.

(** X7. In that listing the latest record wins, and the records of this
    run come after those on disk: the entry listed for a session id is the
    normalized form of the last record with that id, looking first through
    the durable history and then through the sessions started in this run.
    In particular a session started in this run is listed with the title its
    runtime record holds, whatever title the durable history has. *)
Theorem getUserSessionHistory_latest_record_wins (user sid : jsstring) (now : Z)
    (st : Manager) (y : HistoryItem) :
  let known := effectiveHistory now user st ++ default [] (userSessions st !! user) in
  last (filter (λ h, h_sessionId h = Some sid) (omap (_normalizeHistoryItem now) known))
  = Some y →
  y ∈ (getUserSessionHistory user now st).2
  ∧ ∀ h, h ∈ (getUserSessionHistory user now st).2 → h_sessionId h = Some sid → h = y.
Proof.
  cbv zeta. intros Hlast.
  destruct (listing_latestOf user now st) as (m & -> & Hk & _ & Hget).
  rewrite <- Hget in Hlast. split.
  - apply keyed_values; eauto.
  - intros h (k & Hg)%keyed_values Hid; [|done].
    destruct Hk as [_ Hkey]. destruct (Hkey k h (JsMap_get_elem _ _ _ Hg)) as [Hhk _].
    assert (k = sid) as -> by congruence. congruence.
Qed.

(** *** Deleting and renaming *)

Lemma dedup_ids now l : ∀ dedup k,
  k ∈ (foldl (dedupStep now) dedup l).*1 →
  k ∈ dedup.*1 ∨ ∃ x, x ∈ l ∧ h_sessionId x = Some k.
Proof.
  induction l as [|raw l IH]; intros dedup k Hk; [by left|].
  cbn [foldl] in Hk. apply IH in Hk as [Hk|(x & Hx & Hid)];
    [|right; exists x; split; [by right|done]].
  unfold dedupStep in Hk.
  destruct (_normalizeHistoryItem now raw) as [item|] eqn:Hn; [|by left].
  destruct (normalize_Some _ _ _ Hn) as (Hid & Htr & _).
  destruct (truthyStr_Some _ Htr) as (k0 & Hk0 & _).
  rewrite Hid, Hk0 in Hk. change (default [] (Some k0)) with k0 in Hk.
  assert (Hkeys : k ∈ dedup.*1 ∨ k = k0).
  { destruct (JsMap.get k0 dedup); rewrite JsMap_set_keys in Hk;
      (case_decide; [by left|]);
      apply elem_of_app in Hk as [?|Hk%list_elem_of_singleton]; auto. }
  destruct Hkeys as [?| ->]; [by left|]. right. exists raw. split; [by left|done].
Qed.

(** Compaction invents no session id. *)
Lemma compact_ids now l h :
  h ∈ _compactHistory now (Some l) → ∃ x, x ∈ l ∧ h_sessionId x = h_sessionId h.
Proof.
  unfold _compactHistory. intros Hin.
  destruct (keyed_foldl now l []) as [_ Hkey]; [apply keyed_nil|].
  apply (λ Hi, elem_of_sublist _ _ _ Hi (sliceLast_sublist _ _)) in Hin.
  rewrite sortByCreatedAt_perm in Hin.
  apply list_elem_of_fmap in Hin as ([k v] & -> & Hin).
  destruct (Hkey k v Hin) as [Hv _]. cbn [snd]. rewrite Hv.
  destruct (dedup_ids now l [] k) as [Hk|Hx]; [|by apply elem_of_nil in Hk|done].
  apply list_elem_of_fmap. by exists (k, v).
Qed.

Lemma ascending_keys l l' :
  sortKey <$> l = sortKey <$> l' → ascending l → ascending l'.
Proof.
  revert l'. induction l as [|x l IH]; intros [|x' l'] Heq; try done.
  rewrite !fmap_cons in Heq. injection Heq as Hx Hl. intros [Hh Ht]. split; [|by apply IH].
  rewrite <- Hx. apply Forall_forall. intros y' Hy'.
  assert (Hk : sortKey y' ∈ sortKey <$> l') by (apply list_elem_of_fmap; eauto).
  rewrite <- Hl in Hk. apply list_elem_of_fmap in Hk as (y & -> & Hy).
  by eapply Forall_forall in Hh.
Qed.

Lemma ascending_sublist l1 l2 : l1 `sublist_of` l2 → ascending l2 → ascending l1.
Proof.
  induction 1 as [|x l1 l2 Hs IH|x l1 l2 Hs IH]; [done|..].
  - intros [Hh Ht]. split; [|by apply IH].
    apply Forall_forall. intros y Hy. eapply Forall_forall in Hh; [exact Hh|].
    by eapply elem_of_sublist.
  - intros [_ Ht]. by apply IH.
Qed.

Lemma Compacted_sublist l1 l2 : l1 `sublist_of` l2 → Compacted l2 → Compacted l1.
Proof.
  intros Hs (Hn & Hnd & Hasc & Hlen). split_and!.
  - apply Forall_forall. intros h Hh. eapply Forall_forall in Hn; [exact Hn|].
    by eapply elem_of_sublist.
  - eapply sublist_NoDup; [exact Hnd|]. by apply fmap_sublist.
  - by eapply ascending_sublist.
  - apply sublist_length in Hs. unfold len in *. lia.
Qed.

(** X8. [deleteSessionHistory] removes the file
    [path.join(sessionsDir, username, sessionId + '.json')] and leaves the
    live sessions alone; a session that is not live has no transcript under
    that id afterwards.  For a user name that is one path segment the file
    is the user's own [<username>/<sessionId>.json] when the id has no path
    separator; an id with [../] names a file elsewhere, in another user's
    directory for one.  When the user name is one path segment and the path
    stays inside the sessions directory: no other file of that directory is
    removed or changed; the user's durable history is left without an entry
    for the id and written out -- on a compacted history the other entries
    stay as they were; and the histories of the other users are not
    touched.  (A path that leaves the sessions directory names a file that
    this model does not describe.) *)
Theorem deleteSessionHistory_removes_entry_and_transcript (user sid : jsstring) (now : Z)
    (st : Manager) :
  let st' := deleteSessionHistory user sid now st in
  let path := transcriptPath user sid in
  transcriptFiles st' !! path = None
  ∧ sessions st' = sessions st ∧ objs st' = objs st
  ∧ (lookupSession sid st = None → getSessionTranscript user sid st' = None)
  ∧ (plainName user → 47%N ∉ sid → path = (0%nat, [user; sid ++ lit ".json"]))
  ∧ (plainName user → insideSessionsDir path →
     (∀ p, insideSessionsDir p → p ≠ path →
        transcriptFiles st' !! p = transcriptFiles st !! p)
     ∧ Forall (λ h, h_sessionId h ≠ Some sid) (effectiveHistory now user st')
     ∧ historyFiles st' !! user = Some (HJson (Some (effectiveHistory now user st')))
     ∧ (∀ u, plainName u → u ≠ user → historyFiles st' !! u = historyFiles st !! u)
     ∧ (Compacted (effectiveHistory now user st) →
        effectiveHistory now user st'
        = filter (λ h, h_sessionId h ≠ Some sid) (effectiveHistory now user st))).
Proof.
  cbv zeta. unfold deleteSessionHistory.
  destruct (readHistory_result now user st) as (Hr & _ & Hf & _ & _).
  assert (Hobjs : objs (_readHistoryForUser now user st).1 = objs st)
    by apply objs_readHistory.
  assert (Hsess : sessions (_readHistoryForUser now user st).1 = sessions st)
    by (unfold _readHistoryForUser; repeat case_match; done).
  assert (Htf : transcriptFiles (_readHistoryForUser now user st).1 = transcriptFiles st)
    by (unfold _readHistoryForUser; repeat case_match; done).
  destruct (_readHistoryForUser now user st) as [st1 history]. cbn [fst snd] in *.
  subst history.
  set (next := filter (λ h, h_sessionId h ≠ Some sid) (effectiveHistory now user st)).
  destruct (writeHistory_result ByDeleteSessionHistory now user next st1)
    as (Heff & Hfile & _ & Hother).
  set (st2 := _writeHistoryForUser ByDeleteSessionHistory now user next st1) in *.
  assert (Htf2 : transcriptFiles st2 = transcriptFiles st) by (by rewrite <- Htf).
  set (path := transcriptPath user sid).
  set (st3 := match transcriptFiles st2 !! path with
              | Some _ => log (UnlinkTranscriptFile user sid)
                            (set_transcriptFiles (delete path (transcriptFiles st2)) st2)
              | None => st2
              end).
  assert (Hsame : effectiveHistory now user st3 = effectiveHistory now user st2
                  ∧ historyFiles st3 = historyFiles st2
                  ∧ sessions st3 = sessions st2 ∧ objs st3 = objs st2
                  ∧ transcriptFiles st3 = delete path (transcriptFiles st2)).
  { subst st3. destruct (transcriptFiles st2 !! path) eqn:Ht; [done|].
    split_and!; try done. by rewrite delete_id. }
  destruct Hsame as (He3 & Hf3 & Hs3 & Ho3 & Ht3).
  rewrite He3, Hf3, Hs3, Ho3. split_and!.
  - by rewrite Ht3, lookup_delete_eq.
  - done.
  - done.
  - intros Hl. unfold getSessionTranscript.
    assert (Hl3 : lookupSession sid st3 = None).
    { unfold lookupSession in *. rewrite Hs3, Ho3.
      change (sessions st2) with (sessions st1). change (objs st2) with (objs st1).
      by rewrite Hsess, Hobjs. }
    rewrite Hl3. unfold readTranscriptFile. fold path. by rewrite Ht3, lookup_delete_eq.
  - apply transcriptPath_plain.
  - intros _ _. split_and!.
    + intros p _ Hp. by rewrite Ht3, lookup_delete_ne, Htf2.
    + rewrite Heff. apply Forall_forall. intros h Hh.
      apply compact_ids in Hh as (x & Hx & <-).
      by apply list_elem_of_filter in Hx as [? _].
    + by rewrite Hfile, Heff.
    + intros u _ Hu. destruct (Hother u Hu) as [_ ->]. by rewrite Hf.
    + intros Hc. rewrite Heff. apply Compacted_fixed.
      eapply Compacted_sublist; [apply sublist_filter|done].
Qed.

Lemma Normal_retitle t h : Normal h → t ≠ [] → Normal (set_h_title (Some t) h).
Proof.
  intros Hn Ht now. specialize (Hn now). unfold _normalizeHistoryItem in Hn |- *.
  cbn [h_sessionId set_h_title h_agentId h_modelId h_mode h_createdAt
       h_endedAt h_filesCount h_title h_endedReason].
  destruct (truthyStr (h_sessionId h)); [|done].
  injection Hn as Hn. rewrite orStr_Some by done.
  f_equal. unfold set_h_title.
  cbn [h_sessionId h_username h_agentId h_modelId h_mode h_createdAt h_lastActivityAt
       h_endedAt h_filesCount h_title h_hasTranscript h_endedReason].
  f_equal;
    first [ exact (f_equal h_username Hn) | exact (f_equal h_agentId Hn)
          | exact (f_equal h_modelId Hn) | exact (f_equal h_mode Hn)
          | exact (f_equal h_createdAt Hn) | exact (f_equal h_endedAt Hn)
          | exact (f_equal h_lastActivityAt Hn) | exact (f_equal h_filesCount Hn)
          | exact (f_equal h_hasTranscript Hn) | exact (f_equal h_endedReason Hn) ].
Qed.

Lemma Compacted_retitle t k item l :
  Compacted l → l !! k = Some item → t ≠ [] →
  Compacted (<[k := set_h_title (Some t) item]> l).
Proof.
  intros (Hn & Hnd & Hasc & Hlen) Hk Ht. split_and!.
  - apply Forall_insert; [done|]. apply Normal_retitle; [|done].
    eapply Forall_forall in Hn; [exact Hn|]. by eapply list_elem_of_lookup_2.
  - rewrite list_fmap_insert. cbn [h_sessionId set_h_title].
    rewrite list_insert_id; [done|]. by rewrite list_lookup_fmap, Hk.
  - eapply ascending_keys; [|exact Hasc].
    rewrite list_fmap_insert. symmetry. apply list_insert_id.
    by rewrite list_lookup_fmap, Hk.
  - unfold len in *. by rewrite length_insert.
Qed.

Lemma effectiveHistory_ext now user st st' :
  historyCache st' = historyCache st → historyFiles st' = historyFiles st →
  effectiveHistory now user st' = effectiveHistory now user st.
Proof. unfold effectiveHistory. by intros -> ->. Qed.

Lemma persist_fields now st :
  historyCache (_persistRuntimeState now st) = historyCache st
  ∧ historyFiles (_persistRuntimeState now st) = historyFiles st
  ∧ transcriptFiles (_persistRuntimeState now st) = transcriptFiles st
  ∧ userSessions (_persistRuntimeState now st) = userSessions st
  ∧ activeSessions (_persistRuntimeState now st) = activeSessions st
  ∧ timers (_persistRuntimeState now st) = timers st
  ∧ nextTimerId (_persistRuntimeState now st) = nextTimerId st.
Proof. unfold _persistRuntimeState. repeat case_match; done. Qed.

Lemma lookupSession_live sid a s st :
  lookupSession sid st = Some (a, s) → s ∈ liveSessions st.
Proof.
  unfold lookupSession, liveSessions. intros Hl.
  destruct (JsMap.get sid (sessions st)) as [a'|] eqn:Hg; [|done].
  cbn [mbind option_bind] in Hl.
  destruct (objs st !! a') as [s'|] eqn:Ho; [|done].
  cbn [mbind option_bind] in Hl. injection Hl as -> ->.
  apply list_elem_of_omap. exists (sid, a). split; [by apply JsMap_get_elem|done].
Qed.

(** The first half of [setSessionTitle], which renames the live session. *)
Lemma retitle_live_fields user sid title_ now st :
  let st1 := match lookupSession sid st with
             | Some (a, s) =>
                 if decide (username s = user)
                 then _persistRuntimeState now (updObj a (set_title title_) st)
                 else st
             | None => st
             end in
  historyCache st1 = historyCache st ∧ historyFiles st1 = historyFiles st.
Proof.
  cbv zeta. destruct (lookupSession sid st) as [[a s]|]; [|done].
  case_decide; [|done]. by destruct (persist_fields now (updObj a (set_title title_) st))
    as (-> & -> & _).
Qed.

(** X9. Renaming a session that has an entry in the user's (compacted)
    durable history to a non-empty title changes the title of that entry
    and nothing else in the history, and writes the history out; the
    histories of other users are not touched. *)
Theorem setSessionTitle_renames_durable_entry (user sid title_ : jsstring) (now : Z)
    (st : Manager) (k : nat) (item : HistoryItem) :
  Compacted (effectiveHistory now user st) →
  effectiveHistory now user st !! k = Some item →
  h_sessionId item = Some sid →
  title_ ≠ [] →
  let st' := setSessionTitle user sid title_ now st in
  effectiveHistory now user st'
  = <[k := set_h_title (Some title_) item]> (effectiveHistory now user st)
  ∧ historyFiles st' !! user = Some (HJson (Some (effectiveHistory now user st')))
  ∧ ∀ u, u ≠ user →
      historyFiles st' !! u = historyFiles st !! u
      ∧ effectiveHistory now u st' = effectiveHistory now u st.
Proof.
  intros Hc Hk Hid Ht. cbv zeta. unfold setSessionTitle.
  destruct (retitle_live_fields user sid title_ now st) as [Hc1 Hf1].
  set (st1 := match lookupSession sid st with Some _ => _ | None => _ end) in *.
  assert (He1 : ∀ u, effectiveHistory now u st1 = effectiveHistory now u st)
    by (intros; by apply effectiveHistory_ext).
  destruct (readHistory_result now user st1) as (Hr & _ & Hf & _ & He).
  destruct (_readHistoryForUser now user st1) as [st2 history]. cbn [fst snd] in *.
  rewrite He1 in Hr. subst history.
  set (hist := effectiveHistory now user st) in *.
  assert (Hfind : list_find (λ h, h_sessionId h = Some sid) hist = Some (k, item)).
  { apply list_find_Some. split_and!; [done..|].
    intros j y Hj Hlt Hy. destruct Hc as (_ & Hnd & _).
    assert (j = k); [|lia].
    eapply NoDup_lookup; [exact Hnd|..]; rewrite list_lookup_fmap.
    - by rewrite Hj.
    - rewrite Hk. simpl. congruence. }
  rewrite Hfind.
  destruct (writeHistory_result BySetSessionTitle now user
              (<[k := set_h_title (Some title_) item]> hist) st2)
    as (Heff & Hfile & _ & Hother).
  rewrite Heff, Hfile.
  rewrite Compacted_fixed by (by apply Compacted_retitle).
  split_and!; [done..|].
  intros u Hu. destruct (Hother u Hu) as [-> ->]. by rewrite He, He1, Hf, Hf1.
Qed.

(** X10. Only the owner renames a live session.  For the owner the
    session object gets the new title and the runtime snapshot is rewritten
    from the live sessions; for anybody else the session objects and the
    snapshot stay as they are. *)
Theorem setSessionTitle_owner_only (user sid title_ : jsstring) (now : Z)
    (st : Manager) (a : nat) (s : Session) :
  lookupSession sid st = Some (a, s) →
  let st' := setSessionTitle user sid title_ now st in
  getSession sid st' = Some (if decide (username s = user) then set_title title_ s else s)
  ∧ sessions st' = sessions st
  ∧ (username s = user →
     runtimeStateFile st'
     = Some (RJson (Some now) (Some (snapshotItem <$> liveSessions st'))))
  ∧ (username s ≠ user →
     objs st' = objs st ∧ runtimeStateFile st' = runtimeStateFile st).
Proof.
  intros Hl. cbv zeta. unfold setSessionTitle. rewrite Hl.
  set (st1 := if decide (username s = user) then _ else _).
  assert (H1 : lookupSession sid st1
               = Some (a, if decide (username s = user) then set_title title_ s else s)
             ∧ sessions st1 = sessions st
             ∧ (username s = user →
                runtimeStateFile st1
                = Some (RJson (Some now) (Some (snapshotItem <$> liveSessions st1))))
             ∧ (username s ≠ user →
                objs st1 = objs st ∧ runtimeStateFile st1 = runtimeStateFile st)).
  { subst st1. case_decide as Hu; [|by split_and!].
    pose proof (lookupSession_updObj _ _ _ (set_title title_) _ Hl) as Hl1.
    set (st0 := updObj a (set_title title_) st) in *.
    assert (Hlive : liveSessions (_persistRuntimeState now st0) = liveSessions st0).
    { unfold liveSessions. by rewrite sessions_persist, objs_persist. }
    split_and!.
    - unfold lookupSession in *. by rewrite sessions_persist, objs_persist.
    - by rewrite sessions_persist.
    - intros _. rewrite Hlive. unfold _persistRuntimeState.
      assert (Hne : liveSessions st0 ≠ []).
      { intros Hnil. pose proof (lookupSession_live _ _ _ _ Hl1) as Hin.
        rewrite Hnil in Hin. by apply elem_of_nil in Hin. }
      destruct (liveSessions st0) as [|x l]; done.
    - done. }
  destruct H1 as (Hl1 & Hs1 & Hown & Hother).
  assert (Hrest : ∀ st2, st2 = (let '(st, history) := _readHistoryForUser now user st1 in
              match list_find (λ h, h_sessionId h = Some sid) history with
              | Some (k, item) =>
                  _writeHistoryForUser BySetSessionTitle now user
                    (<[k := set_h_title (Some title_) item]> history) st
              | None => st
              end) →
            objs st2 = objs st1 ∧ sessions st2 = sessions st1
            ∧ runtimeStateFile st2 = runtimeStateFile st1).
  { intros st2 ->.
    destruct (readHistory_result now user st1) as (_ & _ & _ & Hrt & _).
    pose proof (objs_readHistory now user st1) as Ho.
    assert (Hs : sessions (_readHistoryForUser now user st1).1 = sessions st1)
      by (unfold _readHistoryForUser; repeat case_match; done).
    destruct (_readHistoryForUser now user st1) as [st2 history]. cbn [fst snd] in *.
    destruct (list_find _ history) as [[k item]|]; by split_and!. }
  destruct (Hrest _ eq_refl) as (Ho2 & Hs2 & Hrt2).
  unfold getSession, lookupSession, liveSessions in *. rewrite Ho2, Hs2, Hrt2.
  split_and!.
  - by rewrite Hl1.
  - done.
  - done.
  - intros Hne. destruct (Hother Hne) as [-> ->]. done.
Qed.

End HistoryFiles.

Lemma history_write_then_read_witness :
  (5000 : Z) ≠ 0
  ∧ (_readHistoryForUser 7000 (lit "alice")
       (newManager demoConfig
          (filesAfterShutdown
             (_writeHistoryForUser ByRecovery 5000 (lit "alice") repeatedHistory demoManager))
          6000)).2
    = _compactHistory 5000 (Some repeatedHistory).
Proof.
  assert (Hnow : (5000 : Z) ≠ 0) by done.
  split; [exact Hnow|].
  exact (proj2 (history_write_then_read ByRecovery 5000 5500 6000 7000 (lit "alice")
                  repeatedHistory demoConfig demoManager Hnow)).
Defined.

Lemma getUserSessionHistory_latest_record_wins_witness :
  last (filter (λ h, h_sessionId h = Some demoSid)
          (omap (_normalizeHistoryItem 3000)
             (effectiveHistory 3000 (lit "alice") renamedState
              ++ default [] (userSessions renamedState !! lit "alice"))))
  = Some renamedAsListed
  ∧ effectiveHistory 3000 (lit "alice") renamedState = [renamedOnDisk]
  ∧ renamedAsListed ∈ (@getUserSessionHistory (lit "alice") 3000 renamedState).2.
Proof.
  assert (Hlast : last (filter (λ h, h_sessionId h = Some demoSid)
            (omap (_normalizeHistoryItem 3000)
               (effectiveHistory 3000 (lit "alice") renamedState
                ++ default [] (userSessions renamedState !! lit "alice"))))
          = Some renamedAsListed) by (vm_compute; reflexivity).
  split; [exact Hlast|]. split; [vm_compute; reflexivity|].
  exact (proj1 (getUserSessionHistory_latest_record_wins (lit "alice") demoSid 3000
                  renamedState renamedAsListed Hlast)).
Defined.

Lemma setSessionTitle_renames_durable_entry_witness :
  Compacted (effectiveHistory 3000 (lit "alice") renamedState)
  ∧ effectiveHistory 3000 (lit "alice") renamedState !! 0%nat = Some renamedOnDisk
  ∧ h_sessionId renamedOnDisk = Some demoSid
  ∧ lit "notes" ≠ []
  ∧ effectiveHistory 3000 (lit "alice")
      (@setSessionTitle (lit "alice") demoSid (lit "notes") 3000 renamedState)
    = [set_h_title (Some (lit "notes")) renamedOnDisk].
Proof.
  assert (Hc : Compacted (effectiveHistory 3000 (lit "alice") renamedState)).
  { replace (effectiveHistory 3000 (lit "alice") renamedState)
      with (_compactHistory 2200 (Some [renamedOnDisk])) by (vm_compute; reflexivity).
    by apply compact_Compacted. }
  assert (Hk : effectiveHistory 3000 (lit "alice") renamedState !! 0%nat = Some renamedOnDisk)
    by (vm_compute; reflexivity).
  assert (Hid : h_sessionId renamedOnDisk = Some demoSid) by reflexivity.
  assert (Ht : lit "notes" ≠ []) by done.
  split_and!; [exact Hc|exact Hk|exact Hid|exact Ht|].
  rewrite (proj1 (setSessionTitle_renames_durable_entry (lit "alice") demoSid (lit "notes")
                    3000 renamedState 0 renamedOnDisk Hc Hk Hid Ht)).
  vm_compute. reflexivity.
Defined.

Lemma setSessionTitle_owner_only_witness :
  lookupSession demoSid demoCreated = Some (0%nat, demoSession)
  ∧ getSession demoSid (@setSessionTitle (lit "bob") demoSid (lit "mine") 2100 demoCreated)
    = Some demoSession
  ∧ getSession demoSid (@setSessionTitle (lit "alice") demoSid (lit "mine") 2100 demoCreated)
    = Some (set_title (lit "mine") demoSession).
Proof.
  assert (Hl : lookupSession demoSid demoCreated = Some (0%nat, demoSession))
    by (vm_compute; reflexivity).
  split; [exact Hl|]. split.
  - exact (proj1 (setSessionTitle_owner_only (lit "bob") demoSid (lit "mine") 2100
                    demoCreated 0 demoSession Hl)).
  - exact (proj1 (setSessionTitle_owner_only (lit "alice") demoSid (lit "mine") 2100
                    demoCreated 0 demoSession Hl)).
Defined.

(** A session of this run keeps its creation title in the listing: Alice
    renamed her session before ending it, the durable history holds the new
    title, and [getUserSessionHistory] reports the old one. *)
Example renamed_session_is_listed_under_creation_title :
  h_title <$> effectiveHistory 3000 (lit "alice") renamedState = [Some (lit "my project")]
  ∧ h_title <$> (@getUserSessionHistory (lit "alice") 3000 renamedState).2
    = [Some (lit "codex / default")].
Proof. split; vm_compute; reflexivity. Qed.

(** An id with path separators reaches outside the requester's directory:
    Bob's request removes the transcript of Alice's ended session. *)
Example transcript_of_another_user_is_removed_through_the_id :
  is_Some (getSessionTranscript (lit "alice") demoSid renamedState)
  ∧ getSessionTranscript (lit "alice") demoSid
      (deleteSessionHistory (lit "bob") demoTraversal 2300 renamedState) = None
  ∧ transcriptPath (lit "bob") demoTraversal = transcriptPath (lit "alice") demoSid.
Proof.
  split_and!; [eexists|..]; vm_compute; reflexivity.
Qed.

Section TerminalReplay.

(** ** The terminal replay: the input line editor *)

Lemma matchDeviceAttrs_CR t : ∀ q, matchDeviceAttrs q (t ++ [CR]) = false.
Proof.
  induction t as [|c t IH]; intros q.
  - by destruct q.
  - cbn [app matchDeviceAttrs]. destruct q; rewrite ?IH, ?andb_false_r; try done.
    by case_match.
Qed.

Lemma matchDeviceAttrsTail_CR t : ∀ q, matchDeviceAttrsTail q (t ++ [CR]) = false.
Proof.
  induction t as [|c t IH]; intros q.
  - by destruct q.
  - cbn [app matchDeviceAttrsTail]. destruct q; rewrite ?IH, ?andb_false_r; try done.
    repeat case_match; done.
Qed.

Lemma set_line_same l s : terminalInputLine s = l → set_terminalInputLine l s = s.
Proof. intros <-. by destruct s. Qed.

Lemma replayKey_typed s c :
  typedChar c → replayKey s c = set_terminalInputLine (terminalInputLine s ++ [c]) s.
Proof.
  intros [Hc Hd]. unfold replayKey, CR, LF.
  rewrite decide_False by lia. rewrite decide_False by lia.
  rewrite decide_False by lia. by rewrite decide_True.
Qed.

Lemma replayKeys_typed text : ∀ s,
  Forall typedChar text →
  foldl replayKey s text = set_terminalInputLine (terminalInputLine s ++ text) s.
Proof.
  induction text as [|c text IH]; intros s Ht.
  - rewrite app_nil_r. symmetry. by apply set_line_same.
  - apply Forall_cons in Ht as [Hc Ht]. cbn [foldl].
    rewrite replayKey_typed, IH by done. destruct s. cbn. by rewrite <- app_assoc.
Qed.

Lemma capReplayBuffer_capped s :
  capReplayBuffer s = set_terminalReplayBuffer (cappedReplay (terminalReplayBuffer s)) s.
Proof. unfold capReplayBuffer, cappedReplay. case_decide; [done|]. by destruct s. Qed.

(** X11. In a terminal session, a chunk of printable characters followed
    by a carriage return commits the input line: the line typed so far and
    the new characters are appended to the replay buffer with a line feed,
    the input line is emptied, and the buffer is cut back to its last 400000
    code units when it has grown beyond 600000.  Nothing else changes. *)
Theorem terminal_input_line_is_committed_on_enter (text : jsstring) (s : Session) :
  mode s = Terminal →
  Forall typedChar text →
  _appendTerminalInputReplay (text ++ [CR]) s
  = set_terminalInputLine []
      (set_terminalReplayBuffer
         (cappedReplay (terminalReplayBuffer s ++ terminalInputLine s ++ text ++ [LF])) s).
Proof.
  intros Hm Ht. unfold _appendTerminalInputReplay.
  rewrite decide_False by (by rewrite Hm; intros []).
  destruct (text ++ [CR]) as [|c r] eqn:Hchunk; [by destruct text|]. rewrite <- Hchunk.
  rewrite matchDeviceAttrs_CR, matchDeviceAttrsTail_CR. cbn [andb].
  rewrite foldl_app, (replayKeys_typed text) by done. cbn [foldl].
  rewrite capReplayBuffer_capped. unfold replayKey.
  rewrite decide_True by (by left).
  destruct s as [? ? ? ? ? ? ? buf line].
  unfold set_terminalReplayBuffer, set_terminalInputLine. cbn.
  rewrite (app_assoc line text [LF]).
  by destruct (line ++ text) as [|x l] eqn:Hl.
Qed.

Lemma dropLast_snoc {A} (l : list A) x : dropLast (l ++ [x]) = l.
Proof.
  unfold dropLast. rewrite length_app. cbn [length].
  replace (length l + 1 - 1)%nat with (length l) by lia. by rewrite take_app_length.
Qed.

Lemma capReplayBuffer_small s :
  len (terminalReplayBuffer s) ≤ 600000 → capReplayBuffer s = s.
Proof. intros Hlen. unfold capReplayBuffer. by rewrite decide_False by lia. Qed.

Lemma replay_single_key c s :
  mode s = Terminal →
  _appendTerminalInputReplay [c] s = capReplayBuffer (replayKey s c).
Proof.
  intros Hm. unfold _appendTerminalInputReplay.
  rewrite decide_False by (by rewrite Hm; intros []).
  cbn [matchDeviceAttrs matchDeviceAttrsTail foldl]. by rewrite !andb_false_r.
Qed.

Lemma replay_keys c r s :
  mode s = Terminal → (32 ≤ c)%N → r = [] ∨ isDigit c = false →
  _appendTerminalInputReplay (c :: r) s = capReplayBuffer (foldl replayKey s (c :: r)).
Proof.
  intros Hm Hc Hr. unfold _appendTerminalInputReplay.
  rewrite decide_False by (by rewrite Hm; intros []).
  cbn [matchDeviceAttrs matchDeviceAttrsTail].
  rewrite bool_decide_eq_false_2 by lia. cbn [andb].
  destruct Hr as [-> | ->]; [|done].
  cbn [matchDeviceAttrsTail]. by rewrite andb_false_r.
Qed.

Lemma one_code_point cp :
  codePoints cp = [cp] →
  (∃ c, cp = [c])
  ∨ (∃ hi lo, cp = [hi; lo] ∧ isHighSurrogate hi = true ∧ isLowSurrogate lo = true).
Proof.
  destruct cp as [|c [|d [|x r]]]; cbn [codePoints]; intros Hcp.
  - done.
  - left. by exists c.
  - destruct (isHighSurrogate c) eqn:Hhi, (isLowSurrogate d) eqn:Hlo;
      cbn [andb] in Hcp; try (by simplify_eq).
    right. exists c, d. repeat split; assumption.
  - destruct (isHighSurrogate c && isLowSurrogate d); by simplify_eq.
Qed.

(** X12. In a terminal session an erase key (DEL or backspace) removes the
    last UTF-16 code unit of the input line, not the last character.  After
    one printable character [cp] (one code point, as the loop over the chunk
    sees it) and an erase key, the session is as before except that its
    input line has gained [cp] without its last code unit.  So a character
    of one code unit is taken back and the session is what it was, while of
    a character outside the basic plane (a surrogate pair) the high
    surrogate stays in the input line. *)
Theorem terminal_erase_removes_one_code_unit (cp : jsstring) (e : N) (s : Session) :
  mode s = Terminal →
  codePoints cp = [cp] →
  Forall typedChar cp →
  e = 127%N ∨ e = 8%N →
  len (terminalReplayBuffer s) ≤ 600000 →
  _appendTerminalInputReplay [e] (_appendTerminalInputReplay cp s)
  = set_terminalInputLine (terminalInputLine s ++ dropLast cp) s
  ∧ (len cp = 1 →
       _appendTerminalInputReplay [e] (_appendTerminalInputReplay cp s) = s)
  ∧ (∀ hi lo, cp = [hi; lo] →
       terminalInputLine
         (_appendTerminalInputReplay [e] (_appendTerminalInputReplay cp s))
       = terminalInputLine s ++ [hi]).
Proof.
  intros Hm Hcp Ht He Hlen.
  assert (Hmain : _appendTerminalInputReplay [e] (_appendTerminalInputReplay cp s)
                  = set_terminalInputLine (terminalInputLine s ++ dropLast cp) s).
  { assert (Hkeys : _appendTerminalInputReplay cp s
                    = capReplayBuffer (foldl replayKey s cp)).
    { destruct (one_code_point cp Hcp) as [[c ->] | (hi & lo & -> & Hhi & _)].
      - apply Forall_cons in Ht as [[Hc _] _]. apply replay_keys; [done..|by left].
      - apply Forall_cons in Ht as [[Hc _] _]. apply replay_keys; [done..|].
        right. unfold isHighSurrogate in Hhi. apply andb_prop in Hhi as [Hhi _].
        apply bool_decide_eq_true in Hhi. unfold isDigit.
        apply andb_false_intro2. apply bool_decide_eq_false. lia. }
    rewrite Hkeys, replayKeys_typed by done.
    rewrite capReplayBuffer_small by (by destruct s).
    rewrite replay_single_key by (by destruct s).
    unfold replayKey, CR, LF.
    rewrite decide_False by (destruct He as [-> | ->]; lia).
    rewrite decide_False by (destruct He as [-> | ->]; lia).
    rewrite decide_True by done.
    rewrite capReplayBuffer_small by (by destruct s).
    unfold set_terminalInputLine. cbn [terminalInputLine].
    assert (Hdrop : dropLast (terminalInputLine s ++ cp)
                    = terminalInputLine s ++ dropLast cp).
    { destruct (exists_last (l := cp)) as (front & x & ->).
      { intros ->. done. }
      by rewrite app_assoc, !dropLast_snoc. }
    rewrite Hdrop. by destruct s. }
  split; [exact Hmain|]. rewrite Hmain. split.
  - intros Hone. destruct cp as [|c [|d r]]; [done| |].
    + unfold dropLast. cbn. rewrite app_nil_r. by destruct s.
    + unfold len in Hone. cbn [length] in Hone. lia.
  - intros hi lo ->. by destruct s.
Qed.

(** *** Replies to device-attribute queries *)

Lemma matchDeviceAttrs_params ps rest :
  Forall (λ c, isDigit c = true ∨ c = 59%N) ps →
  matchDeviceAttrs DaParams (ps ++ 99%N :: rest) = matchDeviceAttrs (DaStart true) rest.
Proof.
  induction 1 as [|c ps Hc Hps IH]; [done|].
  cbn [app matchDeviceAttrs]. rewrite <- IH.
  destruct Hc as [-> | ->]; [done|]. by rewrite orb_true_r.
Qed.

Lemma matchDeviceAttrs_replies groups : ∀ seen,
  Forall (λ g : N * jsstring,
            (g.1 = 63 ∨ g.1 = 62)%N ∧ Forall (λ c, isDigit c = true ∨ c = 59%N) g.2) groups →
  matchDeviceAttrs (DaStart seen) (concat (deviceAttrsReply <$> groups))
  = match groups with [] => seen | _ => true end.
Proof.
  induction groups as [|[kind ps] groups IH]; intros seen Hg; [done|].
  apply Forall_cons in Hg as [[Hkind Hps] Hg]. cbn [fst snd] in *.
  rewrite fmap_cons. cbn [concat]. unfold deviceAttrsReply at 1. cbn [fst snd].
  rewrite <- !app_assoc. cbn [app matchDeviceAttrs].
  rewrite matchDeviceAttrs_params by done. rewrite IH by done.
  replace (bool_decide (kind = 63%N) || bool_decide (kind = 62%N)) with true
    by (destruct Hkind as [-> | ->]; done).
  by destruct groups.
Qed.

(** X13. Terminal replies to a device-attributes query are not recorded:
    a chunk that consists of one or more replies [ESC [ ? params c] or
    [ESC [ > params c] leaves the session as it is. *)
Theorem device_attribute_replies_are_not_recorded (groups : list (N * jsstring))
    (s : Session) :
  groups ≠ [] →
  Forall (λ g : N * jsstring,
            (g.1 = 63 ∨ g.1 = 62)%N ∧ Forall (λ c, isDigit c = true ∨ c = 59%N) g.2) groups →
  _appendTerminalInputReplay (concat (deviceAttrsReply <$> groups)) s = s.
Proof.
  intros Hne Hg. unfold _appendTerminalInputReplay. case_decide; [done|].
  rewrite matchDeviceAttrs_replies by done.
  destruct groups as [|g groups]; [done|]. by destruct (concat _).
Qed.

(** *** What the replay buffer holds *)

Lemma replayKey_ok s c :
  Forall replayChar (terminalReplayBuffer s) → Forall typedChar (terminalInputLine s) →
  Forall replayChar (terminalReplayBuffer (replayKey s c))
  ∧ Forall typedChar (terminalInputLine (replayKey s c)).
Proof.
  intros Hb Hl. unfold replayKey.
  assert (Hline : Forall replayChar (terminalInputLine s)).
  { eapply Forall_impl; [exact Hl|]. intros x Hx. by right; right. }
  assert (Hlf : replayChar LF) by (by right; left).
  repeat case_decide.
  - destruct (terminalInputLine s) eqn:Hline'; simpl.
    + split; [|by rewrite Hline']. apply Forall_app. split; [done|by constructor].
    + split; [|done]. apply Forall_app. split; [done|].
      apply (Forall_app _ (_ :: _) [LF]). split; [done|by constructor].
  - simpl. split; [|done]. apply Forall_app. split; [done|].
    repeat constructor; try done; right; right; split; done.
  - simpl. split; [done|]. unfold dropLast. by apply Forall_take.
  - simpl. split; [done|]. apply Forall_app. split; [done|].
    constructor; [|done]. split; [done|]. intros ->. tauto.
  - done.
Qed.

Lemma replayKeys_ok chunk : ∀ s,
  Forall replayChar (terminalReplayBuffer s) → Forall typedChar (terminalInputLine s) →
  Forall replayChar (terminalReplayBuffer (foldl replayKey s chunk))
  ∧ Forall typedChar (terminalInputLine (foldl replayKey s chunk)).
Proof.
  induction chunk as [|c chunk IH]; intros s Hb Hl; [done|].
  cbn [foldl]. destruct (replayKey_ok s c Hb Hl). by apply IH.
Qed.

Lemma capReplayBuffer_ok s :
  Forall replayChar (terminalReplayBuffer s) → Forall typedChar (terminalInputLine s) →
  replayOK (capReplayBuffer s).
Proof.
  intros Hb Hl. unfold capReplayBuffer, replayOK. case_decide as Hlen.
  - simpl. split_and!; [|by apply Forall_drop|done].
    unfold sliceLast, len in *. rewrite length_drop. lia.
  - split_and!; [lia|done..].
Qed.

Lemma inputReplay_ok chunk s : replayOK s → replayOK (_appendTerminalInputReplay chunk s).
Proof.
  intros (Hlen & Hb & Hl). unfold _appendTerminalInputReplay.
  repeat case_match; try (by split_and!).
  destruct (replayKeys_ok chunk s Hb Hl). subst. by apply capReplayBuffer_ok.
Qed.

End TerminalReplay.

Lemma terminal_input_line_is_committed_on_enter_witness :
  mode demoTerminal = Terminal
  ∧ Forall typedChar (lit " -la")
  ∧ _appendTerminalInputReplay (lit " -la" ++ [CR]) demoTerminal
    = set_terminalInputLine []
        (set_terminalReplayBuffer (lit "$ ls -la" ++ [LF]) demoTerminal).
Proof.
  assert (H1 : mode demoTerminal = Terminal) by reflexivity.
  assert (H2 : Forall typedChar (lit " -la")).
  { assert (Heq : lit " -la" = [32; 45; 108; 97]%N) by (vm_compute; reflexivity).
    rewrite Heq. repeat (apply Forall_cons; split; [split; [lia|done]|]). constructor. }
  split_and!; [exact H1|exact H2|].
  rewrite (terminal_input_line_is_committed_on_enter (lit " -la") demoTerminal H1 H2).
  vm_compute. reflexivity.
Defined.

Lemma terminal_erase_removes_one_code_unit_witness :
  mode demoTerminal = Terminal
  ∧ codePoints [55357; 56832]%N = [[55357; 56832]%N]
  ∧ Forall typedChar [55357; 56832]%N
  ∧ ((127 = 127)%N ∨ (127 = 8)%N)
  ∧ len (terminalReplayBuffer demoTerminal) ≤ 600000
  ∧ terminalInputLine
      (_appendTerminalInputReplay [127%N]
         (_appendTerminalInputReplay [55357; 56832]%N demoTerminal))
    = terminalInputLine demoTerminal ++ [55357%N].
Proof.
  assert (H1 : mode demoTerminal = Terminal) by reflexivity.
  assert (H2 : codePoints [55357; 56832]%N = [[55357; 56832]%N]) by reflexivity.
  assert (H3 : Forall typedChar [55357; 56832]%N).
  { repeat (apply Forall_cons; split; [split; [lia|done]|]). constructor. }
  assert (H4 : (127 = 127)%N ∨ (127 = 8)%N) by (by left).
  assert (H5 : len (terminalReplayBuffer demoTerminal) ≤ 600000)
    by (vm_compute; discriminate).
  split_and!; [exact H1|exact H2|exact H3|exact H4|exact H5|].
  exact (proj2 (proj2 (terminal_erase_removes_one_code_unit
                  [55357; 56832]%N 127%N demoTerminal H1 H2 H3 H4 H5))
           55357%N 56832%N eq_refl).
Defined.

(** Typing U+1F600 and then DEL leaves a lone high surrogate behind the
    line typed so far. *)
Example erase_after_a_surrogate_pair :
  terminalInputLine
    (_appendTerminalInputReplay [127%N]
       (_appendTerminalInputReplay [55357; 56832]%N demoTerminal))
  = lit "ls" ++ [55357%N].
Proof. vm_compute. reflexivity. Qed.

Lemma device_attribute_replies_are_not_recorded_witness :
  demoReplies ≠ []
  ∧ Forall (λ g : N * jsstring,
             (g.1 = 63 ∨ g.1 = 62)%N ∧ Forall (λ c, isDigit c = true ∨ c = 59%N) g.2)
      demoReplies
  ∧ _appendTerminalInputReplay (concat (deviceAttrsReply <$> demoReplies)) demoTerminal
    = demoTerminal.
Proof.
  assert (H1 : demoReplies ≠ []) by done.
  assert (H2 : Forall (λ g : N * jsstring,
             (g.1 = 63 ∨ g.1 = 62)%N ∧ Forall (λ c, isDigit c = true ∨ c = 59%N) g.2)
      demoReplies).
  { repeat (apply Forall_cons; split; [split; [by (left + right)|]|]);
      try (by constructor);
      repeat (apply Forall_cons; split; [by (left + right)|]); constructor. }
  split_and!; [exact H1|exact H2|].
  exact (device_attribute_replies_are_not_recorded demoReplies demoTerminal H1 H2).
Defined.

Section AssistantOutput.
Context `{TextOracles}.

(** ** The chat transcript: assistant output and its budget *)

Lemma totalContent_nonneg ms : 0 ≤ totalContent ms.
Proof. induction ms as [|m ms IH]; simpl; unfold len in *; lia. Qed.

Lemma totalContent_app ms1 ms2 :
  totalContent (ms1 ++ ms2) = totalContent ms1 + totalContent ms2.
Proof. induction ms1 as [|m ms1 IH]; simpl; [done|]. rewrite IH. lia. Qed.

Lemma totalContent_reverse ms : totalContent (reverse ms) = totalContent ms.
Proof.
  induction ms as [|m ms IH]; [done|].
  rewrite reverse_cons, totalContent_app, IH. simpl. lia.
Qed.

Lemma budget_fits rev : ∀ total kept,
  total + totalContent rev ≤ 2000000 → budgetSuffix rev total kept = None.
Proof.
  induction rev as [|m rev IH]; intros total kept Hfit; [done|].
  cbn [budgetSuffix]. simpl in Hfit. pose proof (totalContent_nonneg rev).
  rewrite decide_False by lia. apply IH. lia.
Qed.

Lemma budget_None rev : ∀ total kept,
  total ≤ 2000000 →
  budgetSuffix rev total kept = None → total + totalContent rev ≤ 2000000.
Proof.
  induction rev as [|m rev IH]; intros total kept Htot Hb; simpl; [lia|].
  cbn [budgetSuffix] in Hb. case_decide; [done|]. apply IH in Hb; lia.
Qed.

Lemma budget_Some rev : ∀ total kept k,
  total = totalContent kept → total ≤ 2000000 →
  budgetSuffix rev total kept = Some k → totalContent k ≤ 2000000.
Proof.
  induction rev as [|m rev IH]; intros total kept k Htot Hfit Hb; [done|].
  cbn [budgetSuffix] in Hb. case_decide.
  - injection Hb as <-. lia.
  - eapply IH; [| |exact Hb]; simpl; lia.
Qed.

Lemma filter_nil_chunk : _filterAssistantNoiseChunk [] = [].
Proof. done. Qed.

(** [_appendAssistantOutput] writes four fields of the session. *)
Lemma transcriptFields_refl s :
  ∃ t ms idx cnt,
    s = set_lastAssistantIndex idx
          (set_messages ms (set_userMessageCount cnt (set_lastActivityAt t s))).
Proof.
  exists (lastActivityAt s), (messages s), (lastAssistantIndex s), (userMessageCount s).
  by destruct s.
Qed.

Lemma transcriptFields_step (f : Session → Session) s s' :
  (∃ t ms idx cnt,
     s' = set_lastAssistantIndex idx
            (set_messages ms (set_userMessageCount cnt (set_lastActivityAt t s)))) →
  (∃ v, f = set_lastAssistantIndex v) ∨ (∃ v, f = set_messages v)
  ∨ (∃ v, f = set_userMessageCount v) ∨ (∃ v, f = set_lastActivityAt v) →
  ∃ t ms idx cnt,
    f s' = set_lastAssistantIndex idx
             (set_messages ms (set_userMessageCount cnt (set_lastActivityAt t s))).
Proof.
  intros (t & ms & idx & cnt & ->) [[v ->]|[[v ->]|[[v ->]|[v ->]]]].
  - by exists t, ms, v, cnt.
  - by exists t, v, idx, cnt.
  - by exists t, ms, idx, v.
  - by exists v, ms, idx, cnt.
Qed.

Lemma assistantOutput_footprint now chunk s :
  ∃ t ms idx cnt,
    _appendAssistantOutput now chunk s
    = set_lastAssistantIndex idx
        (set_messages ms (set_userMessageCount cnt (set_lastActivityAt t s))).
Proof.
  pose proof (transcriptFields_refl s) as Hid0.
  assert (Hgo : ∀ s0,
            (∃ t ms idx cnt,
               s0 = set_lastAssistantIndex idx
                      (set_messages ms (set_userMessageCount cnt (set_lastActivityAt t s)))) →
            ∃ t ms idx cnt,
              match _filterAssistantNoiseChunk chunk with
              | [] => s0
              | filtered =>
                  let s1 := _touchSession now s0 in
                  let s2 :=
                    match openAssistant s1 with
                    | None =>
                        let ms := messages s1 ++ [mkMessage Assistant filtered now] in
                        set_lastAssistantIndex (len ms - 1) (set_messages ms s1)
                    | Some m =>
                        set_messages
                          (<[Z.to_nat (lastAssistantIndex s1) :=
                               mkMessage Assistant (content m ++ filtered) (ts m)]>
                             (messages s1)) s1
                    end in
                  match budgetSuffix (reverse (messages s2)) 0 [] with
                  | Some kept => set_lastAssistantIndex (len kept - 1) (set_messages kept s2)
                  | None => s2
                  end
              end
              = set_lastAssistantIndex idx
                  (set_messages ms (set_userMessageCount cnt (set_lastActivityAt t s)))).
  { intros s0 H0. destruct (_filterAssistantNoiseChunk chunk); [exact H0|].
    cbv zeta.
    assert (H1 : ∃ t ms idx cnt,
              _touchSession now s0
              = set_lastAssistantIndex idx
                  (set_messages ms (set_userMessageCount cnt (set_lastActivityAt t s)))).
    { apply (transcriptFields_step (set_lastActivityAt now)); [done|]. eauto 10. }
    generalize dependent (_touchSession now s0). intros s1 H1.
    assert (H2 : ∃ t ms idx cnt,
              match openAssistant s1 with
              | None =>
                  set_lastAssistantIndex
                    (len (messages s1 ++ [mkMessage Assistant (n :: l) now]) - 1)
                    (set_messages (messages s1 ++ [mkMessage Assistant (n :: l) now]) s1)
              | Some m =>
                  set_messages
                    (<[Z.to_nat (lastAssistantIndex s1) :=
                         mkMessage Assistant (content m ++ n :: l) (ts m)]> (messages s1)) s1
              end
              = set_lastAssistantIndex idx
                  (set_messages ms (set_userMessageCount cnt (set_lastActivityAt t s)))).
    { destruct (openAssistant s1).
      - apply (transcriptFields_step (set_messages _)); [done|]. eauto 10.
      - apply (transcriptFields_step (set_lastAssistantIndex _)); [|eauto 10].
        apply (transcriptFields_step (set_messages _)); [done|]. eauto 10. }
    match goal with
    | H2 : ∃ t ms idx cnt, ?x = _ |- _ => generalize dependent x
    end.
    intros s2 H2. destruct (budgetSuffix _ 0 []); [|done].
    apply (transcriptFields_step (set_lastAssistantIndex _)); [|eauto 10].
    apply (transcriptFields_step (set_messages _)); [done|]. eauto 10. }
  unfold _appendAssistantOutput. case_decide; [exact Hid0|].
  destruct chunk as [|c r]; [exact Hid0|].
  destruct (decide (userMessageCount s = 0)).
  - destruct (hasUserMessage (messages s)); [|exact Hid0]. apply Hgo.
    apply (transcriptFields_step (set_userMessageCount _)); [done|]. eauto 10.
  - by apply Hgo.
Qed.

(** What [_appendAssistantOutput] does once the chunk is through the gate
    and the noise filter. *)
Lemma appendAssistantOutput_eq now chunk s :
  mode s = Chat → userMessageCount s ≠ 0 → _filterAssistantNoiseChunk chunk ≠ [] →
  _appendAssistantOutput now chunk s
  = let filtered := _filterAssistantNoiseChunk chunk in
    let s1 :=
      match openAssistant s with
      | None =>
          set_lastAssistantIndex (len (messages s ++ [mkMessage Assistant filtered now]) - 1)
            (set_messages (messages s ++ [mkMessage Assistant filtered now])
               (_touchSession now s))
      | Some m =>
          set_messages
            (<[Z.to_nat (lastAssistantIndex s) :=
                 mkMessage Assistant (content m ++ filtered) (ts m)]> (messages s))
            (_touchSession now s)
      end in
    match budgetSuffix (reverse (messages s1)) 0 [] with
    | Some kept => set_lastAssistantIndex (len kept - 1) (set_messages kept s1)
    | None => s1
    end.
Proof.
  intros Hm Hc Hf. unfold _appendAssistantOutput.
  rewrite decide_False by (by rewrite Hm; intros []).
  destruct chunk as [|c r]; [by rewrite filter_nil_chunk in Hf|].
  rewrite decide_False by done.
  by destruct (_filterAssistantNoiseChunk (c :: r)) as [|x f] eqn:Hfc.
Qed.

Lemma openAssistant_last ms m s :
  messages s = ms ++ [m] → role m = Assistant → lastAssistantIndex s = len ms →
  openAssistant s = Some m.
Proof.
  intros Hms Hr Hidx. unfold openAssistant. rewrite Hidx, Hms.
  rewrite decide_False by (unfold len; lia).
  unfold len. rewrite Nat2Z.id, list_lookup_middle by done. by rewrite decide_True.
Qed.

Lemma insert_last_message ms m m' s :
  messages s = ms ++ [m] → lastAssistantIndex s = len ms →
  <[Z.to_nat (lastAssistantIndex s) := m']> (messages s) = ms ++ [m'].
Proof.
  intros -> ->. unfold len. rewrite Nat2Z.id.
  rewrite insert_app_r_alt by done. by rewrite Nat.sub_diag.
Qed.

(** The state in which output is being collected into the assistant message
    that ends the transcript. *)
Lemma collect_step ms acc t1 now chunk s :
  mode s = Chat → userMessageCount s ≠ 0 →
  messages s = ms ++ [mkMessage Assistant acc t1] →
  lastAssistantIndex s = len ms →
  totalContent ms + len acc + len (_filterAssistantNoiseChunk chunk) ≤ 2000000 →
  let s' := _appendAssistantOutput now chunk s in
  mode s' = Chat ∧ userMessageCount s' ≠ 0
  ∧ messages s' = ms ++ [mkMessage Assistant (acc ++ _filterAssistantNoiseChunk chunk) t1]
  ∧ lastAssistantIndex s' = len ms.
Proof.
  intros Hm Hc Hms Hidx Hfit. cbv zeta.
  destruct (decide (_filterAssistantNoiseChunk chunk = [])) as [Hf|Hf].
  { unfold _appendAssistantOutput.
    rewrite decide_False by (by rewrite Hm; intros []).
    destruct chunk as [|c r]; [by rewrite filter_nil_chunk, app_nil_r|].
    rewrite decide_False by done. rewrite Hf, app_nil_r. done. }
  rewrite appendAssistantOutput_eq by done. cbv zeta.
  rewrite (openAssistant_last ms _ s Hms eq_refl Hidx).
  cbn [content ts messages set_messages].
  rewrite (insert_last_message ms _ _ s Hms Hidx).
  rewrite budget_fits.
  - cbn. by rewrite Hidx.
  - rewrite totalContent_reverse, totalContent_app. simpl.
    unfold len in *. rewrite length_app. simpl in *. lia.
Qed.

(** X14. Between two user messages the output of the agent is collected
    into one assistant message.  In a chat session with a recorded user
    message and no open assistant message, a run of output chunks whose
    first one survives the noise filter adds exactly one message: its content
    is the filtered chunks joined in order, and its time that of the first
    chunk (as long as the transcript stays within its budget of 2000000 code
    units). *)
Theorem assistant_chunks_are_collected_into_one_message (s : Session) (t1 : Z)
    (c1 : jsstring) (rest : list (Z * jsstring)) :
  mode s = Chat →
  userMessageCount s ≠ 0 →
  lastAssistantIndex s = -1 →
  _filterAssistantNoiseChunk c1 ≠ [] →
  let reply :=
    _filterAssistantNoiseChunk c1
    ++ concat ((λ c : Z * jsstring, _filterAssistantNoiseChunk c.2) <$> rest) in
  totalContent (messages s) + len reply ≤ 2000000 →
  let s' := foldl (λ s (c : Z * jsstring), _appendAssistantOutput c.1 c.2 s) s
              ((t1, c1) :: rest) in
  messages s' = messages s ++ [mkMessage Assistant reply t1]
  ∧ lastAssistantIndex s' = len (messages s).
Proof.
  intros Hm Hc Hidx Hf1. cbv zeta. intros Hfit. cbn [foldl fst snd].
  set (ms := messages s) in *.
  assert (H1 : let s1 := _appendAssistantOutput t1 c1 s in
            mode s1 = Chat ∧ userMessageCount s1 ≠ 0
            ∧ messages s1 = ms ++ [mkMessage Assistant (_filterAssistantNoiseChunk c1) t1]
            ∧ lastAssistantIndex s1 = len ms).
  { cbv zeta. rewrite appendAssistantOutput_eq by done. cbv zeta.
    assert (Ho : openAssistant s = None).
    { unfold openAssistant. rewrite Hidx. by rewrite decide_True by lia. }
    rewrite Ho. cbn [messages set_messages set_lastAssistantIndex]. fold ms.
    rewrite budget_fits.
    - cbn. split_and!; [done..|]. unfold len. rewrite length_app. simpl. lia.
    - rewrite totalContent_reverse, totalContent_app. simpl.
      unfold len in *. rewrite !length_app in Hfit. simpl in *. lia. }
  revert H1 Hfit. generalize (_appendAssistantOutput t1 c1 s).
  generalize (_filterAssistantNoiseChunk c1). clear Hf1 Hidx.
  induction rest as [|[t c] rest IH]; intros acc s1 (Hm1 & Hc1 & Hms1 & Hidx1) Hfit.
  - cbn. by rewrite app_nil_r.
  - cbn [foldl fst snd]. rewrite fmap_cons. cbn [concat snd].
    rewrite (assoc_L (++)).
    unfold len in Hfit. rewrite fmap_cons in Hfit. cbn [concat snd] in Hfit.
    rewrite !length_app in Hfit.
    apply IH.
    + apply collect_step; try done. unfold len. lia.
    + unfold len. rewrite !length_app. lia.
Qed.

(** X15. The transcript budget.  Whenever [_appendAssistantOutput] changes
    the transcript, the messages it leaves hold at most 2000000 code units
    of content in total. *)
Theorem assistant_output_respects_budget (now : Z) (chunk : jsstring) (s : Session) :
  messages (_appendAssistantOutput now chunk s) = messages s
  ∨ totalContent (messages (_appendAssistantOutput now chunk s)) ≤ 2000000.
Proof.
  unfold _appendAssistantOutput.
  case_decide; [by left|]. destruct chunk as [|c r]; [by left|].
  set (gate := if decide (userMessageCount s = 0) then _ else _).
  assert (Hgate : ∀ s0, gate = Some s0 → messages s0 = messages s).
  { subst gate. intros s0. repeat case_match; intros [= <-]; done. }
  destruct gate as [s0|]; [|by left]. specialize (Hgate s0 eq_refl).
  destruct (_filterAssistantNoiseChunk (c :: r)) as [|x f]; [by left|].
  right.
  match goal with
  | |- context [budgetSuffix (reverse (messages ?s1)) 0 []] =>
      destruct (budgetSuffix (reverse (messages s1)) 0 []) as [kept|] eqn:Hb
  end.
  - cbn [messages set_messages set_lastAssistantIndex].
    eapply budget_Some; [| |exact Hb]; done.
  - apply budget_None in Hb; [|done]. by rewrite totalContent_reverse in Hb.
Qed.

(** X16. When the assistant message that ends the transcript grows beyond
    the budget all by itself, the loop that trims the transcript keeps
    nothing: every message, the user's included, is dropped. *)
Theorem oversized_reply_empties_transcript (now : Z) (chunk : jsstring) (s : Session)
    (ms : list Message) (m : Message) :
  mode s = Chat →
  userMessageCount s ≠ 0 →
  messages s = ms ++ [m] →
  role m = Assistant →
  lastAssistantIndex s = len ms →
  _filterAssistantNoiseChunk chunk ≠ [] →
  2000000 < len (content m) + len (_filterAssistantNoiseChunk chunk) →
  messages (_appendAssistantOutput now chunk s) = []
  ∧ lastAssistantIndex (_appendAssistantOutput now chunk s) = -1.
Proof.
  intros Hm Hc Hms Hr Hidx Hf Hbig.
  rewrite appendAssistantOutput_eq by done. cbv zeta.
  rewrite (openAssistant_last ms m s Hms Hr Hidx).
  cbn [messages set_messages].
  rewrite (insert_last_message ms _ _ s Hms Hidx).
  rewrite reverse_app, reverse_singleton. cbn [app budgetSuffix content].
  rewrite decide_True; [done|].
  unfold len in *. rewrite length_app. lia.
Qed.

End AssistantOutput.

Lemma assistant_chunks_are_collected_into_one_message_witness :
  mode demoAsked = Chat
  ∧ userMessageCount demoAsked ≠ 0
  ∧ lastAssistantIndex demoAsked = -1
  ∧ @_filterAssistantNoiseChunk demoOracles (lit "Hi ") ≠ []
  ∧ totalContent (messages demoAsked) + len (lit "Hi Alice") ≤ 2000000
  ∧ messages (foldl (λ s (c : Z * jsstring), @_appendAssistantOutput demoOracles c.1 c.2 s)
                demoAsked demoReplyChunks)
    = [mkMessage User (lit "hello") 2900; mkMessage Assistant (lit "Hi Alice") 2950].
Proof.
  assert (H1 : mode demoAsked = Chat) by reflexivity.
  assert (H2 : userMessageCount demoAsked ≠ 0) by (vm_compute; discriminate).
  assert (H3 : lastAssistantIndex demoAsked = -1) by reflexivity.
  assert (H4 : @_filterAssistantNoiseChunk demoOracles (lit "Hi ") ≠ [])
    by (vm_compute; discriminate).
  assert (H5 : totalContent (messages demoAsked) + len (lit "Hi Alice") ≤ 2000000)
    by (vm_compute; discriminate).
  split_and!; [exact H1|exact H2|exact H3|exact H4|exact H5|].
  unfold demoReplyChunks.
  rewrite (proj1 (@assistant_chunks_are_collected_into_one_message demoOracles demoAsked
                    2950 (lit "Hi ") [(2960, lit "Alice")] H1 H2 H3 H4 H5)).
  vm_compute. reflexivity.
Defined.

Lemma oversized_reply_empties_transcript_witness :
  mode demoFlooded = Chat
  ∧ userMessageCount demoFlooded ≠ 0
  ∧ messages demoFlooded = [mkMessage User (lit "hello") 2900] ++ [demoLongReply]
  ∧ role demoLongReply = Assistant
  ∧ lastAssistantIndex demoFlooded = len [mkMessage User (lit "hello") 2900]
  ∧ @_filterAssistantNoiseChunk demoOracles (lit "!") ≠ []
  ∧ 2000000 < len (content demoLongReply) + len (@_filterAssistantNoiseChunk demoOracles (lit "!"))
  ∧ messages (@_appendAssistantOutput demoOracles 2960 (lit "!") demoFlooded) = [].
Proof.
  assert (H1 : mode demoFlooded = Chat) by reflexivity.
  assert (H2 : userMessageCount demoFlooded ≠ 0) by (cbn; discriminate).
  assert (H3 : messages demoFlooded = [mkMessage User (lit "hello") 2900] ++ [demoLongReply])
    by reflexivity.
  assert (H4 : role demoLongReply = Assistant) by reflexivity.
  assert (H5 : lastAssistantIndex demoFlooded = len [mkMessage User (lit "hello") 2900])
    by reflexivity.
  assert (H6 : @_filterAssistantNoiseChunk demoOracles (lit "!") ≠ [])
    by (vm_compute; discriminate).
  assert (H7 : 2000000 < len (content demoLongReply)
                         + len (@_filterAssistantNoiseChunk demoOracles (lit "!"))).
  { unfold demoLongReply. cbn [content]. unfold len. rewrite length_replicate.
    rewrite Z2Nat.id by done.
    destruct (@_filterAssistantNoiseChunk demoOracles (lit "!")) as [|c l]; [by destruct H6|].
    rewrite length_cons, Nat2Z.inj_succ. lia. }
  refine (conj H1 (conj H2 (conj H3 (conj H4 (conj H5 (conj H6 (conj H7 _))))))).
  exact (proj1 (@oversized_reply_empties_transcript demoOracles 2960 (lit "!") demoFlooded
                  [mkMessage User (lit "hello") 2900] demoLongReply H1 H2 H3 H4 H5 H6 H7)).
Defined.

Section Titles.

(** ** Session titles *)

Lemma collapseWhitespace_spaces s : ∀ inRun,
  Forall (λ c, isWhitespace c = true → c = 32%N) (collapseWhitespaceFrom inRun s).
Proof.
  induction s as [|c s IH]; intros inRun; [constructor|].
  cbn [collapseWhitespaceFrom]. destruct (isWhitespace c) eqn:Hc.
  - destruct inRun; [apply IH|]. constructor; [done|apply IH].
  - constructor; [|apply IH]. intros Hw. by rewrite Hw in Hc.
Qed.

Lemma collapseWhitespace_blank s : ∀ inRun,
  Forall (λ c, isWhitespace c = true) s →
  Forall (λ c, isWhitespace c = true) (collapseWhitespaceFrom inRun s).
Proof.
  induction s as [|c s IH]; intros inRun Hs; [constructor|].
  apply Forall_cons in Hs as [Hc Hs]. cbn [collapseWhitespaceFrom]. rewrite Hc.
  destruct inRun; [by apply IH|]. constructor; [done|by apply IH].
Qed.

Lemma collapseWhitespace_solid s : ∀ inRun,
  Forall (λ c, isWhitespace c = false) s → collapseWhitespaceFrom inRun s = s.
Proof.
  induction s as [|c s IH]; intros inRun Hs; [done|].
  apply Forall_cons in Hs as [Hc Hs]. cbn [collapseWhitespaceFrom]. rewrite Hc.
  by rewrite IH.
Qed.

Lemma trimStart_suffix s : trimStart s `suffix_of` s.
Proof.
  induction s as [|c s IH]; [done|]. cbn [trimStart].
  destruct (isWhitespace c); [by apply suffix_cons_r|done].
Qed.

Lemma trimStart_head s c r : trimStart s = c :: r → isWhitespace c = false.
Proof.
  induction s as [|d s IH]; [done|]. cbn [trimStart].
  destruct (isWhitespace d) eqn:Hd; [done|]. by intros [= <- _].
Qed.

Lemma trimStart_blank s : Forall (λ c, isWhitespace c = true) s → trimStart s = [].
Proof. induction 1 as [|c s Hc Hs IH]; [done|]. cbn [trimStart]. by rewrite Hc. Qed.

Lemma trimStart_solid s :
  (∀ c r, s = c :: r → isWhitespace c = false) → trimStart s = s.
Proof. destruct s as [|c s]; [done|]. intros Hs. cbn [trimStart]. by rewrite (Hs c s). Qed.

(** [trim] removes a prefix and a suffix. *)
Lemma trim_prefix s : trim s `prefix_of` trimStart s.
Proof.
  unfold trim. rewrite <- (reverse_involutive (trimStart s)) at 2.
  apply suffix_prefix_reverse, trimStart_suffix.
Qed.

Lemma trim_sublist s : trim s `sublist_of` s.
Proof.
  destruct (trim_prefix s) as [k Hk]. destruct (trimStart_suffix s) as [k' Hk'].
  rewrite Hk' at 2. rewrite Hk. apply sublist_inserts_l, sublist_inserts_r. done.
Qed.

Lemma trim_head s c r : trim s = c :: r → isWhitespace c = false.
Proof.
  intros Ht. destruct (trim_prefix s) as [k Hk]. rewrite Ht in Hk.
  by eapply trimStart_head.
Qed.

Lemma trim_blank s : Forall (λ c, isWhitespace c = true) s → trim s = [].
Proof. intros Hs. unfold trim. by rewrite (trimStart_blank s). Qed.

Lemma trim_solid s : Forall (λ c, isWhitespace c = false) s → trim s = s.
Proof.
  intros Hs. unfold trim. rewrite (trimStart_solid s).
  - rewrite trimStart_solid; [apply reverse_involutive|].
    intros c r Hr. apply Forall_reverse in Hs. rewrite Hr in Hs.
    by apply Forall_cons in Hs as [? _].
  - intros c r ->. by apply Forall_cons in Hs as [? _].
Qed.

(** X17. The first user message names the session.  A message recorded
    while the transcript holds a user message leaves the title alone.
    Otherwise the title becomes a short form of the text, then [" · "] and
    the model id; the short form has at most 40 code units, holds no
    whitespace character but the space, and does not start with one; it is the
    text itself when that has no whitespace and at most 40 code units, and a
    text of whitespace only gives the default title. *)
Theorem session_title_from_first_user_message (now : Z) (text : jsstring) (s : Session) :
  let s' := pushUserMessage now text s in
  (hasUserMessage (messages s) = true → title s' = title s)
  ∧ (hasUserMessage (messages s) = false →
     ∃ short,
       title s' = (if decide (short = []) then newSessionTitle else short)
                  ++ titleSeparator ++ modelId s
       ∧ len short ≤ 40
       ∧ Forall (λ c, isWhitespace c = true → c = 32%N) short
       ∧ (∀ c r, short = c :: r → isWhitespace c = false)
       ∧ (Forall (λ c, isWhitespace c = true) text → short = [])
       ∧ (Forall (λ c, isWhitespace c = false) text → len text ≤ 40 → short = text)).
Proof.
  cbv zeta. unfold pushUserMessage. split; intros Hu; rewrite Hu; cbn [negb].
  - by case_decide.
  - exists (take 40 (trim (collapseWhitespace text))). split_and!.
    + case_decide; cbn [title set_title set_messages set_lastAssistantIndex];
        by destruct (take 40 (trim (collapseWhitespace text))).
    + unfold len. rewrite length_take. lia.
    + apply Forall_take.
      pose proof (collapseWhitespace_spaces text false) as Hc.
      apply Forall_forall. intros c Hin.
      eapply Forall_forall in Hc; [exact Hc|].
      eapply elem_of_sublist; [exact Hin|apply trim_sublist].
    + intros c r Hs. destruct (trim (collapseWhitespace text)) as [|d t] eqn:Ht; [done|].
      injection Hs as -> _. by eapply trim_head.
    + intros Hb. rewrite trim_blank; [done|]. by apply collapseWhitespace_blank.
    + intros Hsolid Hlen. unfold collapseWhitespace.
      rewrite collapseWhitespace_solid, trim_solid by done.
      apply take_ge. unfold len in Hlen. lia.
Qed.

End Titles.

Section Creation.
Context `{TextOracles}.

(** ** Creating a session and making it ready *)

Lemma liveSessions_nonempty sid a s st :
  lookupSession sid st = Some (a, s) → snapshotItem <$> liveSessions st ≠ [].
Proof.
  intros Hl%lookupSession_live Hnil. apply fmap_nil_inv in Hnil.
  rewrite Hnil in Hl. by apply elem_of_nil in Hl.
Qed.

Lemma persist_live sid a s now st :
  lookupSession sid st = Some (a, s) →
  _persistRuntimeState now st
  = log WriteRuntimeFile
      (set_runtimeStateFile
         (Some (RJson (Some now) (Some (snapshotItem <$> liveSessions st)))) st).
Proof.
  intros Hl%liveSessions_nonempty. unfold _persistRuntimeState.
  by destruct (snapshotItem <$> liveSessions st).
Qed.

(** The state [createSession] leaves, field by field. *)
Lemma createSession_fields user agent model mode_ od oe now st ag :
  agents st !! agent = Some ag →
  let sid := user ++ lit "-" ++ agent ++ lit "-" ++ numToString now in
  let a := fresh (dom (objs st)) in
  let st' := (createSession user agent model mode_ od oe now st).1 in
  ∃ s, objs st' = <[a := s]> (objs st)
    ∧ sessions st' = JsMap.set sid a (sessions st)
    ∧ activeSessions st'
      = <[user := default [] (activeSessions st !! user) ++ [sid]]> (activeSessions st)
    ∧ timers st' = <[nextTimerId st := TStartCommand a ag model]> (timers st)
    ∧ nextTimerId st' = S (nextTimerId st)
    ∧ trace st'
      = trace st ++ [PtySpawn a (if truthyStr (a_workingDirectory ag)
                                 then a_workingDirectory ag else None);
                     WriteRuntimeFile]
    ∧ runtimeStateFile st'
      = Some (RJson (Some now) (Some (snapshotItem <$> liveSessions st')))
    ∧ historyFiles st' = historyFiles st ∧ transcriptFiles st' = transcriptFiles st
    ∧ sessionId s = sid ∧ username s = user ∧ agentId s = agent
    ∧ modelId s = orStr model (lit "default") ∧ mode s = modeOf mode_
    ∧ createdAt s = now ∧ lastActivityAt s = now
    ∧ started s = false ∧ _startCommandSent s = false ∧ _readyFallbackTimer s = None
    ∧ _historySaved s = false
    ∧ pendingInputs s = [] ∧ messages s = [] ∧ userMessageCount s = 0
    ∧ files s = [] ∧ subscribers s = []
    ∧ onData s = od ∧ onExit s = oe.
Proof.
  intros Hag. cbv zeta. unfold createSession. rewrite Hag.
  set (sid := user ++ lit "-" ++ agent ++ lit "-" ++ numToString now).
  set (a := fresh (dom (objs st))).
  match goal with
  | |- context [set_objs (<[a := ?s0]> _)] => set (s := s0)
  end.
  match goal with
  | |- context [_persistRuntimeState now ?x] => set (st1 := x)
  end.
  assert (Hl : lookupSession sid st1 = Some (a, s)).
  { unfold lookupSession. subst st1. cbn [sessions objs set_userSessions set_activeSessions
      set_sessions set_objs log set_trace].
    rewrite JsMap_get_set, decide_True by done. cbn [mbind option_bind].
    rewrite lookup_insert_eq. reflexivity. }
  rewrite (persist_live _ _ _ _ _ Hl).
  exists s. unfold setTimeout. cbn [fst]. split_and!; try done.
  subst st1. unfold log.
  cbn [trace set_trace set_nextTimerId set_timers set_runtimeStateFile set_userSessions
       set_activeSessions set_sessions set_objs].
  by rewrite <- app_assoc.
Qed.

(** X18. [createSession] with a configured agent returns the id
    [user-agent-now] and registers a new session object under it: owned by
    the user, in the requested mode, not started, with an empty queue and
    transcript.  The id is the user's current active session; one
    pseudo-terminal is spawned, the snapshot is rewritten, and the timer
    that will send the start command is armed.  Other session objects and
    other ids are not affected. *)
Theorem createSession_registers_session (user agent : jsstring)
    (model mode_ : option jsstring) (od oe : option Callback) (now : Z) (st : Manager)
    (ag : Agent) :
  agents st !! agent = Some ag →
  let sid := user ++ lit "-" ++ agent ++ lit "-" ++ numToString now in
  let a := fresh (dom (objs st)) in
  let r := createSession user agent model mode_ od oe now st in
  r.2 = Returned sid
  ∧ objs st !! a = None
  ∧ (∃ s, lookupSession sid r.1 = Some (a, s)
          ∧ sessionId s = sid ∧ username s = user ∧ agentId s = agent
          ∧ modelId s = orStr model (lit "default") ∧ mode s = modeOf mode_
          ∧ createdAt s = now ∧ lastActivityAt s = now
          ∧ started s = false ∧ _historySaved s = false
          ∧ pendingInputs s = [] ∧ messages s = [] ∧ files s = [] ∧ subscribers s = [])
  ∧ getUserActiveSession user r.1 = Some sid
  ∧ (∀ b, b ≠ a → objs r.1 !! b = objs st !! b)
  ∧ (∀ k, k ≠ sid → JsMap.get k (sessions r.1) = JsMap.get k (sessions st))
  ∧ trace r.1
    = trace st ++ [PtySpawn a (if truthyStr (a_workingDirectory ag)
                               then a_workingDirectory ag else None);
                   WriteRuntimeFile]
  ∧ timers r.1 !! nextTimerId st = Some (TStartCommand a ag model).
Proof.
  intros Hag. cbv zeta.
  destruct (createSession_fields user agent model mode_ od oe now st ag Hag)
    as (s & Ho & Hs & Hact & Ht & Hn & Htr & Hrt & _ & _ & Hf).
  destruct Hf as (? & ? & ? & ? & ? & ? & ? & ? & ? & ? & ? & ? & ? & ? & ? & ? & ? & ?).
  split_and!.
  - unfold createSession. by rewrite Hag.
  - apply not_elem_of_dom, is_fresh.
  - exists s. split_and!; try done.
    unfold lookupSession. rewrite Hs, Ho, JsMap_get_set, decide_True by done.
    cbn [mbind option_bind]. rewrite lookup_insert_eq. reflexivity.
  - unfold getUserActiveSession. rewrite Hact, lookup_insert_eq. cbn [default].
    apply last_snoc.
  - intros b Hb. by rewrite Ho, lookup_insert_ne.
  - intros k Hk. by rewrite Hs, JsMap_get_set, decide_False.
  - done.
  - by rewrite Ht, lookup_insert_eq.
Qed.

(** *** From creation to readiness *)

Lemma alter_present {A} (f : A → A) (i : nat) (x : A) (m : gmap nat A) :
  m !! i = Some x → alter f i m = <[i := f x]> m.
Proof.
  intros Hi. apply map_eq. intros j. destruct (decide (i = j)) as [<-|Hne].
  - by rewrite lookup_alter_eq, lookup_insert_eq, Hi.
  - by rewrite lookup_alter_ne, lookup_insert_ne.
Qed.

Lemma startCommandTimer_fields a ag model st s :
  objs st !! a = Some s → JsMap.has (sessionId s) (sessions st) = true →
  let st' := startCommandTimer a ag model st in
  objs st' !! a
  = Some (set__readyFallbackTimer (Some (nextTimerId st)) (set__startCommandSent true s))
  ∧ sessions st' = sessions st
  ∧ timers st' = <[nextTimerId st := TReadyFallback a]> (timers st)
  ∧ nextTimerId st' = S (nextTimerId st)
  ∧ trace st' = trace st ++ [PtyWrite a (_buildStartCommand ag model ++ [CR])].
Proof.
  intros Hs Hhas. cbv zeta. unfold startCommandTimer. rewrite Hs, Hhas.
  unfold setTimeout. cbn [fst snd]. split_and!; try done.
  rewrite updObj_lookup. cbn [objs set_nextTimerId set_timers log set_trace].
  by rewrite updObj_lookup, Hs.
Qed.

Lemma flush_fields a now st :
  sessions (_flushPendingInputs a now st) = sessions st
  ∧ timers (_flushPendingInputs a now st) = timers st
  ∧ nextTimerId (_flushPendingInputs a now st) = nextTimerId st.
Proof.
  unfold _flushPendingInputs. destruct (objs st !! a) as [s|]; [|done].
  destruct (pendingInputs s) as [|c q]; [done|].
  generalize (c :: q). intros l.
  change (sessions st) with (sessions (updObj a (set_pendingInputs []) st)).
  change (timers st) with (timers (updObj a (set_pendingInputs []) st)).
  change (nextTimerId st) with (nextTimerId (updObj a (set_pendingInputs []) st)).
  generalize (updObj a (set_pendingInputs []) st).
  induction l as [|x l IH]; intros st0; [done|]. cbn [foldl].
  destruct (IH (log (PtyWrite a x) (updObj a (_touchSession now) st0))) as (-> & -> & ->).
  done.
Qed.

Lemma clearReadyFallback_timers a s st :
  objs st !! a = Some s →
  timers (clearReadyFallback a st)
  = match _readyFallbackTimer s with
    | Some id => delete id (timers st)
    | None => timers st
    end
  ∧ nextTimerId (clearReadyFallback a st) = nextTimerId st.
Proof.
  intros Hs. unfold clearReadyFallback. rewrite Hs.
  by destruct (_readyFallbackTimer s).
Qed.

Lemma markReady_fields a s now st :
  objs st !! a = Some s → started s = false →
  sessions (_markSessionReady a now st) = sessions st
  ∧ timers (_markSessionReady a now st)
    = match _readyFallbackTimer s with
      | Some id => delete id (timers st)
      | None => timers st
      end
  ∧ nextTimerId (_markSessionReady a now st) = nextTimerId st.
Proof.
  intros Hs Hst. unfold _markSessionReady. rewrite Hs, Hst.
  destruct (flush_fields a now (clearReadyFallback a (updObj a (set_started true) st)))
    as (-> & -> & ->).
  destruct (clearReadyFallback_timers a (set_started true s)
              (updObj a (set_started true) st)) as [-> ->];
    [by rewrite updObj_lookup, Hs|].
  by rewrite clearReadyFallback_sessions.
Qed.

Lemma absorbOutput_started now data s :
  started (absorbOutput now data s) = started s
  ∧ sessionId (absorbOutput now data s) = sessionId s.
Proof.
  unfold absorbOutput. set (s0 := set_outputBuffer _ s).
  destruct (outputReplay_footprint data s0) as (b & ->).
  destruct (assistantOutput_footprint now data (set_terminalReplayBuffer b s0))
    as (t & ms & idx & cnt & ->). done.
Qed.

Lemma lookupSession_intro sid a s st :
  JsMap.get sid (sessions st) = Some a → objs st !! a = Some s →
  lookupSession sid st = Some (a, s).
Proof. intros Hg Ho. unfold lookupSession. rewrite Hg. cbn. rewrite Ho. done. Qed.

Lemma JsMap_has_get {V} (k : jsstring) (v : V) (m : list (jsstring * V)) :
  JsMap.get k m = Some v → JsMap.has k m = true.
Proof. unfold JsMap.has. by intros ->. Qed.

Lemma broadcast_fields data subs st :
  timers (broadcast data subs st) = timers st
  ∧ sessions (broadcast data subs st) = sessions st
  ∧ nextTimerId (broadcast data subs st) = nextTimerId st.
Proof.
  unfold broadcast. revert st. induction subs as [|fn subs IH]; intros st; [done|].
  cbn [foldl]. by destruct (IH (invoke fn (Notify (cb_id fn) data) st).1) as (-> & -> & ->).
Qed.

(** X19. A created session becomes ready.  When the first timer fires, the
    start command of the agent is written to the pseudo-terminal, followed
    by a carriage return, and the fallback timer is armed; the session is
    not ready yet.  From there, the fallback timer makes the session ready
    without writing anything, and so does any output chunk that carries
    the prompt signature, which also disarms the fallback timer. *)
Theorem created_session_becomes_ready (user agent : jsstring)
    (model mode_ : option jsstring) (od oe : option Callback) (now t1 t2 : Z)
    (data : jsstring) (st : Manager) (ag : Agent) :
  agents st !! agent = Some ag →
  let sid := user ++ lit "-" ++ agent ++ lit "-" ++ numToString now in
  let a := fresh (dom (objs st)) in
  let k := nextTimerId st in
  let st0 := (createSession user agent model mode_ od oe now st).1 in
  let st1 := run st0 [(t1, ETimer k)] in
  trace st1 = trace st0 ++ [PtyWrite a (_buildStartCommand ag model ++ [CR])]
  ∧ (∃ s1, lookupSession sid st1 = Some (a, s1)
           ∧ started s1 = false ∧ _startCommandSent s1 = true
           ∧ _readyFallbackTimer s1 = Some (S k))
  ∧ timers st1 !! S k = Some (TReadyFallback a)
  ∧ (let st2 := run st1 [(t2, ETimer (S k))] in
     trace st2 = trace st1
     ∧ ∃ s2, lookupSession sid st2 = Some (a, s2) ∧ started s2 = true)
  ∧ (_isSessionReadySignal data = true →
     let st2 := run st1 [(t2, EPtyData a data)] in
     timers st2 !! S k = None
     ∧ ∃ s2, lookupSession sid st2 = Some (a, s2) ∧ started s2 = true).
Proof.
  intros Hag. cbv zeta.
  destruct (createSession_fields user agent model mode_ od oe now st ag Hag)
    as (s0 & Ho0 & Hs0 & _ & Ht0 & Hn0 & _ & _ & _ & _ & Hf).
  destruct Hf as (Hsid & _ & _ & _ & _ & _ & _ & Hst0 & Hsent0 & Hfb0 & _ & Hq0 & _).
  set (sid := user ++ lit "-" ++ agent ++ lit "-" ++ numToString now) in *.
  set (a := fresh (dom (objs st))) in *.
  set (st0 := (createSession user agent model mode_ od oe now st).1) in *.
  assert (Hget0 : JsMap.get sid (sessions st0) = Some a)
    by (by rewrite Hs0, JsMap_get_set, decide_True).
  (* the start-command timer *)
  assert (Hfire : run st0 [(t1, ETimer (nextTimerId st))]
                  = startCommandTimer a ag model (clearTimeout (nextTimerId st) st0)).
  { cbn [run foldl step fst snd]. unfold fireTimer. by rewrite Ht0, lookup_insert_eq. }
  rewrite Hfire.
  destruct (startCommandTimer_fields a ag model (clearTimeout (nextTimerId st) st0) s0)
    as (Ho1 & Hs1 & Ht1 & Hn1 & Htr1).
  { cbn [objs clearTimeout set_timers]. by rewrite Ho0, lookup_insert_eq. }
  { rewrite Hsid. by apply (JsMap_has_get _ a). }
  set (st1 := startCommandTimer a ag model (clearTimeout (nextTimerId st) st0)) in *.
  cbn [nextTimerId clearTimeout set_timers sessions trace] in Ho1, Hs1, Ht1, Hn1, Htr1.
  rewrite Hn0 in Ho1, Ht1, Hn1.
  set (s1 := set__readyFallbackTimer (Some (S (nextTimerId st)))
               (set__startCommandSent true s0)) in *.
  assert (Hl1 : lookupSession sid st1 = Some (a, s1)).
  { apply lookupSession_intro; [by rewrite Hs1|done]. }
  assert (Hfb1 : timers st1 !! S (nextTimerId st) = Some (TReadyFallback a))
    by (by rewrite Ht1, lookup_insert_eq).
  split; [done|]. split; [by exists s1|]. split; [done|]. split.
  - (* the fallback timer *)
    assert (Hfire2 : run st1 [(t2, ETimer (S (nextTimerId st)))]
                     = _markSessionReady a t2 (clearTimeout (S (nextTimerId st)) st1)).
    { cbn [run foldl step fst snd]. unfold fireTimer. rewrite Hfb1.
      unfold readyFallbackTimer. cbn [objs clearTimeout set_timers sessions].
      rewrite Ho1. cbn [sessionId s1]. rewrite Hs1.
      replace (sessionId s1) with sid by (by rewrite <- Hsid).
      by rewrite (JsMap_has_get _ a). }
    cbv zeta. rewrite Hfire2.
    set (st1' := clearTimeout (S (nextTimerId st)) st1).
    destruct (markReady_obj a s1 t2 st1') as (s2 & Ho2 & Hst2 & _); [done..|].
    destruct (markReady_fields a s1 t2 st1') as (Hs2 & _); [done..|].
    split.
    + rewrite (markReady_trace a s1 t2 st1') by done.
      replace (pendingInputs s1) with (@nil jsstring) by (by rewrite <- Hq0).
      rewrite fmap_nil, app_nil_r. done.
    + exists s2. split; [|done]. apply lookupSession_intro; [|done].
      rewrite Hs2. subst st1'. cbn [sessions clearTimeout set_timers]. by rewrite Hs1.
  - (* the prompt signature *)
    intros Hsig. cbv zeta. cbn [run foldl step fst snd]. unfold ptyOnData. rewrite Ho1.
    replace (negb (started s1) && _startCommandSent s1 && _isSessionReadySignal data)
      with true by (by rewrite Hsig; cbn; rewrite Hst0).
    set (st1' := updObj a (_touchSession t2) st1).
    assert (Ho1' : objs st1' !! a = Some (_touchSession t2 s1))
      by (subst st1'; by rewrite updObj_lookup, Ho1).
    destruct (markReady_obj a _ t2 st1' Ho1') as (s2 & Ho2 & Hst2 & _); [done|].
    destruct (markReady_fields a _ t2 st1' Ho1') as (Hs2 & Ht2 & _); [done|].
    set (st2 := _markSessionReady a t2 st1') in *.
    set (st3 := broadcast data (subscribers s1) (updObj a (absorbOutput t2 data) st2)).
    assert (H3 : timers st3 = timers st2 ∧ sessions st3 = sessions st2
                 ∧ objs st3 !! a = Some (absorbOutput t2 data s2)).
    { subst st3.
      destruct (broadcast_fields data (subscribers s1) (updObj a (absorbOutput t2 data) st2))
        as (-> & -> & _).
      split_and!; [done..|]. by rewrite objs_broadcast, updObj_lookup, Ho2. }
    destruct H3 as (Ht3 & Hs3 & Ho3).
    assert (Hfin : ∀ stf, stf = match onData s1 with
                                | Some fn => invoke fn (CallOnData (cb_id fn) data) st3
                                | None => (st3, false)
                                end.1 →
              timers stf = timers st3 ∧ sessions stf = sessions st3 ∧ objs stf = objs st3).
    { intros stf ->. by destruct (onData s1). }
    destruct (Hfin _ eq_refl) as (Htf & Hsf & Hof).
    split.
    + rewrite Htf, Ht3, Ht2. subst s1.
      cbn [_readyFallbackTimer _touchSession set_lastActivityAt set__readyFallbackTimer].
      by rewrite lookup_delete_eq.
    + exists (absorbOutput t2 data s2). split.
      * apply lookupSession_intro; [|by rewrite Hof].
        rewrite Hsf, Hs3, Hs2. subst st1'. cbn [sessions updObj set_objs]. by rewrite Hs1.
      * destruct (absorbOutput_started t2 data s2) as [-> _]. done.
Qed.

End Creation.

Lemma createSession_registers_session_witness :
  agents demoManager !! lit "codex" = Some demoCodex
  ∧ (createSession (lit "alice") (lit "codex") None None None None 2000 demoManager).2
    = Returned demoSid
  ∧ getUserActiveSession (lit "alice") demoCreated = Some demoSid.
Proof.
  assert (H1 : agents demoManager !! lit "codex" = Some demoCodex)
    by (vm_compute; reflexivity).
  pose proof (createSession_registers_session (lit "alice") (lit "codex") None None None
                None 2000 demoManager demoCodex H1) as (Hr & _ & _ & Hact & _).
  split_and!; [exact H1|exact Hr|exact Hact].
Defined.

Lemma created_session_becomes_ready_witness :
  agents demoManager !! lit "codex" = Some demoCodex
  ∧ trace (@run demoOracles demoCreated [(2500, ETimer 0)])
    = trace demoCreated ++ [PtyWrite 0 (lit "codex" ++ [CR])]
  ∧ timers (@run demoOracles demoCreated [(2500, ETimer 0)]) !! 1%nat
    = Some (TReadyFallback 0).
Proof.
  assert (H1 : agents demoManager !! lit "codex" = Some demoCodex)
    by (vm_compute; reflexivity).
  pose proof (@created_session_becomes_ready demoOracles (lit "alice") (lit "codex") None
                None None None 2000 2500 2800 (lit "> ") demoManager demoCodex H1)
    as (Htr & _ & Ht & _).
  split_and!; [exact H1|exact Htr|exact Ht].
Defined.

Section Typing.
Context `{TextOracles}.

(** ** Simulated typing *)

(** Splitting a string into code points loses nothing. *)
Lemma codePoints_concat s : concat (codePoints s) = s.
Proof.
  assert (Hgen : ∀ n s, (length s ≤ n)%nat → concat (codePoints s) = s).
  { clear s. induction n as [|n IH]; intros [|c [|d r]] Hlen; try done;
      cbn [length] in Hlen; try lia.
    change (codePoints (c :: d :: r))
      with (if isHighSurrogate c && isLowSurrogate d
            then [c; d] :: codePoints r else [c] :: codePoints (d :: r)).
    destruct (isHighSurrogate c && isLowSurrogate d).
    - cbn [concat app]. rewrite IH by (cbn [length]; lia). done.
    - cbn [concat app]. rewrite (IH (d :: r)) by (cbn [length]; lia). done. }
  by apply (Hgen (length s)).
Qed.

Lemma typingTicks_cons k t times :
  typingTicks k (t :: times) = (t, ETimer k) :: typingTicks (S k) times.
Proof.
  unfold typingTicks. rewrite imap_cons. rewrite Nat.add_0_r. f_equal.
  apply imap_ext. intros i x _. cbn. do 2 f_equal. lia.
Qed.

Lemma typeNext_run a s times : ∀ chars st,
  chars ≠ [] →
  objs st !! a = Some s →
  JsMap.has (sessionId s) (sessions st) = true →
  length times = ((length chars - 1) / 10)%nat →
  ∃ groups,
    concat groups = chars
    ∧ Forall (λ g : list jsstring, (0 < length g ≤ 10)%nat) groups
    ∧ length groups = S (length times)
    ∧ trace (run (typeNext a chars st) (typingTicks (nextTimerId st) times))
      = trace st ++ ((λ g, PtyWrite a (concat g)) <$> groups).
Proof.
  induction times as [|t times IH]; intros chars st Hne Hs Hhas Hlen.
  - cbn [length] in Hlen. symmetry in Hlen.
    apply Nat.div_small_iff in Hlen; [|done].
    exists [chars]. destruct chars as [|c chars]; [done|].
    split_and!.
    + cbn. by rewrite app_nil_r.
    + apply Forall_singleton. cbn [length] in *. lia.
    + done.
    + unfold typeNext. rewrite Hs, Hhas.
      rewrite take_ge by (cbn [length] in *; lia).
      rewrite drop_ge by (cbn [length] in *; lia). done.
  - cbn [length] in Hlen.
    assert (Hlong : (10 < length chars)%nat).
    { destruct (decide (10 < length chars)%nat) as [|Hn]; [done|].
      rewrite Nat.div_small in Hlen by lia. done. }
    destruct chars as [|c chars]; [done|].
    destruct (drop 10 (c :: chars)) as [|d rest] eqn:Hdrop.
    { apply (f_equal length) in Hdrop. rewrite length_drop in Hdrop.
      cbn [length] in *. lia. }
    set (st1 := log (PtyWrite a (concat (take 10 (c :: chars)))) st).
    set (st2 := clearTimeout (nextTimerId st)
                  (setTimeout (TTypeNext a (d :: rest)) st1).1).
    assert (Hstep : run (typeNext a (c :: chars) st)
                      (typingTicks (nextTimerId st) (t :: times))
                    = run (typeNext a (d :: rest) st2)
                        (typingTicks (nextTimerId st2) times)).
    { rewrite typingTicks_cons. unfold typeNext at 1. rewrite Hs, Hhas, Hdrop.
      fold st1. cbn [run foldl step fst snd]. unfold fireTimer.
      unfold setTimeout at 1. cbn [fst timers set_nextTimerId set_timers].
      change (nextTimerId st1) with (nextTimerId st). rewrite lookup_insert_eq.
      reflexivity. }
    rewrite Hstep.
    destruct (IH (d :: rest) st2) as (groups & Hc & Hg & Hl & Htr); [done|done|done|..].
    { rewrite <- Hdrop, length_drop. cbn [length] in *.
      assert (Hdiv : ((S (length chars) - 1) / 10 = S ((S (length chars) - 10 - 1) / 10))%nat).
      { replace (S (length chars) - 1)%nat with ((S (length chars) - 10 - 1) + 1 * 10)%nat
          by lia.
        rewrite Nat.div_add by done. lia. }
      lia. }
    exists (take 10 (c :: chars) :: groups). split_and!.
    + cbn [concat]. rewrite Hc, <- Hdrop. apply take_drop.
    + constructor; [|done]. rewrite length_take. cbn [length] in *. lia.
    + cbn [length]. by rewrite Hl.
    + rewrite Htr. rewrite fmap_cons.
      change (trace st2) with (trace st ++ [PtyWrite a (concat (take 10 (c :: chars)))]).
      by rewrite <- app_assoc.
Qed.

(** X20. Simulated typing delivers the whole text.  For a live session,
    [_simulateTyping] followed by its timers writes the text to the
    pseudo-terminal in batches, in order: each batch holds between one and
    ten code points (a surrogate pair is never split), the batches joined
    give the text back, and nothing else is written. *)
Theorem simulated_typing_delivers_whole_text (a : nat) (s : Session) (text : jsstring)
    (times : list Z) (st : Manager) :
  objs st !! a = Some s →
  JsMap.has (sessionId s) (sessions st) = true →
  text ≠ [] →
  length times = ((length (codePoints text) - 1) / 10)%nat →
  ∃ groups,
    concat groups = codePoints text
    ∧ Forall (λ g : list jsstring, (0 < length g ≤ 10)%nat) groups
    ∧ trace (run (_simulateTyping a text st) (typingTicks (nextTimerId st) times))
      = trace st ++ ((λ g, PtyWrite a (concat g)) <$> groups)
    ∧ concat ((λ g, concat g) <$> groups) = text.
Proof.
  intros Hs Hhas Hne Hlen. unfold _simulateTyping.
  destruct text as [|c r] eqn:Ht; [done|]. rewrite <- Ht in *.
  destruct (typeNext_run a s times (codePoints text) st) as (groups & Hc & Hg & _ & Htr);
    [|done..|].
  { rewrite Ht. destruct (codePoints_cons c r) as (p & ps & ->). done. }
  exists groups. split_and!; [done..|].
  rewrite <- (codePoints_concat text), <- Hc.
  clear. induction groups as [|g groups IH]; [done|].
  cbn [fmap list_fmap concat]. by rewrite concat_app, <- IH.
Qed.

End Typing.

Lemma simulated_typing_delivers_whole_text_witness :
  objs demoGemini !! 0%nat = Some demoGeminiSession
  ∧ JsMap.has (sessionId demoGeminiSession) (sessions demoGemini) = true
  ∧ demoPrompt ≠ []
  ∧ length [3001; 3002] = ((length (codePoints demoPrompt) - 1) / 10)%nat
  ∧ ∃ groups,
      concat groups = codePoints demoPrompt
      ∧ Forall (λ g : list jsstring, (0 < length g ≤ 10)%nat) groups
      ∧ trace (@run demoOracles (_simulateTyping 0 demoPrompt demoGemini)
                 (typingTicks (nextTimerId demoGemini) [3001; 3002]))
        = trace demoGemini ++ ((λ g, PtyWrite 0 (concat g)) <$> groups)
      ∧ concat ((λ g, concat g) <$> groups) = demoPrompt.
Proof.
  assert (H1 : objs demoGemini !! 0%nat = Some demoGeminiSession)
    by (vm_compute; reflexivity).
  assert (H2 : JsMap.has (sessionId demoGeminiSession) (sessions demoGemini) = true)
    by (vm_compute; reflexivity).
  assert (H3 : demoPrompt ≠ []) by (vm_compute; discriminate).
  assert (H4 : length [3001; 3002] = ((length (codePoints demoPrompt) - 1) / 10)%nat)
    by (vm_compute; reflexivity).
  split_and!; [exact H1|exact H2|exact H3|exact H4|].
  exact (@simulated_typing_delivers_whole_text demoOracles 0%nat demoGeminiSession
           demoPrompt [3001; 3002] demoGemini H1 H2 H3 H4).
Defined.

Example typing_of_a_prompt_in_three_batches :
  ptyWrites 0 (trace (@run demoOracles (_simulateTyping 0 demoPrompt demoGemini)
                        (typingTicks (nextTimerId demoGemini) [3001; 3002])))
  = [lit "summarise "; lit "the attach"; lit "ed report"].
Proof. vm_compute. reflexivity. Qed.

Section Lifetime.
Context `{TextOracles}.

(** ** The life of a session object *)

Lemma laterOf_refl s : laterOf s s.
Proof. by repeat split. Qed.

Lemma respectsIO_laterOf s : RespectsIO (laterOf s).
Proof.
  split; try (by intros; simpl).
  - intros c s' HP. by destruct (replay_footprint c s') as (b & l & ->).
  - intros s' [Hi Hr]. by split.
  - intros now d s' [Hi Hr]. unfold absorbOutput.
    set (s0 := set_outputBuffer _ s').
    destruct (outputReplay_footprint d s0) as (b & ->).
    set (s1 := set_terminalReplayBuffer b s0).
    assert (Hs1 : laterOf s s1) by done.
    clearbody s1. clear -Hs1. unfold _appendAssistantOutput.
    repeat case_match; simpl; try done; by simplify_eq.
Qed.

Lemma laterOf_events s (es : list (Z * Event)) :
  Forall (λ e : Z * Event,
    match e.2 with
    | EAddSubscriber _ fn => ∀ s', laterOf s s' → laterOf s (subscribe fn s')
    | ERemoveSubscriber _ fn => ∀ s', laterOf s s' → laterOf s (unsubscribe fn s')
    | ERecordUserMessage _ text => ∀ s', laterOf s s' → laterOf s (pushUserMessage e.1 text s')
    | _ => True
    end) es.
Proof.
  apply Forall_forall. intros [now e] _. destruct e; try done; cbn [snd fst].
  - intros s' [(?&?&?&?&?&?&?&?&?) ?]. unfold pushUserMessage. cbv zeta.
    destruct (negb (hasUserMessage (messages s'))); case_match;
      repeat split; simpl; done.
  - intros s' Hl. unfold subscribe. by case_match.
  - intros s' Hl. done.
Qed.

(** X21. A session object keeps its identity for life.  Whatever happens
    after a session object exists (any public operation on any session,
    output and exit of any process, timers, idle sweeps), the object keeps
    its session id, owner, agent, model, creation time, mode, transcript
    flag and callbacks, and once ready it stays ready. *)
Theorem session_identity_is_fixed (a : nat) (s : Session) (st : Manager)
    (es : list (Z * Event)) :
  objs st !! a = Some s →
  ∃ s', objs (run st es) !! a = Some s'
    ∧ sessionId s' = sessionId s ∧ username s' = username s
    ∧ agentId s' = agentId s ∧ modelId s' = modelId s
    ∧ createdAt s' = createdAt s ∧ mode s' = mode s
    ∧ hasTranscript s' = hasTranscript s
    ∧ onData s' = onData s ∧ onExit s' = onExit s
    ∧ (started s = true → started s' = true).
Proof.
  intros Hs.
  destruct (stable_run (laterOf s) es (respectsIO_laterOf s) (laterOf_events s es)
              st a s Hs (laterOf_refl s))
    as (s' & Hs' & (?&?&?&?&?&?&?&?&?) & ?).
  exists s'. done.
Qed.

Lemma ptyWrites_app a l1 l2 : ptyWrites a (l1 ++ l2) = ptyWrites a l1 ++ ptyWrites a l2.
Proof. unfold ptyWrites. apply omap_app. Qed.

Lemma ptyWrites_other a b ws : a ≠ b → ptyWrites a (PtyWrite b <$> ws) = [].
Proof.
  intros Hne. induction ws as [|w ws IH]; [done|].
  rewrite fmap_cons. unfold ptyWrites in *. cbn [omap list_omap].
  by rewrite decide_False.
Qed.

Lemma persist_writes a now st :
  ptyWrites a (trace (_persistRuntimeState now st)) = ptyWrites a (trace st).
Proof.
  unfold _persistRuntimeState. repeat case_match; try done;
    cbn [trace log set_trace set_runtimeStateFile]; rewrite ptyWrites_app;
    cbn; by rewrite app_nil_r.
Qed.

Lemma destroySession_writes a sid now st :
  ptyWrites a (trace (destroySession sid now st)) = ptyWrites a (trace st).
Proof.
  unfold destroySession. destruct (lookupSession sid st) as [[b s]|] eqn:Hl; [|done].
  unfold unregister. rewrite persist_writes, trace_markEnded.
  assert (Hb : ∃ s', objs (log (PtyKill b) (clearReadyFallback b st)) !! b = Some s').
  { apply lookupSession_obj in Hl. cbn [log objs set_trace].
    erewrite clearReadyFallback_obj by done. eauto. }
  destruct Hb as (s' & Hb).
  match goal with |- context [trace (match ?x with _ => _ end)] =>
    assert (Htr : trace (match x with Some l => set_activeSessions
                   (<[username s := filter (λ i, i ≠ sid) l]> (activeSessions
                     (set_sessions (JsMap.delete sid (sessions (_saveHistory b now
                       (log (PtyKill b) (clearReadyFallback b st)))))
                       (_saveHistory b now (log (PtyKill b) (clearReadyFallback b st))))))
                   (set_sessions (JsMap.delete sid (sessions (_saveHistory b now
                       (log (PtyKill b) (clearReadyFallback b st)))))
                       (_saveHistory b now (log (PtyKill b) (clearReadyFallback b st))))
                 | None => set_sessions (JsMap.delete sid (sessions (_saveHistory b now
                       (log (PtyKill b) (clearReadyFallback b st)))))
                       (_saveHistory b now (log (PtyKill b) (clearReadyFallback b st))) end)
             = trace (_saveHistory b now (log (PtyKill b) (clearReadyFallback b st))))
      by (by case_match)
  end.
  cbv zeta. rewrite Htr.
  destruct (saveHistory_trace b s' now _ Hb) as (items & ->).
  rewrite ptyWrites_app. cbn [log trace set_trace]. rewrite ptyWrites_app.
  rewrite clearReadyFallback_trace.
  destruct (_historySaved s'); [cbn; by rewrite !app_nil_r|].
  case_decide; cbn; by rewrite !app_nil_r.
Qed.

Lemma sessions_markReady a now st : sessions (_markSessionReady a now st) = sessions st.
Proof.
  unfold _markSessionReady. destruct (objs st !! a) as [s|] eqn:Hs; [|done].
  destruct (started s) eqn:Hst; [done|].
  pose proof (markReady_fields a s now st Hs Hst) as (Hm & _).
  unfold _markSessionReady in Hm. by rewrite Hs, Hst in Hm.
Qed.

Lemma sessions_fireTimer id now st : sessions (fireTimer id now st) = sessions st.
Proof.
  unfold fireTimer. destruct (timers st !! id) as [[b ag model|b|b chars]|]; [| | |done].
  - unfold startCommandTimer, setTimeout. repeat case_match; done.
  - unfold readyFallbackTimer. repeat case_match; try done.
    by rewrite sessions_markReady.
  - unfold typeNext. repeat case_match; done.
Qed.

Lemma fireTimer_writes a s id now st :
  objs st !! a = Some s →
  JsMap.has (sessionId s) (sessions st) = false →
  ptyWrites a (trace (fireTimer id now st)) = ptyWrites a (trace st).
Proof.
  intros Hs Hdead. unfold fireTimer.
  destruct (timers st !! id) as [[b ag model|b|b chars]|]; [| | |done].
  - destruct (decide (b = a)) as [->|Hne].
    { unfold startCommandTimer. cbn [clearTimeout objs sessions set_timers].
      by rewrite Hs, Hdead. }
    destruct (objs st !! b) as [sb|] eqn:Hb.
    2:{ unfold startCommandTimer. cbn [clearTimeout objs sessions set_timers].
        by rewrite Hb. }
    destruct (JsMap.has (sessionId sb) (sessions st)) eqn:Hhas.
    2:{ unfold startCommandTimer. cbn [clearTimeout objs sessions set_timers].
        by rewrite Hb, Hhas. }
    pose proof (startCommandTimer_fields b ag model (clearTimeout id st) sb Hb Hhas)
      as (_&_&_&_&Htr).
    cbv zeta in Htr. rewrite Htr, ptyWrites_app. cbn [trace clearTimeout set_timers].
    unfold ptyWrites at 2. cbn [omap list_omap]. rewrite decide_False by done.
    by rewrite app_nil_r.
  - unfold readyFallbackTimer. cbn [clearTimeout objs sessions set_timers].
    destruct (decide (b = a)) as [->|Hne].
    + by rewrite Hs, Hdead.
    + destruct (objs st !! b) as [sb|]; [|done].
      destruct (JsMap.has (sessionId sb) (sessions st)); [|done].
      destruct (trace_markReady b now (clearTimeout id st)) as (ws & ->).
      rewrite ptyWrites_app, ptyWrites_other by done. by rewrite app_nil_r.
  - unfold typeNext. cbn [clearTimeout objs sessions set_timers].
    destruct chars as [|c chars]; [done|].
    destruct (decide (b = a)) as [->|Hne].
    + by rewrite Hs, Hdead.
    + destruct (objs st !! b) as [sb|]; [|done].
      destruct (JsMap.has (sessionId sb) (sessions st)); [|done].
      assert (Hw : ∀ st0 : Manager,
                 ptyWrites a (trace (log (PtyWrite b (concat (take 10 (c :: chars)))) st0))
                 = ptyWrites a (trace st0)).
      { intros st0. cbn [log trace set_trace]. rewrite ptyWrites_app. cbn.
        rewrite decide_False by done. by rewrite app_nil_r. }
      destruct (drop 10 (c :: chars)); [apply (Hw (clearTimeout id st))|].
      apply (Hw (clearTimeout id st)).
Qed.

End Lifetime.

Lemma session_identity_is_fixed_witness :
  objs demoCreated !! 0%nat = Some demoSession
  ∧ ∃ s', objs (@run demoOracles demoCreated demoBanner) !! 0%nat = Some s'
      ∧ sessionId s' = demoSid ∧ username s' = lit "alice".
Proof.
  assert (H1 : objs demoCreated !! 0%nat = Some demoSession) by (vm_compute; reflexivity).
  split; [exact H1|].
  destruct (@session_identity_is_fixed demoOracles 0%nat demoSession demoCreated demoBanner H1)
    as (s' & Hs' & Hid & Hu & _).
  exists s'. split_and!; [exact Hs'|exact Hid|exact Hu].
Defined.

Section Subscriptions.
Context `{TextOracles}.

(** ** Subscribing and unsubscribing *)

Lemma sessions_ptyOnData a data now st :
  sessions (ptyOnData a data now st).1 = sessions st.
Proof.
  unfold ptyOnData. destruct (objs st !! a) as [s|]; [|done].
  assert (Hb : ∀ st0, sessions (broadcast data (subscribers s) st0) = sessions st0)
    by (intros; apply broadcast_fields).
  destruct (negb (started s) && _startCommandSent s && _isSessionReadySignal data);
    destruct (onData s); cbn [fst invoke log sessions set_trace];
    rewrite Hb; cbn [updObj sessions set_objs]; by rewrite ?sessions_markReady.
Qed.

Lemma subscribers_run a chunks : ∀ s st,
  objs st !! a = Some s →
  sessions (run st (outputEvent a <$> chunks)) = sessions st
  ∧ ∃ s', objs (run st (outputEvent a <$> chunks)) !! a = Some s'
          ∧ subscribers s' = subscribers s.
Proof.
  induction chunks as [|[now data] chunks IH]; intros s st Hs; [eauto|].
  change (run st (outputEvent a <$> (now, data) :: chunks))
    with (run (ptyOnData a data now st).1 (outputEvent a <$> chunks)).
  destruct (stable_ptyOnData (λ s', subscribers s' = subscribers s ∧ onData s' = onData s)
              (respectsIO_subscribers _ _) a data now st a s Hs)
    as (s1 & Hs1 & Hsub & _); [done|].
  destruct (IH _ _ Hs1) as (Hses & s' & Hs' & Hsub').
  split; [by rewrite Hses, sessions_ptyOnData|].
  exists s'. split; [done|]. by rewrite Hsub', Hsub.
Qed.

(** Output reaches a subscriber once per chunk. *)
Lemma deliveries_run a fn chunks : ∀ s st,
  objs st !! a = Some s →
  NoDup (cb_id <$> subscribers s) →
  fn ∈ subscribers s →
  deliveries (cb_id fn) (trace (run st (outputEvent a <$> chunks)))
  = deliveries (cb_id fn) (trace st) ++ chunks.*2.
Proof.
  induction chunks as [|[now data] chunks IH]; intros s st Hs Hnd Hfn.
  - simpl. by rewrite app_nil_r.
  - change (run st (outputEvent a <$> (now, data) :: chunks))
      with (run (ptyOnData a data now st).1 (outputEvent a <$> chunks)).
    destruct (ptyOnData_trace a s data now st Hs) as (ws & Htr & _).
    destruct (stable_ptyOnData (λ s', subscribers s' = subscribers s ∧ onData s' = onData s)
                (respectsIO_subscribers _ _) a data now st a s Hs)
      as (s' & Hs' & Hsub & Hod); [done|].
    rewrite (IH s' _ Hs') by (by rewrite Hsub).
    rewrite Htr, !deliveries_app, deliveries_writes, deliveries_notify by done.
    destruct (onData s); simpl; by rewrite ?app_nil_r, <- ?app_assoc.
Qed.

(** Output does not reach a function that is not subscribed. *)
Lemma deliveries_run_absent a cb chunks : ∀ s st,
  objs st !! a = Some s →
  cb ∉ cb_id <$> subscribers s →
  deliveries cb (trace (run st (outputEvent a <$> chunks))) = deliveries cb (trace st).
Proof.
  induction chunks as [|[now data] chunks IH]; intros s st Hs Hni; [done|].
  change (run st (outputEvent a <$> (now, data) :: chunks))
    with (run (ptyOnData a data now st).1 (outputEvent a <$> chunks)).
  destruct (ptyOnData_trace a s data now st Hs) as (ws & Htr & _).
  destruct (stable_ptyOnData (λ s', subscribers s' = subscribers s ∧ onData s' = onData s)
              (respectsIO_subscribers _ _) a data now st a s Hs)
    as (s' & Hs' & Hsub & Hod); [done|].
  rewrite (IH s' _ Hs') by (by rewrite Hsub).
  rewrite Htr, !deliveries_app, deliveries_writes, deliveries_absent by done.
  destruct (onData s); simpl; by rewrite ?app_nil_r.
Qed.

Lemma subscribe_set fn s :
  NoDup (cb_id <$> subscribers s) →
  NoDup (cb_id <$> subscribers (subscribe fn s))
  ∧ ∃ g, g ∈ subscribers (subscribe fn s) ∧ cb_id g = cb_id fn.
Proof.
  intros Hnd. unfold subscribe. case_bool_decide as Hin.
  - split; [done|]. apply list_elem_of_fmap in Hin as (g & Hg & Hin). eauto.
  - cbn. split.
    + rewrite fmap_app. apply NoDup_app. split_and!; [done| |apply NoDup_singleton].
      intros x Hx ->%list_elem_of_singleton. done.
    + exists fn. split; [|done]. apply elem_of_app. right. by left.
Qed.

Lemma unsubscribe_set fn s : cb_id fn ∉ cb_id <$> subscribers (unsubscribe fn s).
Proof.
  unfold unsubscribe. cbn. intros (g & Hg & Hin)%list_elem_of_fmap.
  apply list_elem_of_filter in Hin as [Hne _]. done.
Qed.

(** X23. A subscriber receives the output from [addSubscriber] until
    [removeSubscriber].  For a live session whose subscriber set holds no
    function twice: after [addSubscriber] (whether or not the function was
    subscribed already) the function is called exactly once with every
    chunk of output, in order; after [removeSubscriber] it is not called
    with any further chunk. *)
Theorem subscriber_receives_output_until_removed (sid : jsstring) (a : nat)
    (s : Session) (fn : Callback) (st : Manager) (chunks1 chunks2 : list (Z * jsstring)) :
  lookupSession sid st = Some (a, s) →
  NoDup (cb_id <$> subscribers s) →
  let st1 := run (addSubscriber sid fn st) (outputEvent a <$> chunks1) in
  let st2 := run (removeSubscriber sid fn st1) (outputEvent a <$> chunks2) in
  deliveries (cb_id fn) (trace st1) = deliveries (cb_id fn) (trace st) ++ chunks1.*2
  ∧ deliveries (cb_id fn) (trace st2) = deliveries (cb_id fn) (trace st1).
Proof.
  intros Hl Hnd st1 st2.
  pose proof (lookupSession_obj _ _ _ _ Hl) as Hs.
  assert (Hadd : addSubscriber sid fn st = updObj a (subscribe fn) st)
    by (unfold addSubscriber; by rewrite Hl).
  assert (Hs0 : objs (addSubscriber sid fn st) !! a = Some (subscribe fn s))
    by (by rewrite Hadd, updObj_lookup, Hs).
  destruct (subscribe_set fn s Hnd) as (Hnd0 & g & Hg & Hgid).
  destruct (subscribers_run a chunks1 _ _ Hs0) as (Hses & s1 & Hs1 & Hsub1).
  fold st1 in Hses, Hs1. split.
  - subst st1. rewrite <- Hgid, (deliveries_run a g chunks1 _ _ Hs0 Hnd0 Hg).
    by rewrite Hadd.
  - assert (Hl1 : lookupSession sid st1 = Some (a, s1)).
    { apply lookupSession_intro; [|done]. rewrite Hses, Hadd.
      cbn [updObj sessions set_objs]. unfold lookupSession in Hl.
      destruct (JsMap.get sid (sessions st)) as [b|]; [|done]. simpl in Hl.
      destruct (objs st !! b); simpl in Hl; [|done]. by injection Hl as -> _. }
    subst st2. unfold removeSubscriber. rewrite Hl1.
    rewrite (deliveries_run_absent a (cb_id fn) chunks2 (unsubscribe fn s1)).
    + done.
    + by rewrite updObj_lookup, Hs1.
    + apply unsubscribe_set.
Qed.

End Subscriptions.

Lemma subscriber_receives_output_until_removed_witness :
  lookupSession demoSid demoCreated = Some (0%nat, demoSession)
  ∧ NoDup (cb_id <$> subscribers demoSession)
  ∧ deliveries (cb_id demoViewer)
      (trace (@run demoOracles (addSubscriber demoSid demoViewer demoCreated)
                (outputEvent 0 <$> demoChunks)))
    = [lit "Hello"; lit " world"]
  ∧ deliveries (cb_id demoViewer)
      (trace (@run demoOracles
                (removeSubscriber demoSid demoViewer
                   (@run demoOracles (addSubscriber demoSid demoViewer demoCreated)
                      (outputEvent 0 <$> demoChunks)))
                (outputEvent 0 <$> [(3002, lit "!")])))
    = [lit "Hello"; lit " world"].
Proof.
  assert (H1 : lookupSession demoSid demoCreated = Some (0%nat, demoSession))
    by (vm_compute; reflexivity).
  assert (H2 : NoDup (cb_id <$> subscribers demoSession)) by apply NoDup_nil_2.
  destruct (@subscriber_receives_output_until_removed demoOracles demoSid 0%nat demoSession
              demoViewer demoCreated demoChunks [(3002, lit "!")] H1 H2) as [Ha Hb].
  split_and!; [exact H1|exact H2|exact Ha|].
  rewrite Hb. exact Ha.
Defined.

Section Shutdown.
Context `{TextOracles}.

(** ** Ending sessions *)

Lemma transcriptFiles_persist now st :
  transcriptFiles (_persistRuntimeState now st) = transcriptFiles st.
Proof. unfold _persistRuntimeState. repeat case_match; done. Qed.

Lemma transcriptFiles_unregister user sid now st :
  transcriptFiles (unregister user sid now st) = transcriptFiles st.
Proof.
  unfold unregister. rewrite transcriptFiles_persist. unfold _markUserSessionEnded.
  repeat case_match; done.
Qed.

Lemma transcriptFiles_readHistory now user st :
  transcriptFiles (_readHistoryForUser now user st).1 = transcriptFiles st.
Proof. unfold _readHistoryForUser. repeat case_match; done. Qed.

Lemma saveHistory_transcript a s now st :
  objs st !! a = Some s → _historySaved s = false → mode s ≠ Terminal →
  transcriptFiles (_saveHistory a now st)
  = <[transcriptPath (username s) (sessionId s) := TJson (transcriptOf now s)]>
      (transcriptFiles st).
Proof.
  intros Hs Hsaved Hmode. unfold _saveHistory. rewrite Hs, Hsaved.
  pose proof (transcriptFiles_readHistory now (username s)
                (updObj a (set__historySaved true) st)) as Hread.
  destruct (_readHistoryForUser now (username s) _) as [st1 history]. simpl in Hread.
  rewrite decide_False by done. cbn. by rewrite Hread.
Qed.

(** X24. Destroying a chat session archives its transcript.  The owner of
    a live chat session reads its messages with [getSessionTranscript]; once
    the session has been destroyed, the same call returns the transcript
    written by [_saveHistory]: the same session id, agent, model, mode,
    creation time and messages, with [endedAt] set to the time of the call
    and without the title. *)
Theorem destroyed_chat_session_is_archived (sid : jsstring) (a : nat) (s : Session)
    (now : Z) (st : Manager) :
  lookupSession sid st = Some (a, s) →
  sessionId s = sid →
  _historySaved s = false →
  mode s ≠ Terminal →
  getSessionTranscript (username s) sid st
  = Some {| t_sessionId := sid; t_agentId := agentId s; t_modelId := modelId s;
            t_mode := Some (lit "chat"); t_createdAt := createdAt s;
            t_endedAt := None; t_title := Some (title s);
            t_messages := messages s |}
  ∧ getSessionTranscript (username s) sid (destroySession sid now st)
    = Some {| t_sessionId := sid; t_agentId := agentId s; t_modelId := modelId s;
              t_mode := Some (lit "chat"); t_createdAt := createdAt s;
              t_endedAt := Some now; t_title := None;
              t_messages := messages s |}.
Proof.
  intros Hl Hsid Hsaved Hmode.
  assert (Hchat : mode s = Chat) by (by destruct (mode s)).
  split.
  - unfold getSessionTranscript. rewrite Hl, decide_True, decide_False by done.
    unfold liveTranscript. by rewrite Hsid, Hchat.
  - unfold getSessionTranscript, destroySession. rewrite Hl.
    rewrite lookupSession_unregister. unfold readTranscriptFile.
    rewrite transcriptFiles_unregister.
    erewrite (saveHistory_transcript a (set__readyFallbackTimer None s)); [|by apply
      (clearReadyFallback_obj a s st), (lookupSession_obj sid)|done|done].
    cbn [username sessionId set__readyFallbackTimer]. rewrite Hsid, lookup_insert_eq.
    unfold transcriptOf. cbn [mode set__readyFallbackTimer t_mode].
    rewrite Hchat. rewrite decide_False by done.
    cbn. by rewrite Hsid.
Qed.








End Shutdown.

Lemma destroyed_chat_session_is_archived_witness :
  lookupSession demoSid demoCreated = Some (0%nat, demoSession)
  ∧ sessionId demoSession = demoSid
  ∧ _historySaved demoSession = false
  ∧ mode demoSession ≠ Terminal
  ∧ getSessionTranscript (lit "alice") demoSid (destroySession demoSid 2200 demoCreated)
    = Some {| t_sessionId := demoSid; t_agentId := lit "codex";
              t_modelId := lit "default"; t_mode := Some (lit "chat");
              t_createdAt := 2000; t_endedAt := Some 2200; t_title := None;
              t_messages := [] |}.
Proof.
  assert (H1 : lookupSession demoSid demoCreated = Some (0%nat, demoSession))
    by (vm_compute; reflexivity).
  assert (H2 : sessionId demoSession = demoSid) by reflexivity.
  assert (H3 : _historySaved demoSession = false) by reflexivity.
  assert (H4 : mode demoSession ≠ Terminal) by discriminate.
  split_and!; [exact H1|exact H2|exact H3|exact H4|].
  exact (proj2 (destroyed_chat_session_is_archived demoSid 0%nat demoSession 2200
                  demoCreated H1 H2 H3 H4)).
Defined.


Section Invariants.
Context `{TextOracles}.

(** ** Invariants of the manager *)

Lemma keeps_refl st : keepsSessions st st.
Proof. by split. Qed.

Lemma keeps_trans st1 st2 st3 :
  keepsSessions st1 st2 → keepsSessions st2 st3 → keepsSessions st1 st3.
Proof.
  intros [Hs12 Ho12] [Hs23 Ho23]. split; [by etrans|]. by rewrite Ho23.
Qed.

Lemma keeps_same st st' :
  sessions st' = sessions st → objs st' = objs st → keepsSessions st st'.
Proof. intros Hs Ho. split; [by rewrite Hs|by rewrite Ho]. Qed.

Lemma keeps_updObj a f st : keepsSessions st (updObj a f st).
Proof. split; [done|]. unfold updObj. cbn. apply dom_alter_L. Qed.

Lemma keeps_unregister user sid now st : keepsSessions st (unregister user sid now st).
Proof.
  split.
  - rewrite sessions_unregister. apply sublist_filter.
  - by rewrite objs_unregister.
Qed.

Lemma sessions_readHistory now user st :
  sessions (_readHistoryForUser now user st).1 = sessions st.
Proof. unfold _readHistoryForUser. repeat case_match; done. Qed.

Lemma keeps_readHistory now user st : keepsSessions st (_readHistoryForUser now user st).1.
Proof. apply keeps_same; [apply sessions_readHistory|apply objs_readHistory]. Qed.

(** Peel the outermost state transformer off the goal. *)
Ltac thread :=
  lazymatch goal with
  | |- keepsSessions ?st ?st => apply keeps_refl
  | |- keepsSessions _ (log _ ?x) => apply (keeps_trans _ x); [|by apply keeps_same]
  | |- keepsSessions _ (updObj _ _ ?x) => apply (keeps_trans _ x); [|apply keeps_updObj]
  | |- keepsSessions _ (clearTimeout _ ?x) => apply (keeps_trans _ x); [|by apply keeps_same]
  | |- keepsSessions _ (setTimeout _ ?x).1 => apply (keeps_trans _ x); [|by apply keeps_same]
  | |- keepsSessions _ (_persistRuntimeState _ ?x) =>
      apply (keeps_trans _ x); [|apply keeps_same; [apply sessions_persist|apply objs_persist]]
  | |- keepsSessions _ (_markUserSessionEnded _ _ _ ?x) =>
      apply (keeps_trans _ x);
        [|apply keeps_same; [apply sessions_markEnded|apply objs_markEnded]]
  | |- keepsSessions _ (unregister _ _ _ ?x) =>
      apply (keeps_trans _ x); [|apply keeps_unregister]
  | |- keepsSessions _ (broadcast _ _ ?x) =>
      apply (keeps_trans _ x);
        [|apply keeps_same; [apply broadcast_fields|apply objs_broadcast]]
  | |- keepsSessions _ (_writeHistoryForUser _ _ _ _ ?x) =>
      apply (keeps_trans _ x); [|by apply keeps_same]
  | |- keepsSessions _ (invoke _ _ ?x).1 => apply (keeps_trans _ x); [|by apply keeps_same]
  | |- keepsSessions _ (set_transcriptFiles _ ?x) =>
      apply (keeps_trans _ x); [|by apply keeps_same]
  | |- keepsSessions _ (set__idleCheckTimer _ ?x) =>
      apply (keeps_trans _ x); [|by apply keeps_same]
  | |- keepsSessions _ (set_timers _ ?x) => apply (keeps_trans _ x); [|by apply keeps_same]
  | |- keepsSessions _ (set_nextTimerId _ ?x) =>
      apply (keeps_trans _ x); [|by apply keeps_same]
  | |- keepsSessions _ (set_trace _ ?x) => apply (keeps_trans _ x); [|by apply keeps_same]
  | |- keepsSessions _ (set_activeSessions _ ?x) =>
      apply (keeps_trans _ x); [|by apply keeps_same]
  | |- keepsSessions _ (set_userSessions _ ?x) =>
      apply (keeps_trans _ x); [|by apply keeps_same]
  | |- keepsSessions _ (set_historyCache _ ?x) =>
      apply (keeps_trans _ x); [|by apply keeps_same]
  | |- keepsSessions _ (set_historyFiles _ ?x) =>
      apply (keeps_trans _ x); [|by apply keeps_same]
  | |- keepsSessions _ (set_runtimeStateFile _ ?x) =>
      apply (keeps_trans _ x); [|by apply keeps_same]
  end.

Lemma keeps_clearReadyFallback a st : keepsSessions st (clearReadyFallback a st).
Proof. unfold clearReadyFallback. repeat case_match; repeat thread. Qed.

Lemma keeps_foldl {A} (f : Manager → A → Manager) l :
  (∀ st x, keepsSessions st (f st x)) → ∀ st, keepsSessions st (foldl f st l).
Proof.
  intros Hf. induction l as [|x l IH]; intros st; [apply keeps_refl|].
  simpl. eapply keeps_trans; [apply Hf|apply IH].
Qed.

Lemma keeps_flush a now st : keepsSessions st (_flushPendingInputs a now st).
Proof.
  unfold _flushPendingInputs. repeat case_match; try apply keeps_refl.
  apply (keeps_trans _ (updObj a (set_pendingInputs []) st)); [repeat thread|].
  apply keeps_foldl. intros. repeat thread.
Qed.

Lemma keeps_markReady a now st : keepsSessions st (_markSessionReady a now st).
Proof.
  unfold _markSessionReady. repeat case_match; try apply keeps_refl.
  eapply keeps_trans; [|apply keeps_flush].
  eapply keeps_trans; [|apply keeps_clearReadyFallback]. repeat thread.
Qed.

Lemma keeps_typeNext a chars st : keepsSessions st (typeNext a chars st).
Proof. unfold typeNext. repeat case_match; repeat thread. Qed.

Lemma keeps_sendInput sid text now st : keepsSessions st (sendInput sid text now st).1.
Proof. unfold sendInput. repeat case_match; simpl; repeat thread. Qed.

Lemma keeps_sendChatInput sid text now st :
  keepsSessions st (sendChatInput sid text now st).1.
Proof.
  unfold sendChatInput. repeat case_match; simpl; repeat thread.
  unfold _simulateTyping. case_match; [repeat thread|].
  eapply keeps_trans; [|apply keeps_typeNext]. repeat thread.
Qed.

Lemma keeps_recordUserMessage sid text now st :
  keepsSessions st (recordUserMessage sid text now st).1.
Proof. unfold recordUserMessage. repeat case_match; simpl; repeat thread. Qed.

Lemma keeps_addFile sid path name now st : keepsSessions st (addFile sid path name now st).
Proof. unfold addFile. repeat case_match; repeat thread. Qed.

Lemma keeps_resize sid cols rows st : keepsSessions st (resize sid cols rows st).
Proof. unfold resize. repeat case_match; repeat thread. Qed.

Lemma keeps_saveHistory a now st : keepsSessions st (_saveHistory a now st).
Proof.
  unfold _saveHistory. destruct (objs st !! a) as [s|]; [|apply keeps_refl].
  destruct (_historySaved s); [apply keeps_refl|].
  pose proof (keeps_readHistory now (username s) (updObj a (set__historySaved true) st))
    as Hread.
  destruct (_readHistoryForUser now (username s) _) as [st1 history].
  simpl in Hread.
  case_decide; repeat thread; (eapply keeps_trans; [|exact Hread]); repeat thread.
Qed.

Lemma keeps_destroySession sid now st : keepsSessions st (destroySession sid now st).
Proof.
  unfold destroySession. repeat case_match; repeat thread.
  eapply keeps_trans; [|apply keeps_saveHistory]. repeat thread.
  eapply keeps_trans; [|apply keeps_clearReadyFallback]. repeat thread.
Qed.

Lemma keeps_destroyAll now st : keepsSessions st (destroyAll now st).
Proof.
  unfold destroyAll. repeat thread.
  eapply keeps_trans; [|apply keeps_foldl; intros; apply keeps_destroySession].
  repeat thread.
Qed.

Lemma keeps_startCommandTimer a ag model st :
  keepsSessions st (startCommandTimer a ag model st).
Proof.
  unfold startCommandTimer, setTimeout. cbn [fst snd].
  repeat case_match; repeat thread.
Qed.

Lemma keeps_fireTimer id now st : keepsSessions st (fireTimer id now st).
Proof.
  unfold fireTimer. destruct (timers st !! id) as [t|]; [|apply keeps_refl].
  destruct t.
  - eapply keeps_trans; [|apply keeps_startCommandTimer]. repeat thread.
  - unfold readyFallbackTimer. repeat case_match; repeat thread.
    eapply keeps_trans; [|apply keeps_markReady]. repeat thread.
  - eapply keeps_trans; [|apply keeps_typeNext]. repeat thread.
Qed.

Lemma keeps_ptyOnData a data now st : keepsSessions st (ptyOnData a data now st).1.
Proof.
  unfold ptyOnData. destruct (objs st !! a) as [s|]; [|apply keeps_refl].
  case_match; simpl; repeat thread;
    (case_match; [eapply keeps_trans; [|apply keeps_markReady]|]); repeat thread.
Qed.

Lemma keeps_ptyOnExit a code signal now st :
  keepsSessions st (ptyOnExit a code signal now st).1.
Proof.
  unfold ptyOnExit. destruct (objs st !! a) as [s|]; [|apply keeps_refl].
  case_match; simpl; repeat thread;
    (eapply keeps_trans; [|apply keeps_saveHistory]);
    (eapply keeps_trans; [|apply keeps_clearReadyFallback]); repeat thread.
Qed.

Lemma keeps_setSessionTitle user sid title_ now st :
  keepsSessions st (setSessionTitle user sid title_ now st).
Proof.
  unfold setSessionTitle.
  set (st1 := match lookupSession sid st with Some _ => _ | None => _ end).
  assert (H1 : keepsSessions st st1).
  { subst st1. repeat case_match; repeat thread. }
  pose proof (keeps_readHistory now user st1) as Hread.
  destruct (_readHistoryForUser now user st1) as [st2 history]. simpl in Hread.
  repeat case_match; repeat thread; (eapply keeps_trans; [exact H1|exact Hread]).
Qed.

Lemma keeps_deleteSessionHistory user sid now st :
  keepsSessions st (deleteSessionHistory user sid now st).
Proof.
  unfold deleteSessionHistory.
  pose proof (keeps_readHistory now user st) as Hread.
  destruct (_readHistoryForUser now user st) as [st2 history]. simpl in Hread.
  case_match; repeat thread; exact Hread.
Qed.

Lemma keeps_getUserSessionHistory user now st :
  keepsSessions st (getUserSessionHistory user now st).1.
Proof.
  unfold getUserSessionHistory.
  pose proof (keeps_readHistory now user st) as Hread.
  by destruct (_readHistoryForUser now user st) as [st2 history].
Qed.

Lemma keeps_cleanup now st : keepsSessions st (_cleanupInactiveSessions now st).
Proof.
  unfold _cleanupInactiveSessions. repeat case_match; try apply keeps_refl.
  apply keeps_foldl. intros. unfold reap.
  repeat case_match; repeat thread; apply keeps_destroySession.
Qed.

(** Every event but a successful [createSession] keeps the sessions. *)
Lemma keeps_step st (e : Z * Event) :
  match e.2 with
  | ECreateSession _ agent _ _ _ _ => agents st !! agent = None
  | _ => True
  end →
  keepsSessions st (step st e).
Proof.
  destruct e as [now ev]. unfold step. simpl. intros He. destruct ev.
  - unfold createSession. rewrite He. apply keeps_refl.
  - apply keeps_destroySession.
  - apply keeps_foldl. intros. apply keeps_destroySession.
  - apply keeps_destroyAll.
  - apply keeps_sendInput.
  - apply keeps_sendChatInput.
  - apply keeps_recordUserMessage.
  - apply keeps_addFile.
  - unfold addSubscriber. repeat case_match; repeat thread.
  - unfold removeSubscriber. repeat case_match; repeat thread.
  - apply keeps_resize.
  - apply keeps_setSessionTitle.
  - apply keeps_deleteSessionHistory.
  - apply keeps_getUserSessionHistory.
  - apply keeps_ptyOnData.
  - apply keeps_ptyOnExit.
  - apply keeps_fireTimer.
  - case_match; [apply keeps_cleanup|apply keeps_refl].
Qed.

Lemma laterOf_event s (e : Z * Event) :
  match e.2 with
  | EAddSubscriber _ fn => ∀ s', laterOf s s' → laterOf s (subscribe fn s')
  | ERemoveSubscriber _ fn => ∀ s', laterOf s s' → laterOf s (unsubscribe fn s')
  | ERecordUserMessage _ text => ∀ s', laterOf s s' → laterOf s (pushUserMessage e.1 text s')
  | _ => True
  end.
Proof.
  pose proof (laterOf_events s [e]) as He.
  exact (proj1 (Forall_singleton _ e) He).
Qed.

Lemma JsMap_set_values {V} (k : jsstring) (v : V) (m : list (jsstring * V)) :
  NoDup m.*2 → v ∉ m.*2 → NoDup (JsMap.set k v m).*2.
Proof.
  induction m as [|[k' v'] m IH]; intros Hnd Hv.
  - cbn. apply NoDup_singleton.
  - rewrite fmap_cons in Hnd, Hv. cbn [snd] in *.
    apply NoDup_cons in Hnd as [Hv' Hnd]. apply not_elem_of_cons in Hv as [Hne Hv].
    cbn [JsMap.set]. destruct (decide (k = k')) as [->|Hk]; rewrite fmap_cons; cbn [snd].
    + apply NoDup_cons. done.
    + apply NoDup_cons. split; [|by apply IH].
      intros (p & Hp2 & Hp)%list_elem_of_fmap. destruct p as [k0 v0]. cbn in Hp2. subst v0.
      apply JsMap_set_elem in Hp as [Hp|Hp]; [by simplify_eq|].
      apply Hv'. apply list_elem_of_fmap. by exists (k0, v').
Qed.

Lemma wellFormed_step st (e : Z * Event) : wellFormed st → wellFormed (step st e).
Proof.
  intros (Hk & Hv & Hobj).
  assert (Hkeep : keepsSessions st (step st e) → wellFormed (step st e)).
  { intros [Hsub Hdom]. split_and!.
    - eapply sublist_NoDup; [exact Hk|]. by apply fmap_sublist.
    - eapply sublist_NoDup; [exact Hv|]. by apply fmap_sublist.
    - intros p Hp. destruct (Hobj p) as (s & Hs & Hid); [by eapply elem_of_sublist|].
      destruct (stable_step (laterOf s) (respectsIO_laterOf s) st e (laterOf_event s e)
                  p.2 s Hs (laterOf_refl s)) as (s' & Hs' & (Hid' & _) & _).
      exists s'. split; [done|]. by rewrite Hid'. }
  destruct e as [now ev].
  destruct ev as [user agent model mode_ od oe| | | | | | | | | | | | | | | | |];
    try (apply Hkeep, keeps_step; exact I).
  destruct (agents st !! agent) as [ag|] eqn:Hag; [|by apply Hkeep, keeps_step].
  unfold step. cbn [fst snd].
  destruct (createSession_fields user agent model mode_ od oe now st ag Hag)
    as (s & Ho & Hs & _ & _ & _ & _ & _ & _ & _ & Hid & _).
  cbv zeta in Ho, Hs, Hid.
  set (a := fresh (dom (objs st))) in *.
  assert (Hfresh : objs st !! a = None).
  { apply not_elem_of_dom. apply is_fresh. }
  assert (Hnew : a ∉ (sessions st).*2).
  { intros (p & -> & Hp)%list_elem_of_fmap. destruct (Hobj p Hp) as (s0 & Hs0 & _).
    by rewrite Hfresh in Hs0. }
  split_and!.
  - rewrite Hs, JsMap_set_keys. case_decide; [done|].
    apply NoDup_app. split_and!; [done| |apply NoDup_singleton].
    intros x Hx ->%list_elem_of_singleton. done.
  - rewrite Hs. by apply JsMap_set_values.
  - intros [k b] Hp. rewrite Hs in Hp. rewrite Ho. cbn [fst snd].
    apply JsMap_set_elem in Hp as [Hp|Hp].
    + injection Hp as -> ->. exists s. by rewrite lookup_insert_eq.
    + destruct (Hobj _ Hp) as (s0 & Hs0 & Hid0). cbn [fst snd] in *.
      exists s0. split; [|done]. rewrite lookup_insert_ne; [done|].
      intros <-. by rewrite Hfresh in Hs0.
Qed.

(** X26. The session map stays well formed.  From a well-formed state (as
    the constructor's, whose map is empty), whatever happens -- every public
    operation, output and exit of processes, timers, idle sweeps -- the
    session ids of the map are distinct, no two ids share a session object,
    and every id maps to an allocated object that carries that id. *)
Theorem session_map_stays_well_formed (st : Manager) (es : list (Z * Event)) :
  wellFormed st → wellFormed (run st es).
Proof.
  revert st. induction es as [|e es IH]; intros st Hwf; [done|].
  cbn [run foldl]. apply IH. by apply wellFormed_step.
Qed.

Lemma cappedReplay_ok b :
  Forall replayChar b → len (cappedReplay b) ≤ 600000 ∧ Forall replayChar (cappedReplay b).
Proof.
  intros Hb. unfold cappedReplay. case_decide as Hlen.
  - split.
    + pose proof (sliceLast_bound 400000 b). lia.
    + apply Forall_forall. intros x Hx. rewrite Forall_forall in Hb. apply Hb.
      eapply elem_of_sublist; [exact Hx|]. apply sliceLast_sublist.
  - split; [lia|done].
Qed.

Lemma outputReplay_ok chunk s : replayOK s → replayOK (_appendTerminalOutputReplay chunk s).
Proof.
  intros (Hlen & Hb & Hl). unfold _appendTerminalOutputReplay.
  repeat case_match; try (by split_and!).
  rewrite capReplayBuffer_capped. unfold replayOK.
  cbn [terminalReplayBuffer terminalInputLine set_terminalReplayBuffer].
  match goal with
  | |- context [cappedReplay (?b ++ ?t)] =>
      assert (Hall : Forall replayChar (b ++ t))
  end.
  { apply Forall_app. split; [done|].
    match goal with Heq : filter _ _ = _ |- _ => rewrite <- Heq end.
    apply Forall_forall. intros c [Hc _]%list_elem_of_filter.
    unfold isReplayPrintable in Hc. unfold replayChar, typedChar, LF.
    repeat case_bool_decide; cbn in Hc; try done; lia. }
  destruct (cappedReplay_ok _ Hall). done.
Qed.

Lemma respectsIO_withinLimits : RespectsIO withinLimits.
Proof.
  split; try (by intros; simpl).
  - intros c s (Hq & Ho & Hr). pose proof (inputReplay_ok c s Hr) as Hr'.
    destruct (replay_footprint c s) as (b & l & Heq). rewrite Heq in *. by split_and!.
  - intros t s (Hq & Ho & Hr). split_and!; [|done..].
    unfold enqueuePending. cbn [pendingInputs set_pendingInputs]. case_decide; [|lia].
    pose proof (sliceLast_bound 120 (pendingInputs s ++ [t])). lia.
  - intros s (Hq & Ho & Hr). by split_and!.
  - intros now d s (Hq & Ho & Hr). unfold absorbOutput.
    set (s0 := set_outputBuffer _ s).
    assert (H0 : withinLimits s0).
    { subst s0. split_and!; [done| |done]. cbn [outputBuffer set_outputBuffer].
      case_decide; [|lia]. pose proof (sliceLast_bound 160000 (outputBuffer s ++ d)). lia. }
    clearbody s0. destruct H0 as (Hq0 & Ho0 & Hr0).
    pose proof (outputReplay_ok d s0 Hr0) as Hr1.
    destruct (outputReplay_footprint d s0) as (b & Heq). rewrite Heq in *.
    destruct (assistantOutput_footprint now d (set_terminalReplayBuffer b s0))
      as (t & ms & idx & cnt & ->). by split_and!.
Qed.

(** X27. The buffers of a session stay within their bounds.  If every
    session object is within its limits (as in the constructor's state,
    which has none), then after any events every session object holds at
    most 200 queued inputs, at most 200000 code units of raw output, and a
    replay buffer of at most 600000 code units.  Of the code units below
    U+0020 and DEL the replay buffer holds only tab and line feed, and the
    input line none.  Code units from U+0080 on are not restricted: the
    controls U+0080 to U+009F are stripped from recorded output but kept
    when they are typed. *)
Theorem session_buffers_stay_bounded (st : Manager) (es : list (Z * Event)) :
  (∀ a s, objs st !! a = Some s → withinLimits s) →
  ∀ a s, objs (run st es) !! a = Some s →
    len (pendingInputs s) ≤ 200
    ∧ len (outputBuffer s) ≤ 200000
    ∧ len (terminalReplayBuffer s) ≤ 600000
    ∧ Forall (λ c, c = 9 ∨ c = 10 ∨ (32 ≤ c ∧ c ≠ 127))%N (terminalReplayBuffer s)
    ∧ Forall (λ c, 32 ≤ c ∧ c ≠ 127)%N (terminalInputLine s).
Proof.
  intros Hall a s Hs.
  assert (Hinv : ∀ a s, objs (run st es) !! a = Some s → withinLimits s).
  { clear a s Hs. revert st Hall. induction es as [|e es IH]; intros st Hall; [done|].
    cbn [run foldl]. apply IH. clear IH. intros a s' Hs'.
    assert (Hold : ∀ s, objs st !! a = Some s → withinLimits s').
    { intros s Hs.
      assert (Hev : match e.2 with
                    | EAddSubscriber _ fn => ∀ s, withinLimits s → withinLimits (subscribe fn s)
                    | ERemoveSubscriber _ fn =>
                        ∀ s, withinLimits s → withinLimits (unsubscribe fn s)
                    | ERecordUserMessage _ text =>
                        ∀ s, withinLimits s → withinLimits (pushUserMessage e.1 text s)
                    | _ => True
                    end).
      { destruct e as [now ev]. destruct ev; try done; cbn [fst snd].
        - intros s0 (?&?&?). unfold pushUserMessage. cbv zeta.
          destruct (negb (hasUserMessage (messages s0))); case_match; by split_and!.
        - intros s0 Hs0. unfold subscribe. by case_match.
        - intros s0 Hs0. done. }
      destruct (stable_step withinLimits respectsIO_withinLimits st e Hev a s Hs
                  (Hall a s Hs)) as (s1 & Hs1 & Hlim).
      rewrite Hs' in Hs1. by injection Hs1 as ->. }
    destruct (objs st !! a) as [s|] eqn:Hs; [by apply (Hold s)|].
    destruct e as [now ev].
    assert (Hkept : keepsSessions st (step st (now, ev)) → withinLimits s').
    { intros [_ Hdom]. apply not_elem_of_dom in Hs. rewrite <- Hdom in Hs.
      apply not_elem_of_dom in Hs. by rewrite Hs in Hs'. }
    destruct ev as [user agent model mode_ od oe| | | | | | | | | | | | | | | | |];
      try (apply Hkept, keeps_step; exact I).
    destruct (agents st !! agent) as [ag|] eqn:Hag; [|by apply Hkept, keeps_step].
    unfold step in Hs'. cbn [fst snd] in Hs'. unfold createSession in Hs'.
    rewrite Hag in Hs'. cbn [fst] in Hs'. unfold setTimeout in Hs'. cbn [fst] in Hs'.
    cbn [objs set_nextTimerId set_timers] in Hs'. rewrite objs_persist in Hs'.
    cbn [objs set_userSessions set_activeSessions set_sessions set_objs log set_trace]
      in Hs'.
    destruct (decide (a = fresh (dom (objs st)))) as [->|Hne].
    - rewrite lookup_insert_eq in Hs'. injection Hs' as <-.
      unfold withinLimits, replayOK. cbn. by split_and!.
    - rewrite lookup_insert_ne in Hs' by done. by rewrite Hs in Hs'. }
  destruct (Hinv a s Hs) as (H1 & H2 & H3 & H4 & H5).
  exact (conj H1 (conj H2 (conj H3 (conj H4 H5)))).
Qed.

End Invariants.

Lemma session_map_stays_well_formed_witness :
  wellFormed dashManager ∧ wellFormed (@run demoOracles dashManager dashEvents).
Proof.
  assert (H1 : wellFormed dashManager).
  { split_and!; [apply NoDup_nil_2|apply NoDup_nil_2|].
    intros p Hp. by apply elem_of_nil in Hp. }
  split; [exact H1|].
  exact (@session_map_stays_well_formed demoOracles dashManager dashEvents H1).
Defined.

Lemma session_buffers_stay_bounded_witness :
  (∀ a s, objs demoManager !! a = Some s → withinLimits s)
  ∧ ∀ a s, objs (@run demoOracles demoManager renamedEvents) !! a = Some s →
      len (pendingInputs s) ≤ 200
      ∧ len (outputBuffer s) ≤ 200000
      ∧ len (terminalReplayBuffer s) ≤ 600000
      ∧ Forall (λ c, c = 9 ∨ c = 10 ∨ (32 ≤ c ∧ c ≠ 127))%N (terminalReplayBuffer s)
      ∧ Forall (λ c, 32 ≤ c ∧ c ≠ 127)%N (terminalInputLine s).
Proof.
  assert (H1 : ∀ a s, objs demoManager !! a = Some s → withinLimits s).
  { intros a s Hs. change (objs demoManager) with (∅ : gmap nat Session) in Hs.
    by rewrite lookup_empty in Hs. }
  split; [exact H1|].
  exact (@session_buffers_stay_bounded demoOracles demoManager renamedEvents H1).
Defined.

(** A control character typed into a terminal session is recorded: U+009B
    followed by a carriage return ends up in the replay buffer, although the
    filter applied to recorded output rejects it. *)
Example typed_control_character_is_recorded :
  terminalReplayBuffer (_appendTerminalInputReplay [155%N; CR] demoTerminal)
  = lit "$ ls" ++ [155%N; LF]
  ∧ isReplayPrintable 155%N = false.
Proof. vm_compute. done. Qed.

Section ReadyInput.
Context `{TextOracles}.

(** ** Input to a ready session *)

Lemma ready_step sid a s (c : Z * InputCall) st :
  lookupSession sid st = Some (a, s) →
  started s = true →
  agentId s ≠ lit "gemini" →
  let st' := step st (inputEvent sid c) in
  trace st' = trace st ++ [PtyWrite a (submittedText c.2)]
  ∧ ∃ s', lookupSession sid st' = Some (a, s')
      ∧ started s' = true ∧ agentId s' = agentId s
      ∧ pendingInputs s' = pendingInputs s
      ∧ lastActivityAt s' = c.1.
Proof.
  intros Hl Hst Hag. destruct c as [t [text|text]]; cbv zeta;
    unfold step, inputEvent; cbn [fst snd].
  - unfold sendInput. rewrite Hl, Hst. cbn [fst]. split; [done|].
    exists (_touchSession t (_appendTerminalInputReplay text s)). split.
    + apply (lookupSession_updObj sid a _ (_touchSession t)).
      by apply (lookupSession_updObj sid a s (_appendTerminalInputReplay text)).
    + destruct (replay_footprint text s) as (b & l & ->). done.
  - unfold sendChatInput. rewrite Hl, Hst. cbv zeta. rewrite decide_False by done.
    cbn [fst]. split; [done|].
    exists (_touchSession t (_appendTerminalInputReplay (text ++ [CR]) s)). split.
    + apply (lookupSession_updObj sid a _ (_touchSession t)).
      by apply (lookupSession_updObj sid a s (_appendTerminalInputReplay (text ++ [CR]))).
    + destruct (replay_footprint (text ++ [CR]) s) as (b & l & ->). done.
Qed.

(** X28. Input to a ready session is written at once.  For a live session
    that is ready and whose agent is not gemini, every [sendInput] and
    [sendChatInput] call writes its chunk to the process immediately -- the
    text as it is, or the chat message followed by a carriage return -- one
    write per call, in call order; nothing is queued, and the session's last
    activity is the time of the last call. *)
Theorem ready_session_input_is_written_in_order (sid : jsstring) (a : nat) (s : Session)
    (calls : list (Z * InputCall)) (st : Manager) :
  lookupSession sid st = Some (a, s) →
  started s = true →
  agentId s ≠ lit "gemini" →
  let st1 := run st (inputEvent sid <$> calls) in
  trace st1 = trace st ++ (PtyWrite a <$> (submittedText ∘ snd <$> calls))
  ∧ ∃ s1, lookupSession sid st1 = Some (a, s1)
      ∧ started s1 = true
      ∧ pendingInputs s1 = pendingInputs s
      ∧ lastActivityAt s1 = default (lastActivityAt s) (fst <$> last calls).
Proof.
  cbv zeta. revert s st. induction calls as [|c calls IH]; intros s st Hl Hst Hag.
  - cbn. rewrite app_nil_r. split; [done|]. by exists s.
  - rewrite fmap_cons. cbn [run foldl].
    destruct (ready_step sid a s c st Hl Hst Hag) as (Htr & s' & Hl' & Hst' & Hag' & Hq & Ht).
    destruct (IH s' (step st (inputEvent sid c)) Hl' Hst') as (Htr1 & s1 & Hl1 & Hst1 & Hq1 & Ht1).
    { by rewrite Hag'. }
    split.
    + unfold run in Htr1. rewrite Htr1, Htr, fmap_cons, <- app_assoc. done.
    + exists s1. split_and!; [done|done|by rewrite Hq1|].
      rewrite Ht1, Ht, last_cons. by destruct (last calls).
Qed.

(** X29. Operations on an unknown session id.  When the id is not in the
    session map, [sendInput], [sendChatInput] and [recordUserMessage] throw
    the "no session" error, [getSession] returns nothing and
    [getSessionFiles] the empty list; these and [addFile], [addSubscriber],
    [removeSubscriber], [resize] and [destroySession] leave the manager as
    it is: nothing is written, queued, killed or saved. *)
Theorem unknown_session_is_left_alone (sid : jsstring) (now : Z) (st : Manager) :
  JsMap.get sid (sessions st) = None →
  (∀ text, sendInput sid text now st = (st, Thrown errNoSession))
  ∧ (∀ text, sendChatInput sid text now st = (st, Thrown errNoSession))
  ∧ (∀ text, recordUserMessage sid text now st = (st, Thrown errNoSession))
  ∧ getSession sid st = None
  ∧ getSessionFiles sid st = []
  ∧ (∀ path name, addFile sid path name now st = st)
  ∧ (∀ fn, addSubscriber sid fn st = st)
  ∧ (∀ fn, removeSubscriber sid fn st = st)
  ∧ (∀ cols rows, resize sid cols rows st = st)
  ∧ destroySession sid now st = st.
Proof.
  intros Hget.
  assert (Hl : lookupSession sid st = None) by (unfold lookupSession; by rewrite Hget).
  unfold sendInput, sendChatInput, recordUserMessage, getSession, getSessionFiles,
    addFile, addSubscriber, removeSubscriber, resize, destroySession.
  rewrite !Hl. by split_and!.
Qed.

End ReadyInput.

Lemma ready_session_input_is_written_in_order_witness :
  lookupSession demoSid demoReady = Some (0%nat, demoReadySession)
  ∧ started demoReadySession = true
  ∧ agentId demoReadySession ≠ lit "gemini"
  ∧ trace (@run demoOracles demoReady (inputEvent demoSid <$> demoCalls))
    = trace demoReady ++ [PtyWrite 0 (lit "ls"); PtyWrite 0 (lit "hello" ++ [CR])].
Proof.
  assert (H1 : lookupSession demoSid demoReady = Some (0%nat, demoReadySession))
    by (vm_compute; reflexivity).
  assert (H2 : started demoReadySession = true) by reflexivity.
  assert (H3 : agentId demoReadySession ≠ lit "gemini") by (vm_compute; discriminate).
  split_and!; [exact H1|exact H2|exact H3|].
  exact (proj1 (@ready_session_input_is_written_in_order demoOracles demoSid 0%nat
                  demoReadySession demoCalls demoReady H1 H2 H3)).
Defined.

Lemma unknown_session_is_left_alone_witness :
  JsMap.get (lit "alice-codex-1") (sessions demoCreated) = None
  ∧ sendInput (lit "alice-codex-1") (lit "ls") 2100 demoCreated
    = (demoCreated, Thrown errNoSession)
  ∧ destroySession (lit "alice-codex-1") 2100 demoCreated = demoCreated.
Proof.
  assert (H1 : JsMap.get (lit "alice-codex-1") (sessions demoCreated) = None)
    by (vm_compute; reflexivity).
  pose proof (unknown_session_is_left_alone (lit "alice-codex-1") 2100
                demoCreated H1) as (Hin & _ & _ & _ & _ & _ & _ & _ & _ & Hd).
  split_and!; [exact H1|exact (Hin (lit "ls"))|exact Hd].
Defined.

Section ChatExchange.
Context `{TextOracles}.

(** ** One exchange in a chat session *)

Lemma first_reply now chunk s :
  mode s = Chat → userMessageCount s ≠ 0 → lastAssistantIndex s = -1 →
  _filterAssistantNoiseChunk chunk ≠ [] →
  totalContent (messages s) + len (_filterAssistantNoiseChunk chunk) ≤ 2000000 →
  messages (_appendAssistantOutput now chunk s)
  = messages s ++ [mkMessage Assistant (_filterAssistantNoiseChunk chunk) now].
Proof.
  intros Hm Hc Hidx Hf Hfit. rewrite appendAssistantOutput_eq by done. cbv zeta.
  assert (Ho : openAssistant s = None).
  { unfold openAssistant. rewrite Hidx. by rewrite decide_True by lia. }
  rewrite Ho. cbn [messages set_messages set_lastAssistantIndex].
  rewrite budget_fits; [done|].
  rewrite totalContent_reverse, totalContent_app. simpl. lia.
Qed.

Lemma ptyWrites_notify a data (subs : list Callback) :
  ptyWrites a ((λ fn, Notify (cb_id fn) data) <$> subs) = [].
Proof. induction subs as [|g l IH]; [done|]. rewrite fmap_cons. exact IH. Qed.

Lemma lookupSession_get sid a s st :
  lookupSession sid st = Some (a, s) → JsMap.get sid (sessions st) = Some a.
Proof.
  unfold lookupSession. destruct (JsMap.get sid (sessions st)) as [b|]; [|done].
  cbn. destruct (objs st !! b); cbn; [|done]. by intros [= -> _].
Qed.

Lemma respectsIO_True : RespectsIO (λ _, True).
Proof. by split. Qed.

Lemma lookupSession_persist sid now st :
  lookupSession sid (_persistRuntimeState now st) = lookupSession sid st.
Proof. unfold lookupSession. by rewrite sessions_persist, objs_persist. Qed.

Lemma pushUserMessage_fields now text s :
  len (messages s) < 2000 →
  let s' := pushUserMessage now text s in
  messages s' = messages s ++ [mkMessage User text now]
  ∧ userMessageCount s' = userMessageCount s + 1
  ∧ lastAssistantIndex s' = -1
  ∧ mode s' = mode s ∧ started s' = started s ∧ agentId s' = agentId s
  ∧ subscribers s' = subscribers s ∧ onData s' = onData s.
Proof.
  intros Hlen. cbv zeta. unfold pushUserMessage. cbv zeta.
  destruct (negb (hasUserMessage (messages s)));
    (rewrite decide_False;
     [by split_and!
     |cbn [messages set_lastAssistantIndex set_title set_userMessageCount set_messages
           _touchSession set_lastActivityAt];
      unfold len in *; rewrite length_app; cbn [length]; lia]).
Qed.

(** X30. One exchange in a chat session.  In a ready chat session (agent
    other than gemini) with room in its transcript, a user message handled
    as the server does -- [recordUserMessage], then [sendChatInput] -- is
    appended to the transcript and written to the process followed by a
    carriage return; the next chunk of output that survives the noise filter
    is appended after it as the assistant's message. *)
Theorem chat_exchange_is_recorded (sid : jsstring) (a : nat) (s : Session)
    (text data : jsstring) (t1 t2 : Z) (st : Manager) :
  lookupSession sid st = Some (a, s) →
  mode s = Chat →
  started s = true →
  agentId s ≠ lit "gemini" →
  0 ≤ userMessageCount s →
  len (messages s) < 2000 →
  _filterAssistantNoiseChunk data ≠ [] →
  totalContent (messages s) + len text + len (_filterAssistantNoiseChunk data) ≤ 2000000 →
  let st1 := run st [(t1, ERecordUserMessage sid text); (t1, ESendChatInput sid text)] in
  let st2 := run st1 [(t2, EPtyData a data)] in
  ptyWrites a (trace st1) = ptyWrites a (trace st) ++ [text ++ [CR]]
  ∧ ptyWrites a (trace st2) = ptyWrites a (trace st1)
  ∧ ∃ s2, lookupSession sid st2 = Some (a, s2)
      ∧ messages s2
        = messages s ++ [mkMessage User text t1;
                         mkMessage Assistant (_filterAssistantNoiseChunk data) t2].
Proof.
  intros Hl Hmode Hst Hag Hcnt Hlen Hf Hfit. cbv zeta.
  destruct (pushUserMessage_fields t1 text s Hlen)
    as (Hms & Hc & Hidx & Hmode1 & Hst1 & Hag1 & _).
  set (sa := pushUserMessage t1 text s) in *.
  set (sta := _persistRuntimeState t1 (updObj a (pushUserMessage t1 text) st)).
  assert (Hla : lookupSession sid sta = Some (a, sa)).
  { subst sta. rewrite lookupSession_persist. by apply lookupSession_updObj. }
  assert (Hreplay : ∀ chunk, _appendTerminalInputReplay chunk sa = sa).
  { intros chunk. unfold _appendTerminalInputReplay. rewrite decide_True; [done|].
    rewrite Hmode1, Hmode. done. }
  set (sb := _touchSession t1 sa).
  set (stb := log (PtyWrite a (text ++ [CR]))
                (updObj a (_touchSession t1)
                   (updObj a (_appendTerminalInputReplay (text ++ [CR])) sta))).
  assert (H1 : run st [(t1, ERecordUserMessage sid text); (t1, ESendChatInput sid text)]
               = stb).
  { cbn [run foldl step fst snd]. unfold recordUserMessage. rewrite Hl. cbn [fst].
    fold sta. unfold sendChatInput. rewrite Hla. cbv zeta. rewrite Hst1, Hst.
    rewrite decide_False by (by rewrite Hag1). done. }
  rewrite H1.
  assert (Hlb : lookupSession sid stb = Some (a, sb)).
  { pose proof (lookupSession_updObj sid a sa (_appendTerminalInputReplay (text ++ [CR]))
                  sta Hla) as H2.
    rewrite Hreplay in H2.
    exact (lookupSession_updObj sid a sa (_touchSession t1) _ H2). }
  pose proof (lookupSession_obj _ _ _ _ Hlb) as Hob.
  split_and!.
  - subst stb. cbn [trace log set_trace updObj set_objs]. rewrite ptyWrites_app.
    subst sta. rewrite (persist_writes a t1). cbn [trace updObj set_objs].
    f_equal. unfold ptyWrites. cbn [omap list_omap]. by rewrite decide_True by done.
  - cbn [run foldl step fst snd]. unfold ptyOnData. rewrite Hob. cbv zeta.
    change (started sb) with (started sa). rewrite Hst1, Hst. cbn [negb andb].
    destruct (onData sb) as [fn|]; cbn [fst invoke log trace set_trace];
      rewrite trace_broadcast; cbn [trace updObj set_objs];
      rewrite !ptyWrites_app, ptyWrites_notify; cbn; by rewrite ?app_nil_r.
  - cbn [run foldl step fst snd].
    destruct (stable_ptyOnData (λ _, True) respectsIO_True a data t2 stb a sb Hob I)
      as (s2 & Hs2 & _).
    exists s2. split.
    + apply lookupSession_intro; [|done]. rewrite sessions_ptyOnData.
      by apply (lookupSession_get sid a sb).
    + unfold ptyOnData in Hs2. rewrite Hob in Hs2. cbv zeta in Hs2.
      change (started sb) with (started sa) in Hs2. rewrite Hst1, Hst in Hs2.
      cbn [negb andb] in Hs2.
      assert (Hobj : ∀ st0 : Manager,
                (match onData sb with
                 | Some fn => invoke fn (CallOnData (cb_id fn) data)
                                (broadcast data (subscribers sb) st0)
                 | None => (broadcast data (subscribers sb) st0, false)
                 end).1.(objs) = objs st0).
      { intros st0. destruct (onData sb); cbn [fst invoke log objs set_trace];
          by rewrite objs_broadcast. }
      rewrite Hobj in Hs2. rewrite !updObj_lookup, Hob in Hs2. cbn in Hs2.
      injection Hs2 as <-. unfold absorbOutput.
      set (s0 := set_outputBuffer _ _).
      assert (Hrep : _appendTerminalOutputReplay data s0 = s0).
      { unfold _appendTerminalOutputReplay. rewrite decide_True; [done|].
        subst s0. cbn. rewrite Hmode1, Hmode. done. }
      rewrite Hrep, first_reply.
      * subst s0. cbn [messages set_outputBuffer _touchSession set_lastActivityAt].
        subst sb. cbn [messages _touchSession set_lastActivityAt].
        by rewrite Hms, <- app_assoc.
      * subst s0 sb. cbn. by rewrite Hmode1.
      * subst s0 sb. cbn. rewrite Hc. lia.
      * subst s0 sb. cbn. exact Hidx.
      * done.
      * subst s0 sb. cbn [messages set_outputBuffer _touchSession set_lastActivityAt].
        rewrite Hms, totalContent_app. cbn. lia.
Qed.

End ChatExchange.

Lemma chat_exchange_is_recorded_witness :
  lookupSession demoSid demoReady = Some (0%nat, demoReadySession)
  ∧ mode demoReadySession = Chat
  ∧ started demoReadySession = true
  ∧ agentId demoReadySession ≠ lit "gemini"
  ∧ 0 ≤ userMessageCount demoReadySession
  ∧ len (messages demoReadySession) < 2000
  ∧ @_filterAssistantNoiseChunk demoOracles (lit "Hi Alice") ≠ []
  ∧ totalContent (messages demoReadySession) + len (lit "hello")
    + len (@_filterAssistantNoiseChunk demoOracles (lit "Hi Alice")) ≤ 2000000
  ∧ ∃ s2,
      lookupSession demoSid
        (@run demoOracles
           (@run demoOracles demoReady
              [(2900, ERecordUserMessage demoSid (lit "hello"));
               (2900, ESendChatInput demoSid (lit "hello"))])
           [(2950, EPtyData 0 (lit "Hi Alice"))])
      = Some (0%nat, s2)
      ∧ messages s2
        = messages demoReadySession
          ++ [mkMessage User (lit "hello") 2900;
              mkMessage Assistant (@_filterAssistantNoiseChunk demoOracles (lit "Hi Alice"))
                2950].
Proof.
  assert (H1 : lookupSession demoSid demoReady = Some (0%nat, demoReadySession))
    by (vm_compute; reflexivity).
  assert (H2 : mode demoReadySession = Chat) by reflexivity.
  assert (H3 : started demoReadySession = true) by reflexivity.
  assert (H4 : agentId demoReadySession ≠ lit "gemini") by (vm_compute; discriminate).
  assert (H5 : 0 ≤ userMessageCount demoReadySession) by (vm_compute; discriminate).
  assert (H6 : len (messages demoReadySession) < 2000) by (vm_compute; reflexivity).
  assert (H7 : @_filterAssistantNoiseChunk demoOracles (lit "Hi Alice") ≠ [])
    by (vm_compute; discriminate).
  assert (H8 : totalContent (messages demoReadySession) + len (lit "hello")
               + len (@_filterAssistantNoiseChunk demoOracles (lit "Hi Alice")) ≤ 2000000)
    by (vm_compute; discriminate).
  split_and!; [exact H1|exact H2|exact H3|exact H4|exact H5|exact H6|exact H7|exact H8|].
  exact (proj2 (proj2 (@chat_exchange_is_recorded demoOracles demoSid 0%nat demoReadySession
                         (lit "hello") (lit "Hi Alice") 2900 2950 demoReady
                         H1 H2 H3 H4 H5 H6 H7 H8))).
Defined.
Section Threshold.
Context `{TextOracles}.

(** ** The idle reaper (C9) *)

(** *** The threshold is fixed by the constructor *)































(** *** One sweep *)




End Threshold.

Section Afterlife.
Context `{TextOracles}.

(** ** A destroyed session *)

Lemma log_writes a e st :
  (∀ d, e ≠ PtyWrite a d) →
  ptyWrites a (trace (log e st)) = ptyWrites a (trace st).
Proof.
  intros He. cbn [log trace set_trace]. rewrite ptyWrites_app.
  destruct e; cbn; rewrite ?app_nil_r; try done.
  case_decide; [|by rewrite app_nil_r]. subst. by destruct (He data).
Qed.

Lemma readHistory_writes a now user st :
  ptyWrites a (trace (_readHistoryForUser now user st).1) = ptyWrites a (trace st).
Proof. by rewrite trace_readHistory. Qed.

Lemma writeHistory_writes a by_ now user l st :
  ptyWrites a (trace (_writeHistoryForUser by_ now user l st)) = ptyWrites a (trace st).
Proof. unfold _writeHistoryForUser. cbv zeta. by rewrite log_writes. Qed.

Lemma foldl_writes {A} a (f : Manager → A → Manager) l :
  (∀ st x, ptyWrites a (trace (f st x)) = ptyWrites a (trace st)) →
  ∀ st, ptyWrites a (trace (foldl f st l)) = ptyWrites a (trace st).
Proof.
  intros Hf. induction l as [|x l IH]; intros st; [done|].
  simpl. by rewrite IH, Hf.
Qed.

Lemma typeNext_writes a b chars st :
  a ≠ b → ptyWrites a (trace (typeNext b chars st)) = ptyWrites a (trace st).
Proof.
  intros Hne. unfold typeNext. destruct chars as [|c chars]; [done|].
  destruct (objs st !! b) as [sb|]; [|done].
  destruct (JsMap.has (sessionId sb) (sessions st)); [|done].
  assert (Hw : ptyWrites a (trace (log (PtyWrite b (concat (take 10 (c :: chars)))) st))
               = ptyWrites a (trace st)).
  { apply log_writes. intros d [= ? _]. done. }
  cbv zeta. by destruct (drop 10 (c :: chars)).
Qed.

Lemma markReady_writes a b now st :
  a ≠ b → ptyWrites a (trace (_markSessionReady b now st)) = ptyWrites a (trace st).
Proof.
  intros Hne. destruct (trace_markReady b now st) as (ws & ->).
  rewrite ptyWrites_app, ptyWrites_other by done. by rewrite app_nil_r.
Qed.

(** An id of the session map does not lead to an object whose own id is
    not in the map. *)
Lemma lookup_other sid a s b sb st :
  wellFormed st →
  objs st !! a = Some s → JsMap.get (sessionId s) (sessions st) = None →
  lookupSession sid st = Some (b, sb) → a ≠ b.
Proof.
  intros (_ & _ & Hobj) Hs Hgone Hl ->.
  apply lookupSession_get, JsMap_get_elem in Hl.
  destruct (Hobj _ Hl) as (s' & Hs' & Hid). cbn [fst snd] in *.
  rewrite Hs in Hs'. injection Hs' as <-.
  apply JsMap_get_None in Hgone. apply Hgone.
  apply list_elem_of_fmap. exists (sid, b). by rewrite Hid.
Qed.

Lemma sendInput_writes a s sid text now st :
  wellFormed st →
  objs st !! a = Some s → JsMap.get (sessionId s) (sessions st) = None →
  ptyWrites a (trace (sendInput sid text now st).1) = ptyWrites a (trace st).
Proof.
  intros Hwf Hs Hgone. unfold sendInput.
  destruct (lookupSession sid st) as [[b sb]|] eqn:Hl; [|done].
  pose proof (lookup_other sid a s b sb st Hwf Hs Hgone Hl) as Hne.
  cbv zeta. destruct (started sb); cbn [fst]; [|done].
  rewrite log_writes; [done|]. intros d [= ? _]. done.
Qed.

Lemma sendChatInput_writes a s sid text now st :
  wellFormed st →
  objs st !! a = Some s → JsMap.get (sessionId s) (sessions st) = None →
  ptyWrites a (trace (sendChatInput sid text now st).1) = ptyWrites a (trace st).
Proof.
  intros Hwf Hs Hgone. unfold sendChatInput.
  destruct (lookupSession sid st) as [[b sb]|] eqn:Hl; [|done].
  pose proof (lookup_other sid a s b sb st Hwf Hs Hgone Hl) as Hne.
  cbv zeta. destruct (started sb); cbn [fst]; [|done].
  case_decide; cbn [fst].
  - unfold _simulateTyping. destruct (text ++ [CR]); [done|].
    by rewrite typeNext_writes.
  - rewrite log_writes; [done|]. intros d [= ? _]. done.
Qed.

Lemma saveHistory_writes a b now st :
  ptyWrites a (trace (_saveHistory b now st)) = ptyWrites a (trace st).
Proof.
  destruct (objs st !! b) as [sb|] eqn:Hb; [|unfold _saveHistory; by rewrite Hb].
  destruct (saveHistory_trace b sb now st Hb) as (items & ->).
  rewrite ptyWrites_app. destruct (_historySaved sb); [by rewrite app_nil_r|].
  case_decide; cbn; by rewrite app_nil_r.
Qed.

Lemma unregister_writes a user sid now st :
  ptyWrites a (trace (unregister user sid now st)) = ptyWrites a (trace st).
Proof.
  unfold unregister. rewrite persist_writes, trace_markEnded. by case_match.
Qed.

Lemma ptyOnExit_writes a b code signal now st :
  ptyWrites a (trace (ptyOnExit b code signal now st).1) = ptyWrites a (trace st).
Proof.
  unfold ptyOnExit. destruct (objs st !! b) as [sb|]; [|done]. cbv zeta.
  assert (Hst : ptyWrites a (trace (unregister (username sb) (sessionId sb) now
                   (_saveHistory b now (clearReadyFallback b st))))
                = ptyWrites a (trace st)).
  { by rewrite unregister_writes, saveHistory_writes, clearReadyFallback_trace. }
  destruct (onExit sb); [|done]. unfold invoke. cbn [fst].
  by rewrite log_writes.
Qed.

Lemma ptyOnData_writes a s b data now st :
  objs st !! a = Some s →
  (b = a → started s = true) →
  ptyWrites a (trace (ptyOnData b data now st).1) = ptyWrites a (trace st).
Proof.
  intros Hs Hst. destruct (objs st !! b) as [sb|] eqn:Hb;
    [|unfold ptyOnData; by rewrite Hb].
  destruct (decide (b = a)) as [->|Hne].
  - rewrite Hs in Hb. injection Hb as <-. unfold ptyOnData. rewrite Hs, (Hst eq_refl).
    cbn [negb andb]. cbv zeta.
    destruct (onData s); unfold invoke; cbn [fst]; rewrite ?log_writes by done;
      by rewrite trace_broadcast, ptyWrites_app, ptyWrites_notify, app_nil_r.
  - destruct (ptyOnData_trace b sb data now st Hb) as (ws & -> & _).
    rewrite !ptyWrites_app, ptyWrites_other, ptyWrites_notify by done.
    destruct (onData sb); by rewrite !app_nil_r.
Qed.

Lemma createSession_writes a user agent model mode_ od oe now st :
  ptyWrites a (trace (createSession user agent model mode_ od oe now st).1)
  = ptyWrites a (trace st).
Proof.
  destruct (agents st !! agent) as [ag|] eqn:Hag;
    [|unfold createSession; by rewrite Hag].
  destruct (createSession_fields user agent model mode_ od oe now st ag Hag)
    as (s & _ & _ & _ & _ & _ & Htr & _).
  cbv zeta in Htr. rewrite Htr, ptyWrites_app. cbn. by rewrite app_nil_r.
Qed.

Lemma setSessionTitle_writes a user sid title_ now st :
  ptyWrites a (trace (setSessionTitle user sid title_ now st)) = ptyWrites a (trace st).
Proof.
  unfold setSessionTitle.
  set (st1 := match lookupSession sid st with Some _ => _ | None => _ end).
  assert (H1 : ptyWrites a (trace st1) = ptyWrites a (trace st)).
  { subst st1. repeat case_match; rewrite ?persist_writes; done. }
  pose proof (trace_readHistory now user st1) as Hread.
  destruct (_readHistoryForUser now user st1) as [st2 history]. simpl in Hread.
  repeat case_match; rewrite ?writeHistory_writes, ?Hread; done.
Qed.

Lemma deleteSessionHistory_writes a user sid now st :
  ptyWrites a (trace (deleteSessionHistory user sid now st)) = ptyWrites a (trace st).
Proof.
  unfold deleteSessionHistory.
  pose proof (trace_readHistory now user st) as Hread.
  destruct (_readHistoryForUser now user st) as [st2 history]. simpl in Hread.
  cbv zeta. case_match; rewrite ?log_writes by done; cbn [trace set_transcriptFiles];
    by rewrite writeHistory_writes, Hread.
Qed.

Lemma cleanup_writes a now st :
  ptyWrites a (trace (_cleanupInactiveSessions now st)) = ptyWrites a (trace st).
Proof.
  unfold _cleanupInactiveSessions. repeat case_match; try done.
  apply foldl_writes. intros st0 sid. unfold reap. cbv zeta.
  repeat case_match; rewrite ?trace_markEnded, ?destroySession_writes; done.
Qed.

(** No event writes to the process of an object whose id has left the
    session map, except output of that process that makes it ready. *)
Lemma step_writes a s st (e : Z * Event) :
  wellFormed st →
  objs st !! a = Some s → JsMap.get (sessionId s) (sessions st) = None →
  (outputOf a e → started s = true) →
  ptyWrites a (trace (step st e)) = ptyWrites a (trace st).
Proof.
  intros Hwf Hs Hgone Hout. destruct e as [now ev]. unfold step. cbn [fst snd].
  destruct ev.
  - apply createSession_writes.
  - apply destroySession_writes.
  - apply foldl_writes. intros. apply destroySession_writes.
  - unfold destroyAll. cbv zeta. rewrite persist_writes.
    rewrite foldl_writes; [done|]. intros. apply destroySession_writes.
  - by apply (sendInput_writes a s).
  - by apply (sendChatInput_writes a s).
  - unfold recordUserMessage. repeat case_match; cbn [fst]; rewrite ?persist_writes; done.
  - unfold addFile. repeat case_match; rewrite ?persist_writes; done.
  - unfold addSubscriber. repeat case_match; done.
  - unfold removeSubscriber. repeat case_match; done.
  - unfold resize. repeat case_match; rewrite ?log_writes; done.
  - apply setSessionTitle_writes.
  - apply deleteSessionHistory_writes.
  - unfold getUserSessionHistory.
    pose proof (trace_readHistory now user st) as Hread.
    destruct (_readHistoryForUser now user st) as [st2 history]. simpl in Hread.
    cbn [fst]. by rewrite Hread.
  - apply (ptyOnData_writes a s); [done|]. intros ->. by apply Hout.
  - apply ptyOnExit_writes.
  - apply (fireTimer_writes a s); [done|]. unfold JsMap.has. by rewrite Hgone.
  - case_match; [apply cleanup_writes|done].
Qed.

(** An id that is not in the session map stays out of it unless a session
    is created under it. *)
Lemma gone_step sid st (e : Z * Event) :
  JsMap.get sid (sessions st) = None → ¬ createsId sid e →
  JsMap.get sid (sessions (step st e)) = None.
Proof.
  intros Hgone Hnew.
  assert (Hkeep : keepsSessions st (step st e) →
            JsMap.get sid (sessions (step st e)) = None).
  { intros [Hsub _]. apply JsMap_get_None. apply JsMap_get_None in Hgone.
    intros Hin. apply Hgone. eapply elem_of_sublist; [exact Hin|].
    by apply fmap_sublist. }
  destruct e as [now ev].
  destruct ev as [user agent model mode_ od oe| | | | | | | | | | | | | | | | |];
    try (apply Hkeep, keeps_step; exact I).
  destruct (agents st !! agent) as [ag|] eqn:Hag; [|by apply Hkeep, keeps_step].
  destruct (createSession_fields user agent model mode_ od oe now st ag Hag)
    as (s & _ & Hsess & _).
  cbv zeta in Hsess. unfold step. cbn [fst snd]. rewrite Hsess, JsMap_get_set.
  rewrite decide_False; [done|]. intros ->. by apply Hnew.
Qed.

Lemma gone_run a sid s (es : list (Z * Event)) : ∀ st s0,
  wellFormed st →
  JsMap.get sid (sessions st) = None →
  objs st !! a = Some s0 → laterOf s s0 → sessionId s = sid →
  Forall (λ e, ¬ createsId sid e ∧ (outputOf a e → started s = true)) es →
  ptyWrites a (trace (run st es)) = ptyWrites a (trace st).
Proof.
  induction es as [|e es IH]; intros st s0 Hwf Hgone Hs0 Hlater Hsid Hes; [done|].
  apply Forall_cons in Hes as [[Hnew Hout] Hes].
  cbn [run foldl].
  pose proof Hlater as [(Hid0 & _) Hready].
  destruct (stable_step (laterOf s) (respectsIO_laterOf s) st e (laterOf_event s e)
              a s0 Hs0 Hlater) as (s1 & Hs1 & Hlater1).
  rewrite <- (step_writes a s0 st e Hwf Hs0).
  - apply (IH (step st e) s1); try done; [by apply wellFormed_step|by apply gone_step].
  - by rewrite Hid0, Hsid.
  - intros Ho. apply Hready. by apply Hout.
Qed.

(** X22. A destroyed session is left alone.  Once [destroySession] has
    removed a session of a well-formed manager, nothing that happens later
    writes to its process: no operation on the manager, no timer that is
    still pending (the delayed start command, the readiness fallback, the
    batches of a simulated typing), no output or exit of any process, no
    idle sweep.  Two events are excepted.  A [createSession] call that makes
    a session under the same id: the timers of the destroyed session test
    the id and then write to the old process.  And, if the session was not
    ready when it was destroyed, output of its own process: a late prompt
    makes it ready and flushes its queue. *)
Theorem destroyed_session_is_left_alone (sid : jsstring) (a : nat) (s : Session)
    (now : Z) (st : Manager) (es : list (Z * Event)) :
  wellFormed st →
  lookupSession sid st = Some (a, s) →
  Forall (λ e, ¬ createsId sid e ∧ (outputOf a e → started s = true)) es →
  ptyWrites a (trace (run (destroySession sid now st) es)) = ptyWrites a (trace st).
Proof.
  intros Hwf Hl Hes.
  assert (Hsid : sessionId s = sid).
  { destruct Hwf as (_ & _ & Hobj).
    pose proof (lookupSession_get _ _ _ _ Hl) as Hget. apply JsMap_get_elem in Hget.
    destruct (Hobj _ Hget) as (s' & Hs' & Hid). cbn [fst snd] in *.
    apply lookupSession_obj in Hl. rewrite Hl in Hs'. by injection Hs' as <-. }
  rewrite <- (destroySession_writes a sid now st).
  assert (Hgone : JsMap.get sid (sessions (destroySession sid now st)) = None).
  { unfold destroySession. rewrite Hl. rewrite sessions_unregister.
    by rewrite JsMap_get_delete. }
  assert (Hwf1 : wellFormed (destroySession sid now st)).
  { apply (wellFormed_step st (now, EDestroySession sid) Hwf). }
  destruct (stable_destroySession (laterOf s) (respectsIO_laterOf s) sid now st a s)
    as (s0 & Hs0 & Hlater0); [by eapply lookupSession_obj|apply laterOf_refl|].
  by apply (gone_run a sid s es _ s0).
Qed.

End Afterlife.

Lemma destroyed_session_is_left_alone_witness :
  wellFormed demoCreated
  ∧ lookupSession demoSid demoCreated = Some (0%nat, demoSession)
  ∧ Forall (λ e, ¬ createsId demoSid e ∧ (outputOf 0 e → started demoSession = true))
      demoAfterwards
  ∧ ptyWrites 0 (trace (@run demoOracles (destroySession demoSid 2200 demoCreated)
                          demoAfterwards))
    = ptyWrites 0 (trace demoCreated).
Proof.
  assert (H1 : wellFormed demoCreated).
  { assert (Hsess : sessions demoCreated = [(demoSid, 0%nat)]) by (vm_compute; reflexivity).
    unfold wellFormed. rewrite Hsess. split_and!.
    - apply NoDup_singleton.
    - apply NoDup_singleton.
    - intros p Hp. apply list_elem_of_singleton in Hp as ->.
      exists demoSession. split; [vm_compute; reflexivity|reflexivity]. }
  assert (H2 : lookupSession demoSid demoCreated = Some (0%nat, demoSession))
    by (vm_compute; reflexivity).
  assert (H3 : Forall (λ e, ¬ createsId demoSid e
                            ∧ (outputOf 0 e → started demoSession = true))
                 demoAfterwards).
  { unfold demoAfterwards.
    repeat (apply Forall_cons; split;
            [split; [vm_compute; try tauto; discriminate|vm_compute; try tauto; discriminate]|]).
    constructor. }
  split_and!; [exact H1|exact H2|exact H3|].
  exact (@destroyed_session_is_left_alone demoOracles demoSid 0%nat demoSession 2200
           demoCreated demoAfterwards H1 H2 H3).
Defined.

(** The start-command timer of a destroyed session writes to the old
    process when a session has been created again under the same id: Alice
    destroys her session and starts it again within the millisecond, and the
    timer set by the first [createSession] then writes the start command to
    the first, killed process. *)
Example timer_writes_to_destroyed_process_after_recreation :
  let st := @run demoOracles (destroySession demoSid 2000 demoCreated)
              [ (2000, ECreateSession (lit "alice") (lit "codex") None None None None);
                (2500, ETimer 0%nat) ] in
  ptyWrites 0 (trace demoCreated) = []
  ∧ kills (trace st) = [0%nat]
  ∧ lookupSession demoSid st ≠ None
  ∧ ptyWrites 0 (trace st) = [lit "codex" ++ [CR]].
Proof. vm_compute. split_and!; done. Qed.
Section Waiting.
Context `{TextOracles}.

(** ** Queueing before readiness (C1) *)

(** *** What leaves a waiting session alone *)

Lemma waits_refl a st : waits a st st.
Proof. split_and!; eauto. Qed.

Lemma waits_trans a st1 st2 st3 : waits a st1 st2 → waits a st2 st3 → waits a st1 st3.
Proof.
  intros (Hs12 & Ho12 & Hw12 & Ht12) (Hs23 & Ho23 & Hw23 & Ht23). split_and!.
  - congruence.
  - intros s Hs. destruct (Ho12 s Hs) as (s2 & Hs2 & Hq2 & Hst2).
    destruct (Ho23 s2 Hs2) as (s3 & Hs3 & Hq3 & Hst3).
    exists s3. split_and!; [done|congruence..].
  - congruence.
  - intros id t Ht Hown. auto.
Qed.

Lemma waits_same a st st' :
  sessions st' = sessions st → objs st' = objs st → trace st' = trace st →
  timers st' = timers st → waits a st st'.
Proof.
  intros Hs Ho Htr Ht. split_and!; [done| |by rewrite Htr|by rewrite Ht].
  intros s Hs'. rewrite Ho. eauto.
Qed.

Lemma waits_log a e st : (∀ d, e ≠ PtyWrite a d) → waits a st (log e st).
Proof.
  intros He. split_and!; [done|by eauto|by apply log_writes|done].
Qed.

Lemma waits_updObj_ne a b f st : b ≠ a → waits a st (updObj b f st).
Proof.
  intros Hne. split_and!; [done| |done|done].
  intros s Hs. exists s. by rewrite updObj_lookup_ne.
Qed.

Lemma waits_updObj a b f st :
  (∀ x, pendingInputs (f x) = pendingInputs x ∧ started (f x) = started x) →
  waits a st (updObj b f st).
Proof.
  intros Hf. destruct (decide (b = a)) as [->|Hne]; [|by apply waits_updObj_ne].
  split_and!; [done| |done|done].
  intros s Hs. exists (f s). rewrite updObj_lookup, Hs. destruct (Hf s). done.
Qed.

Lemma waits_setTimeout a t st : ¬ ownTimer a t → waits a st (setTimeout t st).1.
Proof.
  intros Hown. split_and!; [done|by eauto|done|].
  intros id t' Ht' Hown'. cbn in Ht'.
  destruct (decide (id = nextTimerId st)) as [->|Hne].
  - rewrite lookup_insert_eq in Ht'. by injection Ht' as <-.
  - by rewrite lookup_insert_ne in Ht'.
Qed.

Lemma waits_clearTimeout a id st : waits a st (clearTimeout id st).
Proof.
  split_and!; [done|by eauto|done|].
  intros id' t Ht _. cbn in Ht. by apply lookup_delete_Some in Ht as [_ Ht].
Qed.

Lemma waits_persist a now st : waits a st (_persistRuntimeState now st).
Proof.
  destruct (persist_fields now st) as (_ & _ & _ & _ & _ & Ht & _).
  split_and!; [apply sessions_persist| |apply persist_writes|by rewrite Ht].
  intros s Hs. rewrite objs_persist. eauto.
Qed.

Lemma waits_broadcast a data subs st : waits a st (broadcast data subs st).
Proof.
  destruct (broadcast_fields data subs st) as (Ht & Hs & _).
  split_and!; [done| | |by rewrite Ht].
  - intros s Hs'. rewrite objs_broadcast. eauto.
  - by rewrite trace_broadcast, ptyWrites_app, ptyWrites_notify, app_nil_r.
Qed.

(** Peel the outermost state transformer off the goal. *)
Ltac idle :=
  lazymatch goal with
  | |- waits _ ?st ?st => apply waits_refl
  | |- waits _ _ (log _ ?x) =>
      apply (waits_trans _ _ x); [|apply waits_log; try done; by intros ? [= ? ?]]
  | |- waits _ _ (updObj _ _ ?x) =>
      apply (waits_trans _ _ x);
        [|first [by apply waits_updObj_ne | apply waits_updObj; try done]]
  | |- waits _ _ (clearTimeout _ ?x) =>
      apply (waits_trans _ _ x); [|apply waits_clearTimeout]
  | |- waits _ _ (setTimeout _ ?x).1 =>
      apply (waits_trans _ _ x); [|apply waits_setTimeout; cbn; tauto]
  | |- waits _ _ (_persistRuntimeState _ ?x) =>
      apply (waits_trans _ _ x); [|apply waits_persist]
  | |- waits _ _ (broadcast _ _ ?x) =>
      apply (waits_trans _ _ x); [|apply waits_broadcast]
  | |- waits _ _ (invoke _ _ ?x).1 =>
      apply (waits_trans _ _ x); [|by apply waits_log]
  end.

Lemma waits_clearReadyFallback a b st : waits a st (clearReadyFallback b st).
Proof.
  unfold clearReadyFallback. repeat case_match; repeat idle.
Qed.

Lemma waits_foldl {A} a (f : Manager → A → Manager) l :
  (∀ st x, waits a st (f st x)) → ∀ st, waits a st (foldl f st l).
Proof.
  intros Hf. induction l as [|x l IH]; intros st; [apply waits_refl|].
  simpl. eapply waits_trans; [apply Hf|apply IH].
Qed.

Lemma waits_flush a b now st : b ≠ a → waits a st (_flushPendingInputs b now st).
Proof.
  intros Hne. unfold _flushPendingInputs. repeat case_match; try apply waits_refl.
  apply (waits_trans _ _ (updObj b (set_pendingInputs []) st)); [repeat idle|].
  apply waits_foldl. intros. repeat idle.
Qed.

Lemma waits_markReady a b now st : b ≠ a → waits a st (_markSessionReady b now st).
Proof.
  intros Hne. unfold _markSessionReady. repeat case_match; try apply waits_refl.
  eapply waits_trans; [|by apply waits_flush].
  eapply waits_trans; [|apply waits_clearReadyFallback]. repeat idle.
Qed.

Lemma waits_typeNext a b chars st : b ≠ a → waits a st (typeNext b chars st).
Proof. intros Hne. unfold typeNext. repeat case_match; repeat idle. Qed.

Lemma waits_startCommandTimer a b ag model st :
  b ≠ a → waits a st (startCommandTimer b ag model st).
Proof.
  intros Hne. unfold startCommandTimer, setTimeout. cbn [fst snd].
  repeat case_match; try apply waits_refl.
  set (st1 := log (PtyWrite b (_buildStartCommand ag model ++ [CR]))
                (updObj b (set__startCommandSent true) st)).
  idle. change (set_nextTimerId _ _) with (setTimeout (TReadyFallback b) st1).1.
  subst st1. repeat idle.
Qed.

(** *** One event *)

Lemma waits_lookup sid a s st st' :
  waits a st st' → lookupSession sid st = Some (a, s) →
  ∃ s', lookupSession sid st' = Some (a, s')
        ∧ pendingInputs s' = pendingInputs s ∧ started s' = started s.
Proof.
  intros (Hsess & Hobj & _) Hl.
  destruct (Hobj s (lookupSession_obj _ _ _ _ Hl)) as (s' & Hs' & Hq & Hst).
  exists s'. split; [|done]. apply lookupSession_intro; [|done].
  rewrite Hsess. by eapply lookupSession_get.
Qed.

Lemma waits_step sid a s st (e : Z * Event) :
  waits a st (step st e) → inputsTo sid [e] = [] →
  lookupSession sid st = Some (a, s) → started s = false →
  waitingStep sid a s st e (step st e).
Proof.
  intros Hw Hin Hl Hst. destruct (waits_lookup sid a s st _ Hw Hl) as (s' & Hl' & Hq & Hst').
  exists s'. split; [done|]. right. rewrite Hin. split_and!; [congruence|done| |].
  - exists []. rewrite app_nil_r. split; [|constructor]. by destruct Hw as (_ & _ & ? & _).
  - by destruct Hw as (_ & _ & _ & ?).
Qed.

Lemma other_session sid sid' a s b sb st :
  wellFormed st →
  lookupSession sid st = Some (a, s) → lookupSession sid' st = Some (b, sb) →
  sid' ≠ sid → b ≠ a.
Proof.
  intros (_ & Hv & _) Hl Hl' Hne ->. apply Hne.
  apply lookupSession_get, JsMap_get_elem in Hl, Hl'.
  by apply (snd_inj_elem sid' sid a (sessions st)).
Qed.

Lemma pushUserMessage_queue now text s :
  pendingInputs (pushUserMessage now text s) = pendingInputs s
  ∧ started (pushUserMessage now text s) = started s.
Proof.
  unfold pushUserMessage. cbv zeta.
  destruct (negb (hasUserMessage (messages s))); case_match; done.
Qed.

Lemma absorbOutput_queue now data s :
  pendingInputs (absorbOutput now data s) = pendingInputs s
  ∧ started (absorbOutput now data s) = started s.
Proof.
  unfold absorbOutput. cbv zeta.
  set (s0 := set_outputBuffer _ s).
  destruct (outputReplay_footprint data s0) as (b & ->).
  destruct (assistantOutput_footprint now data (set_terminalReplayBuffer b s0))
    as (t & ms & idx & cnt & ->). done.
Qed.

Lemma replay_queue chunk s :
  pendingInputs (_appendTerminalInputReplay chunk s) = pendingInputs s
  ∧ started (_appendTerminalInputReplay chunk s) = started s.
Proof. by destruct (replay_footprint chunk s) as (b & l & ->). Qed.

Lemma waits_sendInput_other sid' a b sb text now st :
  lookupSession sid' st = Some (b, sb) → b ≠ a →
  waits a st (sendInput sid' text now st).1.
Proof.
  intros Hl Hne. unfold sendInput. rewrite Hl. cbv zeta.
  destruct (started sb); cbn [fst]; repeat idle.
Qed.

Lemma waits_sendChatInput_other sid' a b sb text now st :
  lookupSession sid' st = Some (b, sb) → b ≠ a →
  waits a st (sendChatInput sid' text now st).1.
Proof.
  intros Hl Hne. unfold sendChatInput. rewrite Hl. cbv zeta.
  destruct (started sb); cbn [fst]; [|repeat idle].
  case_decide; cbn [fst]; [|repeat idle].
  unfold _simulateTyping. destruct (text ++ [CR]); [repeat idle|].
  eapply waits_trans; [|by apply waits_typeNext]. repeat idle.
Qed.

Lemma ptyWrites_writes a ws : ptyWrites a (PtyWrite a <$> ws) = ws.
Proof.
  induction ws as [|w ws IH]; [done|].
  rewrite fmap_cons. unfold ptyWrites in *. cbn [omap list_omap].
  rewrite decide_True by done. cbn. by rewrite IH.
Qed.

(** Output of the waiting session's own process that does not make it
    ready. *)
Lemma waits_ptyOnData_own a s data now st :
  objs st !! a = Some s →
  negb (started s) && _startCommandSent s && _isSessionReadySignal data = false →
  waits a st (ptyOnData a data now st).1.
Proof.
  intros Hs Hno. unfold ptyOnData. rewrite Hs, Hno. cbv zeta.
  destruct (onData s); cbn [fst]; repeat idle; intros x; apply absorbOutput_queue.
Qed.

Lemma waits_ptyOnData_other a b data now st :
  b ≠ a → waits a st (ptyOnData b data now st).1.
Proof.
  intros Hne. unfold ptyOnData. destruct (objs st !! b) as [sb|]; [|apply waits_refl].
  cbv zeta. assert (Hst : waits a st
    (if negb (started sb) && _startCommandSent sb && _isSessionReadySignal data
     then _markSessionReady b now (updObj b (_touchSession now) st)
     else updObj b (_touchSession now) st)).
  { case_match; [eapply waits_trans; [|by apply waits_markReady]|]; repeat idle. }
  destruct (onData sb); cbn [fst]; repeat idle; exact Hst.
Qed.

(** The session becomes ready: it is still in the map, ready, and its
    queue has been written to its process and is empty. *)
Lemma markReady_lookup sid a s now st :
  lookupSession sid st = Some (a, s) → started s = false →
  trace (_markSessionReady a now st) = trace st ++ (PtyWrite a <$> pendingInputs s)
  ∧ ∃ s', lookupSession sid (_markSessionReady a now st) = Some (a, s')
      ∧ started s' = true ∧ pendingInputs s' = [].
Proof.
  intros Hl Hst. pose proof (lookupSession_obj _ _ _ _ Hl) as Hs.
  split; [by apply markReady_trace|].
  destruct (markReady_obj a s now st Hs Hst) as (s' & Hs' & Hst' & Hq').
  exists s'. split; [|done]. apply lookupSession_intro; [|done].
  rewrite sessions_markReady. by eapply lookupSession_get.
Qed.

Lemma waiting_step sid a s st (e : Z * Event) :
  wellFormed st →
  lookupSession sid st = Some (a, s) → started s = false →
  noTyping a st → ongoing e →
  waitingStep sid a s st e (step st e).
Proof.
  intros Hwf Hl Hst Hty Hon. pose proof (lookupSession_obj _ _ _ _ Hl) as Hs.
  destruct e as [now ev]. destruct ev; try done; clear Hon.
  - (* sendInput *)
    destruct (decide (sid0 = sid)) as [->|Hne].
    + destruct (queued_step sid a s text now st Hl Hst) as (s' & Hl' & _ & Htr & Hst' & Hq).
      exists s'. split; [exact Hl'|]. right.
      unfold inputsTo. cbn [omap list_omap snd]. rewrite decide_True by done. cbn.
      split_and!; [done|done| |].
      * exists []. unfold step. cbn [fst snd]. rewrite Htr, app_nil_r. split; [done|constructor].
      * unfold step, sendInput. cbn [fst snd]. rewrite Hl, Hst. cbn. auto.
    + apply waits_step; [|unfold inputsTo; cbn; by rewrite decide_False|done|done].
      unfold step. cbn [fst snd].
      destruct (lookupSession sid0 st) as [[b sb]|] eqn:Hl0.
      * eapply waits_sendInput_other; [done|]. by eapply other_session.
      * unfold sendInput. rewrite Hl0. apply waits_refl.
  - (* sendChatInput *)
    destruct (decide (sid0 = sid)) as [->|Hne].
    + destruct (queued_chat_step sid a s text now st Hl Hst)
        as (s' & Hl' & _ & Htr & Hst' & Hq).
      exists s'. split; [exact Hl'|]. right.
      unfold inputsTo. cbn [omap list_omap snd]. rewrite decide_True by done. cbn.
      split_and!; [done|done| |].
      * exists []. unfold step. cbn [fst snd]. rewrite Htr, app_nil_r. split; [done|constructor].
      * unfold step, sendChatInput. cbn [fst snd]. rewrite Hl, Hst. cbn. auto.
    + apply waits_step; [|unfold inputsTo; cbn; by rewrite decide_False|done|done].
      unfold step. cbn [fst snd].
      destruct (lookupSession sid0 st) as [[b sb]|] eqn:Hl0.
      * eapply waits_sendChatInput_other; [done|]. by eapply other_session.
      * unfold sendChatInput. rewrite Hl0. apply waits_refl.
  - (* recordUserMessage *)
    apply waits_step; [|done..]. unfold step, recordUserMessage. cbn [fst snd].
    repeat case_match; cbn [fst]; repeat idle. intros x. apply pushUserMessage_queue.
  - (* addFile *)
    apply waits_step; [|done..]. unfold step, addFile. cbn [fst snd].
    repeat case_match; repeat idle.
  - (* addSubscriber *)
    apply waits_step; [|done..]. unfold step, addSubscriber. cbn [fst snd].
    repeat case_match; repeat idle. intros x. unfold subscribe. by case_match.
  - (* removeSubscriber *)
    apply waits_step; [|done..]. unfold step, removeSubscriber. cbn [fst snd].
    repeat case_match; repeat idle.
  - (* resize *)
    apply waits_step; [|done..]. unfold step, resize. cbn [fst snd].
    repeat case_match; repeat idle.
  - (* output *)
    destruct (decide (a0 = a)) as [->|Hne].
    2:{ apply waits_step; [|done..]. by apply waits_ptyOnData_other. }
    destruct (negb (started s) && _startCommandSent s && _isSessionReadySignal data)
      eqn:Hready.
    2:{ apply waits_step; [|done..]. by apply (waits_ptyOnData_own a s). }
    unfold step, ptyOnData. cbn [fst snd]. rewrite Hs, Hready. cbv zeta.
    destruct (markReady_lookup sid a (_touchSession now s) now
                (updObj a (_touchSession now) st))
      as (_ & s1 & Hl1 & Hst1 & _); [by apply lookupSession_updObj|done|].
    set (st1 := _markSessionReady a now (updObj a (_touchSession now) st)) in *.
    assert (Hw : waits a st1
              (match onData s with
               | Some fn =>
                   invoke fn (CallOnData (cb_id fn) data)
                     (broadcast data (subscribers s)
                        (updObj a (absorbOutput now data) st1))
               | None =>
                   (broadcast data (subscribers s)
                      (updObj a (absorbOutput now data) st1), false)
               end).1).
    { destruct (onData s); cbn [fst]; repeat idle; intros x; apply absorbOutput_queue. }
    destruct (waits_lookup sid a s1 st1 _ Hw Hl1) as (s2 & Hl2 & _ & Hst2).
    exists s2. split; [exact Hl2|]. left. congruence.
  - (* timers *)
    destruct (timers st !! id) as [[b ag model|b|b chars]|] eqn:Hid.
    + destruct (decide (b = a)) as [->|Hne].
      2:{ apply waits_step; [|done..]. unfold step, fireTimer. cbn [fst snd]. rewrite Hid.
          eapply waits_trans; [|by apply waits_startCommandTimer]. repeat idle. }
      assert (Hhas : JsMap.has (sessionId s) (sessions (clearTimeout id st)) = true).
      { destruct Hwf as (_ & _ & Hobj).
        pose proof (lookupSession_get _ _ _ _ Hl) as Hget.
        destruct (Hobj _ (JsMap_get_elem _ _ _ Hget)) as (s' & Hs' & Hid').
        cbn [fst snd] in *. rewrite Hs in Hs'. injection Hs' as <-. rewrite Hid'.
        by eapply lookupSession_has. }
      destruct (startCommandTimer_fields a ag model (clearTimeout id st) s Hs Hhas)
        as (Hs' & Hsess & Htm & _ & Htr).
      cbv zeta in *. unfold waitingStep, step, fireTimer. cbn [fst snd]. rewrite Hid.
      eexists. split.
      { apply lookupSession_intro; [|exact Hs']. rewrite Hsess.
        by eapply lookupSession_get. }
      right. split_and!; [done|done| |].
      * exists [_buildStartCommand ag model ++ [CR]]. rewrite Htr, ptyWrites_app. split.
        { cbn. by rewrite decide_True. }
        apply Forall_singleton. exists now, id, ag, model.
        split_and!; [by left|done|done].
      * intros id' t Ht Hown. rewrite Htm in Ht.
        destruct (decide (id' = nextTimerId (clearTimeout id st))) as [->|Hne'].
        { rewrite lookup_insert_eq in Ht. injection Ht as <-. done. }
        rewrite lookup_insert_ne in Ht by done. cbn in Ht.
        by apply lookup_delete_Some in Ht as [_ Ht].
    + destruct (decide (b = a)) as [->|Hne].
      2:{ apply waits_step; [|done..]. unfold step, fireTimer. cbn [fst snd]. rewrite Hid.
          unfold readyFallbackTimer. repeat case_match; try (repeat idle).
          eapply waits_trans; [|by apply waits_markReady]. repeat idle. }
      unfold waitingStep, step, fireTimer. cbn [fst snd]. rewrite Hid.
      unfold readyFallbackTimer. cbn [clearTimeout objs sessions set_timers].
      rewrite Hs.
      assert (Hhas : JsMap.has (sessionId s) (sessions st) = true).
      { destruct Hwf as (_ & _ & Hobj).
        pose proof (lookupSession_get _ _ _ _ Hl) as Hget.
        destruct (Hobj _ (JsMap_get_elem _ _ _ Hget)) as (s' & Hs' & Hid').
        cbn [fst snd] in *. rewrite Hs in Hs'. injection Hs' as <-. rewrite Hid'.
        by eapply lookupSession_has. }
      rewrite Hhas.
      destruct (markReady_lookup sid a s now (clearTimeout id st))
        as (_ & s1 & Hl1 & Hst1 & _); [done|done|].
      exists s1. split; [exact Hl1|]. by left.
    + destruct (decide (b = a)) as [->|Hne]; [by destruct (Hty id chars)|].
      apply waits_step; [|done..]. unfold step, fireTimer. cbn [fst snd]. rewrite Hid.
      eapply waits_trans; [|by apply waits_typeNext]. repeat idle.
    + apply waits_step; [|done..]. unfold step, fireTimer. cbn [fst snd]. rewrite Hid.
      apply waits_refl.
Qed.

(** *** The queue *)

Lemma queueLength_small n : n ≤ 200 → queueLength n = n.
Proof. intros Hn. unfold queueLength. by rewrite decide_True. Qed.

Lemma queueLength_bound n : 0 ≤ n → 0 ≤ queueLength n ≤ 200 ∧ (0 < n → 0 < queueLength n).
Proof.
  intros Hn. unfold queueLength.
  pose proof (Z.mod_pos_bound (n - 201) 81 ltac:(lia)) as B1.
  case_decide; lia.
Qed.

Lemma queueLength_succ n :
  0 ≤ n →
  queueLength (n + 1) = if decide (200 < queueLength n + 1) then 120 else queueLength n + 1.
Proof.
  intros Hn. unfold queueLength.
  pose proof (Z.div_mod (n - 201) 81 ltac:(lia)) as E1.
  pose proof (Z.mod_pos_bound (n - 201) 81 ltac:(lia)) as B1.
  pose proof (Z.div_mod (n + 1 - 201) 81 ltac:(lia)) as E2.
  pose proof (Z.mod_pos_bound (n + 1 - 201) 81 ltac:(lia)) as B2.
  repeat case_decide; lia.
Qed.

Lemma sliceLast_exact {A} n (l : list A) : 0 ≤ n ≤ len l → len (sliceLast n l) = n.
Proof. intros Hn. unfold sliceLast, len in *. rewrite length_drop. lia. Qed.

Lemma enqueue_length text s n :
  0 ≤ n → len (pendingInputs s) = queueLength n →
  len (pendingInputs (enqueuePending text s)) = queueLength (n + 1).
Proof.
  intros Hn Hlen. rewrite queueLength_succ by done. rewrite <- Hlen.
  unfold enqueuePending. cbv zeta. cbn [pendingInputs set_pendingInputs].
  assert (Hq : len (pendingInputs s ++ [text]) = len (pendingInputs s) + 1).
  { unfold len. rewrite length_app. cbn. lia. }
  rewrite Hq. case_decide; [|done]. apply sliceLast_exact. lia.
Qed.

Lemma enqueue_suffix text s :
  pendingInputs (enqueuePending text s) `suffix_of` pendingInputs s ++ [text].
Proof.
  unfold enqueuePending. cbv zeta. cbn [pendingInputs set_pendingInputs].
  case_decide; [apply sliceLast_suffix|done].
Qed.

Lemma inputsTo_cons sid e es : inputsTo sid (e :: es) = inputsTo sid [e] ++ inputsTo sid es.
Proof. unfold inputsTo. cbn [omap list_omap]. by case_match. Qed.

Lemma inputsTo_one sid e :
  inputsTo sid [e] = [] ∨ ∃ text, inputsTo sid [e] = [text].
Proof. unfold inputsTo. cbn [omap list_omap]. case_match; eauto. Qed.

Lemma inputsTo_calls sid calls :
  inputsTo sid (inputEvent sid <$> calls) = submittedText ∘ snd <$> calls.
Proof.
  induction calls as [|[t c] calls IH]; [done|].
  rewrite !fmap_cons, inputsTo_cons, IH. unfold inputsTo. cbn [omap list_omap].
  destruct c; cbn; by rewrite decide_True.
Qed.

Lemma sessions_ongoing st (e : Z * Event) : ongoing e → sessions (step st e) = sessions st.
Proof.
  intros Hon. destruct e as [now ev]. unfold step. cbn [fst snd].
  destruct ev; try done.
  - unfold sendInput. repeat case_match; done.
  - unfold sendChatInput, _simulateTyping, typeNext. repeat case_match; done.
  - unfold recordUserMessage. repeat case_match; cbn [fst]; rewrite ?sessions_persist; done.
  - unfold addFile. repeat case_match; rewrite ?sessions_persist; done.
  - unfold addSubscriber. repeat case_match; done.
  - unfold removeSubscriber. repeat case_match; done.
  - unfold resize. repeat case_match; done.
  - apply sessions_ptyOnData.
  - apply sessions_fireTimer.
Qed.

(** A session that is ready stays in the map, ready. *)
Lemma ready_run sid a (es : list (Z * Event)) : ∀ s st,
  lookupSession sid st = Some (a, s) → started s = true → Forall ongoing es →
  ∃ s1, lookupSession sid (run st es) = Some (a, s1) ∧ started s1 = true.
Proof.
  intros s st Hl Hst Hes.
  destruct (stable_run (laterOf s) es (respectsIO_laterOf s) (laterOf_events s es)
              st a s (lookupSession_obj _ _ _ _ Hl) (laterOf_refl s))
    as (s1 & Hs1 & _ & Hready).
  exists s1. split; [|by apply Hready]. apply lookupSession_intro; [|done].
  apply lookupSession_get in Hl. rewrite <- Hl. f_equal.
  clear -Hes. revert st. induction Hes as [|e es He _ IH]; intros st; [done|].
  cbn [run foldl]. unfold run in IH. by rewrite IH, sessions_ongoing.
Qed.

Lemma waiting_run sid a (es : list (Z * Event)) : ∀ s st n,
  wellFormed st →
  lookupSession sid st = Some (a, s) → started s = false →
  noTyping a st → Forall ongoing es →
  0 ≤ n → len (pendingInputs s) = queueLength n →
  ∃ s1, lookupSession sid (run st es) = Some (a, s1)
    ∧ (started s1 = false →
       (∃ ws, ptyWrites a (trace (run st es)) = ptyWrites a (trace st) ++ ws
              ∧ Forall (startCommandOf a st es) ws)
       ∧ pendingInputs s1 `suffix_of` pendingInputs s ++ inputsTo sid es
       ∧ len (pendingInputs s1) = queueLength (n + len (inputsTo sid es))).
Proof.
  induction es as [|e es IH]; intros s st n Hwf Hl Hst Hty Hes Hn Hlen.
  - exists s. split; [done|]. intros _. cbn. rewrite !app_nil_r. split_and!.
    + exists []. by rewrite app_nil_r.
    + done.
    + by rewrite Z.add_0_r.
  - apply Forall_cons in Hes as [He Hes]. cbn [run foldl].
    destruct (waiting_step sid a s st e Hwf Hl Hst Hty He)
      as (s' & Hl' & [Hready | (Hst' & Hq' & (ws1 & Hw1 & Hws1) & Htm)]).
    { destruct (ready_run sid a es s' (step st e) Hl' Hready Hes) as (s1 & Hl1 & Hst1).
      exists s1. split; [exact Hl1|]. intros Hno. congruence. }
    assert (Hty' : noTyping a (step st e)).
    { intros id chars Hid. apply (Hty id chars). by apply Htm. }
    assert (Hlen' : len (pendingInputs s') = queueLength (n + len (inputsTo sid [e]))).
    { rewrite Hq'. destruct (inputsTo_one sid e) as [-> | (text & ->)].
      - cbn. by rewrite Z.add_0_r.
      - by apply enqueue_length. }
    assert (Hsuf' : pendingInputs s' `suffix_of` pendingInputs s ++ inputsTo sid [e]).
    { rewrite Hq'. destruct (inputsTo_one sid e) as [-> | (text & ->)].
      - by rewrite app_nil_r.
      - apply enqueue_suffix. }
    destruct (IH s' (step st e) (n + len (inputsTo sid [e])))
      as (s1 & Hl1 & Hrest); try done.
    { by apply wellFormed_step. }
    { unfold len. lia. }
    exists s1. split; [exact Hl1|]. intros Hno.
    destruct (Hrest Hno) as ((ws2 & Hw2 & Hws2) & Hsuf & Hlen1).
    rewrite inputsTo_cons. split_and!.
    + exists (ws1 ++ ws2). split; [unfold run in *; by rewrite Hw2, Hw1, <- app_assoc|].
      apply Forall_app. split.
      * eapply Forall_impl; [exact Hws1|]. intros w (t & id & ag & model & Hin & Hid & ->).
        exists t, id, ag, model. split_and!; [|done..].
        apply list_elem_of_singleton in Hin as <-. by left.
      * eapply Forall_impl; [exact Hws2|]. intros w (t & id & ag & model & Hin & Hid & ->).
        exists t, id, ag, model. split_and!; [by right| |done].
        by apply Htm.
    + etrans; [exact Hsuf|]. rewrite (assoc_L (++)). by apply suffix_app.
    + rewrite Hlen1. f_equal. unfold len. rewrite length_app. lia.
Qed.

(** C1. Input submitted while a session is not ready is queued and, at
    readiness, written in order.  Take a session that waits (not ready, no
    simulated typing pending, at most 200 chunks queued) in a well-formed
    manager, and let any input, messages, files, subscriptions, resizes,
    timers and output of any session follow.  The session stays in the map,
    and as long as it is not ready: (1) the only writes to its process are
    the start commands of its own timers that fired, so none of the
    submitted chunks has been written; (2) its queue is a suffix, in
    submission order, of what was queued and then submitted to it, holding
    [queueLength] of them -- all of them up to 200, and from 120 to 200 of
    the most recent ones beyond, the push that makes the queue 201 long
    cutting it to 120 -- so the chunk submitted last is always in it;
    (3) whichever way the session becomes ready -- [_markSessionReady]
    itself, its fallback timer, or output of its process that is a
    readiness signal after the start command -- the process is written
    exactly the queued chunks, one write each, in order, and the queue is
    left empty.  If the events are [sendInput] and [sendChatInput] calls
    for this session only, the session is still not ready after them and
    no external action at all has been recorded. *)
Theorem queued_input_is_flushed_in_order (sid : jsstring) (a : nat) (s : Session)
    (st : Manager) (es : list (Z * Event)) :
  wellFormed st →
  lookupSession sid st = Some (a, s) →
  started s = false →
  noTyping a st →
  len (pendingInputs s) ≤ 200 →
  Forall ongoing es →
  let submitted := pendingInputs s ++ inputsTo sid es in
  let st1 := run st es in
  ∃ s1, lookupSession sid st1 = Some (a, s1)
    ∧ (started s1 = false →
       (∃ ws, ptyWrites a (trace st1) = ptyWrites a (trace st) ++ ws
              ∧ Forall (startCommandOf a st es) ws)
       ∧ pendingInputs s1 `suffix_of` submitted
       ∧ len (pendingInputs s1) = queueLength (len submitted)
       ∧ (len submitted ≤ 200 → pendingInputs s1 = submitted)
       ∧ last (pendingInputs s1) = last submitted
       ∧ (∀ now,
            trace (_markSessionReady a now st1)
            = trace st1 ++ (PtyWrite a <$> pendingInputs s1)
            ∧ ∃ s2, lookupSession sid (_markSessionReady a now st1) = Some (a, s2)
                ∧ started s2 = true ∧ pendingInputs s2 = [])
       ∧ (∀ now id, timers st1 !! id = Some (TReadyFallback a) →
            trace (step st1 (now, ETimer id))
            = trace st1 ++ (PtyWrite a <$> pendingInputs s1)
            ∧ ∃ s2, lookupSession sid (step st1 (now, ETimer id)) = Some (a, s2)
                ∧ started s2 = true ∧ pendingInputs s2 = [])
       ∧ (∀ now data, _startCommandSent s1 = true → _isSessionReadySignal data = true →
            ptyWrites a (trace (step st1 (now, EPtyData a data)))
            = ptyWrites a (trace st1) ++ pendingInputs s1
            ∧ ∃ s2, lookupSession sid (step st1 (now, EPtyData a data)) = Some (a, s2)
                ∧ started s2 = true ∧ pendingInputs s2 = []))
    ∧ (∀ calls, es = inputEvent sid <$> calls →
         started s1 = false ∧ trace st1 = trace st).
Proof.
  intros Hwf Hl Hst Hty Hcap Hes submitted st1.
  assert (Hlen0 : 0 ≤ len (pendingInputs s)) by (unfold len; lia).
  destruct (waiting_run sid a es s st (len (pendingInputs s)) Hwf Hl Hst Hty Hes Hlen0)
    as (s1 & Hl1 & Hwait); [by rewrite queueLength_small|].
  assert (Hwf1 : wellFormed st1).
  { unfold st1. clear -Hwf. revert st Hwf.
    induction es as [|e es IH]; intros st Hwf; [done|].
    cbn [run foldl]. apply IH. by apply wellFormed_step. }
  assert (Hcalls : ∀ calls, es = inputEvent sid <$> calls →
            started s1 = false ∧ trace st1 = trace st).
  { intros calls ->.
    destruct (queued_run sid a calls s st Hl Hst) as (Htr & s1' & Hl1' & Hst1' & _).
    unfold st1 in Hl1. rewrite Hl1' in Hl1. injection Hl1 as ->. done. }
  fold st1 in Hl1, Hwait. clearbody st1.
  assert (Hs1 : objs st1 !! a = Some s1) by (by eapply lookupSession_obj).
  assert (Hsid : sessionId s1 = sid).
  { destruct Hwf1 as (_ & _ & Hobj).
    assert (Hget : JsMap.get sid (sessions st1) = Some a) by (by eapply lookupSession_get).
    destruct (Hobj _ (JsMap_get_elem _ _ _ Hget)) as (s' & Hs' & Hid').
    cbn [fst snd] in *. rewrite Hs1 in Hs'. by injection Hs' as <-. }
  exists s1. split; [exact Hl1|]. split.
  - intros Hno. destruct (Hwait Hno) as (Hws & Hsuf & Hlen).
    assert (Hsub : len submitted = len (pendingInputs s) + len (inputsTo sid es)).
    { unfold submitted, len. rewrite length_app. lia. }
    rewrite <- Hsub in Hlen.
    assert (Hall : len submitted ≤ 200 → pendingInputs s1 = submitted).
    { intros Hle. rewrite queueLength_small in Hlen by done.
      destruct Hsuf as (front & Hfront). fold submitted in Hfront.
      assert (front = []) as ->; [|done].
      apply nil_length_inv. apply (f_equal length) in Hfront.
      rewrite length_app in Hfront. unfold len in Hlen. lia. }
    split_and!; [exact Hws|exact Hsuf|exact Hlen|exact Hall| | | |].
    + destruct Hsuf as (front & Hfront). fold submitted in Hfront.
      clear Hall Hsub. clearbody submitted.
      destruct (pendingInputs s1) as [|c q] eqn:Hq.
      2:{ rewrite Hfront, last_app. destruct (last (c :: q)) eqn:E; [done|].
          by apply last_None in E. }
      destruct submitted as [|x l]; [done|]. exfalso.
      destruct (queueLength_bound (len (x :: l))) as [_ Hpos]; [unfold len; lia|].
      assert (Hx : 0 < len (x :: l)) by (unfold len; cbn [length]; lia).
      specialize (Hpos Hx). rewrite <- Hlen in Hpos. unfold len in Hpos.
      cbn [length] in Hpos. lia.
    + intros now. by apply markReady_lookup.
    + intros now id Hid. unfold step, fireTimer. cbn [fst snd]. rewrite Hid.
      unfold readyFallbackTimer. cbn [clearTimeout objs sessions set_timers].
      rewrite Hs1, Hsid, (lookupSession_has _ _ _ _ Hl1).
      by apply (markReady_lookup sid a s1 now (clearTimeout id st1)).
    + intros now data Hsent Hsig. unfold step, ptyOnData. cbn [fst snd].
      rewrite Hs1, Hno, Hsent, Hsig. cbn [negb andb]. cbv zeta.
      destruct (markReady_lookup sid a (_touchSession now s1) now
                  (updObj a (_touchSession now) st1))
        as (Htr & s2 & Hl2 & Hst2 & Hq2); [by apply lookupSession_updObj|done|].
      set (st2 := _markSessionReady a now (updObj a (_touchSession now) st1)) in *.
      assert (Hw : waits a st2
                (match onData s1 with
                 | Some fn =>
                     invoke fn (CallOnData (cb_id fn) data)
                       (broadcast data (subscribers s1)
                          (updObj a (absorbOutput now data) st2))
                 | None =>
                     (broadcast data (subscribers s1)
                        (updObj a (absorbOutput now data) st2), false)
                 end).1).
      { destruct (onData s1); cbn [fst]; repeat idle; intros x; apply absorbOutput_queue. }
      destruct (waits_lookup sid a s2 st2 _ Hw Hl2) as (s3 & Hl3 & Hq3 & Hst3).
      split.
      * destruct Hw as (_ & _ & -> & _). rewrite Htr, ptyWrites_app, ptyWrites_writes.
        done.
      * exists s3. split_and!; [done|congruence|congruence].
  - exact Hcalls.
Qed.

End Waiting.

Lemma demoCreated_wellFormed : wellFormed demoCreated.
Proof.
  assert (Hsess : sessions demoCreated = [(demoSid, 0%nat)]) by (vm_compute; reflexivity).
  unfold wellFormed. rewrite Hsess. split_and!.
  - apply NoDup_singleton.
  - apply NoDup_singleton.
  - intros p Hp. apply list_elem_of_singleton in Hp as ->.
    exists demoSession. split; [vm_compute; reflexivity|reflexivity].
Qed.

Lemma queued_input_is_flushed_in_order_witness :
  wellFormed demoCreated
  ∧ lookupSession demoSid demoCreated = Some (0%nat, demoSession)
  ∧ started demoSession = false
  ∧ noTyping 0 demoCreated
  ∧ len (pendingInputs demoSession) ≤ 200
  ∧ Forall ongoing demoWaiting
  ∧ ∃ s1, lookupSession demoSid (@run demoOracles demoCreated demoWaiting) = Some (0%nat, s1)
      ∧ started s1 = false
      ∧ pendingInputs s1 = [lit "ls"; lit "hello" ++ [CR]]
      ∧ ptyWrites 0 (trace (@run demoOracles demoCreated demoWaiting))
        = [lit "codex" ++ [CR]]
      ∧ ptyWrites 0 (trace (@step demoOracles (@run demoOracles demoCreated demoWaiting)
                              (3000, EPtyData 0%nat (lit "> "))))
        = [lit "codex" ++ [CR]; lit "ls"; lit "hello" ++ [CR]].
Proof.
  assert (H1 : wellFormed demoCreated) by exact demoCreated_wellFormed.
  assert (H2 : lookupSession demoSid demoCreated = Some (0%nat, demoSession))
    by (vm_compute; reflexivity).
  assert (H3 : started demoSession = false) by reflexivity.
  assert (H4 : noTyping 0 demoCreated).
  { intros id chars Hid.
    assert (Ht : timers demoCreated = <[0%nat := TStartCommand 0 demoCodex None]> ∅)
      by (vm_compute; reflexivity).
    rewrite Ht in Hid. destruct (decide (id = 0%nat)) as [->|Hne].
    - by rewrite lookup_insert_eq in Hid.
    - by rewrite lookup_insert_ne, lookup_empty in Hid. }
  assert (H5 : len (pendingInputs demoSession) ≤ 200) by (vm_compute; discriminate).
  assert (H6 : Forall ongoing demoWaiting) by (repeat constructor).
  split_and!; [exact H1|exact H2|exact H3|exact H4|exact H5|exact H6|].
  destruct (@queued_input_is_flushed_in_order demoOracles demoSid 0%nat demoSession
              demoCreated demoWaiting H1 H2 H3 H4 H5 H6)
    as (s1 & Hl1 & Hwait & _).
  assert (Hs1 : started s1 = false).
  { assert (Hst : (started <$> (snd <$> lookupSession demoSid
                      (@run demoOracles demoCreated demoWaiting))) = Some false)
      by (vm_compute; reflexivity).
    rewrite Hl1 in Hst. by injection Hst. }
  destruct (Hwait Hs1) as (_ & _ & _ & Hall & _ & _ & _ & Hout).
  assert (Hq : pendingInputs s1 = [lit "ls"; lit "hello" ++ [CR]]).
  { rewrite Hall; [vm_compute; reflexivity|vm_compute; discriminate]. }
  assert (Hsent : _startCommandSent s1 = true).
  { assert (Hst : (_startCommandSent <$> (snd <$> lookupSession demoSid
                      (@run demoOracles demoCreated demoWaiting))) = Some true)
      by (vm_compute; reflexivity).
    rewrite Hl1 in Hst. by injection Hst. }
  assert (Hw : ptyWrites 0 (trace (@run demoOracles demoCreated demoWaiting))
               = [lit "codex" ++ [CR]]) by (vm_compute; reflexivity).
  exists s1. split_and!; [exact Hl1|exact Hs1|exact Hq|exact Hw|].
  destruct (Hout 3000 (lit "> ") Hsent eq_refl) as (-> & _).
  by rewrite Hw, Hq.
Defined.

(** The cap at work: after 201 chunks submitted to a fresh session the
    queue holds the last 120 of them, in order. *)
Example queue_is_cut_to_the_last_120 :
  let es := (λ k, (2001, ESendInput demoSid (numToString k))) <$> seqZ 1 201 in
  pendingInputs <$> (snd <$> lookupSession demoSid (@run demoOracles demoCreated es))
  = Some (numToString <$> seqZ 82 120)
  ∧ queueLength 201 = 120 ∧ queueLength 281 = 200 ∧ queueLength 282 = 120.
Proof. vm_compute. done. Qed.
